(* ===== verification/_CoqProject ===== *)
-Q . S2P
Prelude.v
Host.v
Packet.v
Parser.v
Wire.v
ParserSpec.v
Api.v
Tables.v
Heap.v
Snapshot.v
SnapshotSpec.v
LookupSpec.v
Action.v
ActionSpec.v
ActionProps.v
Rcu.v
State.v
StatsSpec.v
Rules.v
Binding.v
Worker.v
WorkerSpec.v
RunSpec.v
WorkerProps.v
Publish.v
PublishSpec.v
BurstSpec.v
ReaderSpec.v
Crew.v
CrewSpec.v
DrainSpec.v
BindingSpec.v
Runtime.v
RuntimeSpec.v
GoStats.v
GoSlice.v
Control.v
ControlSpec.v
ControlRefine.v
ControlNative.v
Documents.v
DocumentsSpec.v
RuleFiles.v
RuleFilesSpec.v
Port.v
PortSpec.v
Lifecycle.v
LifecycleSpec.v
Hooks.v
HooksSpec.v
Dataplane.v
DataplaneSpec.v
ServeSpec.v
CrewRun.v
Calls.v
CallsSpec.v
CallsProps.v
Delivery.v
Process.v
Command.v
CommandSpec.v
CommandProps.v
CommandRun.v
Main.v
Sample.v
Witnesses.v
GoWitnesses.v
RunWitnesses.v
CrewWitnesses.v
ProcessWitnesses.v
CommandWitnesses.v
