(* ===== verification/Prelude.v ===== *)
(** * dpdk-high-speed-flow-router: a verification of the dataplane and its control

    The router is a Go control plane on top of a C dataplane built on DPDK.  This
    library models the C dataplane, src/dataplane/native/, the cgo boundary through
    which the control plane drives it, and the control plane itself,
    src/control/dataplane/: the rule manager and the life of the process; and the
    command src/cmd/flow-router/main.go around them.

    ** How the program works

    [run] loads a rules file and starts a goroutine that takes signals: SIGHUP reloads
    the file and replaces the rules, any other signal stops the dataplane.
    [Start] checks the configuration and copies the rules; the owner goroutine
    then makes the native calls in order.  [dp_runtime_init] starts the EAL.  [dp_configure_rules] builds the first rule
    snapshot: an exact-match hash, a longest-prefix table and an action store.
    [dp_dataplane_setup] maps one worker to each lcore and one receive and one
    transmit queue to each worker, creates the buffer pool and starts two ports.
    [dp_dataplane_run] launches the workers.  A worker polls its queue, loads the
    active snapshot once for each burst, parses every packet, looks it up, drops,
    forwards or rewrites it, transmits the survivors, frees what the driver
    refuses, and reports a quiescent state.  Meanwhile [dp_publish_rules] replaces
    the snapshot: it builds a new one, exchanges the pointer, draws a token, waits
    until every reader has reported, and frees the old one; the manager keeps a Go
    copy of the rules in step, and every operation on rules goes through it.
    Goroutines call these operations at any time; [rulesMu] serialises them.
    After the run the owner takes that lock, closes the manager, and
    [dp_dataplane_teardown] and [dp_runtime_cleanup] release everything.

    ** The files and the code they model

    - Prelude: integers of fixed width, byte buffers and pointers into them, the
      monads [M] (explicit state, [None] is undefined behaviour) and [E] (the same
      with [goto fail]), their rules [wp] and [ewp], keyed lists.
    - Host: memory layout of integers and the byte-order functions (interface,
      laws, both byte orders as instances).
    - Packet (dp_packet.h), Parser (dp_parser.c).  Wire is the grammar of frames;
      ParserSpec relates the two.
    - Api (dp_api.h), Tables (rte_hash and rte_lpm: interface, laws, a reference
      instance), Heap (the pointers of dp_lookup.h), Snapshot (the builder, the
      destructor and the lookup of dp_lookup.c).  SnapshotSpec says what the
      builder computes, LookupSpec draws the conclusions.
    - Action (dp_action.c; the checksum functions are an interface, RFC 1071 an
      instance), ActionSpec, ActionProps.
    - Rcu (rte_rcu_qsbr: interface, laws, an instance with counters), State
      (struct dp_state and the world: globals, rule heap, live mbufs, packets the
      driver took), Rules (configure, publish, readers, teardown of dp_lookup.c).
      Publish interleaves readers and the writer and proves the invariant;
      PublishSpec states the contract; BurstSpec shows that a burst cut by
      publications is the burst at the moment of its load.
    - Worker (dp_worker.c without the launcher, [dp_complete_tx] of dp_tx.c),
      StatsSpec (counter arithmetic), WorkerSpec, RunSpec, WorkerProps.
    - ReaderSpec runs one [dp_worker_run] against everything the rest of the
      process can do between its bursts.  Crew cuts [dp_worker_run] into stages and
      interleaves any number of workers with the publisher and the stop request;
      CrewSpec proves that no interleaving is stuck and that a stop brings every
      worker back; DrainSpec, that the workers always let a publication finish.
    - Runtime (dp_runtime.c), RuntimeSpec; Port (dp_port.c), PortSpec; Dataplane
      ([dp_dataplane_run], [dp_dataplane_request_stop]), DataplaneSpec.  CrewRun
      composes [dp_dataplane_run] with the whole crew: the workers it launches are
      the stages of Crew, and joining them is waiting for the stage [Returned].  The
      crew may be part of something larger ([Scene]).
    - Hooks (the self tests and failure injection inside dp_runtime.c, dp_tx.c,
      dp_port.c and dp_worker.c), HooksSpec.
    - Binding (dp_binding.c and the marshalling half of binding_linux.go),
      BindingSpec.
    - GoSlice (slices on shared arrays), Control (rules.go: the manager's checks,
      copies and operations), ControlSpec (the check is the native contract; the
      interface [NativeOk] the manager relies on), ControlRefine (the manager
      against an abstract rule table), ControlNative ([PublishRules] discharges the
      interface; the table decides packets).
    - Documents (rules.go: normalising decoded rule documents), DocumentsSpec;
      RuleFiles ([ParseRules] and [LoadRulesFile]: the decoder is an interface, the
      disk and the open handles are state), RuleFilesSpec.
    - GoStats (binding_linux.go: the info and the statistics that Go keeps).
    - Lifecycle (dataplane.go: [validate], [Start], [owner] as [bring_up], the run
      and [wind_down], [finishLifecycle]; the lifecycle wrappers of
      binding_linux.go), LifecycleSpec.
    - ServeSpec gives the run of a worker to the life of the process: a worker that
      runs on the main lcore returns to a process that can be taken down.
    - Calls cuts the operations of the manager into stages, as Crew cuts the worker,
      and interleaves any number of calling goroutines with the holder of
      [rulesMu], the phases of the native publication, the workers and the stop
      request.  CallsSpec is the invariant of this office and shows that every
      stage is defined, CallsProps that calls are linearised and answered, Delivery
      that what a worker holds is current, so that packets are decided by it.
    - Process composes everything: an office is a [Scene], so that
      [dp_dataplane_run] directs its workers; the owner brings the process up,
      runs it, and winds it down while goroutines go on calling.
    - Command (main.go: the signal goroutine, as a listener in an office whose only
      caller it is; its channel, the file and what it prints), CommandSpec (the
      invariant of a command), CommandProps (what a user can rely on), CommandRun (a
      command is a [Scene]), Main ([run] from the flags to the exit code, [Probe]).
    - Sample is a concrete router on which the definitions run; Witnesses,
      GoWitnesses, RunWitnesses, CrewWitnesses, ProcessWitnesses and
      CommandWitnesses instantiate every theorem that has hypotheses.

    A C function is one definition under its own name, or, where it is long, a
    composition of definitions that follow its phases.  A pointer into a packet
    is the rest of the buffer; a pointer to a rule object is an address in a
    finite map, so that dangling pointers, double frees and reads outside an
    object are [None].  Unsigned arithmetic wraps explicitly ([u16], [u32],
    [u64]).  NULL is [None].  Test switches, uninitialised locals and the answers
    of DPDK are arguments.

    ** What the theorems show

    - End to end (C1): among goroutines that change the rules, every packet of
      every burst has the outcome that the frame grammar and the rules of its time
      prescribe.
    - Goroutines (C3, C10, C12, C25): whatever
      calls, workers and stop requests do, the settled calls are a sequential history
      of an abstract rule table, nothing is undefined, every call is answered, and a
      closed manager refuses.
    - Process (C11, C21): what [Ready] promises, and that a whole
      life of the process, among goroutines or alone, gives everything back;
      LifecycleSpec also has the order of the shutdown and the exact meaning of
      [validate].
    - Command (C2, C6, C8, C9, C13, C34, C35): reloads take effect in
      order, what a rules file is, what the program starts with and gives back, with
      drivers that close their ports or not; a
      stop signal that finds room in the channel ends the process, and one that does
      not is lost.
    - Packets (C4, C14, C15, C30): the parser accepts exactly the frames of the
      grammar, is total and stays inside the segment; a packet has the outcome that
      grammar and rules prescribe, and ownership of mbufs is exact through a burst.
    - Rules (C16, C18, C31-C33): the snapshot implements the rule lists (exact flow
      first, then the longest route, then drop); the builder accepts exactly the
      valid rule sets within the capacities; a failure leaves nothing behind.
    - Publication (C5, C19, C22, C23): no use after free, bursts see one
      generation, no leak, and [dp_publish_rules] as a whole refines the transition
      system.
    - Crew (C7, C24): under every interleaving of workers, publisher and
      stop, each statement of each worker is defined; after a stop all return;
      [dp_dataplane_run] joins them; the stages are exactly [dp_worker_run].
    - Rewriting (C17): exactly the masked fields change, and both checksums
      verify.
    - Counters (C26): the five accounting identities of
      docs/architecture.md, as congruences modulo 2^64.
    - Rule manager (C20, C29, C39, C40): it refines the rule table operation by
      operation, shares nothing with its callers, and its checks, on snapshots and
      on documents, are those of the native builder.
    - Native lifecycle (C27, C28, C36-C38): setup and teardown on every
      error path, the cleanup guard, workers that cannot start.

    ** Interfaces and what is assumed

    [HostOk], [ChecksumsOk], [DpdkTablesOk] and [QsbrOk] state what DPDK documents
    about byte order, checksums, tables and quiescent-state reclamation; each has
    an instance, so none is vacuous.  [allocator_ok] and [callocator_ok] say that
    an allocator returns addresses that are not live, [driver_ok] that failing
    driver calls return negative codes, [launch_ok] that the EAL calls that launch
    and join do not change the lifecycle fields, [others_ok] that the readers which
    run during a publication take steps of the transition system and report
    ([ControlNative.drain] does), [closing_ok] that stopping
    and closing a port answers 0 or a negative code, [cooperative] that it answers 0,
    [serving] that what [run] is given to run is the program serving: any
    [dp_dataplane_run] along a faithful schedule among signals and reloads
    ([CommandRun.serves_to]; from it follows [comes_back], that the run returns to
    a process that can be taken down), [NetOk] what package net documents, [JsonOk] that ports are
    decoded into 16 bits.  Memory is sequentially consistent: the release and
    acquire orderings of the source are what makes that a sound view of the
    snapshot pointer.

    ** Bounds and termination

    Loops over arrays are structural in the number of iterations that the source
    computes, so no fuel is needed.  The two loops without a bound are the poll
    loop, which runs along a schedule of turns and returns at the first turn that
    reads [stop] (a schedule that never shows a stop is [None], not a return), and
    the wait for readers, which is the state [Waiting] of the transition system.
    C12 shows that the wait can always be left, and C24 that a stop ends every poll
    loop within a number of steps computed from the stages.  Burst arrays have
    [DP_BURST_SIZE] entries, rule arrays at most 1024.

    ** Not modelled

    The bodies of DPDK functions, the EAL and drivers beyond their laws; weak
    memory; time; fairness (C12 says that progress is always possible, not that the
    scheduler grants it).  [rulesMu] is modelled (Calls); the pthread mutex is not,
    since [rulesMu] already admits one publication at a time.  Of the control plane:
    the inside of encoding/json and of package flag, error texts, the channels behind
    [Ready] and [Wait] (an office opens when [ready] is closed, and [Wait] returns what
    the owner has stored), signals that are handled before [ready] is closed, and the C
    strings next to the argument array.
    The owner's run is a parameter of [Lifecycle]: it is discharged by
    [dp_dataplane_run] for any number of workers (CrewRun), by the worker itself
    when there is one (ServeSpec), among goroutines (Process), and among signals and
    reloads (CommandRun, Main).  A burst is one
    step of a crew; what a publication in the middle of a burst does is
    C22.  A worker polls before it loads the snapshot; its stages load first,
    which is the same turn ([worker_turn_loads]) and holds the snapshot for longer.
    The object of the quiescent-state library is a field of the state and not a block of
    a heap: that it is released is the field being NULL after the teardown.  A rules file
    is read in one step; an edit in the middle of a read is not modelled.  A driver
    gives the same call the same answer.  The scripts; the test programs dp_parser_test.c and dp_lookup_action_test.c,
    whose samples are covered by theorems over all inputs. *)
From Stdlib Require Import ZArith Lia.
From stdpp Require Import base list numbers option gmap relations.

#[global] Open Scope Z_scope.

(** ** Machine-width unsigned integers

    A C [uintN_t] is a [Z] in [0, 2^N); every assignment to such an object
    reduces modulo [2^N]. *)

Definition wrap (w z : Z) : Z := z mod 2 ^ w.
Abbreviation u8 := (wrap 8).
Abbreviation u16 := (wrap 16).
Abbreviation u32 := (wrap 32).
Abbreviation u64 := (wrap 64).

Definition fits (w z : Z) : Prop := 0 <= z < 2 ^ w.
Abbreviation is_byte := (fits 8).
Abbreviation bytes := (Forall (fits 8)).

#[global] Instance fits_dec w z : Decision (fits w z).
Proof. unfold fits. apply _. Defined.

Section Wrap.
Context (w : Z) (Hw : 0 <= w).

Lemma wrap_fits z : fits w (wrap w z).
Proof. unfold fits, wrap. apply Z.mod_pos_bound. lia. Qed.

Lemma wrap_id z : fits w z -> wrap w z = z.
Proof. unfold fits, wrap. apply Z.mod_small. Qed.

Lemma wrap_wrap z : wrap w (wrap w z) = wrap w z.
Proof. apply wrap_id, wrap_fits. Qed.

Lemma wrap_add_l a b : wrap w (wrap w a + b) = wrap w (a + b).
Proof. unfold wrap. apply Zplus_mod_idemp_l. Qed.

Lemma wrap_add_r a b : wrap w (a + wrap w b) = wrap w (a + b).
Proof. unfold wrap. apply Zplus_mod_idemp_r. Qed.
End Wrap.

Create HintDb fits.
#[export] Hint Resolve wrap_fits : fits.

(** [fits] is an interval, so everything about it is linear arithmetic once
    the powers are computed. *)
Ltac fits_lia :=
  unfold fits in *; change (2 ^ 8) with 256 in *; change (2 ^ 16) with 65536 in *;
  change (2 ^ 32) with 4294967296 in *;
  change (2 ^ 64) with 18446744073709551616 in *; lia.

(** Turn the boolean comparisons of the translated conditions into
    propositions, and split the conditionals of the goal one by one. *)
Ltac bool_to_prop :=
  repeat match goal with
  | H : (_ <? _) = true |- _ => apply Z.ltb_lt in H
  | H : (_ <? _) = false |- _ => apply Z.ltb_ge in H
  | H : (_ <=? _) = true |- _ => apply Z.leb_le in H
  | H : (_ <=? _) = false |- _ => apply Z.leb_gt in H
  | H : (_ =? _) = true |- _ => apply Z.eqb_eq in H
  | H : (_ =? _) = false |- _ => apply Z.eqb_neq in H
  | H : (_ || _)%bool = false |- _ => apply orb_false_iff in H as [? ?]
  | H : (_ && _)%bool = true |- _ => apply andb_true_iff in H as [? ?]
  | H : (_ || _)%bool = true |- _ => apply orb_true_iff in H
  | H : (_ && _)%bool = false |- _ => apply andb_false_iff in H
  | H : negb _ = true |- _ => apply negb_true_iff in H
  | H : negb _ = false |- _ => apply negb_false_iff in H
  end.

Ltac if_false := match goal with |- context [if ?b then _ else _] => replace b with false by lia end.
Ltac if_true := match goal with |- context [if ?b then _ else _] => replace b with true by lia end.
Ltac case_if := match goal with |- context [if ?b then _ else _] => destruct b eqn:? end.

(** Reduce the binds of the option monad whose head is a constructor. *)
Ltac bind_cbn := cbn [mbind option_bind].

(** ** Byte ranges and pointers into them

    A pointer into a packet buffer is the suffix of the buffer that starts at
    the pointed-to byte.  Reading past the end, or moving a pointer further
    than one past the end, is undefined in C and is [None] here. *)

Definition ptr_add (p : list Z) (n : Z) : option (list Z) :=
  if (0 <=? n) && (n <=? Z.of_nat (length p)) then Some (drop (Z.to_nat n) p) else None.

Definition rd8 (p : list Z) (i : Z) : option Z :=
  if 0 <=? i then p !! Z.to_nat i else None.

Definition wr8 (p : list Z) (i v : Z) : option (list Z) :=
  if (0 <=? i) && (i <? Z.of_nat (length p)) then Some (<[Z.to_nat i := v]> p) else None.

(** The value of a big-endian field at offset [i]: what the wire format means,
    independently of the machine that reads it. *)
Definition be16 (b0 b1 : Z) : Z := b0 * 256 + b1.
Definition be32 (b0 b1 b2 b3 : Z) : Z := ((b0 * 256 + b1) * 256 + b2) * 256 + b3.

Definition be16_bytes (v : Z) : list Z := [v / 256; v mod 256].
Definition be32_bytes (v : Z) : list Z :=
  [v / 16777216; (v / 65536) mod 256; (v / 256) mod 256; v mod 256].

Lemma be16_fits b0 b1 : is_byte b0 -> is_byte b1 -> fits 16 (be16 b0 b1).
Proof. unfold be16. fits_lia. Qed.

Lemma be32_fits b0 b1 b2 b3 :
  is_byte b0 -> is_byte b1 -> is_byte b2 -> is_byte b3 -> fits 32 (be32 b0 b1 b2 b3).
Proof. unfold be32. fits_lia. Qed.

Lemma be16_bytes_be16 b0 b1 : is_byte b0 -> is_byte b1 -> be16_bytes (be16 b0 b1) = [b0; b1].
Proof.
  unfold be16, be16_bytes. intros H0 H1.
  f_equal; [|f_equal]; Z.div_mod_to_equations; fits_lia.
Qed.

Lemma be32_bytes_be32 b0 b1 b2 b3 :
  is_byte b0 -> is_byte b1 -> is_byte b2 -> is_byte b3 ->
  be32_bytes (be32 b0 b1 b2 b3) = [b0; b1; b2; b3].
Proof.
  unfold be32, be32_bytes. intros H0 H1 H2 H3.
  repeat f_equal; Z.div_mod_to_equations; fits_lia.
Qed.

Lemma be16_of_bytes v : be16 (v / 256) (v mod 256) = v.
Proof. unfold be16. pose proof (Z.div_mod v 256). lia. Qed.

Lemma be32_of_bytes v :
  be32 (v / 16777216) ((v / 65536) mod 256) ((v / 256) mod 256) (v mod 256) = v.
Proof. unfold be32. Z.div_mod_to_equations. lia. Qed.

Lemma be16_bytes_ok v : fits 16 v -> bytes (be16_bytes v).
Proof. intros H. repeat constructor; Z.div_mod_to_equations; fits_lia. Qed.

Lemma be32_bytes_ok v : fits 32 v -> bytes (be32_bytes v).
Proof. intros H. repeat constructor; Z.div_mod_to_equations; fits_lia. Qed.

#[export] Hint Resolve be16_fits be32_fits be16_bytes_ok be32_bytes_ok : fits.

Section Reads.
Implicit Types p q : list Z.

Lemma rd8_lookup p i : 0 <= i -> rd8 p i = p !! Z.to_nat i.
Proof. intros. unfold rd8. by rewrite (proj2 (Z.leb_le 0 i)) by lia. Qed.

Lemma rd8_Some p i : 0 <= i < Z.of_nat (length p) -> exists b, rd8 p i = Some b.
Proof. intros. rewrite rd8_lookup by lia. apply lookup_lt_is_Some_2. lia. Qed.

Lemma rd8_bound p i b : rd8 p i = Some b -> 0 <= i < Z.of_nat (length p).
Proof.
  unfold rd8. destruct (0 <=? i) eqn:E; [|done]. intros H%lookup_lt_Some.
  bool_to_prop. lia.
Qed.

Lemma rd8_byte p i b : bytes p -> rd8 p i = Some b -> is_byte b.
Proof.
  unfold rd8. intros Hp. destruct (0 <=? i); [|done]. intros H.
  eapply (Forall_lookup_1 _ _ _ _ Hp H).
Qed.

Lemma rd8_app_r p q i : 0 <= i -> rd8 (p ++ q) (Z.of_nat (length p) + i) = rd8 q i.
Proof.
  intros. rewrite !rd8_lookup by lia. rewrite lookup_app_r by lia. f_equal. lia.
Qed.

Lemma rd8_app_l p q i : i < Z.of_nat (length p) -> rd8 (p ++ q) i = rd8 p i.
Proof.
  intros. unfold rd8. destruct (0 <=? i) eqn:E; [|done]. bool_to_prop.
  apply lookup_app_l. lia.
Qed.

Lemma rd8_drop p n i : 0 <= n -> 0 <= i -> rd8 (drop (Z.to_nat n) p) i = rd8 p (n + i).
Proof. intros. rewrite !rd8_lookup by lia. rewrite lookup_drop. f_equal. lia. Qed.

Lemma ptr_add_Some p n : 0 <= n <= Z.of_nat (length p) ->
  ptr_add p n = Some (drop (Z.to_nat n) p).
Proof.
  intros. unfold ptr_add.
  by rewrite (proj2 (Z.leb_le _ _)), (proj2 (Z.leb_le n _)) by lia.
Qed.

Lemma ptr_add_app p q n : n = Z.of_nat (length p) -> ptr_add (p ++ q) n = Some q.
Proof.
  intros ->. rewrite ptr_add_Some by (rewrite length_app; lia).
  by rewrite Nat2Z.id, drop_app_length.
Qed.

Lemma ptr_add_inv p n q : ptr_add p n = Some q ->
  0 <= n <= Z.of_nat (length p) /\ q = drop (Z.to_nat n) p.
Proof. unfold ptr_add. case_if; intros [= <-]. bool_to_prop. split; [lia|done]. Qed.

Lemma wr8_length p i v q : wr8 p i v = Some q -> length q = length p.
Proof. unfold wr8. case_if; intros [= <-]. apply length_insert. Qed.

Lemma wr8_Some p i v : 0 <= i < Z.of_nat (length p) ->
  wr8 p i v = Some (<[Z.to_nat i := v]> p).
Proof.
  intros. unfold wr8. by rewrite (proj2 (Z.leb_le _ _)), (proj2 (Z.ltb_lt _ _)) by lia.
Qed.

Lemma rd8_wr8 p i v q j : wr8 p i v = Some q ->
  rd8 q j = if decide (j = i) then Some v else rd8 p j.
Proof.
  unfold wr8. case_if; intros [= <-]. bool_to_prop.
  unfold rd8. destruct (0 <=? j) eqn:E.
  - bool_to_prop. case_decide as Hj.
    + subst. apply list_lookup_insert_eq. lia.
    + apply list_lookup_insert_ne. lia.
  - bool_to_prop. by rewrite decide_False by lia.
Qed.

Lemma wr8_bytes p i v q : bytes p -> is_byte v -> wr8 p i v = Some q -> bytes q.
Proof. unfold wr8. intros Hp Hv. case_if; intros [= <-]. by apply Forall_insert. Qed.

(** Two buffers of the same length whose reads agree are equal. *)
Lemma rd8_ext p q : length p = length q -> (forall i, rd8 p i = rd8 q i) -> p = q.
Proof.
  intros Hl H. apply list_eq. intros i. specialize (H (Z.of_nat i)).
  rewrite !rd8_lookup, Nat2Z.id in H by lia. done.
Qed.
End Reads.

(** ** Lists of known length *)
Lemma list_split_at {A} (n : nat) (l : list A) : (n <= length l)%nat ->
  exists a b, l = a ++ b /\ length a = n.
Proof.
  intros. exists (take n l), (drop n l).
  rewrite take_drop, length_take. split; [done|lia].
Qed.

(** Replace a list whose length is a literal by its elements. *)
Ltac explode_len H :=
  match type of H with
  | length ?l = O => destruct l; [clear H|discriminate H]
  | length ?l = S _ =>
      let x := fresh "x" in
      destruct l as [|x l]; [discriminate H|cbn [length] in H; apply Nat.succ_inj in H;
                             explode_len H]
  end.

(** A literal list of bytes is a list of bytes. *)
Ltac bytes_list :=
  repeat first [apply Forall_nil_2 | apply Forall_cons_2]; auto with fits.

(** The bytes of a literal list, one hypothesis each. *)
Ltac bytes_inv H :=
  repeat match type of H with
  | Forall _ (_ :: _) => let Hb := fresh "Hb" in apply Forall_cons_1 in H as [Hb H]
  end; clear H.

(** ** Masks that select low bits or shift out a nibble *)
Lemma land_0x0f v : Z.land v 0x0f = v mod 16.
Proof. apply (Z.land_ones v 4). lia. Qed.

Lemma shiftr_4 v : Z.shiftr v 4 = v / 16.
Proof. by rewrite Z.shiftr_div_pow2. Qed.

(** Conversions of a nibble never lose anything. *)
Lemma u8_high_nibble v : is_byte v -> u8 (v / 16) = v / 16.
Proof. intros. apply wrap_id; Z.div_mod_to_equations; fits_lia. Qed.
Lemma u8_low_nibble v : u8 (v mod 16) = v mod 16.
Proof. apply wrap_id; Z.div_mod_to_equations; fits_lia. Qed.
Lemma u16_low_nibble_words v : u16 (v mod 16 * 4) = v mod 16 * 4.
Proof. apply wrap_id; Z.div_mod_to_equations; fits_lia. Qed.

(** ** Undefined behaviour and explicit state

    [M S A] is a computation over the store [S]; [None] is undefined behaviour
    of the C program (a read outside a buffer, a double free, a dangling
    pointer), never an error that the program handles: those are values. *)

Definition M (S A : Type) : Type := S -> option (A * S).

#[global] Instance M_ret {S} : MRet (M S) := fun A a s => Some (a, s).
#[global] Instance M_bind {S} : MBind (M S) :=
  fun A B k m s => match m s with Some (a, s') => k a s' | None => None end.

Definition get {S} : M S S := fun s => Some (s, s).
Definition modify {S} (f : S -> S) : M S unit := fun s => Some (tt, f s).
Definition ub {S A} : M S A := fun _ => None.
(** A computation without state, for instance a packet read. *)
Definition lift {S A} (o : option A) : M S A := fun s => a ← o; Some (a, s).

Lemma M_bind_Some {S A B} (m : M S A) (k : A -> M S B) s b s' :
  (m ≫= k) s = Some (b, s') <-> exists a s1, m s = Some (a, s1) /\ k a s1 = Some (b, s').
Proof.
  unfold mbind, M_bind. split.
  - destruct (m s) as [[a s1]|]; [eauto|done].
  - by intros (a & s1 & -> & ?).
Qed.

Lemma M_bind_step {S A B} (m : M S A) (k : A -> M S B) s a s1 :
  m s = Some (a, s1) -> (m ≫= k) s = k a s1.
Proof. unfold mbind, M_bind. by intros ->. Qed.

Lemma M_bind_assoc {S A B C} (m : M S A) (f : A -> M S B) (g : B -> M S C) s :
  ((m ≫= f) ≫= g) s = (a ← m; f a ≫= g) s.
Proof. unfold mbind, M_bind. by destruct (m s) as [[a s1]|]. Qed.

Lemma M_bind_run {S A B} (m m' : M S A) (k : A -> M S B) s : m s = m' s -> (m ≫= k) s = (m' ≫= k) s.
Proof. unfold mbind, M_bind. by intros ->. Qed.

Lemma M_bind_ext {S A B} (m : M S A) (f g : A -> M S B) s :
  (forall a s1, f a s1 = g a s1) -> (m ≫= f) s = (m ≫= g) s.
Proof. intros E. unfold mbind, M_bind. destruct (m s) as [[a s1]|]; [apply E|done]. Qed.

(** ** Total correctness

    [wp m Q s]: from [s] the computation is defined and its result and final
    store satisfy [Q].  The computations are deterministic, so this is a
    statement about the run and not only about its possible outcomes. *)
Definition wp {S A} (m : M S A) (Q : A -> S -> Prop) (s : S) : Prop :=
  match m s with Some (a, s') => Q a s' | None => False end.

Section Wp.
Context {S : Type}.

Lemma wp_run {A} (m : M S A) Q s : wp m Q s <-> exists a s', m s = Some (a, s') /\ Q a s'.
Proof.
  unfold wp. split; [destruct (m s) as [[a s']|]; [eauto|done]|].
  by intros (a & s' & -> & ?).
Qed.

Lemma wp_elim {A} (m : M S A) Q s a s' : wp m Q s -> m s = Some (a, s') -> Q a s'.
Proof. unfold wp. by intros HQ E; rewrite E in HQ. Qed.

Lemma wp_ret {A} (a : A) Q (s : S) : Q a s -> wp (mret a) Q s.
Proof. done. Qed.

Lemma wp_bind {A B} (m : M S A) (k : A -> M S B) Q s :
  wp m (fun a => wp (k a) Q) s -> wp (m ≫= k) Q s.
Proof. unfold wp, mbind, M_bind. by destruct (m s) as [[a s']|]. Qed.

Lemma wp_mono {A} (m : M S A) (P Q : A -> S -> Prop) s :
  wp m P s -> (forall a s', P a s' -> Q a s') -> wp m Q s.
Proof. unfold wp. destruct (m s) as [[a s']|]; auto. Qed.

Lemma wp_modify (f : S -> S) (Q : unit -> S -> Prop) s : Q tt (f s) -> wp (modify f) Q s.
Proof. done. Qed.
End Wp.

(** ** Frames

    [framed R m]: whatever [m] does to the store, it stays within [R]. *)
Section Framed.
Context {S : Type} (R : S -> S -> Prop) {RP : PreOrder R}.

Definition framed {A} (m : M S A) : Prop := forall s a s', m s = Some (a, s') -> R s s'.

Lemma framed_ret {A} (a : A) : framed (mret a).
Proof. by intros s a' s' [= _ <-]. Qed.

Lemma framed_bind {A B} (m : M S A) (k : A -> M S B) : framed m -> (forall a, framed (k a)) -> framed (m ≫= k).
Proof.
  intros Hm Hk s b s' (a & s1 & Hrun & Hrun')%M_bind_Some. etrans; [by eapply Hm|by eapply Hk].
Qed.

Lemma framed_get : framed get.
Proof. by intros s a s' [= _ <-]. Qed.

Lemma framed_lift {A} (o : option A) : framed (lift o).
Proof. intros s a s'. unfold lift. destruct o; [|done]. by intros [= _ <-]. Qed.
End Framed.

Create HintDb frames.
#[export] Hint Resolve framed_ret framed_get framed_lift : frames.

(** ** [goto fail]

    [E S A]: the computation either goes on with a value or leaves with the
    return code that the C function has in [ret] when it jumps to [fail]. *)
Definition E (S A : Type) : Type := M S (Z + A).

Definition eret {S A} (a : A) : E S A := mret (M := M S) (inr a).
Definition efail {S A} (ret : Z) : E S A := mret (M := M S) (inl ret).
Definition elift {S A} (m : M S A) : E S A := mbind (M := M S) eret m.
Definition ebind {S A B} (m : E S A) (k : A -> E S B) : E S B :=
  mbind (M := M S) (fun r => match r with inl ret => efail ret | inr a => k a end) m.
Notation "x ←! y ; z" := (ebind y (fun x => z))
  (at level 20, y at level 100, z at level 200, only parsing) : stdpp_scope.
Notation "' x ←! y ; z" := (ebind y (fun x => z))
  (at level 20, x pattern, y at level 100, z at level 200, only parsing) : stdpp_scope.
Notation "y ;! z" := (ebind y (fun _ => z))
  (at level 100, z at level 200, only parsing, right associativity) : stdpp_scope.

(** [for (i = from; i < from + n; i++) body(i)] *)
Fixpoint efor {S} (n : nat) (from : Z) (body : Z -> E S unit) : E S unit :=
  match n with
  | O => eret tt
  | Datatypes.S n => body from ;! efor n (from + 1) body
  end.

Section Ewp.
Context {S : Type}.

(** [ewp m F Q]: failures satisfy [F], normal results [Q]. *)
Definition ewp {A} (m : E S A) (F : Z -> S -> Prop) (Q : A -> S -> Prop) : S -> Prop :=
  wp m (fun r => match r with inl ret => F ret | inr a => Q a end).

Lemma ewp_ret {A} (a : A) F Q (s : S) : Q a s -> ewp (eret a) F Q s.
Proof. done. Qed.

Lemma ewp_fail {A} ret F (Q : A -> S -> Prop) s : F ret s -> ewp (efail ret) F Q s.
Proof. done. Qed.

Lemma ewp_bind {A B} (m : E S A) (k : A -> E S B) F Q s :
  ewp m F (fun a => ewp (k a) F Q) s -> ewp (ebind m k) F Q s.
Proof.
  unfold ewp. intros H. apply (wp_bind (S := S)). eapply wp_mono; [exact H|]. by intros [ret|a] s'.
Qed.

Lemma ewp_lift {A} (m : M S A) F Q s : wp m Q s -> ewp (elift m) F Q s.
Proof. intros H. apply (wp_bind (S := S)). eapply wp_mono; [exact H|]. by intros a s'. Qed.

Lemma ewp_mono {A} (m : E S A) F F' (Q Q' : A -> S -> Prop) s :
  ewp m F Q s -> (forall r s', F r s' -> F' r s') -> (forall a s', Q a s' -> Q' a s') ->
  ewp m F' Q' s.
Proof. intros H HF HQ. eapply wp_mono; [exact H|]. intros [ret|a] s'; auto. Qed.

(** The loop rule: an invariant indexed by the loop counter. *)
Lemma ewp_for (I : Z -> S -> Prop) F body n from s :
  I from s ->
  (forall i s, from <= i < from + Z.of_nat n -> I i s -> ewp (body i) F (fun _ => I (i + 1)) s) ->
  ewp (efor n from body) F (fun _ => I (from + Z.of_nat n)) s.
Proof.
  revert from s. induction n as [|n IH]; intros from s HI Hstep; cbn [efor].
  - apply ewp_ret. by rewrite Z.add_0_r.
  - apply ewp_bind. eapply ewp_mono; [apply Hstep; [lia|done]|done|]. intros ? s' HI'.
    eapply ewp_mono; [apply IH; [exact HI'|]|done|].
    + intros i s1 Hi. apply Hstep. lia.
    + intros ? s1. by replace (from + 1 + Z.of_nat n) with (from + Z.of_nat (Datatypes.S n)) by lia.
Qed.
End Ewp.

(** A pointer, or another optional value, tested as a condition. *)
Definition is_set {A} (p : option A) : bool := match p with Some _ => true | None => false end.

(** ** The position of a key in a list of keyed entries *)
Section IndexOf.
Context {A K : Type} `{EqDecision K} (key : A -> K).

Fixpoint index_of (l : list A) (k : K) : option nat :=
  match l with
  | [] => None
  | x :: l => if decide (key x = k) then Some 0%nat else S <$> index_of l k
  end.

(** The entry itself. *)
Definition entry_of (l : list A) (k : K) : option A := index_of l k ≫= fun i => l !! i.

Lemma index_of_Some l k i : index_of l k = Some i -> exists x, l !! i = Some x /\ key x = k.
Proof.
  revert i. induction l as [|x l IH]; cbn; [done|]. intros i. case_decide; [by intros [= <-]; eauto|].
  destruct (index_of l k) as [j|]; cbn; [|done]. intros [= <-]. cbn. auto.
Qed.

Lemma index_of_None l k : index_of l k = None <-> k ∉ key <$> l.
Proof.
  induction l as [|x l IH]; cbn; [split; [intros _; apply not_elem_of_nil|done]|].
  rewrite not_elem_of_cons, <- IH. case_decide as Hk.
  - split; [done|]. by intros [? _].
  - destruct (index_of l k); cbn; split; [done|by intros [_ ?]|done|done].
Qed.

Lemma index_of_snoc l x k :
  index_of (l ++ [x]) k =
    match index_of l k with
    | Some i => Some i
    | None => if decide (key x = k) then Some (length l) else None
    end.
Proof.
  induction l as [|y l IH]; cbn; [done|]. destruct (decide (key y = k)); [done|]. rewrite IH.
  destruct (index_of l k); cbn; [done|]. by destruct (decide (key x = k)).
Qed.

Lemma index_of_lt l k i : index_of l k = Some i -> (i < length l)%nat.
Proof. intros (x & Hx & _)%index_of_Some. by apply lookup_lt_Some in Hx. Qed.

Lemma entry_of_index l k i : index_of l k = Some i -> exists x, l !! i = Some x /\ entry_of l k = Some x.
Proof.
  intros Hi. destruct (index_of_Some _ _ _ Hi) as (x & Hx & _). exists x. split; [done|].
  unfold entry_of. by rewrite Hi.
Qed.

Lemma entry_of_None l k : entry_of l k = None <-> k ∉ key <$> l.
Proof.
  rewrite <- index_of_None. unfold entry_of. destruct (index_of l k) as [i|] eqn:Hi; [|done].
  split; [|done]. destruct (index_of_Some _ _ _ Hi) as (x & Hx & _). cbn. by rewrite Hx.
Qed.

(** Scanning [l] in order: what the entry at [i] says about the prefix. *)
Lemma prefix_duplicate l i x :
  l !! i = Some x -> key x ∈ key <$> take i l -> ~ NoDup (key <$> l).
Proof.
  intros Hx Hin Hnd. rewrite <- (take_drop_middle l i x Hx) in Hnd.
  rewrite fmap_app, fmap_cons in Hnd. apply NoDup_app in Hnd as (_ & Hd & _).
  apply (Hd _ Hin). by left.
Qed.

Lemma prefix_nodup_snoc l i x :
  l !! i = Some x -> NoDup (key <$> take i l) -> index_of (take i l) (key x) = None ->
  NoDup (key <$> take (S i) l).
Proof.
  intros Hx Hnd Hi. rewrite (take_S_r _ _ x), fmap_app by done.
  apply index_of_None in Hi. apply NoDup_app. split; [done|]. split; [|apply NoDup_singleton].
  intros k Hk ->%list_elem_of_singleton. by apply Hi.
Qed.
End IndexOf.

(** * A computation cut into steps

    [result s] is what the whole computation gives from a point [s]; if every step
    keeps it, leads closer to the end, and is there whenever the result is not, the
    computation and its steps say the same. *)
Section Unrolled.
Context {S A : Type} (step : S -> S -> Prop) (result : S -> option A) (final : A -> S -> Prop) (size : S -> nat).
Context (step_result : forall s s', step s s' -> result s = result s').
Context (step_size : forall s s', step s s' -> (size s' < size s)%nat).
Context (final_result : forall a s, final a s -> result s = Some a).
Context (progress : forall a s, result s = Some a -> final a s \/ exists s', step s s').

Lemma unrolled s a : result s = Some a <-> exists s', rtc step s s' /\ final a s'.
Proof.
  split; [|intros (s' & Hs & Hf); induction Hs as [s|s s1 s' Hs _ IH]; [by apply final_result|by rewrite (step_result _ _ Hs), IH]].
  induction (well_founded_ltof _ size s) as [s _ IH]. intros E. destruct (progress a s E) as [Hf|[s1 Hs]]; [by exists s|].
  rewrite (step_result _ _ Hs) in E. destruct (IH s1 (step_size _ _ Hs) E) as (s' & Hr & Hf).
  exists s'. split; [by eapply rtc_l|done].
Qed.
End Unrolled.
