(* ===== verification/Host.v ===== *)
(** * The host: multi-byte memory access and byte order

    The dataplane casts packet bytes to DPDK header structs and converts each
    field with [rte_be_to_cpu_16] and its relatives.  Two things are outside
    the repository: how the target lays an integer out in memory, and the
    DPDK conversion functions.  Both are the fields of [Host]; [HostOk] states
    what DPDK documents: the conversions turn a field that is big-endian in
    memory into the number it encodes, and back.  [little_endian] (x86-64, the
    platform the project runs on) and [big_endian] implement the interface. *)
From Stdlib Require Import ZArith Lia.
From stdpp Require Import base list numbers option.
From S2P Require Import Prelude.

Class Host := {
  load16 : Z -> Z -> Z;
  load32 : Z -> Z -> Z -> Z -> Z;
  store16 : Z -> Z * Z;
  store32 : Z -> Z * Z * Z * Z;
  rte_be_to_cpu_16 : Z -> Z;
  rte_be_to_cpu_32 : Z -> Z;
  rte_cpu_to_be_16 : Z -> Z;
  rte_cpu_to_be_32 : Z -> Z;
}.

Class HostOk (H : Host) : Prop := {
  load16_fits b0 b1 : is_byte b0 -> is_byte b1 -> fits 16 (load16 b0 b1);
  be_to_cpu_load16 b0 b1 : is_byte b0 -> is_byte b1 ->
    rte_be_to_cpu_16 (load16 b0 b1) = be16 b0 b1;
  be_to_cpu_load32 b0 b1 b2 b3 : is_byte b0 -> is_byte b1 -> is_byte b2 -> is_byte b3 ->
    rte_be_to_cpu_32 (load32 b0 b1 b2 b3) = be32 b0 b1 b2 b3;
  store16_cpu_to_be v : fits 16 v ->
    store16 (rte_cpu_to_be_16 v) = (v / 256, v mod 256);
  store32_cpu_to_be v : fits 32 v ->
    store32 (rte_cpu_to_be_32 v) =
      (v / 16777216, (v / 65536) mod 256, (v / 256) mod 256, v mod 256);
  store16_load16 b0 b1 : is_byte b0 -> is_byte b1 -> store16 (load16 b0 b1) = (b0, b1);
  store16_bytes v : fits 16 v ->
    is_byte (fst (store16 v)) /\ is_byte (snd (store16 v));
  load16_store16 v : fits 16 v ->
    load16 (fst (store16 v)) (snd (store16 v)) = v;
  load16_zero : load16 0 0 = 0;
}.

(** ** Reads and writes of header fields through a pointer *)
Section Access.
Context {H : Host}.

Definition rd16 (p : list Z) (i : Z) : option Z :=
  b0 ← rd8 p i; b1 ← rd8 p (i + 1); Some (load16 b0 b1).

Definition rd32 (p : list Z) (i : Z) : option Z :=
  b0 ← rd8 p i; b1 ← rd8 p (i + 1); b2 ← rd8 p (i + 2); b3 ← rd8 p (i + 3);
  Some (load32 b0 b1 b2 b3).

Definition wr16 (p : list Z) (i v : Z) : option (list Z) :=
  let '(b0, b1) := store16 v in
  p ← wr8 p i b0; wr8 p (i + 1) b1.

Definition wr32 (p : list Z) (i v : Z) : option (list Z) :=
  let '(b0, b1, b2, b3) := store32 v in
  p ← wr8 p i b0; p ← wr8 p (i + 1) b1; p ← wr8 p (i + 2) b2; wr8 p (i + 3) b3.
End Access.

(** The big-endian field at offset [i], as the wire format defines it. *)
Definition field16 (p : list Z) (i : Z) : option Z :=
  b0 ← rd8 p i; b1 ← rd8 p (i + 1); Some (be16 b0 b1).
Definition field32 (p : list Z) (i : Z) : option Z :=
  b0 ← rd8 p i; b1 ← rd8 p (i + 1); b2 ← rd8 p (i + 2); b3 ← rd8 p (i + 3);
  Some (be32 b0 b1 b2 b3).

Lemma field16_drop p n i : 0 <= n -> 0 <= i ->
  field16 (drop (Z.to_nat n) p) i = field16 p (n + i).
Proof. intros. unfold field16. by rewrite !rd8_drop, <- Z.add_assoc by lia. Qed.

Lemma field32_drop p n i : 0 <= n -> 0 <= i ->
  field32 (drop (Z.to_nat n) p) i = field32 p (n + i).
Proof. intros. unfold field32. by rewrite !rd8_drop, <- !Z.add_assoc by lia. Qed.

Ltac rd8_inv :=
  repeat match goal with
  | H : (rd8 ?p ?i ≫= _) = Some _ |- _ =>
      let b := fresh "b" in let E := fresh "Hrd" in
      destruct (rd8 p i) as [b|] eqn:E; [cbn [mbind option_bind] in H|discriminate H]
  end.

Section AccessLemmas.
Context {H : Host} {HO : HostOk H}.

Lemma field16_fits p i v : bytes p -> field16 p i = Some v -> fits 16 v.
Proof.
  unfold field16. intros Hp E. rd8_inv. injection E as <-.
  apply be16_fits; eauto using rd8_byte.
Qed.

Lemma field32_fits p i v : bytes p -> field32 p i = Some v -> fits 32 v.
Proof.
  unfold field32. intros Hp E. rd8_inv. injection E as <-.
  apply be32_fits; eauto using rd8_byte.
Qed.

Lemma field16_Some p i : 0 <= i -> i + 2 <= Z.of_nat (length p) ->
  exists v, field16 p i = Some v.
Proof.
  intros. unfold field16.
  destruct (rd8_Some p i) as [b0 ->]; [lia|]. destruct (rd8_Some p (i + 1)) as [b1 ->]; [lia|].
  cbn. eauto.
Qed.

Lemma field32_Some p i : 0 <= i -> i + 4 <= Z.of_nat (length p) ->
  exists v, field32 p i = Some v.
Proof.
  intros. unfold field32.
  destruct (rd8_Some p i) as [b0 ->]; [lia|]. destruct (rd8_Some p (i + 1)) as [b1 ->]; [lia|].
  destruct (rd8_Some p (i + 2)) as [b2 ->]; [lia|].
  destruct (rd8_Some p (i + 3)) as [b3 ->]; [lia|]. cbn. eauto.
Qed.

(** Reading a field and converting it is reading the wire value: the host
    order cancels out. *)
Lemma rd16_be p i : bytes p -> rte_be_to_cpu_16 <$> rd16 p i = field16 p i.
Proof.
  intros Hp. unfold rd16, field16.
  destruct (rd8 p i) as [b0|] eqn:E0; [|done]. cbn.
  destruct (rd8 p (i + 1)) as [b1|] eqn:E1; [|done]. cbn.
  by rewrite be_to_cpu_load16 by eauto using rd8_byte.
Qed.

Lemma rd32_be p i : bytes p -> rte_be_to_cpu_32 <$> rd32 p i = field32 p i.
Proof.
  intros Hp. unfold rd32, field32.
  destruct (rd8 p i) as [b0|] eqn:E0; [|done]. cbn.
  destruct (rd8 p (i + 1)) as [b1|] eqn:E1; [|done]. cbn.
  destruct (rd8 p (i + 2)) as [b2|] eqn:E2; [|done]. cbn.
  destruct (rd8 p (i + 3)) as [b3|] eqn:E3; [|done]. cbn.
  by rewrite be_to_cpu_load32 by eauto using rd8_byte.
Qed.

Lemma wr16_cpu_to_be p i v : fits 16 v ->
  wr16 p i (rte_cpu_to_be_16 v) =
    (p ← wr8 p i (v / 256); wr8 p (i + 1) (v mod 256)).
Proof. intros. unfold wr16. by rewrite store16_cpu_to_be. Qed.

Lemma store16_zero : store16 0 = (0, 0).
Proof. rewrite <- load16_zero at 1. apply store16_load16; fits_lia. Qed.

(** A raw 16-bit value as the two bytes it occupies in memory. *)
Lemma store16_wire v : fits 16 v ->
  exists w, fits 16 w /\ store16 v = (w / 256, w mod 256) /\ (v <> 0 -> w <> 0).
Proof.
  intros Hv. pose proof (store16_bytes v Hv) as [H0 H1]. pose proof (load16_store16 v Hv) as HL.
  destruct (store16 v) as [b0 b1]. cbn in *. exists (be16 b0 b1).
  split; [by apply be16_fits|]. pose proof (be16_bytes_be16 b0 b1 H0 H1) as E.
  unfold be16_bytes in E. injection E as -> ->. split; [done|].
  intros Hn E. apply Hn. rewrite <- HL. unfold be16 in E.
  assert (b0 = 0) as -> by fits_lia. assert (b1 = 0) as -> by fits_lia. apply load16_zero.
Qed.

Lemma wr32_cpu_to_be p i v : fits 32 v ->
  wr32 p i (rte_cpu_to_be_32 v) =
    (p ← wr8 p i (v / 16777216); p ← wr8 p (i + 1) ((v / 65536) mod 256);
     p ← wr8 p (i + 2) ((v / 256) mod 256); wr8 p (i + 3) (v mod 256)).
Proof. intros. unfold wr32. by rewrite store32_cpu_to_be. Qed.
End AccessLemmas.

(** ** The two byte orders *)
Definition swap16 (v : Z) : Z := be16 (v mod 256) (v / 256).
Definition swap32 (v : Z) : Z :=
  be32 (v mod 256) ((v / 256) mod 256) ((v / 65536) mod 256) (v / 16777216).

Definition little_endian : Host := {|
  load16 b0 b1 := be16 b1 b0;
  load32 b0 b1 b2 b3 := be32 b3 b2 b1 b0;
  store16 v := (v mod 256, v / 256);
  store32 v := (v mod 256, (v / 256) mod 256, (v / 65536) mod 256, v / 16777216);
  rte_be_to_cpu_16 := swap16; rte_be_to_cpu_32 := swap32;
  rte_cpu_to_be_16 := swap16; rte_cpu_to_be_32 := swap32;
|}.

Definition big_endian : Host := {|
  load16 := be16; load32 := be32;
  store16 v := (v / 256, v mod 256);
  store32 v := (v / 16777216, (v / 65536) mod 256, (v / 256) mod 256, v mod 256);
  rte_be_to_cpu_16 v := v; rte_be_to_cpu_32 v := v;
  rte_cpu_to_be_16 v := v; rte_cpu_to_be_32 v := v;
|}.

Ltac host_arith :=
  intros; cbn; unfold swap16, swap32, be16, be32 in *; cbn;
  repeat first [split | apply pair_equal_spec];
  Z.div_mod_to_equations; fits_lia.

#[export] Instance little_endian_ok : HostOk little_endian.
Proof. split; host_arith. Qed.

#[export] Instance big_endian_ok : HostOk big_endian.
Proof. split; host_arith. Qed.

(** ** Stepping through the reads of a translated function *)
(** The next read succeeds: name its value. *)
Ltac read_step :=
  match goal with
  | |- context [rd8 ?p ?i ≫= _] =>
      let b := fresh "b" in let E := fresh "Hb" in
      destruct (rd8_Some p i) as [b E]; [try lia..|rewrite E; bind_cbn]
  | |- context [field16 ?p ?i ≫= _] =>
      let b := fresh "v" in let E := fresh "Hv" in
      destruct (field16_Some p i) as [b E]; [try lia..|rewrite E; bind_cbn]
  | |- context [field32 ?p ?i ≫= _] =>
      let b := fresh "v" in let E := fresh "Hv" in
      destruct (field32_Some p i) as [b E]; [try lia..|rewrite E; bind_cbn]
  end.

(** Reads at literal offsets of an exploded header evaluate. *)
Ltac rd8_compute :=
  unfold field16, field32;
  repeat match goal with
  | |- context [rd8 ?p ?i] => let r := eval lazy in (rd8 p i) in change (rd8 p i) with r
  end;
  bind_cbn.
