(* ===== verification/Packet.v ===== *)
(** * Packets: [dp_packet.h], the mbuf fields the program reads, header layout

    The header structs come from DPDK, but their layout is the wire format of
    Ethernet II, IPv4, TCP and UDP; the offsets below are those the fixtures of
    [dp_parser_test.c] write to. *)
From Stdlib Require Import ZArith Lia.
From stdpp Require Import base list numbers option.
From S2P Require Import Prelude.

(** ** [struct dp_packet_meta] and [enum dp_parse_result] *)
Record dp_packet_meta := {
  ether_type : Z;
  src_ipv4 : Z;
  dst_ipv4 : Z;
  l4_proto : Z;
  src_port : Z;
  dst_port : Z;
  l2_len : Z;
  l3_len : Z;
  l4_len : Z;
  l4_offset : Z;
}.

(** [memset(meta, 0, sizeof( *meta))] *)
Definition meta_zero : dp_packet_meta := {|
  ether_type := 0; src_ipv4 := 0; dst_ipv4 := 0; l4_proto := 0; src_port := 0;
  dst_port := 0; l2_len := 0; l3_len := 0; l4_len := 0; l4_offset := 0 |}.

Inductive dp_parse_result := DP_PARSE_OK | DP_PARSE_UNSUPPORTED | DP_PARSE_MALFORMED.

#[export] Instance dp_packet_meta_eq_dec : EqDecision dp_packet_meta.
Proof. solve_decision. Defined.
#[export] Instance dp_parse_result_eq_dec : EqDecision dp_parse_result.
Proof. solve_decision. Defined.

(** The field assignments of the parser, one per group of fields it writes. *)
Definition meta_set_l2 (et l2 : Z) (m : dp_packet_meta) : dp_packet_meta := {|
  ether_type := et; src_ipv4 := src_ipv4 m; dst_ipv4 := dst_ipv4 m;
  l4_proto := l4_proto m; src_port := src_port m; dst_port := dst_port m;
  l2_len := l2; l3_len := l3_len m; l4_len := l4_len m; l4_offset := l4_offset m |}.

Definition meta_set_l3 (src dst proto l3 off : Z) (m : dp_packet_meta) : dp_packet_meta := {|
  ether_type := ether_type m; src_ipv4 := src; dst_ipv4 := dst;
  l4_proto := proto; src_port := src_port m; dst_port := dst_port m;
  l2_len := l2_len m; l3_len := l3; l4_len := l4_len m; l4_offset := off |}.

Definition meta_set_l4 (sp dp len : Z) (m : dp_packet_meta) : dp_packet_meta := {|
  ether_type := ether_type m; src_ipv4 := src_ipv4 m; dst_ipv4 := dst_ipv4 m;
  l4_proto := l4_proto m; src_port := sp; dst_port := dp;
  l2_len := l2_len m; l3_len := l3_len m; l4_len := len; l4_offset := l4_offset m |}.

(** ** The mbuf

    The fields of [struct rte_mbuf] that the program uses.  [mbuf_data] is the
    segment that [rte_pktmbuf_mtod] points to: exactly its [data_len] bytes, so
    that reading past [data_len] is an out-of-bounds read even where the
    underlying buffer is larger. *)
Record rte_mbuf := {
  nb_segs : Z;
  pkt_len : Z;
  data_len : Z;
  mbuf_data : list Z;
}.

Definition mbuf_ok (m : rte_mbuf) : Prop :=
  fits 16 (nb_segs m) /\ fits 32 (pkt_len m) /\ fits 16 (data_len m) /\
  bytes (mbuf_data m) /\ Z.of_nat (length (mbuf_data m)) = data_len m.

Definition mbuf_set_data (d : list Z) (m : rte_mbuf) : rte_mbuf := {|
  nb_segs := nb_segs m; pkt_len := pkt_len m; data_len := data_len m; mbuf_data := d |}.

(** ** Header layout (sizes and byte offsets) and protocol constants *)
Definition sizeof_rte_ether_hdr := 14.
Definition sizeof_rte_ipv4_hdr := 20.
Definition sizeof_rte_tcp_hdr := 20.
Definition sizeof_rte_udp_hdr := 8.

Definition ETHER_TYPE := 12.
Definition IPV4_VERSION_IHL := 0.
Definition IPV4_TOTAL_LENGTH := 2.
Definition IPV4_FRAGMENT_OFFSET := 6.
Definition IPV4_NEXT_PROTO_ID := 9.
Definition IPV4_HDR_CHECKSUM := 10.
Definition IPV4_SRC_ADDR := 12.
Definition IPV4_DST_ADDR := 16.
Definition TCP_SRC_PORT := 0.
Definition TCP_DST_PORT := 2.
Definition TCP_DATA_OFF := 12.
Definition TCP_CKSUM := 16.
Definition UDP_SRC_PORT := 0.
Definition UDP_DST_PORT := 2.
Definition UDP_DGRAM_LEN := 4.
Definition UDP_DGRAM_CKSUM := 6.

Definition RTE_ETHER_TYPE_IPV4 := 0x0800.
Definition RTE_ETHER_TYPE_IPV6 := 0x86dd.
Definition RTE_IPV4_HDR_MF_FLAG := 0x2000.
Definition RTE_IPV4_HDR_OFFSET_MASK := 0x1fff.
Definition IPPROTO_ICMP := 1.
Definition IPPROTO_TCP := 6.
Definition IPPROTO_UDP := 17.
Definition UINT16_MAX := 65535.
Definition UINT32_MAX := 4294967295.

(** The fragment test looks at MF and the 13-bit offset: the low 14 bits. *)
Lemma land_fragment_mask v :
  Z.land v (Z.lor RTE_IPV4_HDR_MF_FLAG RTE_IPV4_HDR_OFFSET_MASK) = v mod 16384.
Proof. apply (Z.land_ones v 14). lia. Qed.
