(* ===== verification/Parser.v ===== *)
(** * The packet parser: [dp_parser.c]

    Each function takes the pointer it dereferences as the suffix of the
    segment that starts there, and the [dp_packet_meta] it updates in place;
    [None] is an out-of-bounds read. *)
From Stdlib Require Import ZArith Lia.
From stdpp Require Import base list numbers option.
From S2P Require Import Prelude Host Packet.

Section Parser.
Context {H : Host}.

Definition dp_parse_tcp (data : list Z) (payload_len : Z) (meta : dp_packet_meta)
    : option (dp_parse_result * dp_packet_meta) :=
  if payload_len <? sizeof_rte_tcp_hdr then Some (DP_PARSE_MALFORMED, meta) else
  data_off ← rd8 data TCP_DATA_OFF;
  let data_offset_words := u8 (Z.shiftr data_off 4) in
  if data_offset_words <? 5 then Some (DP_PARSE_MALFORMED, meta) else
  let header_len := u16 (data_offset_words * 4) in
  if payload_len <? header_len then Some (DP_PARSE_MALFORMED, meta) else
  src_port ← rte_be_to_cpu_16 <$> rd16 data TCP_SRC_PORT;
  dst_port ← rte_be_to_cpu_16 <$> rd16 data TCP_DST_PORT;
  Some (DP_PARSE_OK,
        meta_set_l4 src_port dst_port header_len meta).

Definition dp_parse_udp (data : list Z) (payload_len : Z) (meta : dp_packet_meta)
    : option (dp_parse_result * dp_packet_meta) :=
  if payload_len <? sizeof_rte_udp_hdr then Some (DP_PARSE_MALFORMED, meta) else
  datagram_len ← rte_be_to_cpu_16 <$> rd16 data UDP_DGRAM_LEN;
  if (datagram_len <? sizeof_rte_udp_hdr) || (payload_len <? datagram_len)
  then Some (DP_PARSE_MALFORMED, meta) else
  src_port ← rte_be_to_cpu_16 <$> rd16 data UDP_SRC_PORT;
  dst_port ← rte_be_to_cpu_16 <$> rd16 data UDP_DST_PORT;
  Some (DP_PARSE_OK,
        meta_set_l4 src_port dst_port sizeof_rte_udp_hdr meta).

Definition dp_parse_ipv4 (data : list Z) (frame_len : Z) (meta : dp_packet_meta)
    : option (dp_parse_result * dp_packet_meta) :=
  if frame_len <? u64 (l2_len meta + sizeof_rte_ipv4_hdr)
  then Some (DP_PARSE_MALFORMED, meta) else
  ipv4 ← ptr_add data (l2_len meta);
  version_ihl ← rd8 ipv4 IPV4_VERSION_IHL;
  let version := u8 (Z.shiftr version_ihl 4) in
  let ihl_words := u8 (Z.land version_ihl 0x0f) in
  if negb (version =? 4) || (ihl_words <? 5) then Some (DP_PARSE_MALFORMED, meta) else
  let ihl_bytes := u16 (ihl_words * 4) in
  if frame_len - l2_len meta <? ihl_bytes then Some (DP_PARSE_MALFORMED, meta) else
  total_len ← rte_be_to_cpu_16 <$> rd16 ipv4 IPV4_TOTAL_LENGTH;
  if (total_len <? ihl_bytes) || (frame_len - l2_len meta <? total_len)
  then Some (DP_PARSE_MALFORMED, meta) else
  fragment ← rte_be_to_cpu_16 <$> rd16 ipv4 IPV4_FRAGMENT_OFFSET;
  if negb (Z.land fragment (Z.lor RTE_IPV4_HDR_MF_FLAG RTE_IPV4_HDR_OFFSET_MASK) =? 0)
  then Some (DP_PARSE_UNSUPPORTED, meta) else
  src_addr ← rte_be_to_cpu_32 <$> rd32 ipv4 IPV4_SRC_ADDR;
  dst_addr ← rte_be_to_cpu_32 <$> rd32 ipv4 IPV4_DST_ADDR;
  next_proto_id ← rd8 ipv4 IPV4_NEXT_PROTO_ID;
  let meta := meta_set_l3 src_addr dst_addr next_proto_id ihl_bytes
                (u16 (l2_len meta + ihl_bytes)) meta in
  let payload_len := u16 (total_len - ihl_bytes) in
  l4 ← ptr_add data (l4_offset meta);
  if l4_proto meta =? IPPROTO_TCP then dp_parse_tcp l4 payload_len meta
  else if l4_proto meta =? IPPROTO_UDP then dp_parse_udp l4 payload_len meta
  else Some (DP_PARSE_UNSUPPORTED, meta).

(** [None] arguments are the NULL pointers the function guards against; the
    result carries the object [meta] points to after the call. *)
Definition dp_parse_packet (mbuf : option rte_mbuf) (meta : option dp_packet_meta)
    : option (dp_parse_result * option dp_packet_meta) :=
  match mbuf, meta with
  | Some mbuf, Some meta0 =>
    if negb (nb_segs mbuf =? 1) then Some (DP_PARSE_UNSUPPORTED, meta) else
    let packet_len := pkt_len mbuf in
    let data_len := data_len mbuf in
    if negb (packet_len =? data_len) || (UINT16_MAX <? packet_len)
    then Some (DP_PARSE_MALFORMED, meta) else
    let meta0 := meta_zero in
    if data_len <? sizeof_rte_ether_hdr then Some (DP_PARSE_MALFORMED, Some meta0) else
    let data := mbuf_data mbuf in
    ether_type0 ← rte_be_to_cpu_16 <$> rd16 data ETHER_TYPE;
    let meta0 := meta_set_l2 ether_type0 sizeof_rte_ether_hdr meta0 in
    if negb (ether_type meta0 =? RTE_ETHER_TYPE_IPV4)
    then Some (DP_PARSE_UNSUPPORTED, Some meta0) else
    '(r, meta1) ← dp_parse_ipv4 data data_len meta0;
    Some (r, Some meta1)
  | _, _ => Some (DP_PARSE_MALFORMED, meta)
  end.
End Parser.
