(* ===== verification/Wire.v ===== *)
(** * Wire format: a reference grammar of the frames the router accepts

    [frame] is the abstract syntax of an Ethernet II frame that carries an
    unfragmented IPv4 packet with a TCP segment or a UDP datagram, options and
    trailing padding included; [frame_bytes] serializes it.  The grammar is
    written from the protocol definitions and does not mention the parser;
    [ParserSpec] proves that the parser accepts exactly its sentences. *)
From Stdlib Require Import ZArith Lia.
From stdpp Require Import base list numbers option.
From S2P Require Import Prelude Host Packet.

Abbreviation len l := (Z.of_nat (length l)).

Inductive l4_segment :=
  (** ports; sequence and acknowledgement numbers; the low nibble beside the
      data offset; flags, window, checksum and urgent pointer; options; payload *)
  | Tcp (sport dport : Z) (seq_ack : list Z) (low : Z) (fixed options payload : list Z)
  (** ports; datagram length; checksum; everything after the header, which may
      be longer than the datagram *)
  | Udp (sport dport dgram_len cksum : Z) (body : list Z).

Record frame := {
  fr_macs : list Z;      (** destination and source addresses *)
  fr_tos : Z;
  fr_id : Z;
  fr_flags : Z;          (** the reserved and DF bits; MF and the offset are 0 *)
  fr_ttl : Z;
  fr_cksum : Z;
  fr_src : Z;
  fr_dst : Z;
  fr_options : list Z;
  fr_l4 : l4_segment;
  fr_trailer : list Z;   (** link-layer padding after the IPv4 packet *)
}.

(** ** Serialization *)
Definition l4_bytes (s : l4_segment) : list Z :=
  match s with
  | Tcp sport dport seq_ack low fixed options payload =>
      be16_bytes sport ++ be16_bytes dport ++ seq_ack ++
      [16 * (5 + len options / 4) + low] ++ fixed ++ options ++ payload
  | Udp sport dport dgram_len cksum body =>
      be16_bytes sport ++ be16_bytes dport ++ be16_bytes dgram_len ++ be16_bytes cksum ++ body
  end.

Definition l4_number (s : l4_segment) : Z :=
  match s with Tcp _ _ _ _ _ _ _ => 6 | Udp _ _ _ _ _ => 17 end.

Definition fr_ihl (f : frame) : Z := 5 + len (fr_options f) / 4.
Definition fr_total_length (f : frame) : Z := 20 + len (fr_options f) + len (l4_bytes (fr_l4 f)).

Definition ipv4_header_bytes (f : frame) : list Z :=
  [16 * 4 + fr_ihl f; fr_tos f] ++ be16_bytes (fr_total_length f) ++
  be16_bytes (fr_id f) ++ be16_bytes (fr_flags f) ++
  [fr_ttl f; l4_number (fr_l4 f)] ++ be16_bytes (fr_cksum f) ++
  be32_bytes (fr_src f) ++ be32_bytes (fr_dst f).

Definition frame_bytes (f : frame) : list Z :=
  fr_macs f ++ be16_bytes 0x0800 ++ ipv4_header_bytes f ++ fr_options f ++
  l4_bytes (fr_l4 f) ++ fr_trailer f.

(** ** Well-formedness *)
Definition l4_ok (s : l4_segment) : Prop :=
  match s with
  | Tcp sport dport seq_ack low fixed options payload =>
      fits 16 sport /\ fits 16 dport /\ bytes seq_ack /\ length seq_ack = 8%nat /\
      0 <= low < 16 /\ bytes fixed /\ length fixed = 7%nat /\
      bytes options /\ (len options) mod 4 = 0 /\ len options <= 40 /\ bytes payload
  | Udp sport dport dgram_len cksum body =>
      fits 16 sport /\ fits 16 dport /\ fits 16 dgram_len /\ fits 16 cksum /\ bytes body /\
      8 <= dgram_len <= 8 + len body
  end.

Definition frame_ok (f : frame) : Prop :=
  bytes (fr_macs f) /\ length (fr_macs f) = 12%nat /\
  is_byte (fr_tos f) /\ fits 16 (fr_id f) /\
  fits 16 (fr_flags f) /\ fr_flags f mod 16384 = 0 /\
  is_byte (fr_ttl f) /\ fits 16 (fr_cksum f) /\ fits 32 (fr_src f) /\ fits 32 (fr_dst f) /\
  bytes (fr_options f) /\ (len (fr_options f)) mod 4 = 0 /\ len (fr_options f) <= 40 /\
  l4_ok (fr_l4 f) /\ bytes (fr_trailer f) /\ len (frame_bytes f) <= 65535.

(** ** The metadata of a frame *)
Definition l4_meta (s : l4_segment) (m : dp_packet_meta) : dp_packet_meta :=
  match s with
  | Tcp sport dport _ _ _ options _ => meta_set_l4 sport dport (20 + len options) m
  | Udp sport dport _ _ _ => meta_set_l4 sport dport 8 m
  end.

Definition frame_meta (f : frame) : dp_packet_meta :=
  l4_meta (fr_l4 f)
    {| ether_type := 0x0800; src_ipv4 := fr_src f; dst_ipv4 := fr_dst f;
       l4_proto := l4_number (fr_l4 f); src_port := 0; dst_port := 0;
       l2_len := 14; l3_len := 20 + len (fr_options f); l4_len := 0;
       l4_offset := 34 + len (fr_options f) |}.

(** ** Lengths *)
Lemma l4_bytes_length s : l4_ok s ->
  len (l4_bytes s) =
    match s with
    | Tcp _ _ _ _ _ options payload => 20 + len options + len payload
    | Udp _ _ _ _ body => 8 + len body
    end.
Proof.
  destruct s as [sp dp sa lo fx op pl|sp dp dl ck bd]; cbn.
  - intros (_ & _ & _ & Hsa & _ & _ & Hfx & _).
    rewrite !length_app. cbn. rewrite !length_app. lia.
  - intros _. lia.
Qed.

Lemma ipv4_header_length f : length (ipv4_header_bytes f) = 20%nat.
Proof. done. Qed.

Lemma frame_bytes_length f : frame_ok f ->
  len (frame_bytes f) = 14 + fr_total_length f + len (fr_trailer f).
Proof.
  intros (_ & Hm & _). unfold frame_bytes, fr_total_length.
  rewrite !length_app, ipv4_header_length, Hm. cbn [length be16_bytes]. lia.
Qed.

Lemma l4_bytes_ok s : l4_ok s -> bytes (l4_bytes s).
Proof.
  destruct s as [sp dp sa lo fx op pl|sp dp dl ck bd]; intros Hs;
    cbn [l4_ok] in Hs; destruct_and!; cbn [l4_bytes];
    repeat first [apply Forall_app; split]; auto with fits.
  repeat constructor; Z.div_mod_to_equations; fits_lia.
Qed.

(** ** What a reader finds at the offsets of each header *)
Lemma field16_be16_bytes v l : field16 (be16_bytes v ++ l) 0 = Some v.
Proof. exact (f_equal Some (be16_of_bytes v)). Qed.

Lemma field16_app_r p q i : 0 <= i -> field16 (p ++ q) (len p + i) = field16 q i.
Proof.
  intros. unfold field16. rewrite <- Z.add_assoc, !rd8_app_r by lia. done.
Qed.

Lemma field32_app_r p q i : 0 <= i -> field32 (p ++ q) (len p + i) = field32 q i.
Proof.
  intros. unfold field32. rewrite <- !Z.add_assoc, !rd8_app_r by lia. done.
Qed.

Definition l4_ports (s : l4_segment) : Z * Z :=
  match s with Tcp sp dp _ _ _ _ _ | Udp sp dp _ _ _ => (sp, dp) end.

Lemma l4_sport s rest : field16 (l4_bytes s ++ rest) 0 = Some (fst (l4_ports s)).
Proof. destruct s; cbn [l4_bytes]; rewrite <- app_assoc; apply field16_be16_bytes. Qed.

Lemma l4_dport s rest : field16 (l4_bytes s ++ rest) 2 = Some (snd (l4_ports s)).
Proof.
  destruct s; cbn [l4_bytes]; rewrite <- !app_assoc;
    rewrite (field16_app_r (be16_bytes _) _ 0) by lia; apply field16_be16_bytes.
Qed.

Lemma tcp_data_off sp dp sa lo fx op pl rest : length sa = 8%nat ->
  rd8 (l4_bytes (Tcp sp dp sa lo fx op pl) ++ rest) 12 = Some (16 * (5 + len op / 4) + lo).
Proof. intros Hsa. explode_len Hsa. done. Qed.

Lemma udp_dgram_len sp dp dl ck bd rest :
  field16 (l4_bytes (Udp sp dp dl ck bd) ++ rest) 4 = Some dl.
Proof.
  cbn [l4_bytes]. rewrite <- !app_assoc.
  rewrite (field16_app_r (be16_bytes _) _ 2), (field16_app_r (be16_bytes _) _ 0) by lia.
  apply field16_be16_bytes.
Qed.

(** ** The IPv4 header of a frame *)
Section Ipv4Header.
Context (f : frame) (rest : list Z).

Lemma ipv4_version_ihl : rd8 (ipv4_header_bytes f ++ rest) 0 = Some (64 + fr_ihl f).
Proof. done. Qed.
Lemma ipv4_total_length : field16 (ipv4_header_bytes f ++ rest) 2 = Some (fr_total_length f).
Proof. exact (f_equal Some (be16_of_bytes _)). Qed.
Lemma ipv4_fragment_offset : field16 (ipv4_header_bytes f ++ rest) 6 = Some (fr_flags f).
Proof. exact (f_equal Some (be16_of_bytes _)). Qed.
Lemma ipv4_next_proto : rd8 (ipv4_header_bytes f ++ rest) 9 = Some (l4_number (fr_l4 f)).
Proof. done. Qed.
Lemma ipv4_src_addr : field32 (ipv4_header_bytes f ++ rest) 12 = Some (fr_src f).
Proof. exact (f_equal Some (be32_of_bytes _)). Qed.
Lemma ipv4_dst_addr : field32 (ipv4_header_bytes f ++ rest) 16 = Some (fr_dst f).
Proof. exact (f_equal Some (be32_of_bytes _)). Qed.
End Ipv4Header.

Lemma frame_ipv4_ptr f : frame_ok f ->
  ptr_add (frame_bytes f) 14 =
    Some (ipv4_header_bytes f ++ fr_options f ++ l4_bytes (fr_l4 f) ++ fr_trailer f).
Proof.
  intros (_ & Hm & _). unfold frame_bytes. rewrite app_assoc. apply ptr_add_app.
  rewrite length_app, Hm. done.
Qed.

Lemma frame_l4_ptr f : frame_ok f ->
  ptr_add (frame_bytes f) (34 + len (fr_options f)) = Some (l4_bytes (fr_l4 f) ++ fr_trailer f).
Proof.
  intros (_ & Hm & _). unfold frame_bytes. rewrite !app_assoc, <- app_assoc. apply ptr_add_app.
  rewrite !length_app, ipv4_header_length, Hm. cbn [length be16_bytes]. lia.
Qed.

Lemma frame_ether_type f : frame_ok f -> field16 (frame_bytes f) 12 = Some 0x0800.
Proof.
  intros (_ & Hm & _). unfold frame_bytes.
  replace 12 with (len (fr_macs f) + 0) by lia. rewrite field16_app_r by lia. done.
Qed.

Lemma frame_bytes_ok f : frame_ok f -> bytes (frame_bytes f).
Proof.
  intros Hf. pose proof (frame_bytes_length f Hf) as HL. unfold frame_ok in Hf. destruct_and!.
  assert (0 <= fr_ihl f <= 15) by (unfold fr_ihl; Z.div_mod_to_equations; lia).
  assert (fits 16 (fr_total_length f)).
  { unfold fr_total_length in *. fits_lia. }
  assert (is_byte (l4_number (fr_l4 f))) by (destruct (fr_l4 f); cbn; fits_lia).
  assert (is_byte (16 * 4 + fr_ihl f)) by fits_lia.
  unfold frame_bytes, ipv4_header_bytes.
  repeat first [apply Forall_app; split]; eauto using l4_bytes_ok with fits; bytes_list;
    by vm_compute.
Qed.
