(* ===== verification/ParserSpec.v ===== *)
(** * Correctness of the parser

    The parser never reads outside the segment, accepts exactly the sentences
    of the grammar of [Wire] and computes their metadata, and classifies every
    other frame as unsupported or malformed. *)
From Stdlib Require Import ZArith Lia.
From stdpp Require Import base list numbers option.
From S2P Require Import Prelude Host Packet Parser Wire.

Section ParserSpec.
Context {H : Host} {HO : HostOk H}.

(** ** The transport layer *)

(** Fold the header offsets, and read fields as the wire defines them. *)
Ltac wire_fields :=
  unfold sizeof_rte_tcp_hdr, sizeof_rte_udp_hdr, sizeof_rte_ipv4_hdr, sizeof_rte_ether_hdr,
    TCP_DATA_OFF, TCP_SRC_PORT, TCP_DST_PORT, UDP_DGRAM_LEN, UDP_SRC_PORT, UDP_DST_PORT,
    IPV4_VERSION_IHL, IPV4_TOTAL_LENGTH, IPV4_FRAGMENT_OFFSET, IPV4_SRC_ADDR, IPV4_DST_ADDR,
    IPV4_NEXT_PROTO_ID, ETHER_TYPE;
  rewrite ?rd16_be, ?rd32_be by done.

Lemma dp_parse_tcp_total data payload_len meta :
  bytes data -> payload_len <= len data ->
  exists r meta', dp_parse_tcp data payload_len meta = Some (r, meta').
Proof.
  intros Hb Hl. unfold dp_parse_tcp. wire_fields.
  case_if; [eauto|]. bool_to_prop. read_step.
  case_if; [eauto|]. case_if; [eauto|]. do 2 read_step. eauto.
Qed.

Lemma dp_parse_udp_total data payload_len meta :
  bytes data -> payload_len <= len data ->
  exists r meta', dp_parse_udp data payload_len meta = Some (r, meta').
Proof.
  intros Hb Hl. unfold dp_parse_udp. wire_fields.
  case_if; [eauto|]. bool_to_prop. read_step. case_if; [eauto|]. do 2 read_step. eauto.
Qed.

(** A segment in the grammar is accepted with the metadata of the segment. *)
Lemma dp_parse_tcp_accepts s rest meta : l4_ok s -> l4_number s = 6 -> bytes rest ->
  dp_parse_tcp (l4_bytes s ++ rest) (len (l4_bytes s)) meta = Some (DP_PARSE_OK, l4_meta s meta).
Proof.
  destruct s as [sp dp sa lo fx op pl|]; [|done]. intros Hs _ Hr.
  pose proof (Forall_app_2 _ _ _ (l4_bytes_ok _ Hs) Hr) as Hb. unfold dp_parse_tcp. wire_fields.
  rewrite tcp_data_off, l4_sport, l4_dport by apply Hs.
  rewrite l4_bytes_length by done. bind_cbn. rewrite shiftr_4.
  destruct Hs as (_ & _ & _ & _ & Hlo & _ & _ & _ & Mop & Lop & _).
  rewrite (proj2 (Z.ltb_ge _ _)) by lia.
  replace ((16 * (5 + len op / 4) + lo) / 16) with (5 + len op / 4)
    by (Z.div_mod_to_equations; lia).
  rewrite (wrap_id 8) by (Z.div_mod_to_equations; fits_lia).
  rewrite (proj2 (Z.ltb_ge _ _)) by (Z.div_mod_to_equations; lia).
  replace ((5 + len op / 4) * 4) with (20 + len op) by (Z.div_mod_to_equations; lia).
  rewrite wrap_id by fits_lia. by rewrite (proj2 (Z.ltb_ge _ _)) by lia.
Qed.

Lemma dp_parse_udp_accepts s rest meta : l4_ok s -> l4_number s = 17 -> bytes rest ->
  dp_parse_udp (l4_bytes s ++ rest) (len (l4_bytes s)) meta = Some (DP_PARSE_OK, l4_meta s meta).
Proof.
  destruct s as [|sp dp dl ck bd]; [done|]. intros Hs _ Hr.
  pose proof (Forall_app_2 _ _ _ (l4_bytes_ok _ Hs) Hr) as Hb. unfold dp_parse_udp. wire_fields.
  rewrite udp_dgram_len, l4_sport, l4_dport.
  rewrite l4_bytes_length by done. bind_cbn.
  destruct Hs as (_ & _ & _ & _ & _ & Hdl).
  by rewrite !(proj2 (Z.ltb_ge _ _)) by lia.
Qed.

(** Conversely, an accepted segment is a sentence of the grammar. *)
Lemma dp_parse_tcp_sound data payload_len meta meta' :
  bytes data -> payload_len <= len data ->
  dp_parse_tcp data payload_len meta = Some (DP_PARSE_OK, meta') ->
  exists s rest, data = l4_bytes s ++ rest /\ len (l4_bytes s) = payload_len /\
    l4_ok s /\ l4_number s = 6 /\ meta' = l4_meta s meta.
Proof.
  intros Hb Hl. unfold dp_parse_tcp. wire_fields.
  case_if; [done|]. bool_to_prop.
  destruct (list_split_at (Z.to_nat payload_len) data) as (seg & rest & -> & Lseg); [lia|].
  apply Forall_app in Hb as [Hseg Hrest].
  destruct (list_split_at 20 seg) as (hdr & tl & -> & Lhdr); [lia|].
  rewrite !length_app in *. explode_len Lhdr. apply Forall_app in Hseg as [Hhdr Htl].
  rd8_compute. rewrite shiftr_4.
  rename x11 into doff. bytes_inv Hhdr.
  rewrite (wrap_id 8) by (Z.div_mod_to_equations; fits_lia).
  case_if; [done|]. rewrite wrap_id by (Z.div_mod_to_equations; fits_lia).
  case_if; [done|]. bool_to_prop. intros [= <-]. cbn [length] in Lseg.
  destruct (list_split_at (Z.to_nat (doff / 16 * 4 - 20)) tl) as (op & pl & -> & Lop);
    [Z.div_mod_to_equations; lia|]. rewrite length_app in Lseg. apply Forall_app in Htl as [Hop Hpl].
  assert (doff / 16 < 16) by (Z.div_mod_to_equations; fits_lia).
  set (s := Tcp (be16 x x0) (be16 x1 x2) [x3; x4; x5; x6; x7; x8; x9; x10]
              (doff mod 16) [x12; x13; x14; x15; x16; x17; x18] op pl).
  assert (l4_ok s) as Hs.
  { cbn -[Z.of_nat]. rewrite Lop. split_and!; auto with fits;
      first [by bytes_list | Z.div_mod_to_equations; lia]. }
  exists s, rest. split_and!; [|rewrite l4_bytes_length by done; cbn -[Z.of_nat]; lia|done..|].
  - cbn [l4_bytes s]. rewrite !be16_bytes_be16 by done. cbn -[Z.of_nat Z.div Z.mul Z.modulo].
    repeat f_equal. rewrite Lop. Z.div_mod_to_equations; lia.
  - unfold l4_meta, s. f_equal. lia.
Qed.

Lemma dp_parse_udp_sound data payload_len meta meta' :
  bytes data -> payload_len <= len data ->
  dp_parse_udp data payload_len meta = Some (DP_PARSE_OK, meta') ->
  exists s rest, data = l4_bytes s ++ rest /\ len (l4_bytes s) = payload_len /\
    l4_ok s /\ l4_number s = 17 /\ meta' = l4_meta s meta.
Proof.
  intros Hb Hl. unfold dp_parse_udp. wire_fields.
  case_if; [done|]. bool_to_prop.
  destruct (list_split_at (Z.to_nat payload_len) data) as (seg & rest & -> & Lseg); [lia|].
  apply Forall_app in Hb as [Hseg Hrest].
  destruct (list_split_at 8 seg) as (hdr & body & -> & Lhdr); [lia|].
  rewrite !length_app in *. explode_len Lhdr. apply Forall_app in Hseg as [Hhdr Hbody].
  rd8_compute. bytes_inv Hhdr.
  case_if; [done|]. bool_to_prop. intros [= <-]. cbn [length] in Lseg.
  set (s := Udp (be16 x x0) (be16 x1 x2) (be16 x3 x4) (be16 x5 x6) body).
  assert (l4_ok s) as Hs.
  { cbn -[Z.of_nat be16]. split_and!; auto with fits; lia. }
  exists s, rest. split_and!; [|rewrite l4_bytes_length by done; cbn -[Z.of_nat]; lia|done..].
  cbn [l4_bytes s]. by rewrite !be16_bytes_be16 by done.
Qed.

(** ** The network layer *)

Definition l2_meta (et : Z) : dp_packet_meta := meta_set_l2 et sizeof_rte_ether_hdr meta_zero.

Lemma dp_parse_ipv4_total data frame_len meta :
  bytes data -> fits 16 frame_len -> frame_len = len data -> l2_len meta = 14 ->
  exists r meta', dp_parse_ipv4 data frame_len meta = Some (r, meta').
Proof.
  intros Hb Hf -> Hl2. unfold dp_parse_ipv4. wire_fields. rewrite Hl2.
  rewrite wrap_id by fits_lia. case_if; [eauto|]. bool_to_prop.
  rewrite ptr_add_Some by lia. bind_cbn.
  set (ipv4 := drop (Z.to_nat 14) data).
  assert (len ipv4 = len data - 14) by (unfold ipv4; rewrite length_drop; lia).
  assert (bytes ipv4) by (by apply Forall_drop).
  wire_fields. repeat read_step. case_if; [eauto|]. bool_to_prop. case_if; [eauto|]. bool_to_prop.
  case_if; [eauto|]. bool_to_prop. case_if; [eauto|]. cbn [l4_offset meta_set_l3 l4_proto].
  pose proof (rd8_byte _ _ _ ltac:(done) Hb0) as Hvi. rewrite land_0x0f in *.
  rewrite (wrap_id 8 (b mod 16)) in * by (Z.div_mod_to_equations; fits_lia).
  rewrite (wrap_id 16 (b mod 16 * 4)) in * by (Z.div_mod_to_equations; fits_lia).
  rewrite (wrap_id 16 (14 + _)) by (Z.div_mod_to_equations; fits_lia).
  pose proof (field16_fits _ _ _ ltac:(done) Hv).
  rewrite (wrap_id 16) by (Z.div_mod_to_equations; fits_lia).
  rewrite ptr_add_Some by (Z.div_mod_to_equations; lia). bind_cbn.
  assert (v - b mod 16 * 4 <= len (drop (Z.to_nat (14 + b mod 16 * 4)) data))
    by (rewrite length_drop; Z.div_mod_to_equations; lia).
  case_if; [apply dp_parse_tcp_total; auto using Forall_drop|].
  case_if; [apply dp_parse_udp_total; auto using Forall_drop|eauto].
Qed.

Lemma dp_parse_ipv4_accepts f : frame_ok f ->
  dp_parse_ipv4 (frame_bytes f) (len (frame_bytes f)) (l2_meta 0x0800) =
    Some (DP_PARSE_OK, frame_meta f).
Proof.
  intros Hf. pose proof (frame_bytes_ok f Hf) as Hb. pose proof (frame_bytes_length f Hf) as HL.
  unfold dp_parse_ipv4. cbn [l2_len l2_meta meta_set_l2].
  rewrite frame_ipv4_ptr by done.
  unfold frame_bytes in Hb. rewrite app_assoc in Hb. apply Forall_app in Hb as [_ Hb].
  bind_cbn. wire_fields.
  rewrite ipv4_version_ihl, ipv4_total_length, ipv4_fragment_offset, ipv4_next_proto,
    ipv4_src_addr, ipv4_dst_addr. bind_cbn.
  unfold frame_ok in Hf. pose proof Hf as Hf'. destruct_and! Hf.
  pose proof (l4_bytes_length (fr_l4 f) ltac:(done)) as Hl4.
  assert (8 <= len (l4_bytes (fr_l4 f))) by (rewrite Hl4; destruct (fr_l4 f); lia).
  assert (fr_ihl f * 4 = 20 + len (fr_options f) /\ 5 <= fr_ihl f <= 15) as [Hihl Hr]
    by (unfold fr_ihl; Z.div_mod_to_equations; lia).
  unfold fr_total_length in *.
  rewrite shiftr_4, land_0x0f.
  replace ((64 + fr_ihl f) / 16) with 4 by (Z.div_mod_to_equations; lia).
  replace ((64 + fr_ihl f) mod 16) with (fr_ihl f) by (Z.div_mod_to_equations; lia).
  rewrite (wrap_id 8 (fr_ihl f)), Hihl by fits_lia.
  rewrite !(wrap_id 16) by fits_lia. rewrite !(wrap_id 64) by fits_lia.
  rewrite land_fragment_mask. change (u8 4) with 4. do 5 if_false.
  cbn [l4_offset meta_set_l3 l4_proto].
  replace (14 + (20 + len (fr_options f))) with (34 + len (fr_options f)) by lia.
  rewrite frame_l4_ptr by done. bind_cbn.
  replace (20 + len (fr_options f) + len (l4_bytes (fr_l4 f)) - (20 + len (fr_options f)))
    with (len (l4_bytes (fr_l4 f))) by lia.
  unfold frame_meta. destruct (fr_l4 f) eqn:El4; cbn [l4_number Z.eqb IPPROTO_TCP IPPROTO_UDP Pos.eqb];
    rewrite <- ?El4 in *.
  - apply dp_parse_tcp_accepts; [done|by rewrite El4|done].
  - apply dp_parse_udp_accepts; [done|by rewrite El4|done].
Qed.

(** Conversely, an accepted frame is a sentence of the grammar. *)
Lemma dp_parse_l4_sound proto data payload_len meta meta' :
  bytes data -> payload_len <= len data ->
  (if proto =? IPPROTO_TCP then dp_parse_tcp data payload_len meta
   else if proto =? IPPROTO_UDP then dp_parse_udp data payload_len meta
   else Some (DP_PARSE_UNSUPPORTED, meta)) = Some (DP_PARSE_OK, meta') ->
  exists s rest, data = l4_bytes s ++ rest /\ len (l4_bytes s) = payload_len /\
    l4_ok s /\ l4_number s = proto /\ meta' = l4_meta s meta.
Proof.
  intros Hb Hl. unfold IPPROTO_TCP, IPPROTO_UDP. case_if; bool_to_prop.
  - subst. by apply dp_parse_tcp_sound.
  - case_if; [|done]. bool_to_prop. subst. by apply dp_parse_udp_sound.
Qed.

(** The header bytes [b0 .. b19], the options and the segment of an accepted
    frame are those of a frame in the grammar. *)
Lemma frame_of_header macs e0 e1 b0 b1 b2 b3 b4 b5 b6 b7 b8 b9 b10 b11 b12 b13 b14 b15 b16 b17
    b18 b19 op s rest :
  let hdr := [b0; b1; b2; b3; b4; b5; b6; b7; b8; b9; b10; b11; b12; b13; b14; b15; b16; b17;
              b18; b19] in
  let data := (macs ++ [e0; e1]) ++ hdr ++ op ++ l4_bytes s ++ rest in
  bytes data -> length macs = 12%nat -> len data <= 65535 -> be16 e0 e1 = 0x0800 -> l4_ok s ->
  l4_number s = b9 -> b0 / 16 = 4 -> len op = b0 mod 16 * 4 - 20 ->
  be16 b2 b3 = b0 mod 16 * 4 + len (l4_bytes s) -> be16 b6 b7 mod 16384 = 0 ->
  exists f, frame_ok f /\ frame_bytes f = data /\
    frame_meta f = l4_meta s (meta_set_l3 (be32 b12 b13 b14 b15) (be32 b16 b17 b18 b19) b9
                                (b0 mod 16 * 4) (14 + b0 mod 16 * 4) (l2_meta 0x0800)).
Proof.
  intros hdr data Hb Lm HL Het Hs Hn Hver Lop Htot Hfrag.
  pose proof Hb as Hb'. unfold data, hdr in Hb'. rewrite !Forall_app in Hb'.
  destruct Hb' as ((Hm & He) & Hh & Hop & Hseg & Hrest). bytes_inv He. bytes_inv Hh.
  set (f := {| fr_macs := macs; fr_tos := b1; fr_id := be16 b4 b5; fr_flags := be16 b6 b7;
    fr_ttl := b8; fr_cksum := be16 b10 b11; fr_src := be32 b12 b13 b14 b15;
    fr_dst := be32 b16 b17 b18 b19; fr_options := op; fr_l4 := s; fr_trailer := rest |}).
  assert (fr_total_length f = be16 b2 b3) as Htl by (unfold fr_total_length; cbn; lia).
  assert (16 * 4 + fr_ihl f = b0) as Hv.
  { unfold fr_ihl. cbn -[Z.mul Z.add]. rewrite Lop. Z.div_mod_to_equations; lia. }
  assert (frame_bytes f = data) as Hfb.
  { unfold frame_bytes, ipv4_header_bytes. rewrite Htl, Hv.
    cbn [fr_macs fr_tos fr_id fr_flags fr_ttl fr_cksum fr_src fr_dst fr_options fr_l4 fr_trailer f].
    rewrite <- Het, Hn, !be16_bytes_be16, !be32_bytes_be32 by done.
    unfold data, hdr. by rewrite <- !app_assoc. }
  exists f. split_and!; [|done|].
  - unfold frame_ok. rewrite Hfb.
    cbn [fr_macs fr_tos fr_id fr_flags fr_ttl fr_cksum fr_src fr_dst fr_options fr_l4 fr_trailer f].
    split_and!; auto with fits; rewrite ?Lop; Z.div_mod_to_equations; lia.
  - unfold frame_meta. cbn. rewrite Hn. unfold l4_meta.
    destruct s; f_equal; unfold meta_set_l3; f_equal; cbn; lia.
Qed.

Lemma dp_parse_ipv4_sound data meta' :
  bytes data -> len data <= 65535 -> 14 <= len data -> field16 data 12 = Some 0x0800 ->
  dp_parse_ipv4 data (len data) (l2_meta 0x0800) = Some (DP_PARSE_OK, meta') ->
  exists f, frame_ok f /\ frame_bytes f = data /\ meta' = frame_meta f.
Proof.
  intros Hb HL H14. unfold dp_parse_ipv4. cbn [l2_len l2_meta meta_set_l2].
  intros Het. wire_fields. rewrite wrap_id by fits_lia.
  case_if; [done|]. bool_to_prop.
  destruct (list_split_at 14 data) as (eth & ip & -> & Leth); [lia|].
  rewrite ptr_add_app by lia. bind_cbn.
  destruct (list_split_at 20 ip) as (hdr & tl & -> & Lhdr); [rewrite length_app in *; lia|].
  rewrite !length_app in *. apply Forall_app in Hb as [Heth Hip].
  wire_fields. apply Forall_app in Hip as [Hhdr Htl].
  pose proof Hhdr as Hhdr'. pose proof Heth as Heth'.
  explode_len Leth. explode_len Lhdr. revert Het. rd8_compute. intros [= Het].
  cbn [length Nat.add] in *. rename x13 into vihl.
  rewrite shiftr_4, land_0x0f, land_fragment_mask. bytes_inv Heth. bytes_inv Hhdr.
  rewrite u8_high_nibble, u8_low_nibble, u16_low_nibble_words by done.
  pose proof (Z.mod_pos_bound vihl 16 ltac:(lia)) as Hnib.
  pose proof (be16_fits x15 x16 ltac:(done) ltac:(done)) as Htot. red in Htot.
  case_if; [done|]. case_if; [done|]. case_if; [done|]. case_if; [done|]. bool_to_prop.
  rewrite !(wrap_id 16) by (split; lia). cbn [l4_offset l4_proto meta_set_l3].
  destruct (list_split_at (Z.to_nat (vihl mod 16 * 4 - 20)) tl) as (op & seg & -> & Lop); [lia|].
  rewrite length_app in *. apply Forall_app in Htl as [Hop Hseg].
  rewrite !app_assoc, ptr_add_app by (rewrite !length_app; cbn [length]; lia). bind_cbn.
  intros (s & rest & -> & Ls & Hs & Hn & ->)%dp_parse_l4_sound; [|done|lia].
  rewrite length_app in *. cbn [length Nat.add] in *. apply Forall_app in Hseg as [Hseg Hrest].
  pose proof (frame_of_header [x; x0; x1; x2; x3; x4; x5; x6; x7; x8; x9; x10] x11 x12 vihl x14
    x15 x16 x17 x18 x19 x20 x21 x22 x23 x24 x25 x26 x27 x28 x29 x30 x31 x32 op s rest) as Hframe.
  cbv zeta in Hframe.
  destruct Hframe as (f & Hf & Hfb & Hm).
  - repeat first [apply Forall_app; split]; try assumption; bytes_list.
  - reflexivity.
  - rewrite !length_app. cbn [length Nat.add]. lia.
  - exact Het.
  - exact Hs.
  - exact Hn.
  - assumption.
  - lia.
  - lia.
  - assumption.
  - exists f. split_and!; [exact Hf|by rewrite Hfb, <- !app_assoc|by rewrite Hm].
Qed.

(** ** Frames that are not accepted *)

(** An IPv4 header of [ihl] words and total length [total] that fits the frame. *)
Definition ipv4_header_fits (d : list Z) (ihl total : Z) : Prop :=
  exists v, rd8 d 14 = Some v /\ v / 16 = 4 /\ v mod 16 = ihl /\ 5 <= ihl /\
    34 <= len d /\ field16 d 16 = Some total /\ ihl * 4 <= total <= len d - 14.

(** What makes a frame whose lengths are consistent unsupported rather than
    malformed: another network protocol, a fragment, another transport. *)
Definition frame_unsupported (d : list Z) : Prop :=
  14 <= len d /\
  (field16 d 12 <> Some 0x0800 \/
   exists ihl total, ipv4_header_fits d ihl total /\
     ((exists v, field16 d 20 = Some v /\ v mod 16384 <> 0) \/
      (exists p, rd8 d 23 = Some p /\ p <> 6 /\ p <> 17))).

Ltac reads_done := repeat (match goal with |- context [?r ≫= _] => destruct r end; bind_cbn; [|done]).

Lemma dp_parse_tcp_not_unsupported data n meta meta' :
  dp_parse_tcp data n meta <> Some (DP_PARSE_UNSUPPORTED, meta').
Proof.
  unfold dp_parse_tcp. case_if; [done|]. reads_done.
  case_if; [done|]. case_if; [done|]. by reads_done.
Qed.

Lemma dp_parse_udp_not_unsupported data n meta meta' :
  dp_parse_udp data n meta <> Some (DP_PARSE_UNSUPPORTED, meta').
Proof. unfold dp_parse_udp. case_if; [done|]. reads_done. case_if; [done|]. by reads_done. Qed.

Lemma dp_parse_ipv4_unsupported data :
  bytes data -> fits 16 (len data) ->
  (exists meta', dp_parse_ipv4 data (len data) (l2_meta 0x0800) =
                   Some (DP_PARSE_UNSUPPORTED, meta')) <->
  exists ihl total, ipv4_header_fits data ihl total /\
    ((exists v, field16 data 20 = Some v /\ v mod 16384 <> 0) \/
     (exists p, rd8 data 23 = Some p /\ p <> 6 /\ p <> 17)).
Proof.
  intros Hb Hf. unfold dp_parse_ipv4. cbn [l2_len l2_meta meta_set_l2]. wire_fields.
  rewrite wrap_id by fits_lia. case_if; bool_to_prop.
  { split; [intros [? [=]]|]. intros (? & ? & (? & ? & ? & ? & ? & ? & ?) & _). lia. }
  rewrite ptr_add_Some by lia. bind_cbn. set (ipv4 := drop (Z.to_nat 14) data).
  assert (bytes ipv4) by (by apply Forall_drop). wire_fields. unfold ipv4.
  rewrite !rd8_drop, !field16_drop, !field32_drop by lia.
  change (14 + 0) with 14; change (14 + 2) with 16; change (14 + 6) with 20; change (14 + 9) with 23.
  repeat read_step.
  pose proof (rd8_byte _ _ _ Hb Hb0) as Hvi. pose proof (field16_fits _ _ _ Hb Hv) as Htot.
  pose proof (Z.mod_pos_bound b 16 ltac:(lia)) as Hnib. red in Htot.
  rewrite shiftr_4, land_0x0f, u8_high_nibble, u8_low_nibble, u16_low_nibble_words by done.
  rewrite land_fragment_mask. cbn [l4_offset l4_proto meta_set_l3].
  transitivity ((b / 16 = 4 /\ 5 <= b mod 16 /\ b mod 16 * 4 <= v <= len data - 14) /\
                (v0 mod 16384 <> 0 \/ (b0 <> 6 /\ b0 <> 17))).
  - unfold IPPROTO_TCP, IPPROTO_UDP.
    case_if; bool_to_prop; [split; [by intros [? ?]|lia]|].
    case_if; bool_to_prop; [split; [by intros [? ?]|lia]|].
    case_if; bool_to_prop; [split; [by intros [? ?]|lia]|].
    case_if; bool_to_prop; [split; [lia|eauto]|].
    rewrite !wrap_id by fits_lia. rewrite ptr_add_Some by lia. bind_cbn.
    case_if; bool_to_prop; [split; [by intros [? ?%dp_parse_tcp_not_unsupported]|lia]|].
    case_if; bool_to_prop; [split; [by intros [? ?%dp_parse_udp_not_unsupported]|lia]|].
    split; [lia|eauto].
  - split.
    + intros ((? & ? & ?) & Hk). exists (b mod 16), v. split.
      * exists b. auto 10 with lia.
      * destruct Hk as [?|?]; [left; exists v0|right; exists b0]; auto.
    + intros (ihl & total & (w & Hw & Hver & <- & H5 & _ & Ht & Hle) & Hk).
      rewrite Hb0 in Hw. injection Hw as <-. rewrite Hv in Ht. injection Ht as <-. split; [lia|].
      destruct Hk as [(? & E & ?)|(? & E & ? & ?)]; injection E as <-; auto.
Qed.

(** ** The parser on an mbuf *)

(** The lengths the parser demands before it looks at the bytes. *)
Definition mbuf_contiguous (m : rte_mbuf) : Prop := nb_segs m = 1 /\ pkt_len m = data_len m.

Lemma dp_parse_packet_unfold m meta : mbuf_ok m -> mbuf_contiguous m ->
  dp_parse_packet (Some m) (Some meta) =
    let d := mbuf_data m in
    if len d <? 14 then Some (DP_PARSE_MALFORMED, Some meta_zero) else
    et ← field16 d 12;
    if negb (et =? 0x0800) then Some (DP_PARSE_UNSUPPORTED, Some (l2_meta et)) else
    '(r, meta') ← dp_parse_ipv4 d (len d) (l2_meta et); Some (r, Some meta').
Proof.
  intros (_ & _ & Hl & Hb & HL) (Hn & Hp). unfold dp_parse_packet, UINT16_MAX.
  rewrite Hn, Hp, <- HL in *. red in Hl. do 2 (if_false; cbv iota zeta). by wire_fields.
Qed.

(** The parser accepts exactly the frames of the grammar. *)
Lemma dp_parse_packet_grammar m meta0 meta : mbuf_ok m ->
  dp_parse_packet (Some m) (Some meta0) = Some (DP_PARSE_OK, Some meta) <->
  mbuf_contiguous m /\
  exists f, frame_ok f /\ frame_bytes f = mbuf_data m /\ frame_meta f = meta.
Proof.
  intros Hm. split.
  - intros HP. assert (mbuf_contiguous m) as Hc.
    { unfold dp_parse_packet in HP. split;
        destruct (Z.eqb_spec (nb_segs m) 1), (Z.eqb_spec (pkt_len m) (data_len m)); done. }
    split; [done|]. rewrite dp_parse_packet_unfold in HP by done.
    destruct Hm as (_ & _ & Hl & Hb & HL). revert HP. cbn zeta.
    case_if; [done|]. bool_to_prop.
    destruct (field16 _ 12) as [et|] eqn:Het; bind_cbn; [|done].
    case_if; [done|]. bool_to_prop. subst.
    destruct (dp_parse_ipv4 _ _ _) as [[r meta']|] eqn:E; bind_cbn; [|done]. intros [= -> <-].
    destruct (dp_parse_ipv4_sound _ _ Hb ltac:(fits_lia) ltac:(done) Het E) as (f & ? & ? & ->).
    eauto.
  - intros (Hc & f & Hf & Hd & <-). rewrite dp_parse_packet_unfold by done. rewrite <- Hd.
    pose proof (frame_bytes_length f Hf). unfold fr_total_length in *. cbn zeta.
    if_false. rewrite frame_ether_type by done. bind_cbn. cbn [Z.eqb Pos.eqb negb].
    by rewrite dp_parse_ipv4_accepts.
Qed.

(** The parser returns on every segment, without reading outside of it. *)
Lemma dp_parse_packet_total m meta0 : mbuf_ok m ->
  exists r meta, dp_parse_packet (Some m) (Some meta0) = Some (r, Some meta).
Proof.
  intros Hm. destruct (decide (nb_segs m = 1 /\ pkt_len m = data_len m)) as [Hc|Hc].
  - rewrite dp_parse_packet_unfold by done. destruct Hm as (_ & _ & Hl & Hb & HL).
    cbn zeta. case_if; [eauto|]. bool_to_prop. read_step. case_if; [eauto|].
    destruct (dp_parse_ipv4_total (mbuf_data m) (len (mbuf_data m)) (l2_meta v))
      as (r & meta' & ->); [done|by rewrite HL|done|done|]. bind_cbn. eauto.
  - unfold dp_parse_packet. case_if; [eauto|]. case_if; [eauto|]. exfalso. apply Hc.
    bool_to_prop. lia.
Qed.

(** Which frames it calls unsupported. *)
Lemma dp_parse_packet_unsupported m meta0 : mbuf_ok m ->
  (exists meta, dp_parse_packet (Some m) (Some meta0) = Some (DP_PARSE_UNSUPPORTED, meta)) <->
  nb_segs m <> 1 \/ (mbuf_contiguous m /\ frame_unsupported (mbuf_data m)).
Proof.
  intros Hm. unfold frame_unsupported, mbuf_contiguous.
  destruct (decide (nb_segs m = 1)) as [Hn|Hn].
  2: { split; [by left|]. intros _. unfold dp_parse_packet. if_true. eauto. }
  destruct (decide (pkt_len m = data_len m)) as [Hp|Hp].
  2: { unfold dp_parse_packet. if_false. cbn zeta. if_true.
       split; [by intros [? ?]|intros [?|[[? ?] _]]; done]. }
  rewrite dp_parse_packet_unfold by done. destruct Hm as (_ & _ & Hl & Hb & HL). cbn zeta.
  case_if; bool_to_prop; [split; [by intros [? ?]|lia]|].
  read_step. case_if; bool_to_prop.
  { split; [|eauto]. right. split; [done|]. split; [done|]. left. congruence. }
  subst v. rewrite <- HL in Hl. pose proof (dp_parse_ipv4_unsupported _ Hb Hl) as HU.
  transitivity (exists meta', dp_parse_ipv4 (mbuf_data m) (len (mbuf_data m)) (l2_meta 0x0800) =
                   Some (DP_PARSE_UNSUPPORTED, meta')).
  { destruct (dp_parse_ipv4 _ _ _) as [[r meta']|]; bind_cbn;
      split; intros [? [=]]; subst; eauto. }
  rewrite HU. split; [eauto 10|]. intros [?|(_ & _ & [?|?])]; [done..|done].
Qed.

(** C15: The parser accepts exactly the frames of the grammar.  An mbuf is
    accepted if and only if it is a single segment with consistent lengths
    whose bytes serialize a well-formed Ethernet/IPv4/TCP-or-UDP frame, and
    then the metadata are the fields of that frame. *)
Theorem dp_parse_packet_accepts_grammar m meta0 meta : mbuf_ok m ->
  dp_parse_packet (Some m) (Some meta0) = Some (DP_PARSE_OK, Some meta) <->
  mbuf_contiguous m /\
  exists f, frame_ok f /\ frame_bytes f = mbuf_data m /\ frame_meta f = meta.
Proof. apply dp_parse_packet_grammar. Qed.

(** C30: The parser is total and memory safe: on every mbuf whose segment holds
    its [data_len] bytes, whatever those bytes and whatever the state of the
    output object, it returns a result and never reads outside the segment. *)
Theorem dp_parse_packet_safe m meta0 : mbuf_ok m ->
  exists r meta, dp_parse_packet (Some m) (Some meta0) = Some (r, Some meta).
Proof. apply dp_parse_packet_total. Qed.

(** Which frames are unsupported: those in several segments, and those
    with consistent lengths that carry another network protocol, an IPv4
    fragment, or another transport under an IPv4 header that fits the frame.
    By the acceptance theorem every remaining frame is malformed. *)
Theorem dp_parse_packet_unsupported_iff m meta0 : mbuf_ok m ->
  (exists meta, dp_parse_packet (Some m) (Some meta0) = Some (DP_PARSE_UNSUPPORTED, meta)) <->
  nb_segs m <> 1 \/ (mbuf_contiguous m /\ frame_unsupported (mbuf_data m)).
Proof. apply dp_parse_packet_unsupported. Qed.

(** Both sides perform the same read. *)
Ltac next_read := match goal with |- (?r ≫= _) = _ => destruct r end; bind_cbn; [|done].

(** What a packet parses to does not depend on the byte order of the
    machine: result and metadata are those of the big-endian host, on which the
    DPDK conversions are the identity. *)
Theorem dp_parse_packet_host_independent m meta0 : mbuf_ok m ->
  dp_parse_packet (Some m) meta0 = @dp_parse_packet big_endian (Some m) meta0.
Proof.
  intros (_ & _ & _ & Hb & _). unfold dp_parse_packet. destruct meta0; [|done].
  case_if; [done|]. cbn zeta. case_if; [done|]. case_if; [done|].
  rewrite !rd16_be by done. next_read. case_if; [done|].
  enough (dp_parse_ipv4 (mbuf_data m) (data_len m) (meta_set_l2 z sizeof_rte_ether_hdr meta_zero) =
          @dp_parse_ipv4 big_endian (mbuf_data m) (data_len m)
            (meta_set_l2 z sizeof_rte_ether_hdr meta_zero)) as -> by done.
  unfold dp_parse_ipv4. case_if; [done|].
  destruct (ptr_add _ (l2_len _)) as [p|] eqn:Ep; bind_cbn; [|done].
  apply ptr_add_inv in Ep as [_ ->]. set (p := drop _ _).
  assert (bytes p) by (by apply Forall_drop). rewrite !rd16_be, !rd32_be by done.
  next_read. case_if; [done|]. case_if; [done|]. next_read. case_if; [done|].
  next_read. case_if; [done|]. do 3 next_read.
  destruct (ptr_add _ _) as [q|] eqn:Eq; bind_cbn; [|done].
  apply ptr_add_inv in Eq as [_ ->]. set (q := drop _ _).
  assert (bytes q) by (by apply Forall_drop).
  unfold dp_parse_tcp, dp_parse_udp. by rewrite !rd16_be by done.
Qed.
End ParserSpec.
