(* ===== verification/Api.v ===== *)
(** * The native API: [dp_api.h]

    Constants, rules, worker descriptions and counters, as plain data. *)
From Stdlib Require Import ZArith Lia.
From stdpp Require Import base list numbers option.
From S2P Require Import Prelude.

(** ** Error numbers

    State functions return 0 or a negative errno; the values are Linux's. *)
Definition EIO := 5.
Definition ENOMEM := 12.
Definition EBUSY := 16.
Definition EEXIST := 17.
Definition EXDEV := 18.
Definition ENODEV := 19.
Definition EINVAL := 22.
Definition ENOSPC := 28.
Definition ENOTSUP := 95.
Definition EALREADY := 114.

(** [-(rte_errno ? rte_errno : dflt)] *)
Definition neg_errno (rte_errno dflt : Z) : Z := - (if rte_errno =? 0 then dflt else rte_errno).

Lemma neg_errno_neg e d : 0 <= e -> 0 < d -> neg_errno e d < 0.
Proof. unfold neg_errno. case_if; bool_to_prop; lia. Qed.

(** ** Limits and enumerations *)
Definition DP_MAX_WORKERS := 4.
Definition DP_MAX_FLOW_RULES := 1024.
Definition DP_MAX_ROUTE_RULES := 1024.

(** [enum dp_action_type]; an action stores it in a [uint8_t] *)
Definition DP_ACTION_DROP := 0.
Definition DP_ACTION_FORWARD := 1.
Definition DP_ACTION_REWRITE := 2.

(** [enum dp_rewrite_mask] *)
Definition DP_REWRITE_SRC_IPV4 := Z.shiftl 1 0.
Definition DP_REWRITE_DST_IPV4 := Z.shiftl 1 1.
Definition DP_REWRITE_SRC_PORT := Z.shiftl 1 2.
Definition DP_REWRITE_DST_PORT := Z.shiftl 1 3.

(** ** Rules *)
Record dp_rule_action := {
  act_type : Z;
  act_rewrite_mask : Z;
  act_reserved : Z;
  act_src_ipv4 : Z;
  act_dst_ipv4 : Z;
  act_src_port : Z;
  act_dst_port : Z;
}.

Record dp_flow_rule := {
  flow_src_ipv4 : Z;
  flow_dst_ipv4 : Z;
  flow_src_port : Z;
  flow_dst_port : Z;
  flow_l4_proto : Z;
  flow_reserved : Z * Z * Z;
  flow_action : dp_rule_action;
}.

Record dp_route_rule := {
  route_prefix : Z;
  route_depth : Z;
  route_reserved : Z * Z * Z;
  route_action : dp_rule_action;
}.

#[export] Instance dp_rule_action_eq_dec : EqDecision dp_rule_action.
Proof. solve_decision. Defined.
#[export] Instance dp_flow_rule_eq_dec : EqDecision dp_flow_rule.
Proof. solve_decision. Defined.
#[export] Instance dp_route_rule_eq_dec : EqDecision dp_route_rule.
Proof. solve_decision. Defined.

(** Zeroed objects, as [calloc], [memset] and [rte_zmalloc] produce them. *)
Definition action_zero : dp_rule_action := {|
  act_type := 0; act_rewrite_mask := 0; act_reserved := 0; act_src_ipv4 := 0;
  act_dst_ipv4 := 0; act_src_port := 0; act_dst_port := 0 |}.
Definition flow_zero : dp_flow_rule := {|
  flow_src_ipv4 := 0; flow_dst_ipv4 := 0; flow_src_port := 0; flow_dst_port := 0;
  flow_l4_proto := 0; flow_reserved := (0, 0, 0); flow_action := action_zero |}.
Definition route_zero : dp_route_rule := {|
  route_prefix := 0; route_depth := 0; route_reserved := (0, 0, 0);
  route_action := action_zero |}.

(** The fields hold values of their C types. *)
Definition action_fits (a : dp_rule_action) : Prop :=
  fits 8 (act_type a) /\ fits 8 (act_rewrite_mask a) /\ fits 16 (act_reserved a) /\
  fits 32 (act_src_ipv4 a) /\ fits 32 (act_dst_ipv4 a) /\
  fits 16 (act_src_port a) /\ fits 16 (act_dst_port a).

Definition flow_fits (r : dp_flow_rule) : Prop :=
  fits 32 (flow_src_ipv4 r) /\ fits 32 (flow_dst_ipv4 r) /\ fits 16 (flow_src_port r) /\
  fits 16 (flow_dst_port r) /\ fits 8 (flow_l4_proto r) /\ action_fits (flow_action r).

Definition route_fits (r : dp_route_rule) : Prop :=
  fits 32 (route_prefix r) /\ fits 8 (route_depth r) /\ action_fits (route_action r).

(** ** Workers *)
Record dp_worker_info := {
  worker_id : Z;
  lcore_id : Z;
  rx_queue_id : Z;
  tx_queue_id : Z;
}.

(** ** Packet counters

    [uint64_t] counters; each increment wraps at 2^64. *)
Record dp_packet_stats := {
  rx : Z;
  parse_ok : Z;
  parse_unsupported : Z;
  parse_malformed : Z;
  flow_hit : Z;
  route_hit : Z;
  lookup_miss : Z;
  action_drop : Z;
  action_forward : Z;
  action_rewrite : Z;
  tx_accepted : Z;
  tx_unsent : Z;
  drop_ : Z;
  rx_bursts : Z;
  rx_empty_polls : Z;
  tx_bursts : Z;
}.

Definition stats_zero : dp_packet_stats := {|
  rx := 0;
  parse_ok := 0;
  parse_unsupported := 0;
  parse_malformed := 0;
  flow_hit := 0;
  route_hit := 0;
  lookup_miss := 0;
  action_drop := 0;
  action_forward := 0;
  action_rewrite := 0;
  tx_accepted := 0;
  tx_unsent := 0;
  drop_ := 0;
  rx_bursts := 0;
  rx_empty_polls := 0;
  tx_bursts := 0 |}.

(** The counters by name, so that one update function serves all of them. *)
Inductive counter :=
  | Rx | Parse_ok | Parse_unsupported | Parse_malformed | Flow_hit | Route_hit | Lookup_miss | Action_drop
  | Action_forward | Action_rewrite | Tx_accepted | Tx_unsent | Drop | Rx_bursts | Rx_empty_polls | Tx_bursts.

#[export] Instance counter_eq_dec : EqDecision counter.
Proof. solve_decision. Defined.

Definition get_counter (s : dp_packet_stats) (c : counter) : Z :=
  match c with
  | Rx => rx s | Parse_ok => parse_ok s | Parse_unsupported => parse_unsupported s
  | Parse_malformed => parse_malformed s | Flow_hit => flow_hit s | Route_hit => route_hit s
  | Lookup_miss => lookup_miss s | Action_drop => action_drop s | Action_forward => action_forward s
  | Action_rewrite => action_rewrite s | Tx_accepted => tx_accepted s | Tx_unsent => tx_unsent s
  | Drop => drop_ s | Rx_bursts => rx_bursts s | Rx_empty_polls => rx_empty_polls s
  | Tx_bursts => tx_bursts s
  end.

Definition tabulate (g : counter -> Z) : dp_packet_stats := {|
  rx := g Rx; parse_ok := g Parse_ok; parse_unsupported := g Parse_unsupported;
  parse_malformed := g Parse_malformed; flow_hit := g Flow_hit; route_hit := g Route_hit;
  lookup_miss := g Lookup_miss; action_drop := g Action_drop; action_forward := g Action_forward;
  action_rewrite := g Action_rewrite; tx_accepted := g Tx_accepted; tx_unsent := g Tx_unsent;
  drop_ := g Drop; rx_bursts := g Rx_bursts; rx_empty_polls := g Rx_empty_polls;
  tx_bursts := g Tx_bursts |}.

(** [stats->c += n] and [stats->c++] *)
Definition add (c : counter) (n : Z) (s : dp_packet_stats) : dp_packet_stats :=
  tabulate (fun c' => if decide (c = c') then u64 (get_counter s c' + n) else get_counter s c').
Definition incr (c : counter) : dp_packet_stats -> dp_packet_stats := add c 1.

(** Each counter is a [uint64_t]. *)
Definition stats_fit (s : dp_packet_stats) : Prop := forall c, fits 64 (get_counter s c).

#[export] Instance dp_packet_stats_eq_dec : EqDecision dp_packet_stats.
Proof. solve_decision. Defined.
#[export] Instance dp_worker_info_eq_dec : EqDecision dp_worker_info.
Proof. solve_decision. Defined.

Lemma get_tabulate g c : get_counter (tabulate g) c = g c.
Proof. by destruct c. Qed.

Lemma tabulate_get s : tabulate (get_counter s) = s.
Proof. by destruct s. Qed.

Lemma stats_ext s t : (forall c, get_counter s c = get_counter t c) -> s = t.
Proof.
  intros Heq. rewrite <- (tabulate_get s), <- (tabulate_get t). unfold tabulate.
  by rewrite !Heq.
Qed.

Lemma get_add s c n c' :
  get_counter (add c n s) c' =
    if decide (c = c') then u64 (get_counter s c' + n) else get_counter s c'.
Proof. unfold add. apply get_tabulate. Qed.

Lemma add_fit c n s : stats_fit s -> stats_fit (add c n s).
Proof. intros Hs c'. rewrite get_add. case_decide; [by apply wrap_fits|apply Hs]. Qed.

Lemma add_add c n m s : add c m (add c n s) = add c (n + m) s.
Proof.
  apply stats_ext. intros c'. rewrite !get_add. case_decide; [|done].
  by rewrite wrap_add_l, Z.add_assoc.
Qed.

Lemma add_comm c c' n m s : add c n (add c' m s) = add c' m (add c n s).
Proof.
  apply stats_ext. intros k. rewrite !get_add.
  repeat case_decide; try done. subst. rewrite !wrap_add_l. f_equal. lia.
Qed.

(** ** The control-plane part of [struct dp_stats] *)
Record dp_ctl_stats := {
  rules_generation : Z;
  rules_publish_success : Z;
  rules_publish_failed : Z;
  rules_reclaimed : Z;
  ports_closed : Z;
  pool_in_use : Z;
  pool_freed : Z;
  flow_table_freed : Z;
  route_table_freed : Z;
  action_store_freed : Z;
  snapshot_freed : Z;
  qsbr_freed : Z;
}.

Definition ctl_zero : dp_ctl_stats := {|
  rules_generation := 0; rules_publish_success := 0; rules_publish_failed := 0; rules_reclaimed := 0;
  ports_closed := 0; pool_in_use := 0; pool_freed := 0; flow_table_freed := 0;
  route_table_freed := 0; action_store_freed := 0; snapshot_freed := 0; qsbr_freed := 0 |}.

#[export] Instance dp_ctl_stats_eq_dec : EqDecision dp_ctl_stats.
Proof. solve_decision. Defined.

(** [dp.stats.field = v] *)
Definition set_rules_generation (v : Z) (s : dp_ctl_stats) : dp_ctl_stats := {|
  rules_generation := v; rules_publish_success := rules_publish_success s; rules_publish_failed := rules_publish_failed s;
  rules_reclaimed := rules_reclaimed s; ports_closed := ports_closed s; pool_in_use := pool_in_use s;
  pool_freed := pool_freed s; flow_table_freed := flow_table_freed s; route_table_freed := route_table_freed s;
  action_store_freed := action_store_freed s; snapshot_freed := snapshot_freed s; qsbr_freed := qsbr_freed s |}.
Definition set_rules_publish_success (v : Z) (s : dp_ctl_stats) : dp_ctl_stats := {|
  rules_generation := rules_generation s; rules_publish_success := v; rules_publish_failed := rules_publish_failed s;
  rules_reclaimed := rules_reclaimed s; ports_closed := ports_closed s; pool_in_use := pool_in_use s;
  pool_freed := pool_freed s; flow_table_freed := flow_table_freed s; route_table_freed := route_table_freed s;
  action_store_freed := action_store_freed s; snapshot_freed := snapshot_freed s; qsbr_freed := qsbr_freed s |}.
Definition set_rules_publish_failed (v : Z) (s : dp_ctl_stats) : dp_ctl_stats := {|
  rules_generation := rules_generation s; rules_publish_success := rules_publish_success s; rules_publish_failed := v;
  rules_reclaimed := rules_reclaimed s; ports_closed := ports_closed s; pool_in_use := pool_in_use s;
  pool_freed := pool_freed s; flow_table_freed := flow_table_freed s; route_table_freed := route_table_freed s;
  action_store_freed := action_store_freed s; snapshot_freed := snapshot_freed s; qsbr_freed := qsbr_freed s |}.
Definition set_rules_reclaimed (v : Z) (s : dp_ctl_stats) : dp_ctl_stats := {|
  rules_generation := rules_generation s; rules_publish_success := rules_publish_success s; rules_publish_failed := rules_publish_failed s;
  rules_reclaimed := v; ports_closed := ports_closed s; pool_in_use := pool_in_use s;
  pool_freed := pool_freed s; flow_table_freed := flow_table_freed s; route_table_freed := route_table_freed s;
  action_store_freed := action_store_freed s; snapshot_freed := snapshot_freed s; qsbr_freed := qsbr_freed s |}.
Definition set_ports_closed (v : Z) (s : dp_ctl_stats) : dp_ctl_stats := {|
  rules_generation := rules_generation s; rules_publish_success := rules_publish_success s; rules_publish_failed := rules_publish_failed s;
  rules_reclaimed := rules_reclaimed s; ports_closed := v; pool_in_use := pool_in_use s;
  pool_freed := pool_freed s; flow_table_freed := flow_table_freed s; route_table_freed := route_table_freed s;
  action_store_freed := action_store_freed s; snapshot_freed := snapshot_freed s; qsbr_freed := qsbr_freed s |}.
Definition set_pool_in_use (v : Z) (s : dp_ctl_stats) : dp_ctl_stats := {|
  rules_generation := rules_generation s; rules_publish_success := rules_publish_success s; rules_publish_failed := rules_publish_failed s;
  rules_reclaimed := rules_reclaimed s; ports_closed := ports_closed s; pool_in_use := v;
  pool_freed := pool_freed s; flow_table_freed := flow_table_freed s; route_table_freed := route_table_freed s;
  action_store_freed := action_store_freed s; snapshot_freed := snapshot_freed s; qsbr_freed := qsbr_freed s |}.
Definition set_pool_freed (v : Z) (s : dp_ctl_stats) : dp_ctl_stats := {|
  rules_generation := rules_generation s; rules_publish_success := rules_publish_success s; rules_publish_failed := rules_publish_failed s;
  rules_reclaimed := rules_reclaimed s; ports_closed := ports_closed s; pool_in_use := pool_in_use s;
  pool_freed := v; flow_table_freed := flow_table_freed s; route_table_freed := route_table_freed s;
  action_store_freed := action_store_freed s; snapshot_freed := snapshot_freed s; qsbr_freed := qsbr_freed s |}.
Definition set_flow_table_freed (v : Z) (s : dp_ctl_stats) : dp_ctl_stats := {|
  rules_generation := rules_generation s; rules_publish_success := rules_publish_success s; rules_publish_failed := rules_publish_failed s;
  rules_reclaimed := rules_reclaimed s; ports_closed := ports_closed s; pool_in_use := pool_in_use s;
  pool_freed := pool_freed s; flow_table_freed := v; route_table_freed := route_table_freed s;
  action_store_freed := action_store_freed s; snapshot_freed := snapshot_freed s; qsbr_freed := qsbr_freed s |}.
Definition set_route_table_freed (v : Z) (s : dp_ctl_stats) : dp_ctl_stats := {|
  rules_generation := rules_generation s; rules_publish_success := rules_publish_success s; rules_publish_failed := rules_publish_failed s;
  rules_reclaimed := rules_reclaimed s; ports_closed := ports_closed s; pool_in_use := pool_in_use s;
  pool_freed := pool_freed s; flow_table_freed := flow_table_freed s; route_table_freed := v;
  action_store_freed := action_store_freed s; snapshot_freed := snapshot_freed s; qsbr_freed := qsbr_freed s |}.
Definition set_action_store_freed (v : Z) (s : dp_ctl_stats) : dp_ctl_stats := {|
  rules_generation := rules_generation s; rules_publish_success := rules_publish_success s; rules_publish_failed := rules_publish_failed s;
  rules_reclaimed := rules_reclaimed s; ports_closed := ports_closed s; pool_in_use := pool_in_use s;
  pool_freed := pool_freed s; flow_table_freed := flow_table_freed s; route_table_freed := route_table_freed s;
  action_store_freed := v; snapshot_freed := snapshot_freed s; qsbr_freed := qsbr_freed s |}.
Definition set_snapshot_freed (v : Z) (s : dp_ctl_stats) : dp_ctl_stats := {|
  rules_generation := rules_generation s; rules_publish_success := rules_publish_success s; rules_publish_failed := rules_publish_failed s;
  rules_reclaimed := rules_reclaimed s; ports_closed := ports_closed s; pool_in_use := pool_in_use s;
  pool_freed := pool_freed s; flow_table_freed := flow_table_freed s; route_table_freed := route_table_freed s;
  action_store_freed := action_store_freed s; snapshot_freed := v; qsbr_freed := qsbr_freed s |}.
Definition set_qsbr_freed (v : Z) (s : dp_ctl_stats) : dp_ctl_stats := {|
  rules_generation := rules_generation s; rules_publish_success := rules_publish_success s; rules_publish_failed := rules_publish_failed s;
  rules_reclaimed := rules_reclaimed s; ports_closed := ports_closed s; pool_in_use := pool_in_use s;
  pool_freed := pool_freed s; flow_table_freed := flow_table_freed s; route_table_freed := route_table_freed s;
  action_store_freed := action_store_freed s; snapshot_freed := snapshot_freed s; qsbr_freed := v |}.
