(* ===== verification/Tables.v ===== *)
(** * Lookup tables: the DPDK hash and LPM interfaces

    [rte_hash] and [rte_lpm] are DPDK's.  [DpdkTables] lists the operations the
    program calls and [DpdkTablesOk] what DPDK documents about them: a hash maps
    a 16-byte key to the data pointer added last, an LPM table is a set of
    (prefix, depth) rules with 24-bit next hops and finds the next hop of the
    longest one that matches.  Additions may fail (bucket occupancy, exhausted tbl8 groups); the
    laws say nothing about when.  [reference_tables] implements the interface. *)
From Stdlib Require Import ZArith Lia.
From stdpp Require Import base list numbers option gmap.
From S2P Require Import Prelude Packet Api.

(** ** [struct dp_flow_key]: 16 bytes, padding included *)
Record dp_flow_key := {
  key_src_ipv4 : Z;
  key_dst_ipv4 : Z;
  key_src_port : Z;
  key_dst_port : Z;
  key_l4_proto : Z;
  key_reserved : Z * Z * Z;
}.

#[export] Instance dp_flow_key_eq_dec : EqDecision dp_flow_key.
Proof. solve_decision. Defined.

Definition flow_key_zero : dp_flow_key := {|
  key_src_ipv4 := 0; key_dst_ipv4 := 0; key_src_port := 0; key_dst_port := 0;
  key_l4_proto := 0; key_reserved := (0, 0, 0) |}.

(** [&actions[index]]: the address of the array and the index. *)
Record action_ptr := { ap_base : Z; ap_index : Z }.

#[export] Instance action_ptr_eq_dec : EqDecision action_ptr.
Proof. solve_decision. Defined.

(** ** Prefixes *)
Definition depth_mask (depth : Z) : Z := u32 (Z.shiftl UINT32_MAX (32 - depth)).
Definition prefix_of (ip depth : Z) : Z := Z.land ip (depth_mask depth).

(** The longest matching prefix of depth at most [n], in a table given by its
    lookup function. *)
Fixpoint longest_match_upto {A} (f : Z * Z -> option A) (ip : Z) (n : nat) : option A :=
  match n with
  | O => None
  | S m => match f (prefix_of ip (Z.of_nat n), Z.of_nat n) with
           | Some a => Some a
           | None => longest_match_upto f ip m
           end
  end.
Definition longest_match {A} (f : Z * Z -> option A) (ip : Z) : option A :=
  longest_match_upto f ip 32.

Lemma longest_match_ext {A} (f g : Z * Z -> option A) ip :
  (forall k, f k = g k) -> longest_match f ip = longest_match g ip.
Proof.
  intros Hfg. unfold longest_match. generalize 32%nat. intros n. induction n as [|n IH]; [done|].
  cbn [longest_match_upto]. by rewrite Hfg, IH.
Qed.

Lemma longest_match_fmap {A B} (h : A -> B) (f : Z * Z -> option A) ip :
  longest_match (fun k => h <$> f k) ip = h <$> longest_match f ip.
Proof.
  unfold longest_match. generalize 32%nat. intros n. induction n as [|n IH]; [done|].
  cbn [longest_match_upto]. by destruct (f _).
Qed.

(** What "longest" means: a result comes from a depth at which the address
    matches, and no deeper prefix matches. *)
Lemma longest_match_upto_Some {A} (f : Z * Z -> option A) ip n a :
  longest_match_upto f ip n = Some a <->
  exists d, 1 <= d <= Z.of_nat n /\ f (prefix_of ip d, d) = Some a /\
    forall d', d < d' <= Z.of_nat n -> f (prefix_of ip d', d') = None.
Proof.
  induction n as [|n IH]; cbn [longest_match_upto].
  { split; [done|]. intros (d & ? & _). lia. }
  destruct (f (_, Z.of_nat (S n))) as [b|] eqn:Hf.
  - split.
    + intros [= ->]. exists (Z.of_nat (S n)). split; [lia|]. split; [done|]. intros. lia.
    + intros (d & Hd & Hfd & Hmax). destruct (decide (d = Z.of_nat (S n))) as [->|].
      * congruence.
      * rewrite Hmax in Hf by lia. done.
  - rewrite IH. split; intros (d & Hd & Hfd & Hmax); exists d.
    + split; [lia|]. split; [done|]. intros d' Hd'.
      destruct (decide (d' = Z.of_nat (S n))) as [->|]; [done|]. apply Hmax. lia.
    + destruct (decide (d = Z.of_nat (S n))) as [->|]; [congruence|].
      split; [lia|]. split; [done|]. intros d' Hd'. apply Hmax. lia.
Qed.

(** ** The interface *)
Class DpdkTables := {
  rte_hash : Type;
  rte_lpm : Type;
  (** the contents of a table just created with these capacities *)
  hash_new : Z -> rte_hash;
  lpm_new : Z -> Z -> rte_lpm;
  (** [Some data]: the call returned a non-negative position and set the data *)
  rte_hash_lookup_data : rte_hash -> dp_flow_key -> option action_ptr;
  (** the return code and the table afterwards *)
  rte_hash_add_key_data : rte_hash -> dp_flow_key -> action_ptr -> Z * rte_hash;
  rte_lpm_is_rule_present : rte_lpm -> Z -> Z -> Z;
  rte_lpm_add : rte_lpm -> Z -> Z -> Z -> Z * rte_lpm;
  (** [Some next_hop]: the call returned 0 *)
  rte_lpm_lookup : rte_lpm -> Z -> option Z;
}.

Class DpdkTablesOk (T : DpdkTables) := {
  hash_lookup_new n k : rte_hash_lookup_data (hash_new n) k = None;
  hash_lookup_add t k p r t' k' : rte_hash_add_key_data t k p = (r, t') -> 0 <= r ->
    rte_hash_lookup_data t' k' = if decide (k = k') then Some p else rte_hash_lookup_data t k';
  (** the rules of an LPM table *)
  lpm_rules : rte_lpm -> gmap (Z * Z) Z;
  lpm_rules_new n m : lpm_rules (lpm_new n m) = ∅;
  lpm_is_rule_present_spec t ip d : fits 32 ip -> 1 <= d <= 32 ->
    rte_lpm_is_rule_present t ip d = if lpm_rules t !! (prefix_of ip d, d) is Some _ then 1 else 0;
  lpm_rules_add t ip d nh r t' : fits 32 ip -> 1 <= d <= 32 -> fits 24 nh ->
    rte_lpm_add t ip d nh = (r, t') -> 0 <= r ->
    lpm_rules t' = <[(prefix_of ip d, d) := nh]> (lpm_rules t);
  lpm_lookup_longest t ip : fits 32 ip ->
    rte_lpm_lookup t ip = longest_match (fun k => lpm_rules t !! k) ip;
}.

(** ** A reference implementation *)
Definition reference_tables : DpdkTables := {|
  rte_hash := list (dp_flow_key * action_ptr);
  rte_lpm := gmap (Z * Z) Z;
  hash_new _ := [];
  lpm_new _ _ := ∅;
  rte_hash_lookup_data t k := snd <$> entry_of fst t k;
  rte_hash_add_key_data t k p := (0, (k, p) :: t);
  rte_lpm_is_rule_present t ip d := if t !! (prefix_of ip d, d) is Some _ then 1 else 0;
  rte_lpm_add t ip d nh := (0, <[(prefix_of ip d, d) := nh]> t);
  rte_lpm_lookup t ip := longest_match (fun k => t !! k) ip;
|}.

#[export] Instance reference_tables_ok : DpdkTablesOk reference_tables.
Proof.
  refine {| lpm_rules := fun t : @rte_lpm reference_tables => t |}; try done.
  - intros t k p r t' k' [= <- <-] _. cbn. unfold entry_of. cbn.
    case_decide; [done|]. by destruct (index_of fst t k').
  - by intros t ip d nh r t' _ _ _ [= <- <-] _.
Defined.
