(* ===== verification/Heap.v ===== *)
(** * The control-plane heap

    Snapshots, action stores and tables are reached through pointers, several
    generations live at the same time, and readers may hold a pointer while the
    writer frees what it points to.  The model therefore has a heap: an address
    that is not in its domain is not allocated, and loading, storing or freeing
    it is undefined behaviour ([None]). *)
From Stdlib Require Import ZArith Lia.
From stdpp Require Import base list numbers option gmap.
From S2P Require Import Prelude Api Tables.

(** [struct dp_rule_snapshot]; [None] is the NULL pointer. *)
Record dp_rule_snapshot := {
  flow_table : option Z;
  route_table : option Z;
  actions : option Z;
  action_count : Z;
  generation : Z;
}.

Definition snapshot_zero : dp_rule_snapshot := {|
  flow_table := None; route_table := None; actions := None; action_count := 0;
  generation := 0 |}.

Definition set_flow_table (p : option Z) (s : dp_rule_snapshot) : dp_rule_snapshot := {|
  flow_table := p; route_table := route_table s; actions := actions s;
  action_count := action_count s; generation := generation s |}.
Definition set_route_table (p : option Z) (s : dp_rule_snapshot) : dp_rule_snapshot := {|
  flow_table := flow_table s; route_table := p; actions := actions s;
  action_count := action_count s; generation := generation s |}.
Definition set_actions (p : option Z) (n : Z) (s : dp_rule_snapshot) : dp_rule_snapshot := {|
  flow_table := flow_table s; route_table := route_table s; actions := p;
  action_count := n; generation := generation s |}.
Definition set_generation (g : Z) (s : dp_rule_snapshot) : dp_rule_snapshot := {|
  flow_table := flow_table s; route_table := route_table s; actions := actions s;
  action_count := action_count s; generation := g |}.

Section Heap.
Context {T : DpdkTables}.

Inductive hobj :=
  | HSnapshot (s : dp_rule_snapshot)
  | HActions (l : list dp_rule_action)
  | HHash (t : rte_hash)
  | HLpm (t : rte_lpm).

Abbreviation heap_t := (gmap Z hobj).

(** The heap and the control-plane counters of [dp.stats]. *)
Record rules_world := { heap : heap_t; ctl : dp_ctl_stats }.

Definition with_heap (h : heap_t) (w : rules_world) : rules_world := {| heap := h; ctl := ctl w |}.
Definition on_ctl (f : dp_ctl_stats -> dp_ctl_stats) (w : rules_world) : rules_world :=
  {| heap := heap w; ctl := f (ctl w) |}.

(** ** Typed loads *)
Definition get_snapshot (h : heap_t) (a : Z) : option dp_rule_snapshot :=
  match h !! a with Some (HSnapshot s) => Some s | _ => None end.
Definition get_hash (h : heap_t) (a : Z) : option rte_hash :=
  match h !! a with Some (HHash t) => Some t | _ => None end.
Definition get_lpm (h : heap_t) (a : Z) : option rte_lpm :=
  match h !! a with Some (HLpm t) => Some t | _ => None end.
Definition get_actions (h : heap_t) (a : Z) : option (list dp_rule_action) :=
  match h !! a with Some (HActions l) => Some l | _ => None end.
(** [*p] for an action pointer *)
Definition get_action (h : heap_t) (p : action_ptr) : option dp_rule_action :=
  l ← get_actions h (ap_base p);
  if 0 <=? ap_index p then l !! Z.to_nat (ap_index p) else None.

(** ** Effects *)
Definition load {A} (f : heap_t -> Z -> option A) (a : Z) : M rules_world A :=
  fun w => x ← f (heap w) a; Some (x, w).

(** Dereferencing a pointer field: NULL is undefined behaviour. *)
Definition load_ptr {A} (f : heap_t -> Z -> option A) (p : option Z) : M rules_world A :=
  fun w => a ← p; load f a w.

(** Overwrite a live object. *)
Definition store (a : Z) (o : hobj) : M rules_world unit :=
  fun w => _ ← heap w !! a; Some (tt, with_heap (<[a := o]> (heap w)) w).

(** A new object at the address the allocator returned. *)
Definition alloc (a : Z) (o : hobj) : M rules_world unit :=
  modify (fun w => with_heap (<[a := o]> (heap w)) w).

(** Freeing an address that is not live (a double free) is undefined. *)
Definition hfree (a : Z) : M rules_world unit :=
  fun w => _ ← heap w !! a; Some (tt, with_heap (delete a (heap w)) w).

Definition when (b : bool) (m : M rules_world unit) : M rules_world unit :=
  if b then m else mret tt.

Lemma hfree_live a w : is_Some (heap w !! a) ->
  hfree a w = Some (tt, with_heap (delete a (heap w)) w).
Proof. intros [o Ho]. unfold hfree. by rewrite Ho. Qed.

Lemma store_live a o w : is_Some (heap w !! a) ->
  store a o w = Some (tt, with_heap (<[a := o]> (heap w)) w).
Proof. intros [o' Ho]. unfold store. by rewrite Ho. Qed.

(** [if (p) { free(p); if (record) dp.stats.field = 1; }] *)
Definition free_field (p : option Z) (record_stats : bool) (set : dp_ctl_stats -> dp_ctl_stats)
    : M rules_world unit :=
  match p with
  | None => mret tt
  | Some a => hfree a;; when record_stats (modify (on_ctl set))
  end.

Definition odelete (p : option Z) (h : heap_t) : heap_t :=
  match p with Some a => delete a h | None => h end.

Lemma odelete_other p h a : p <> Some a -> odelete p h !! a = h !! a.
Proof. destruct p; cbn; intros; [|done]. apply lookup_delete_ne. congruence. Qed.

Lemma free_field_spec p record_stats set w :
  (forall a, p = Some a -> is_Some (heap w !! a)) ->
  free_field p record_stats set w =
    Some (tt, {| heap := odelete p (heap w);
                 ctl := if p is Some _ then if record_stats then set (ctl w) else ctl w
                        else ctl w |}).
Proof.
  intros Hp. destruct p as [a|]; cbn; [|by destruct w].
  unfold mbind, M_bind. rewrite hfree_live by auto. by destruct record_stats.
Qed.
End Heap.
