(* ===== verification/Snapshot.v ===== *)
(** * Rule snapshots: build, free, lookup ([dp_lookup.c])

    The definitions; [SnapshotSpec] states what they compute. *)
From Stdlib Require Import ZArith Lia.
From stdpp Require Import base list numbers option gmap strings pretty.
From S2P Require Import Prelude Packet Api Tables Heap.

(** ** Validation and keys *)
Definition dp_validate_action (action : dp_rule_action) : Z :=
  let valid_mask := u8 (Z.lor (Z.lor (Z.lor DP_REWRITE_SRC_IPV4 DP_REWRITE_DST_IPV4)
                                     DP_REWRITE_SRC_PORT) DP_REWRITE_DST_PORT) in
  if negb (act_reserved action =? 0) then - EINVAL else
  if (act_type action =? DP_ACTION_DROP) || (act_type action =? DP_ACTION_FORWARD) then
    if act_rewrite_mask action =? 0 then 0 else - EINVAL
  else if negb (act_type action =? DP_ACTION_REWRITE) then - EINVAL else
  if (act_rewrite_mask action =? 0) ||
     negb (Z.land (act_rewrite_mask action) (Z.lnot valid_mask) =? 0) then - EINVAL
  else 0.

Definition dp_flow_key_from_meta (meta : dp_packet_meta) : dp_flow_key :=
  {| key_src_ipv4 := src_ipv4 meta; key_dst_ipv4 := dst_ipv4 meta;
     key_src_port := src_port meta; key_dst_port := dst_port meta;
     key_l4_proto := l4_proto meta; key_reserved := key_reserved flow_key_zero |}.

(** The key the builder assembles from a rule. *)
Definition flow_rule_key (r : dp_flow_rule) : dp_flow_key :=
  {| key_src_ipv4 := flow_src_ipv4 r; key_dst_ipv4 := flow_dst_ipv4 r;
     key_src_port := flow_src_port r; key_dst_port := flow_dst_port r;
     key_l4_proto := flow_l4_proto r; key_reserved := key_reserved flow_key_zero |}.

Inductive dp_lookup_result := DP_LOOKUP_FLOW_HIT | DP_LOOKUP_ROUTE_HIT | DP_LOOKUP_MISS.

#[export] Instance dp_lookup_result_eq_dec : EqDecision dp_lookup_result.
Proof. solve_decision. Defined.

(** ** What the builder asks the allocators for *)
Inductive request :=
  | ReqZmalloc (name : string) (size socket : Z)
  | ReqHash (name : string) (entries key_len socket : Z)
  | ReqLpm (name : string) (socket max_rules number_tbl8s : Z).

#[export] Instance request_eq_dec : EqDecision request.
Proof. solve_decision. Defined.

(** The allocators' answers: an address, or NULL with [rte_errno]. *)
Definition allocator : Type := request -> Z + Z.

(** [char name[32]; snprintf(name, 32, "prefix%llu", generation)] *)
Definition table_name (prefix : string) (generation : Z) : string :=
  String.substring 0 31 (prefix +:+ pretty (Z.to_N generation)).

Definition sizeof_dp_rule_snapshot := 40.
Definition sizeof_dp_rule_action := 16.
Definition sizeof_dp_flow_key := 16.

Section Snapshot.
Context {T : DpdkTables}.
Abbreviation heap_t := (gmap Z hobj).

(** ** [dp_snapshot_free] *)
Definition dp_snapshot_free (snapshot : option Z) (reclaimed record_resource_stats : bool)
    : M rules_world unit :=
  match snapshot with
  | None => mret tt
  | Some sa =>
    s ← load get_snapshot sa;
    free_field (flow_table s) record_resource_stats (set_flow_table_freed 1);;
    free_field (route_table s) record_resource_stats (set_route_table_freed 1);;
    free_field (actions s) record_resource_stats (set_action_store_freed 1);;
    hfree sa;;
    when record_resource_stats (modify (on_ctl (set_snapshot_freed 1)));;
    when reclaimed (modify (on_ctl (fun c => set_rules_reclaimed (u64 (rules_reclaimed c + 1)) c)))
  end.

(** ** [dp_snapshot_build]

    One definition per phase; [dp_snapshot_build] composes them. *)
Section Build.
Context (allocate : allocator) (socket_id : Z).

(** [snapshot->field = ...] *)
Definition update_snapshot (sa : Z) (f : dp_rule_snapshot -> dp_rule_snapshot)
    : M rules_world unit :=
  s ← load get_snapshot sa; store sa (HSnapshot (f s)).

Definition build_action_store (sa total_actions : Z) : E rules_world unit :=
  if total_actions =? 0 then eret tt else
  match allocate (ReqZmalloc "dfr_rule_actions" (sizeof_dp_rule_action * total_actions) socket_id) with
  | inl rte_errno => efail (neg_errno rte_errno ENOMEM)
  | inr aa =>
    elift (alloc aa (HActions (replicate (Z.to_nat total_actions) action_zero))) ;!
    elift (update_snapshot sa (set_actions (Some aa) total_actions))
  end.

Definition build_flow_table (sa flow_count generation : Z) : E rules_world unit :=
  if flow_count =? 0 then eret tt else
  let entries := DP_MAX_FLOW_RULES * 2 in
  match allocate (ReqHash (table_name "dfr_f_" generation) entries sizeof_dp_flow_key socket_id) with
  | inl rte_errno => efail (neg_errno rte_errno ENOMEM)
  | inr ha =>
    elift (alloc ha (HHash (hash_new entries))) ;!
    elift (update_snapshot sa (set_flow_table (Some ha)))
  end.

Definition build_route_table (sa route_count generation : Z) : E rules_world unit :=
  if route_count =? 0 then eret tt else
  match allocate (ReqLpm (table_name "dfr_r_" generation) socket_id DP_MAX_ROUTE_RULES 256) with
  | inl rte_errno => efail (neg_errno rte_errno ENOMEM)
  | inr la =>
    elift (alloc la (HLpm (lpm_new DP_MAX_ROUTE_RULES 256))) ;!
    elift (update_snapshot sa (set_route_table (Some la)))
  end.

(** [snapshot->actions[index] = action] *)
Definition store_action (aa index : Z) (action : dp_rule_action) : M rules_world unit :=
  l ← load get_actions aa;
  if (0 <=? index) && (index <? Z.of_nat (length l))
  then store aa (HActions (<[Z.to_nat index := action]> l)) else ub.

(** An element of a caller's array; reading past it is undefined. *)
Definition nth_rule {A} (rules : option (list A)) (i : Z) : option A :=
  l ← rules; if 0 <=? i then l !! Z.to_nat i else None.

Definition reserved_nonzero (r : Z * Z * Z) : bool :=
  let '(r0, r1, r2) := r in negb (r0 =? 0) || negb (r1 =? 0) || negb (r2 =? 0).

(** The body of the first loop. *)
Definition add_flow_rule (sa : Z) (flows : option (list dp_flow_rule)) (i : Z)
    : E rules_world unit :=
  rule ←! elift (lift (nth_rule flows i));
  if (negb (flow_l4_proto rule =? IPPROTO_TCP) && negb (flow_l4_proto rule =? IPPROTO_UDP)) ||
     reserved_nonzero (flow_reserved rule)
  then efail (- EINVAL) else
  let ret := dp_validate_action (flow_action rule) in
  if ret <? 0 then efail ret else
  let key := flow_rule_key rule in
  s ←! elift (load get_snapshot sa);
  table ←! elift (load_ptr get_hash (flow_table s));
  match rte_hash_lookup_data table key with
  | Some _ => efail (- EEXIST)
  | None =>
    aa ←! elift (lift (actions s));
    elift (store_action aa i (flow_action rule)) ;!
    ha ←! elift (lift (flow_table s));
    let '(ret, table') := rte_hash_add_key_data table key {| ap_base := aa; ap_index := i |} in
    elift (store ha (HHash table')) ;!
    if ret <? 0 then efail ret else eret tt
  end.

(** The body of the second loop. *)
Definition add_route_rule (sa flow_count : Z) (routes : option (list dp_route_rule)) (i : Z)
    : E rules_world unit :=
  let action_index := u32 (flow_count + i) in
  rule ←! elift (lift (nth_rule routes i));
  if (route_depth rule =? 0) || (32 <? route_depth rule) ||
     reserved_nonzero (route_reserved rule)
  then efail (- EINVAL) else
  let mask := u32 (Z.shiftl UINT32_MAX (32 - route_depth rule)) in
  if negb (Z.land (route_prefix rule) mask =? route_prefix rule) then efail (- EINVAL) else
  let ret := dp_validate_action (route_action rule) in
  if ret <? 0 then efail ret else
  s ←! elift (load get_snapshot sa);
  table ←! elift (load_ptr get_lpm (route_table s));
  let ret := rte_lpm_is_rule_present table (route_prefix rule) (route_depth rule) in
  if 0 <? ret then efail (- EEXIST) else
  if ret <? 0 then efail ret else
  aa ←! elift (lift (actions s));
  elift (store_action aa action_index (route_action rule)) ;!
  la ←! elift (lift (route_table s));
  let '(ret, table') := rte_lpm_add table (route_prefix rule) (route_depth rule) action_index in
  elift (store la (HLpm table')) ;!
  if ret <? 0 then efail ret else eret tt.

(** Everything between the allocation of the snapshot and the label [fail]. *)
Definition build_body (sa : Z) (flows : option (list dp_flow_rule)) (flow_count : Z)
    (routes : option (list dp_route_rule)) (route_count generation : Z) : E rules_world unit :=
  elift (update_snapshot sa (set_generation generation)) ;!
  build_action_store sa (u32 (flow_count + route_count)) ;!
  build_flow_table sa flow_count generation ;!
  build_route_table sa route_count generation ;!
  efor (Z.to_nat flow_count) 0 (add_flow_rule sa flows) ;!
  efor (Z.to_nat route_count) 0 (add_route_rule sa flow_count routes).

Definition is_null {A} (p : option A) : bool := match p with None => true | Some _ => false end.

(** The return code and [*result]. *)
Definition dp_snapshot_build (flows : option (list dp_flow_rule)) (flow_count : Z)
    (routes : option (list dp_route_rule)) (route_count generation : Z)
    : M rules_world (Z * option Z) :=
  if (DP_MAX_FLOW_RULES <? flow_count) || (DP_MAX_ROUTE_RULES <? route_count)
  then mret (- ENOSPC, None) else
  if (negb (flow_count =? 0) && is_null flows) || (negb (route_count =? 0) && is_null routes)
  then mret (- EINVAL, None) else
  match allocate (ReqZmalloc "dfr_rule_snapshot" sizeof_dp_rule_snapshot socket_id) with
  | inl rte_errno => mret (neg_errno rte_errno ENOMEM, None)
  | inr sa =>
    alloc sa (HSnapshot snapshot_zero);;
    r ← (build_body sa flows flow_count routes route_count generation : M rules_world _);
    match r with
    | inr _ => mret (0, Some sa)
    | inl ret => dp_snapshot_free (Some sa) false false;; mret (ret, None)
    end
  end.
End Build.

(** ** [dp_lookup_packet]

    The result and [*action], read from the heap the snapshot lives in. *)
Definition dp_lookup_packet (h : heap_t) (meta : dp_packet_meta) (snapshot : option Z)
    : option (dp_lookup_result * option action_ptr) :=
  match snapshot with
  | None => Some (DP_LOOKUP_MISS, None)
  | Some sa =>
    s ← get_snapshot h sa;
    flow_action ← match flow_table s with
                  | None => Some None
                  | Some ha => t ← get_hash h ha;
                               Some (rte_hash_lookup_data t (dp_flow_key_from_meta meta))
                  end;
    match flow_action with
    | Some p => Some (DP_LOOKUP_FLOW_HIT, Some p)
    | None =>
      match route_table s with
      | None => Some (DP_LOOKUP_MISS, None)
      | Some la =>
        t ← get_lpm h la;
        match rte_lpm_lookup t (dst_ipv4 meta) with
        | None => Some (DP_LOOKUP_MISS, None)
        | Some action_index =>
          if action_index <? action_count s then
            aa ← actions s;
            Some (DP_LOOKUP_ROUTE_HIT, Some {| ap_base := aa; ap_index := action_index |})
          else Some (DP_LOOKUP_MISS, None)
        end
      end
    end
  end.
End Snapshot.
