(* ===== verification/SnapshotSpec.v ===== *)
(** * Correctness of rule snapshots

    The abstract contract of [dp_lookup.c]: a rule set is two lists, a packet is
    looked up in the flow rules first and then among the routes by longest
    prefix.  A successful build is a refinement of that contract, a failed one
    leaves the heap as it was. *)
From Stdlib Require Import ZArith Lia.
From stdpp Require Import base list numbers option gmap strings.
From S2P Require Import Prelude Packet Api Tables Heap Snapshot.

(** ** The contract *)
Definition action_valid (a : dp_rule_action) : Prop :=
  act_reserved a = 0 /\
  ((act_type a = DP_ACTION_DROP \/ act_type a = DP_ACTION_FORWARD) /\ act_rewrite_mask a = 0 \/
   act_type a = DP_ACTION_REWRITE /\ 1 <= act_rewrite_mask a <= 15).

Definition flow_rule_ok (r : dp_flow_rule) : Prop :=
  (flow_l4_proto r = IPPROTO_TCP \/ flow_l4_proto r = IPPROTO_UDP) /\
  flow_reserved r = (0, 0, 0) /\ action_valid (flow_action r).

Definition route_rule_ok (r : dp_route_rule) : Prop :=
  1 <= route_depth r <= 32 /\ route_reserved r = (0, 0, 0) /\
  prefix_of (route_prefix r) (route_depth r) = route_prefix r /\ action_valid (route_action r).

Definition route_key (r : dp_route_rule) : Z * Z := (route_prefix r, route_depth r).

Record rules_ok (flows : list dp_flow_rule) (routes : list dp_route_rule) : Prop := {
  flows_valid : Forall flow_rule_ok flows;
  flows_distinct : NoDup (flow_rule_key <$> flows);
  routes_valid : Forall route_rule_ok routes;
  routes_distinct : NoDup (route_key <$> routes);
}.

Definition within_limits (flows : list dp_flow_rule) (routes : list dp_route_rule) : Prop :=
  Z.of_nat (length flows) <= DP_MAX_FLOW_RULES /\ Z.of_nat (length routes) <= DP_MAX_ROUTE_RULES.

(** The action store of a snapshot: flow rules first. *)
Definition all_actions (flows : list dp_flow_rule) (routes : list dp_route_rule) : list dp_rule_action :=
  (flow_action <$> flows) ++ (route_action <$> routes).

(** The decision for a packet: result and action. *)
Definition lookup_spec (flows : list dp_flow_rule) (routes : list dp_route_rule)
    (meta : dp_packet_meta) : dp_lookup_result * option dp_rule_action :=
  match entry_of flow_rule_key flows (dp_flow_key_from_meta meta) with
  | Some r => (DP_LOOKUP_FLOW_HIT, Some (flow_action r))
  | None =>
    match longest_match (entry_of route_key routes) (dst_ipv4 meta) with
    | Some r => (DP_LOOKUP_ROUTE_HIT, Some (route_action r))
    | None => (DP_LOOKUP_MISS, None)
    end
  end.

#[export] Instance action_valid_dec a : Decision (action_valid a).
Proof. unfold action_valid. apply _. Defined.

Lemma ldiff_15 m : 0 <= m -> Z.land m (Z.lnot 15) = 0 <-> m <= 15.
Proof.
  intros. rewrite <- Z.ldiff_land. change 15 with (Z.ones 4) at 1. rewrite Z.ldiff_ones_r by lia.
  rewrite Z.shiftr_div_pow2, Z.shiftl_mul_pow2 by lia. change (2 ^ 4) with 16.
  Z.div_mod_to_equations. lia.
Qed.

Lemma dp_validate_action_spec a : action_fits a ->
  dp_validate_action a = if decide (action_valid a) then 0 else - EINVAL.
Proof.
  intros (_ & Hm & _). unfold dp_validate_action. change (u8 _) with 15.
  destruct (Z.eqb_spec (Z.land (act_rewrite_mask a) (Z.lnot 15)) 0) as [E|E];
    rewrite ldiff_15 in E by fits_lia;
  unfold action_valid, DP_ACTION_DROP, DP_ACTION_FORWARD, DP_ACTION_REWRITE in *;
  repeat (case_if; bool_to_prop); case_decide; try done; fits_lia.
Qed.

Lemma dp_validate_action_0 a : action_fits a -> dp_validate_action a = 0 <-> action_valid a.
Proof. intros. rewrite dp_validate_action_spec by done. by case_decide. Qed.

Lemma dp_validate_action_sign a : action_fits a ->
  (dp_validate_action a <? 0) = negb (bool_decide (action_valid a)).
Proof.
  intros. rewrite dp_validate_action_spec, bool_decide_decide by done. by case_decide.
Qed.

Lemma dp_validate_action_neg a : action_fits a ->
  (dp_validate_action a <? 0) = true -> dp_validate_action a = - EINVAL.
Proof. intros. rewrite dp_validate_action_spec in * by done. by case_decide. Qed.

Section Spec.
Context {T : DpdkTables} {TO : DpdkTablesOk T}.
Abbreviation heap_t := (gmap Z hobj).

(** ** The memory of one snapshot

    [layout h0 sa s acts t l] is the heap [h0] extended with the snapshot object
    at [sa] and the objects its non-NULL fields point to. *)
Definition oput (p : option Z) (o : hobj) (h : heap_t) : heap_t :=
  match p with Some a => <[a := o]> h | None => h end.

Definition layout (h0 : heap_t) (sa : Z) (s : dp_rule_snapshot) (acts : list dp_rule_action)
    (t : rte_hash) (l : rte_lpm) : heap_t :=
  <[sa := HSnapshot s]>
    (oput (actions s) (HActions acts)
       (oput (flow_table s) (HHash t) (oput (route_table s) (HLpm l) h0))).

Record ptrs_ok (h0 : heap_t) (sa : Z) (s : dp_rule_snapshot) : Prop := {
  ptr_sa : h0 !! sa = None;
  ptr_actions a : actions s = Some a -> h0 !! a = None /\ a <> sa;
  ptr_flow a : flow_table s = Some a -> h0 !! a = None /\ a <> sa /\ actions s <> Some a;
  ptr_route a : route_table s = Some a ->
    h0 !! a = None /\ a <> sa /\ actions s <> Some a /\ flow_table s <> Some a;
}.

(** Name the pointers of a snapshot and decide every lookup in its layout. *)
Ltac layout_cases Hp :=
  destruct Hp as [Hsa Ha Hf Hr];
  unfold layout, oput in *;
  repeat match goal with
  | |- context [actions ?s] => is_var s; destruct (actions s) eqn:?
  | |- context [flow_table ?s] => is_var s; destruct (flow_table s) eqn:?
  | |- context [route_table ?s] => is_var s; destruct (route_table s) eqn:?
  end;
  repeat match goal with
  | H : forall a, Some ?x = Some a -> _ |- _ => specialize (H x eq_refl)
  | H : forall a, ?p = Some a -> _, E : ?p = Some ?x |- _ => specialize (H x E)
  end;
  destruct_and?; simplify_eq.

Ltac heap_ext :=
  apply map_eq; intros ?k; cbn [actions flow_table route_table set_actions set_flow_table
    set_route_table set_generation] in *;
  rewrite ?lookup_insert, ?lookup_delete, ?lookup_insert;
  repeat (case_decide; simplify_eq; try done).

Section Layout.
Context (h0 : heap_t) (sa : Z) (s : dp_rule_snapshot) (Hp : ptrs_ok h0 sa s).
Implicit Types (acts : list dp_rule_action) (t : rte_hash) (l : rte_lpm).

Lemma layout_snapshot acts t l : get_snapshot (layout h0 sa s acts t l) sa = Some s.
Proof. unfold get_snapshot, layout. by rewrite lookup_insert_eq. Qed.

Lemma layout_actions acts t l a : actions s = Some a ->
  get_actions (layout h0 sa s acts t l) a = Some acts.
Proof.
  intros E. destruct (ptr_actions _ _ _ Hp a E) as [_ ?]. unfold get_actions, layout, oput.
  by rewrite E, lookup_insert_ne, lookup_insert_eq by done.
Qed.

Lemma layout_hash acts t l a : flow_table s = Some a ->
  get_hash (layout h0 sa s acts t l) a = Some t.
Proof.
  intros E. destruct (ptr_flow _ _ _ Hp a E) as (_ & ? & ?). unfold get_hash, layout.
  rewrite lookup_insert_ne by done. unfold oput. rewrite E.
  destruct (actions s); [rewrite lookup_insert_ne by congruence|]; by rewrite lookup_insert_eq.
Qed.

Lemma layout_lpm acts t l a : route_table s = Some a ->
  get_lpm (layout h0 sa s acts t l) a = Some l.
Proof.
  intros E. destruct (ptr_route _ _ _ Hp a E) as (_ & ? & ? & ?). unfold get_lpm, layout.
  rewrite lookup_insert_ne by done. unfold oput. rewrite E.
  destruct (actions s); [rewrite lookup_insert_ne by congruence|];
    (destruct (flow_table s); [rewrite lookup_insert_ne by congruence|]);
    by rewrite lookup_insert_eq.
Qed.

Lemma layout_set_actions acts acts' t l a : actions s = Some a ->
  <[a := HActions acts']> (layout h0 sa s acts t l) = layout h0 sa s acts' t l.
Proof. intros E. layout_cases Hp; heap_ext. Qed.

Lemma layout_set_hash acts t t' l a : flow_table s = Some a ->
  <[a := HHash t']> (layout h0 sa s acts t l) = layout h0 sa s acts t' l.
Proof. intros E. layout_cases Hp; heap_ext. Qed.

Lemma layout_set_lpm acts t l l' a : route_table s = Some a ->
  <[a := HLpm l']> (layout h0 sa s acts t l) = layout h0 sa s acts t l'.
Proof. intros E. layout_cases Hp; heap_ext. Qed.

(** A live object can be stored to. *)
Lemma layout_live acts t l a :
  a = sa \/ actions s = Some a \/ flow_table s = Some a \/ route_table s = Some a ->
  is_Some (layout h0 sa s acts t l !! a).
Proof.
  intros [->|[E|[E|E]]].
  - unfold layout. rewrite lookup_insert_eq. eauto.
  - pose proof (layout_actions acts t l a E) as H. unfold get_actions in H. by destruct (_ !! a).
  - pose proof (layout_hash acts t l a E) as H. unfold get_hash in H. by destruct (_ !! a).
  - pose proof (layout_lpm acts t l a E) as H. unfold get_lpm in H. by destruct (_ !! a).
Qed.

Lemma layout_frame acts t l a :
  a <> sa -> actions s <> Some a -> flow_table s <> Some a -> route_table s <> Some a ->
  layout h0 sa s acts t l !! a = h0 !! a.
Proof.
  intros ????. unfold layout, oput. rewrite lookup_insert_ne by done.
  destruct (actions s), (flow_table s), (route_table s);
    rewrite ?lookup_insert_ne by congruence; done.
Qed.

Lemma layout_extends acts t l : h0 ⊆ layout h0 sa s acts t l.
Proof.
  apply map_subseteq_spec. intros a o Ho. rewrite layout_frame; [done|intros ->|intros E..].
  - by rewrite (ptr_sa _ _ _ Hp) in Ho.
  - destruct (ptr_actions _ _ _ Hp a E). congruence.
  - destruct (ptr_flow _ _ _ Hp a E). congruence.
  - destruct (ptr_route _ _ _ Hp a E). congruence.
Qed.

(** *** Freeing a snapshot removes exactly its layout *)
Definition free_ctl (reclaimed record_stats : bool) (c : dp_ctl_stats) : dp_ctl_stats :=
  let on (p : option Z) f c := if p is Some _ then if record_stats then f c else c else c in
  let c := on (flow_table s) (set_flow_table_freed 1) c in
  let c := on (route_table s) (set_route_table_freed 1) c in
  let c := on (actions s) (set_action_store_freed 1) c in
  let c := if record_stats then set_snapshot_freed 1 c else c in
  if reclaimed then set_rules_reclaimed (u64 (rules_reclaimed c + 1)) c else c.

Lemma layout_delete acts t l :
  delete sa (odelete (actions s) (odelete (route_table s) (odelete (flow_table s)
    (layout h0 sa s acts t l)))) = h0.
Proof. unfold odelete. layout_cases Hp; heap_ext. Qed.

Lemma dp_snapshot_free_layout acts t l c reclaimed record_stats :
  dp_snapshot_free (Some sa) reclaimed record_stats
      {| heap := layout h0 sa s acts t l; ctl := c |} =
    Some (tt, {| heap := h0; ctl := free_ctl reclaimed record_stats c |}).
Proof.
  pose proof (fun a H => layout_live acts t l a H) as Live. unfold dp_snapshot_free.
  erewrite (M_bind_step (load _ _)) by (unfold load; cbn [heap]; by rewrite layout_snapshot).
  cbv beta.
  erewrite M_bind_step; [|apply free_field_spec; cbn [heap]; auto].
  erewrite M_bind_step; [|apply free_field_spec; cbn [heap]].
  2: { intros a E. rewrite odelete_other; [auto|]. by apply Hp. }
  erewrite M_bind_step; [|apply free_field_spec; cbn [heap]].
  2: { intros a E. rewrite !odelete_other; [auto|intros E'..].
       - by destruct (ptr_flow _ _ _ Hp a E') as (_ & _ & ?).
       - by destruct (ptr_route _ _ _ Hp a E') as (_ & _ & ? & _). }
  erewrite M_bind_step; [|apply hfree_live; cbn [heap]].
  2: { rewrite !odelete_other; [auto|intros E'..].
       - by destruct (ptr_flow _ _ _ Hp sa E') as (_ & ? & _).
       - by destruct (ptr_route _ _ _ Hp sa E') as (_ & ? & _).
       - by destruct (ptr_actions _ _ _ Hp sa E') as (_ & ?). }
  unfold with_heap. cbn [heap ctl]. rewrite layout_delete. unfold free_ctl.
  by destruct record_stats, reclaimed.
Qed.
End Layout.

(** ** Growing a layout by one object *)
Section Grow.
Context (h0 : heap_t) (sa : Z) (s : dp_rule_snapshot) (Hp : ptrs_ok h0 sa s).
Context (a : Z) (Ha : h0 !! a = None) (Hsa : a <> sa).

Lemma layout_set_generation g acts t l :
  <[sa := HSnapshot (set_generation g s)]> (layout h0 sa s acts t l) =
    layout h0 sa (set_generation g s) acts t l.
Proof. unfold layout. by rewrite insert_insert_eq. Qed.

Lemma ptrs_set_generation g : ptrs_ok h0 sa (set_generation g s).
Proof. by destruct Hp. Qed.

Lemma layout_add_actions n acts acts' t l :
  actions s = None -> flow_table s <> Some a -> route_table s <> Some a ->
  <[sa := HSnapshot (set_actions (Some a) n s)]> (<[a := HActions acts']> (layout h0 sa s acts t l))
    = layout h0 sa (set_actions (Some a) n s) acts' t l.
Proof. intros E Ef Er. unfold layout, oput. cbn. rewrite E. heap_ext. Qed.

Lemma ptrs_add_actions n :
  actions s = None -> flow_table s <> Some a -> route_table s <> Some a ->
  ptrs_ok h0 sa (set_actions (Some a) n s).
Proof.
  intros E Ef Er. destruct Hp as [H1 H2 H3 H4]. split; cbn; [done|..].
  - by intros ? [= <-].
  - intros b Hb. destruct (H3 b Hb) as (? & ? & ?). split_and!; congruence.
  - intros b Hb. destruct (H4 b Hb) as (? & ? & ? & ?). split_and!; congruence.
Qed.

Lemma layout_add_hash acts t t' l :
  flow_table s = None -> actions s <> Some a -> route_table s <> Some a ->
  <[sa := HSnapshot (set_flow_table (Some a) s)]> (<[a := HHash t']> (layout h0 sa s acts t l))
    = layout h0 sa (set_flow_table (Some a) s) acts t' l.
Proof.
  intros E Ea Er. unfold layout, oput. cbn. rewrite E. destruct (actions s); heap_ext.
Qed.

Lemma ptrs_add_hash :
  flow_table s = None -> actions s <> Some a -> route_table s <> Some a ->
  ptrs_ok h0 sa (set_flow_table (Some a) s).
Proof.
  intros E Ea Er. destruct Hp as [H1 H2 H3 H4]. split; cbn; [done|done|..].
  - by intros ? [= <-].
  - intros b Hb. destruct (H4 b Hb) as (? & ? & ? & ?). split_and!; congruence.
Qed.

Lemma layout_add_lpm acts t l l' :
  route_table s = None -> actions s <> Some a -> flow_table s <> Some a ->
  <[sa := HSnapshot (set_route_table (Some a) s)]> (<[a := HLpm l']> (layout h0 sa s acts t l))
    = layout h0 sa (set_route_table (Some a) s) acts t l'.
Proof.
  intros E Ea Ef. unfold layout, oput. cbn. rewrite E.
  destruct (actions s), (flow_table s); heap_ext.
Qed.

Lemma ptrs_add_lpm :
  route_table s = None -> actions s <> Some a -> flow_table s <> Some a ->
  ptrs_ok h0 sa (set_route_table (Some a) s).
Proof.
  intros E Ea Ef. destruct Hp as [H1 H2 H3 H4]. split; cbn; [done|done|done|].
  by intros ? [= <-].
Qed.
End Grow.

(** ** Representation

    [snapshot_rep h sa gen flows routes]: the object at [sa] and what it points
    to represent the two rule lists.  Nothing is said about the rest of the
    heap, where other generations live. *)
Definition built_snapshot (flows : list dp_flow_rule) (routes : list dp_route_rule) (gen : Z)
    (aa ha la : Z) : dp_rule_snapshot :=
  let nf := Z.of_nat (length flows) in let nr := Z.of_nat (length routes) in
  {| flow_table := if nf =? 0 then None else Some ha;
     route_table := if nr =? 0 then None else Some la;
     actions := if nf + nr =? 0 then None else Some aa;
     action_count := nf + nr;
     generation := gen |}.

Definition snapshot_rep (h : heap_t) (sa gen : Z) (flows : list dp_flow_rule)
    (routes : list dp_route_rule) : Prop :=
  let nf := Z.of_nat (length flows) in let nr := Z.of_nat (length routes) in
  exists aa ha la t l,
    get_snapshot h sa = Some (built_snapshot flows routes gen aa ha la) /\
    (nf + nr <> 0 -> get_actions h aa = Some (all_actions flows routes)) /\
    (nf <> 0 -> get_hash h ha = Some t /\ forall k, rte_hash_lookup_data t k =
       (fun j => {| ap_base := aa; ap_index := Z.of_nat j |}) <$> index_of flow_rule_key flows k) /\
    (nr <> 0 -> get_lpm h la = Some l /\ forall k, lpm_rules l !! k =
       (fun j => nf + Z.of_nat j) <$> index_of route_key routes k).

(** ** The builder, phase by phase *)

(** What DPDK promises about an allocation that succeeds or fails. *)
Record allocator_ok (allocate : allocator) (h0 : heap_t) : Prop := {
  allocate_fresh r a : allocate r = inr a -> h0 !! a = None;
  allocate_distinct r r' a : allocate r = inr a -> allocate r' = inr a -> r = r';
  allocate_errno r e : allocate r = inl e -> 0 <= e;
}.

Section BuildSpec.
Context (allocate : allocator) (socket_id : Z) (h0 : heap_t) (c : dp_ctl_stats).
Context (Hall : allocator_ok allocate h0).
Context (flows : list dp_flow_rule) (routes : list dp_route_rule).
Context (Hlim : within_limits flows routes).
Context (Hff : Forall flow_fits flows) (Hrf : Forall route_fits routes).
Context (gen sa : Z).
Context (Hsa : allocate (ReqZmalloc "dfr_rule_snapshot" sizeof_dp_rule_snapshot socket_id) = inr sa).

Abbreviation nf := (Z.of_nat (length flows)).
Abbreviation nr := (Z.of_nat (length routes)).

Definition state (s : dp_rule_snapshot) (acts : list dp_rule_action) (t : rte_hash) (l : rte_lpm)
    : rules_world := {| heap := layout h0 sa s acts t l; ctl := c |}.

(** The allocations of a build, in order. *)
Definition build_requests : list request :=
  [ReqZmalloc "dfr_rule_snapshot" sizeof_dp_rule_snapshot socket_id;
   ReqZmalloc "dfr_rule_actions" (sizeof_dp_rule_action * (nf + nr)) socket_id;
   ReqHash (table_name "dfr_f_" gen) (DP_MAX_FLOW_RULES * 2) sizeof_dp_flow_key socket_id;
   ReqLpm (table_name "dfr_r_" gen) socket_id DP_MAX_ROUTE_RULES 256].

(** Why a build fails: the rule set violates the contract, or DPDK refused an
    allocation or an addition. *)
Definition fail_reason (ret : Z) : Prop :=
  (~ rules_ok flows routes /\ (ret = - EINVAL \/ ret = - EEXIST)) \/
  (exists r e, r ∈ build_requests /\ allocate r = inl e /\ ret = neg_errno e ENOMEM) \/
  (exists t k p t', rte_hash_add_key_data t k p = (ret, t')) \/
  (exists l ip d nh l', rte_lpm_add l ip d nh = (ret, l')).

(** At every jump to [fail] the heap is a layout and [ret] is negative. *)
Definition failed (ret : Z) (w : rules_world) : Prop :=
  ret < 0 /\ fail_reason ret /\ exists s acts t l, ptrs_ok h0 sa s /\ w = state s acts t l.

Lemma failed_intro ret s acts t l :
  ret < 0 -> fail_reason ret -> ptrs_ok h0 sa s -> failed ret (state s acts t l).
Proof. unfold failed. eauto 10. Qed.

Lemma failed_alloc r e s acts t l :
  r ∈ build_requests -> allocate r = inl e -> ptrs_ok h0 sa s -> failed (neg_errno e ENOMEM) (state s acts t l).
Proof.
  intros Hin E Hp. apply failed_intro; [|right; left; eauto|done].
  apply neg_errno_neg; [by eapply allocate_errno|done].
Qed.

Lemma failed_invalid ret s acts t l :
  ~ rules_ok flows routes -> ret = - EINVAL \/ ret = - EEXIST -> ptrs_ok h0 sa s ->
  failed ret (state s acts t l).
Proof.
  intros Hn Hr Hp. apply failed_intro; [|by left|done]. destruct Hr as [->| ->]; done.
Qed.

Lemma wp_update_snapshot f s (Q : unit -> rules_world -> Prop) h' :
  get_snapshot h' sa = Some s ->
  Q tt {| heap := <[sa := HSnapshot (f s)]> h'; ctl := c |} ->
  wp (update_snapshot sa f) Q {| heap := h'; ctl := c |}.
Proof.
  intros Hs HQ. unfold update_snapshot. apply wp_bind. unfold wp, load. cbn [heap].
  rewrite Hs. bind_cbn. rewrite store_live; [done|]. cbn [heap].
  unfold get_snapshot in Hs. by destruct (h' !! sa).
Qed.

Lemma build_action_store_spec n s acts t l :
  n = nf + nr ->
  ptrs_ok h0 sa s -> actions s = None -> flow_table s = None -> route_table s = None ->
  ewp (build_action_store allocate socket_id sa n) failed
    (fun _ w => exists aa acts', w = state (if n =? 0 then s else set_actions (Some aa) n s) acts' t l
       /\ acts' = (if n =? 0 then acts else replicate (Z.to_nat n) action_zero)
       /\ (n <> 0 ->
           allocate (ReqZmalloc "dfr_rule_actions" (sizeof_dp_rule_action * n) socket_id) = inr aa)
       /\ ptrs_ok h0 sa (if n =? 0 then s else set_actions (Some aa) n s))
    (state s acts t l).
Proof.
  intros Hn Hp Ea Ef Er. unfold build_action_store. case_if; bool_to_prop.
  { apply ewp_ret. exists 0, acts. split_and!; [done|done|lia|done]. }
  destruct (allocate (ReqZmalloc "dfr_rule_actions" _ _)) as [e|aa] eqn:Haa.
  { apply ewp_fail. eapply failed_alloc; [|done..]. subst; set_solver. }
  pose proof (allocate_fresh _ _ Hall _ _ Haa) as Hfresh.
  assert (aa <> sa) as Hne.
  { intros ->. by pose proof (allocate_distinct _ _ Hall _ _ _ Haa Hsa). }
  apply ewp_bind, ewp_lift, wp_modify. apply ewp_lift.
  apply (wp_update_snapshot _ s).
  { unfold get_snapshot. cbn. rewrite lookup_insert_ne by done. apply layout_snapshot. }
  exists aa, (replicate (Z.to_nat n) action_zero). unfold state. cbn [heap with_heap].
  rewrite layout_add_actions by congruence. split_and!; [done..|].
  apply ptrs_add_actions; congruence.
Qed.

Lemma build_flow_table_spec n s acts t l :
  ptrs_ok h0 sa s -> flow_table s = None -> route_table s = None ->
  (forall a, actions s = Some a -> exists m, allocate (ReqZmalloc "dfr_rule_actions" m socket_id) = inr a) ->
  ewp (build_flow_table allocate socket_id sa n gen) failed
    (fun _ w => exists ha t', w = state (if n =? 0 then s else set_flow_table (Some ha) s) acts t' l
       /\ (n <> 0 -> t' = hash_new (DP_MAX_FLOW_RULES * 2) /\
           exists name e k, allocate (ReqHash name e k socket_id) = inr ha)
       /\ ptrs_ok h0 sa (if n =? 0 then s else set_flow_table (Some ha) s))
    (state s acts t l).
Proof.
  intros Hp Ef Er Ha. unfold build_flow_table. case_if; bool_to_prop.
  { apply ewp_ret. exists 0, t. split; [done|]. split; [lia|done]. }
  destruct (allocate (ReqHash _ _ _ _)) as [e|ha] eqn:Hha.
  { apply ewp_fail. eapply failed_alloc; [|done..]. subst; set_solver. }
  pose proof (allocate_fresh _ _ Hall _ _ Hha) as Hfresh.
  assert (ha <> sa) as Hne.
  { intros ->. by pose proof (allocate_distinct _ _ Hall _ _ _ Hha Hsa). }
  assert (actions s <> Some ha) as Hna.
  { intros E. destruct (Ha _ E) as [m Hm]. by pose proof (allocate_distinct _ _ Hall _ _ _ Hha Hm). }
  apply ewp_bind, ewp_lift, wp_modify. apply ewp_lift. apply (wp_update_snapshot _ s).
  { unfold get_snapshot. cbn. rewrite lookup_insert_ne by done. apply layout_snapshot. }
  exists ha, (hash_new (DP_MAX_FLOW_RULES * 2)). unfold state. cbn [heap with_heap].
  rewrite layout_add_hash by congruence. split; [done|]. split; [eauto|].
  apply ptrs_add_hash; congruence.
Qed.

Lemma build_route_table_spec n s acts t l :
  ptrs_ok h0 sa s -> route_table s = None ->
  (forall a, actions s = Some a -> exists m, allocate (ReqZmalloc "dfr_rule_actions" m socket_id) = inr a) ->
  (forall a, flow_table s = Some a -> exists name e k, allocate (ReqHash name e k socket_id) = inr a) ->
  ewp (build_route_table allocate socket_id sa n gen) failed
    (fun _ w => exists la l', w = state (if n =? 0 then s else set_route_table (Some la) s) acts t l'
       /\ (n <> 0 -> l' = lpm_new DP_MAX_ROUTE_RULES 256)
       /\ ptrs_ok h0 sa (if n =? 0 then s else set_route_table (Some la) s))
    (state s acts t l).
Proof.
  intros Hp Er Ha Hf. unfold build_route_table. case_if; bool_to_prop.
  { apply ewp_ret. exists 0, l. split; [done|]. split; [lia|done]. }
  destruct (allocate (ReqLpm _ _ _ _)) as [e|la] eqn:Hla.
  { apply ewp_fail. eapply failed_alloc; [|done..]. subst; set_solver. }
  pose proof (allocate_fresh _ _ Hall _ _ Hla) as Hfresh.
  assert (la <> sa) as Hne.
  { intros ->. by pose proof (allocate_distinct _ _ Hall _ _ _ Hla Hsa). }
  assert (actions s <> Some la) as Hna.
  { intros E. destruct (Ha _ E) as [m Hm]. by pose proof (allocate_distinct _ _ Hall _ _ _ Hla Hm). }
  assert (flow_table s <> Some la) as Hnf.
  { intros E. destruct (Hf _ E) as (? & ? & ? & Hm).
    by pose proof (allocate_distinct _ _ Hall _ _ _ Hla Hm). }
  apply ewp_bind, ewp_lift, wp_modify. apply ewp_lift. apply (wp_update_snapshot _ s).
  { unfold get_snapshot. cbn. rewrite lookup_insert_ne by done. apply layout_snapshot. }
  exists la, (lpm_new DP_MAX_ROUTE_RULES 256). unfold state. cbn [heap with_heap].
  rewrite layout_add_lpm by congruence. split; [done|]. split; [done|].
  apply ptrs_add_lpm; congruence.
Qed.

(** *** The loops *)

Lemma wp_load_actions s acts t l aa (Q : list dp_rule_action -> rules_world -> Prop) :
  ptrs_ok h0 sa s -> actions s = Some aa ->
  Q acts (state s acts t l) -> wp (load get_actions aa) Q (state s acts t l).
Proof. intros Hp E HQ. unfold wp, load, state. cbn [heap]. by rewrite layout_actions. Qed.

Lemma wp_load_snapshot s acts t l (Q : dp_rule_snapshot -> rules_world -> Prop) :
  Q s (state s acts t l) -> wp (load get_snapshot sa) Q (state s acts t l).
Proof. intros HQ. unfold wp, load, state. cbn [heap]. by rewrite layout_snapshot. Qed.

Lemma wp_load_hash s acts t l ha (Q : rte_hash -> rules_world -> Prop) :
  ptrs_ok h0 sa s -> flow_table s = Some ha ->
  Q t (state s acts t l) -> wp (load_ptr get_hash (flow_table s)) Q (state s acts t l).
Proof.
  intros Hp E HQ. rewrite E. unfold wp, load_ptr, load, state. cbn [heap]. bind_cbn.
  by rewrite layout_hash.
Qed.

Lemma wp_load_lpm s acts t l la (Q : rte_lpm -> rules_world -> Prop) :
  ptrs_ok h0 sa s -> route_table s = Some la ->
  Q l (state s acts t l) -> wp (load_ptr get_lpm (route_table s)) Q (state s acts t l).
Proof.
  intros Hp E HQ. rewrite E. unfold wp, load_ptr, load, state. cbn [heap]. bind_cbn.
  by rewrite layout_lpm.
Qed.

Lemma wp_store_hash s acts t t' l ha (Q : unit -> rules_world -> Prop) :
  ptrs_ok h0 sa s -> flow_table s = Some ha ->
  Q tt (state s acts t' l) -> wp (store ha (HHash t')) Q (state s acts t l).
Proof.
  intros Hp E HQ. unfold wp. rewrite store_live by (apply layout_live; auto).
  unfold with_heap, state. cbn [heap ctl]. by rewrite layout_set_hash.
Qed.

Lemma wp_store_lpm s acts t l l' la (Q : unit -> rules_world -> Prop) :
  ptrs_ok h0 sa s -> route_table s = Some la ->
  Q tt (state s acts t l') -> wp (store la (HLpm l')) Q (state s acts t l).
Proof.
  intros Hp E HQ. unfold wp. rewrite store_live by (apply layout_live; auto).
  unfold with_heap, state. cbn [heap ctl]. by rewrite layout_set_lpm.
Qed.

(** Storing the next action of a partly filled store. *)
Lemma wp_store_action s pre rest x t l aa i a (Q : unit -> rules_world -> Prop) :
  ptrs_ok h0 sa s -> actions s = Some aa -> i = Z.of_nat (length pre) ->
  Q tt (state s (pre ++ a :: rest) t l) ->
  wp (store_action aa i a) Q (state s (pre ++ x :: rest) t l).
Proof.
  intros Hp E -> HQ. unfold store_action. apply wp_bind, wp_load_actions; [done..|].
  rewrite length_app. cbn [length].
  rewrite (proj2 (Z.leb_le _ _)), (proj2 (Z.ltb_lt _ _)) by lia.
  cbn [andb]. unfold wp. rewrite store_live.
  2: { apply layout_live; auto. }
  unfold with_heap, state. cbn [heap ctl]. rewrite layout_set_actions by done.
  by rewrite Nat2Z.id, insert_app_r_alt, Nat.sub_diag by lia.
Qed.

(** A caller's array that holds at least the rules counted. *)
Definition array_of {A} (p : option (list A)) (l : list A) : Prop :=
  match p with None => l = [] | Some arr => exists rest, arr = l ++ rest end.

Lemma nth_rule_array {A} (p : option (list A)) l i r :
  array_of p l -> l !! i = Some r -> nth_rule p (Z.of_nat i) = Some r.
Proof.
  intros Hp Hr. destruct p as [arr|]; cbn in Hp; [|by subst]. destruct Hp as [rest ->].
  unfold nth_rule. bind_cbn. rewrite (proj2 (Z.leb_le _ _)) by lia.
  rewrite Nat2Z.id. by apply lookup_app_l_Some.
Qed.

Definition flow_acts (i : nat) : list dp_rule_action :=
  (flow_action <$> take i flows) ++ replicate (length flows + length routes - i) action_zero.

(** The hash after [i] rules: every key of the prefix maps to its action. *)
Definition flows_inv (aa : Z) (i : nat) (t : rte_hash) : Prop :=
  (forall k, rte_hash_lookup_data t k =
     (fun j => {| ap_base := aa; ap_index := Z.of_nat j |}) <$> index_of flow_rule_key (take i flows) k)
  /\ Forall flow_rule_ok (take i flows) /\ NoDup (flow_rule_key <$> take i flows).

Lemma flow_acts_step i r : flows !! i = Some r ->
  exists pre rest, flow_acts i = pre ++ action_zero :: rest /\ length pre = i /\
    flow_acts (S i) = pre ++ flow_action r :: rest.
Proof.
  intros Hr. pose proof (lookup_lt_Some _ _ _ Hr).
  exists (flow_action <$> take i flows), (replicate (length flows + length routes - S i) action_zero).
  unfold flow_acts. rewrite length_fmap, length_take. split_and!; [|lia|].
  - by replace (length flows + length routes - i)%nat
      with (S (length flows + length routes - S i)) by lia.
  - rewrite (take_S_r _ _ r), fmap_app by done. by rewrite <- app_assoc.
Qed.

Lemma flows_inv_step aa i r t t' ret :
  flows !! i = Some r -> flows_inv aa i t -> flow_rule_ok r ->
  rte_hash_lookup_data t (flow_rule_key r) = None -> 0 <= ret ->
  rte_hash_add_key_data t (flow_rule_key r) {| ap_base := aa; ap_index := Z.of_nat i |} = (ret, t') ->
  flows_inv aa (S i) t'.
Proof.
  intros Hr (Hl & Hok & Hnd) Hrok Hnone Hret Hadd. rewrite Hl in Hnone.
  apply fmap_None in Hnone as Hi.
  pose proof (lookup_lt_Some _ _ _ Hr). split_and!.
  - intros k. rewrite (hash_lookup_add _ _ _ _ _ _ Hadd Hret), Hl.
    rewrite (take_S_r _ _ r), index_of_snoc, length_take, Nat.min_l by (done || lia).
    case_decide; [by subst; rewrite Hi|].
    by destruct (index_of flow_rule_key (take i flows) k).
  - rewrite (take_S_r _ _ r) by done. apply Forall_app. auto.
  - by apply prefix_nodup_snoc with r.
Qed.

Lemma flows_inv_duplicate aa i r t :
  flows !! i = Some r -> flows_inv aa i t ->
  is_Some (rte_hash_lookup_data t (flow_rule_key r)) -> ~ NoDup (flow_rule_key <$> flows).
Proof.
  intros Hr (Hl & _) Hs. rewrite Hl, fmap_is_Some in Hs. apply prefix_duplicate with i r; [done|].
  destruct (decide (flow_rule_key r ∈ flow_rule_key <$> take i flows)) as [|Hn]; [done|].
  apply index_of_None in Hn. rewrite Hn in Hs. by destruct Hs.
Qed.

Lemma flow_rule_checks r : flow_fits r ->
  ((negb (flow_l4_proto r =? IPPROTO_TCP) && negb (flow_l4_proto r =? IPPROTO_UDP)) ||
   reserved_nonzero (flow_reserved r)) = false ->
  (dp_validate_action (flow_action r) <? 0) = false -> flow_rule_ok r.
Proof.
  intros (_ & _ & _ & _ & _ & Ha) H1. rewrite dp_validate_action_sign by done.
  intros H2%negb_false_iff%bool_decide_eq_true. unfold flow_rule_ok, reserved_nonzero in *.
  destruct (flow_reserved r) as [[r0 r1] r2]. bool_to_prop. split_and!; [lia| |done].
  repeat f_equal; lia.
Qed.

Lemma flow_rule_reject r : flow_fits r -> flow_rule_ok r ->
  ((negb (flow_l4_proto r =? IPPROTO_TCP) && negb (flow_l4_proto r =? IPPROTO_UDP)) ||
   reserved_nonzero (flow_reserved r)) = false /\
  (dp_validate_action (flow_action r) <? 0) = false.
Proof.
  intros (_ & _ & _ & _ & _ & Ha) (Hproto & Hres & Hv).
  rewrite dp_validate_action_sign, bool_decide_true, Hres by done. split; [|done].
  destruct Hproto as [-> | ->]; done.
Qed.

(** One iteration of the first loop. *)
Lemma add_flow_rule_step pf s aa ha i t l :
  array_of pf flows -> ptrs_ok h0 sa s -> actions s = Some aa -> flow_table s = Some ha ->
  (i < length flows)%nat -> flows_inv aa i t ->
  ewp (add_flow_rule sa pf (Z.of_nat i)) failed
    (fun _ w => exists t', w = state s (flow_acts (S i)) t' l /\ flows_inv aa (S i) t')
    (state s (flow_acts i) t l).
Proof.
  intros Hpf Hp Ea Ef [r Hr]%lookup_lt_is_Some_2 Hinv. unfold add_flow_rule.
  apply ewp_bind, ewp_lift. unfold wp at 1, lift. rewrite (nth_rule_array _ _ _ _ Hpf Hr). bind_cbn.
  pose proof (Forall_lookup_1 _ _ _ _ Hff Hr) as Hfit.
  assert (rules_ok flows routes -> flow_rule_ok r) as Hvalid.
  { intros [Hv _ _ _]. by apply (Forall_lookup_1 _ _ _ _ Hv Hr). }
  destruct (orb _ _) eqn:C1.
  { apply ewp_fail, failed_invalid; [|auto|done]. intros Hok%Hvalid.
    destruct (flow_rule_reject r Hfit Hok). congruence. }
  cbv zeta. destruct (_ <? 0) eqn:C2 at 1.
  { apply ewp_fail, failed_invalid; [|left; apply dp_validate_action_neg; [apply Hfit|done]|done].
    intros Hok%Hvalid. destruct (flow_rule_reject r Hfit Hok). congruence. }
  pose proof (flow_rule_checks r Hfit C1 C2) as Hrok.
  apply ewp_bind, ewp_lift, wp_load_snapshot.
  apply ewp_bind, ewp_lift, (wp_load_hash s _ _ _ ha); [done..|].
  destruct (rte_hash_lookup_data t (flow_rule_key r)) eqn:C3.
  { apply ewp_fail, failed_invalid; [|auto|done]. intros [_ Hnd _ _].
    apply (flows_inv_duplicate aa i r t); [done..|by rewrite C3|done]. }
  apply ewp_bind, ewp_lift. rewrite Ea. apply ewp_bind, ewp_lift.
  destruct (flow_acts_step i r Hr) as (pre & rest & Epre & Hlen & Enext). rewrite Epre.
  apply (wp_store_action _ _ _ _ _ _ aa); [done|done|by rewrite Hlen|]. rewrite <- Enext.
  apply ewp_bind, ewp_lift. rewrite Ef. unfold wp at 1, lift. bind_cbn.
  destruct (rte_hash_add_key_data _ _ _) as [ret t'] eqn:Hadd.
  apply ewp_bind, ewp_lift, (wp_store_hash s); [done..|].
  destruct (ret <? 0) eqn:C4; bool_to_prop.
  - apply ewp_fail, failed_intro; [done| |done]. right; right; left. eauto 10.
  - apply ewp_ret. exists t'. split; [done|]. by apply flows_inv_step with r t ret.
Qed.

(** The same for the routes, whose actions follow those of the flow rules. *)
Definition route_acts (j : nat) : list dp_rule_action :=
  (flow_action <$> flows) ++ (route_action <$> take j routes) ++
  replicate (length routes - j) action_zero.

Definition routes_inv (j : nat) (l : rte_lpm) : Prop :=
  (forall k, lpm_rules l !! k = (fun i => nf + Z.of_nat i) <$> index_of route_key (take j routes) k)
  /\ Forall route_rule_ok (take j routes) /\ NoDup (route_key <$> take j routes).

Lemma route_acts_step j r : routes !! j = Some r ->
  exists pre rest, route_acts j = pre ++ action_zero :: rest /\ Z.of_nat (length pre) = nf + Z.of_nat j /\
    route_acts (S j) = pre ++ route_action r :: rest.
Proof.
  intros Hr. pose proof (lookup_lt_Some _ _ _ Hr).
  exists ((flow_action <$> flows) ++ (route_action <$> take j routes)),
    (replicate (length routes - S j) action_zero).
  unfold route_acts. rewrite length_app, !length_fmap, length_take. split_and!; [|lia|].
  - replace (length routes - j)%nat with (S (length routes - S j)) by lia. by rewrite <- app_assoc.
  - rewrite (take_S_r _ _ r), fmap_app by done. by rewrite <- !app_assoc.
Qed.

Lemma route_index j : (j < length routes)%nat ->
  u32 (nf + Z.of_nat j) = nf + Z.of_nat j /\ fits 24 (nf + Z.of_nat j).
Proof.
  destruct Hlim as [H1 H2]. unfold DP_MAX_FLOW_RULES, DP_MAX_ROUTE_RULES in *. intros.
  split; [apply wrap_id; fits_lia|]. unfold fits. change (2 ^ 24) with 16777216. lia.
Qed.

Lemma routes_inv_step j r l l' ret :
  routes !! j = Some r -> route_fits r -> routes_inv j l -> route_rule_ok r ->
  index_of route_key (take j routes) (route_key r) = None -> 0 <= ret ->
  rte_lpm_add l (route_prefix r) (route_depth r) (nf + Z.of_nat j) = (ret, l') ->
  routes_inv (S j) l'.
Proof.
  intros Hr Hfit (Hl & Hok & Hnd) Hrok Hi Hret Hadd. pose proof (lookup_lt_Some _ _ _ Hr).
  destruct (Hrok) as (Hd & _ & Hpre & _). split_and!.
  - intros k. destruct (route_index j) as [_ H24]; [done|].
    assert (fits 32 (route_prefix r)) as Hp32 by apply Hfit.
    rewrite (lpm_rules_add _ _ _ _ _ _ Hp32 Hd H24 Hadd Hret), Hpre.
    rewrite (take_S_r _ _ r), index_of_snoc, length_take, Nat.min_l by (done || lia).
    fold (route_key r). rewrite lookup_insert, Hl. case_decide; [by subst; rewrite Hi|].
    by destruct (index_of route_key (take j routes) k).
  - rewrite (take_S_r _ _ r) by done. apply Forall_app. auto.
  - by apply prefix_nodup_snoc with r.
Qed.

Lemma route_rule_checks r : route_fits r ->
  ((route_depth r =? 0) || (32 <? route_depth r) || reserved_nonzero (route_reserved r)) = false ->
  negb (prefix_of (route_prefix r) (route_depth r) =? route_prefix r) = false ->
  (dp_validate_action (route_action r) <? 0) = false -> route_rule_ok r.
Proof.
  intros (_ & Hd & Ha) H1 H2. rewrite dp_validate_action_sign by done.
  intros H3%negb_false_iff%bool_decide_eq_true. unfold route_rule_ok, reserved_nonzero in *.
  destruct (route_reserved r) as [[r0 r1] r2]. bool_to_prop. split_and!; [fits_lia|fits_lia| |done|done].
  repeat f_equal; lia.
Qed.

Lemma route_rule_reject r : route_fits r -> route_rule_ok r ->
  ((route_depth r =? 0) || (32 <? route_depth r) || reserved_nonzero (route_reserved r)) = false /\
  negb (prefix_of (route_prefix r) (route_depth r) =? route_prefix r) = false /\
  (dp_validate_action (route_action r) <? 0) = false.
Proof.
  intros (_ & Hd & Ha) (Hr & Hres & Hp & Hv).
  rewrite dp_validate_action_sign, bool_decide_true, Hres, Hp, Z.eqb_refl by done. split; [|done].
  cbn. rewrite (proj2 (Z.eqb_neq _ _)), (proj2 (Z.ltb_ge _ _)) by lia. done.
Qed.

Lemma routes_inv_present j r l :
  route_fits r -> route_rule_ok r -> routes_inv j l ->
  rte_lpm_is_rule_present l (route_prefix r) (route_depth r) =
    if index_of route_key (take j routes) (route_key r) is Some _ then 1 else 0.
Proof.
  intros Hfit (Hd & _ & Hpre & _) (Hl & _).
  rewrite lpm_is_rule_present_spec by (done || apply Hfit). rewrite Hpre, Hl.
  fold (route_key r). by destruct (index_of route_key (take j routes) (route_key r)).
Qed.

(** One iteration of the second loop. *)
Lemma add_route_rule_step pf s aa la j t l :
  array_of pf routes -> ptrs_ok h0 sa s -> actions s = Some aa -> route_table s = Some la ->
  (j < length routes)%nat -> routes_inv j l ->
  ewp (add_route_rule sa nf pf (Z.of_nat j)) failed
    (fun _ w => exists l', w = state s (route_acts (S j)) t l' /\ routes_inv (S j) l')
    (state s (route_acts j) t l).
Proof.
  intros Hpf Hp Ea Er Hj Hinv. unfold add_route_rule. cbv zeta.
  destruct (route_index j Hj) as [-> H24]. pose proof Hj as [r Hr]%lookup_lt_is_Some_2.
  apply ewp_bind, ewp_lift. unfold wp at 1, lift. rewrite (nth_rule_array _ _ _ _ Hpf Hr). bind_cbn.
  pose proof (Forall_lookup_1 _ _ _ _ Hrf Hr) as Hfit.
  fold (depth_mask (route_depth r)). fold (prefix_of (route_prefix r) (route_depth r)).
  assert (rules_ok flows routes -> route_rule_ok r) as Hvalid.
  { intros [_ _ Hv _]. by apply (Forall_lookup_1 _ _ _ _ Hv Hr). }
  destruct (orb _ _) eqn:C1.
  { apply ewp_fail, failed_invalid; [|auto|done]. intros Hok%Hvalid.
    destruct (route_rule_reject r Hfit Hok). congruence. }
  destruct (negb _) eqn:C2 at 1.
  { apply ewp_fail, failed_invalid; [|auto|done]. intros Hok%Hvalid.
    destruct (route_rule_reject r Hfit Hok) as (_ & ? & _). congruence. }
  destruct (_ <? 0) eqn:C3 at 1.
  { apply ewp_fail, failed_invalid; [|left; apply dp_validate_action_neg; [apply Hfit|done]|done].
    intros Hok%Hvalid. destruct (route_rule_reject r Hfit Hok) as (_ & _ & ?). congruence. }
  pose proof (route_rule_checks r Hfit C1 C2 C3) as Hrok.
  apply ewp_bind, ewp_lift, wp_load_snapshot.
  apply ewp_bind, ewp_lift, (wp_load_lpm s _ _ _ la); [done..|].
  rewrite (routes_inv_present j r) by done.
  destruct (index_of route_key (take j routes) (route_key r)) eqn:C4; cbn [Z.ltb Z.compare].
  { apply ewp_fail, failed_invalid; [|auto|done]. intros [_ _ _ Hnd].
    apply (prefix_duplicate route_key routes j r); [done| |done].
    destruct (decide (route_key r ∈ route_key <$> take j routes)) as [|Hn]; [done|].
    apply index_of_None in Hn. congruence. }
  apply ewp_bind, ewp_lift. rewrite Ea. apply ewp_bind, ewp_lift.
  destruct (route_acts_step j r Hr) as (pre & rest & Epre & Hlen & Enext). rewrite Epre.
  apply (wp_store_action _ _ _ _ _ _ aa); [done|done|by rewrite Hlen|]. rewrite <- Enext.
  apply ewp_bind, ewp_lift. rewrite Er. unfold wp at 1, lift. bind_cbn.
  destruct (rte_lpm_add _ _ _ _) as [ret l'] eqn:Hadd.
  apply ewp_bind, ewp_lift, (wp_store_lpm s); [done..|].
  destruct (ret <? 0) eqn:C5; bool_to_prop.
  - apply ewp_fail, failed_intro; [done| |done]. right; right; right. eauto 10.
  - apply ewp_ret. exists l'. split; [done|]. by apply routes_inv_step with r l ret.
Qed.

(** *** The whole body *)
Lemma counts_u32 : u32 (nf + nr) = nf + nr.
Proof.
  destruct Hlim. apply wrap_id. unfold DP_MAX_FLOW_RULES, DP_MAX_ROUTE_RULES in *. fits_lia.
Qed.

Abbreviation built_snapshot := (built_snapshot flows routes gen).

Definition built (w : rules_world) : Prop :=
  exists aa ha la t l,
    w = state (built_snapshot aa ha la) (all_actions flows routes) t l /\
    ptrs_ok h0 sa (built_snapshot aa ha la) /\
    (nf <> 0 -> flows_inv aa (length flows) t) /\ (nr <> 0 -> routes_inv (length routes) l).

Lemma flow_loop_spec pf s aa ha t l :
  array_of pf flows -> ptrs_ok h0 sa s -> (nf <> 0 -> actions s = Some aa /\ flow_table s = Some ha /\
    flows_inv aa 0 t) ->
  ewp (efor (Z.to_nat nf) 0 (add_flow_rule sa pf)) failed
    (fun _ w => exists t', w = state s (flow_acts (length flows)) t' l /\
       (nf <> 0 -> flows_inv aa (length flows) t'))
    (state s (flow_acts 0) t l).
Proof.
  intros Hpf Hp Hinv. rewrite Nat2Z.id.
  eapply ewp_mono; [apply (ewp_for (fun i w => exists t', w = state s (flow_acts (Z.to_nat i)) t' l /\
    (nf <> 0 -> flows_inv aa (Z.to_nat i) t')))|done|].
  - exists t. split; [done|]. apply Hinv.
  - intros i w Hi (t1 & -> & Ht1). destruct Hinv as (Ea & Ef & _); [lia|].
    destruct (Z_of_nat_complete i) as [n ->]; [lia|]. rewrite Nat2Z.id in *.
    eapply ewp_mono; [apply (add_flow_rule_step pf s aa ha); [done..|lia|apply Ht1; lia]|done|].
    intros _ w' (t' & -> & Ht'). exists t'.
    rewrite Z.add_1_r, <- Nat2Z.inj_succ, Nat2Z.id. auto.
  - intros [] w'. by rewrite Z.add_0_l, Nat2Z.id.
Qed.

Lemma route_loop_spec pf s aa la t l :
  array_of pf routes -> ptrs_ok h0 sa s -> (nr <> 0 -> actions s = Some aa /\ route_table s = Some la /\
    routes_inv 0 l) ->
  ewp (efor (Z.to_nat nr) 0 (add_route_rule sa nf pf)) failed
    (fun _ w => exists l', w = state s (route_acts (length routes)) t l' /\
       (nr <> 0 -> routes_inv (length routes) l'))
    (state s (route_acts 0) t l).
Proof.
  intros Hpf Hp Hinv. rewrite Nat2Z.id.
  eapply ewp_mono; [apply (ewp_for (fun i w => exists l', w = state s (route_acts (Z.to_nat i)) t l' /\
    (nr <> 0 -> routes_inv (Z.to_nat i) l')))|done|].
  - exists l. split; [done|]. apply Hinv.
  - intros i w Hi (l1 & -> & Hl1). destruct Hinv as (Ea & Er & _); [lia|].
    destruct (Z_of_nat_complete i) as [n ->]; [lia|]. rewrite Nat2Z.id in *.
    eapply ewp_mono; [apply (add_route_rule_step pf s aa la); [done..|lia|apply Hl1; lia]|done|].
    intros _ w' (l' & -> & Hl'). exists l'.
    rewrite Z.add_1_r, <- Nat2Z.inj_succ, Nat2Z.id. auto.
  - intros [] w'. by rewrite Z.add_0_l, Nat2Z.id.
Qed.

Lemma flows_inv_0 aa n : flows_inv aa 0 (hash_new n).
Proof.
  unfold flows_inv. rewrite take_0. split_and!; [|done|apply NoDup_nil_2].
  intros k. by rewrite hash_lookup_new.
Qed.

Lemma routes_inv_0 m n : routes_inv 0 (lpm_new m n).
Proof.
  unfold routes_inv. rewrite take_0. split_and!; [|done|apply NoDup_nil_2].
  intros k. by rewrite lpm_rules_new.
Qed.

Lemma flow_acts_all : flow_acts (length flows) = route_acts 0.
Proof.
  unfold flow_acts, route_acts. rewrite firstn_all, take_0, Nat.sub_0_r. cbn.
  do 2 f_equal. lia.
Qed.

Lemma build_body_spec pf pr :
  array_of pf flows -> array_of pr routes ->
  ewp (build_body allocate socket_id sa pf nf pr nr gen) failed (fun _ => built)
    (state snapshot_zero [] (hash_new 0) (lpm_new 0 0)).
Proof.
  intros Hpf Hpr. unfold build_body.
  assert (ptrs_ok h0 sa snapshot_zero) as Hp.
  { split; [|done..]. by apply (allocate_fresh _ _ Hall _ _ Hsa). }
  apply ewp_bind, ewp_lift, (wp_update_snapshot _ snapshot_zero); [apply layout_snapshot|].
  rewrite layout_set_generation. fold (state (set_generation gen snapshot_zero) [] (hash_new 0) (lpm_new 0 0)).
  rewrite counts_u32.
  apply ewp_bind. eapply ewp_mono;
    [apply build_action_store_spec; [done|by apply ptrs_set_generation|done..]|done|].
  intros _ w (aa & acts & -> & Eacts & Ha & Hp1).
  apply ewp_bind. eapply ewp_mono; [apply build_flow_table_spec; [done| | |]|done|].
  1-2: by case_if.
  { intros a. case_if; [done|]. bool_to_prop. intros [= <-]. eauto. }
  intros _ w (ha & t & -> & Ht & Hp2).
  apply ewp_bind. eapply ewp_mono; [apply build_route_table_spec; [done| | |]|done|].
  1: by repeat case_if.
  { intros a. case_if; cbn; (case_if; [done|]); bool_to_prop; intros [= <-];
      eauto. }
  { intros a. case_if; [by case_if|]. bool_to_prop. intros [= <-]. destruct Ht as [_ Ht]; [done|eauto]. }
  intros _ w (la & l & -> & Hl & Hp3).
  match type of Hp3 with ptrs_ok _ _ ?s => assert (s = built_snapshot aa ha la) as Es end.
  { unfold built_snapshot, set_route_table, set_flow_table, set_actions, set_generation.
    repeat case_if; cbn; bool_to_prop; f_equal; lia. }
  rewrite Es in Hp3 |- *. clear Es Hp1 Hp2.
  assert (acts = flow_acts 0) as ->.
  { rewrite Eacts. unfold flow_acts. rewrite take_0, Nat.sub_0_r. case_if; cbn; bool_to_prop;
      [by replace (length flows + length routes)%nat with O by lia|by rewrite <- Nat2Z.inj_add, Nat2Z.id]. }
  apply ewp_bind. eapply ewp_mono; [apply (flow_loop_spec _ _ aa ha); [done..|]|done|].
  { intros H. destruct Ht as [-> _]; [done|]. unfold built_snapshot. cbn.
    rewrite !(proj2 (Z.eqb_neq _ _)) by lia. split_and!; [done..|apply flows_inv_0]. }
  intros _ w (t' & -> & Ht'). rewrite flow_acts_all.
  eapply ewp_mono; [apply (route_loop_spec _ _ aa la); [done..|]|done|].
  { intros H. rewrite Hl by done. unfold built_snapshot. cbn.
    rewrite !(proj2 (Z.eqb_neq _ _)) by lia. split_and!; [done..|apply routes_inv_0]. }
  intros _ w (l' & -> & Hl'). exists aa, ha, la, t', l'. split; [|done].
  f_equal. unfold route_acts, all_actions. by rewrite firstn_all, Nat.sub_diag, app_nil_r.
Qed.

(** What the body leaves in memory represents the rules, and they are valid. *)
Lemma built_rep w : built w ->
  rules_ok flows routes /\ snapshot_rep (heap w) sa gen flows routes /\ h0 ⊆ heap w /\ ctl w = c.
Proof.
  intros (aa & ha & la & t & l & -> & Hp & Hf & Hr). split_and!; [| |by apply layout_extends|done].
  - assert (Forall flow_rule_ok flows /\ NoDup (flow_rule_key <$> flows)) as [? ?].
    { destruct (decide (nf = 0)) as [E|E].
      + assert (flows = []) as -> by (apply length_zero_iff_nil; lia). split; constructor.
      + destruct (Hf E) as (_ & Hfl). by rewrite firstn_all in Hfl. }
    assert (Forall route_rule_ok routes /\ NoDup (route_key <$> routes)) as [? ?]; [|done].
    destruct (decide (nr = 0)) as [E|E].
    + assert (routes = []) as -> by (apply length_zero_iff_nil; lia). split; constructor.
    + destruct (Hr E) as (_ & Hrl). by rewrite firstn_all in Hrl.
  - exists aa, ha, la, t, l. unfold state. cbn [heap]. split_and!.
    + by rewrite layout_snapshot.
    + intros H. apply (layout_actions _ _ _ Hp). cbn. by rewrite (proj2 (Z.eqb_neq _ _)).
    + intros H. destruct (Hf H) as [Hl _]. rewrite firstn_all in Hl. split; [|done].
      apply (layout_hash _ _ _ Hp). cbn. by rewrite (proj2 (Z.eqb_neq _ _)).
    + intros H. destruct (Hr H) as [Hl _]. rewrite firstn_all in Hl. split; [|done].
      apply (layout_lpm _ _ _ Hp). cbn. by rewrite (proj2 (Z.eqb_neq _ _)).
Qed.
End BuildSpec.

(** ** [dp_snapshot_build] *)
Section Build.
Context (allocate : allocator) (socket_id : Z) (h0 : heap_t) (c : dp_ctl_stats).
Context (Hall : allocator_ok allocate h0).
Context (flows : list dp_flow_rule) (routes : list dp_route_rule) (gen : Z).
Context (Hff : Forall flow_fits flows) (Hrf : Forall route_fits routes).
Context (pf : option (list dp_flow_rule)) (pr : option (list dp_route_rule)).
Context (Hpf : array_of pf flows) (Hpr : array_of pr routes).

Abbreviation nf := (Z.of_nat (length flows)).
Abbreviation nr := (Z.of_nat (length routes)).
Abbreviation w0 := {| heap := h0; ctl := c |}.

Lemma free_ctl_off s : free_ctl s false false c = c.
Proof. unfold free_ctl. by destruct (flow_table s), (route_table s), (actions s). Qed.

Lemma array_not_null {A} (p : option (list A)) l :
  array_of p l -> (negb (Z.of_nat (length l) =? 0) && is_null p) = false.
Proof. destruct p; cbn; [by rewrite andb_comm|by intros ->]. Qed.

Definition build_post : Z * option Z -> rules_world -> Prop := fun '(ret, result) w =>
  match result with
  | Some sa => ret = 0 /\ h0 !! sa = None /\ built h0 c flows routes gen sa w
  | None => ret < 0 /\ w = w0 /\ fail_reason allocate socket_id flows routes gen ret
  end.

Lemma dp_snapshot_build_wp : within_limits flows routes ->
  wp (dp_snapshot_build allocate socket_id pf nf pr nr gen) build_post w0.
Proof.
  intros Hlim. unfold dp_snapshot_build.
  destruct (orb (_ <? _) _) eqn:Hl; [destruct Hlim; bool_to_prop; lia|].
  rewrite !array_not_null by done. cbn [orb].
  destruct (allocate (ReqZmalloc "dfr_rule_snapshot" _ _)) as [e|sa] eqn:Hsa.
  { apply wp_ret. split_and!; [|done|right; left; eexists _, e; split_and!; [|done..]; by left].
    apply neg_errno_neg; [by eapply allocate_errno|done]. }
  apply wp_bind, wp_modify, wp_bind. change (with_heap _ _)
    with (state h0 c sa snapshot_zero [] (hash_new 0) (lpm_new 0 0)).
  eapply wp_mono; [by apply build_body_spec|]. intros [ret|[]] w; cbv beta iota.
  - intros (Hneg & Hreason & s & acts & t & l & Hp & ->). apply wp_bind. unfold wp at 1, state.
    rewrite dp_snapshot_free_layout, free_ctl_off by done. by apply wp_ret.
  - intros Hb. apply wp_ret. split_and!; [done| |done]. by eapply allocate_fresh.
Qed.

(** The heap outside the limits is untouched. *)
Lemma dp_snapshot_build_limits : ~ within_limits flows routes ->
  dp_snapshot_build allocate socket_id pf nf pr nr gen w0 = Some (- ENOSPC, None, w0).
Proof.
  intros Hlim. unfold dp_snapshot_build. destruct (orb (_ <? _) _) eqn:Hl; [done|].
  destruct Hlim. bool_to_prop. by split.
Qed.
End Build.
End Spec.
