(* ===== verification/LookupSpec.v ===== *)
(** * The contract of [dp_lookup.c]

    The properties of building, freeing and looking up rule snapshots, stated
    against the abstract rule lists; the proofs are those of [SnapshotSpec]. *)
From Stdlib Require Import ZArith Lia.
From stdpp Require Import base list numbers option gmap strings.
From S2P Require Import Prelude Packet Api Tables Heap Snapshot SnapshotSpec.

Section Lookup.
Context {T : DpdkTables} {TO : DpdkTablesOk T}.
Abbreviation heap_t := (gmap Z hobj).

Lemma map_lookup_mono (h h' : heap_t) a o : h ⊆ h' -> h !! a = Some o -> h' !! a = Some o.
Proof. rewrite map_subseteq_spec. auto. Qed.

(** A typed load is kept by every extension of the heap. *)
Ltac load_mono :=
  unfold get_snapshot, get_actions, get_hash, get_lpm; intros Hs;
  match goal with |- match ?h !! ?a with _ => _ end = _ -> _ =>
    destruct (h !! a) eqn:E; [|done]; by rewrite (map_lookup_mono _ _ _ _ Hs E) end.

Lemma get_snapshot_mono h h' a s : h ⊆ h' -> get_snapshot h a = Some s -> get_snapshot h' a = Some s.
Proof. load_mono. Qed.
Lemma get_actions_mono h h' a s : h ⊆ h' -> get_actions h a = Some s -> get_actions h' a = Some s.
Proof. load_mono. Qed.
Lemma get_hash_mono h h' a s : h ⊆ h' -> get_hash h a = Some s -> get_hash h' a = Some s.
Proof. load_mono. Qed.
Lemma get_lpm_mono h h' a s : h ⊆ h' -> get_lpm h a = Some s -> get_lpm h' a = Some s.
Proof. load_mono. Qed.

Lemma snapshot_rep_mono h h' sa gen flows routes :
  h ⊆ h' -> snapshot_rep h sa gen flows routes -> snapshot_rep h' sa gen flows routes.
Proof.
  intros Hs (aa & ha & la & t & l & Hsn & Ha & Hf & Hr). exists aa, ha, la, t, l. split_and!.
  - by eapply get_snapshot_mono.
  - intros H. by eapply get_actions_mono, Ha.
  - intros H. destruct (Hf H). split; [by eapply get_hash_mono|done].
  - intros H. destruct (Hr H). split; [by eapply get_lpm_mono|done].
Qed.

(** ** Looking up *)

(** What a caller of [dp_lookup_packet] gets: the decision of the contract, and
    for a hit a pointer that can be dereferenced to the rule's action. *)
Definition decides (h : heap_t) (answer : dp_lookup_result * option action_ptr)
    (spec : dp_lookup_result * option dp_rule_action) : Prop :=
  answer.1 = spec.1 /\
  match answer.2, spec.2 with
  | Some p, Some a => get_action h p = Some a
  | None, None => True
  | _, _ => False
  end.

Lemma all_actions_flow flows routes i r : flows !! i = Some r ->
  all_actions flows routes !! i = Some (flow_action r).
Proof.
  intros Hr. unfold all_actions. apply lookup_app_l_Some. by rewrite list_lookup_fmap, Hr.
Qed.

Lemma all_actions_route flows routes j r : routes !! j = Some r ->
  all_actions flows routes !! (length flows + j)%nat = Some (route_action r).
Proof.
  intros Hr. unfold all_actions. rewrite lookup_app_r; rewrite length_fmap; [|lia].
  rewrite list_lookup_fmap. replace (length flows + j - length flows)%nat with j by lia. by rewrite Hr.
Qed.

Lemma get_action_index h aa l i : get_actions h aa = Some l ->
  get_action h {| ap_base := aa; ap_index := Z.of_nat i |} = l !! i.
Proof.
  intros H. unfold get_action. cbn [ap_base ap_index]. rewrite H. bind_cbn.
  by rewrite (proj2 (Z.leb_le _ _)), Nat2Z.id by lia.
Qed.

Lemma nonempty_lookup {A} (l : list A) i x : l !! i = Some x -> Z.of_nat (length l) <> 0.
Proof. intros ?%lookup_lt_Some. lia. Qed.

Lemma entry_of_nil {A K} `{EqDecision K} (key : A -> K) k : entry_of key [] k = None.
Proof. done. Qed.

Lemma longest_match_entry (l : list dp_route_rule) ip :
  longest_match (entry_of route_key l) ip = longest_match (index_of route_key l) ip ≫= (l !!.).
Proof.
  unfold longest_match. generalize 32%nat. intros n. induction n as [|n IH]; [done|].
  cbn [longest_match_upto]. rewrite IH. unfold entry_of at 1.
  destruct (index_of route_key l _) as [i|] eqn:Hi; [|done].
  destruct (index_of_Some _ _ _ _ Hi) as (x & Hx & _). bind_cbn. by rewrite Hx.
Qed.

Lemma longest_match_index_lt (l : list dp_route_rule) ip j :
  longest_match (index_of route_key l) ip = Some j -> (j < length l)%nat.
Proof. intros (d & _ & Hd & _)%longest_match_upto_Some. by eapply index_of_lt. Qed.

(** What the first half of [dp_lookup_packet] finds. *)
Lemma flow_answer h (flows : list dp_flow_rule) aa ha t k :
  let nf := Z.of_nat (length flows) in
  (nf <> 0 -> get_hash h ha = Some t /\ forall k, rte_hash_lookup_data t k =
     (fun j => {| ap_base := aa; ap_index := Z.of_nat j |}) <$> index_of flow_rule_key flows k) ->
  match (if nf =? 0 then None else Some ha) with
  | Some ha => t ← get_hash h ha; Some (rte_hash_lookup_data t k)
  | None => Some None
  end = Some ((fun j => {| ap_base := aa; ap_index := Z.of_nat j |}) <$> index_of flow_rule_key flows k).
Proof.
  intros nf Hf. subst nf. case_if; bool_to_prop.
  - by assert (flows = []) as -> by (apply length_zero_iff_nil; lia).
  - destruct Hf as [-> Hk]; [done|]. bind_cbn. by rewrite Hk.
Qed.

Lemma dp_lookup_packet_represented h sa gen flows routes meta :
  snapshot_rep h sa gen flows routes -> fits 32 (dst_ipv4 meta) ->
  exists answer, dp_lookup_packet h meta (Some sa) = Some answer /\
    decides h answer (lookup_spec flows routes meta).
Proof.
  intros (aa & ha & la & t & l & Hsn & Ha & Hf & Hr) Hdst.
  unfold dp_lookup_packet, lookup_spec. rewrite Hsn. bind_cbn. cbn [built_snapshot flow_table
    route_table actions action_count]. set (k := dp_flow_key_from_meta meta).
  pose proof (fun i r (H : flows !! i = Some r) => nonempty_lookup _ _ _ H) as Hne.
  rewrite (flow_answer h flows aa ha t k Hf). unfold entry_of at 1.
  destruct (index_of flow_rule_key flows k) as [i|] eqn:Hi; cbn [fmap option_fmap option_map]; bind_cbn.
  { destruct (index_of_Some _ _ _ _ Hi) as (r & Hr' & _). rewrite Hr'. bind_cbn. eexists. split; [done|].
    split; [done|]. cbn. specialize (Hne _ _ Hr').
    rewrite (get_action_index _ _ (all_actions flows routes)) by (apply Ha; lia).
    by apply all_actions_flow. }
  rewrite longest_match_entry.
  case_if; bool_to_prop.
  { assert (routes = []) as -> by (apply length_zero_iff_nil; lia). by eexists. }
  destruct Hr as [-> Hk]; [done|]. bind_cbn. rewrite lpm_lookup_longest by done.
  rewrite (longest_match_ext _ _ _ Hk), longest_match_fmap.
  destruct (longest_match (index_of route_key routes) _) as [j|] eqn:Hj;
    cbn [fmap option_fmap option_map]; bind_cbn; [|by eexists].
  pose proof (longest_match_index_lt _ _ _ Hj) as Hlt. rewrite (proj2 (Z.ltb_lt _ _)) by lia.
  rewrite (proj2 (Z.eqb_neq (_ + _) 0)) by lia. bind_cbn.
  destruct (lookup_lt_is_Some_2 _ _ Hlt) as [r Hr']. rewrite Hr'. bind_cbn. eexists. split; [done|].
  split; [done|]. cbn. rewrite <- Nat2Z.inj_add.
  rewrite (get_action_index _ _ (all_actions flows routes)) by (apply Ha; lia).
  by apply all_actions_route.
Qed.

(** ** The decision, without the search *)
Definition route_matches (r : dp_route_rule) (ip : Z) : Prop :=
  prefix_of ip (route_depth r) = route_prefix r.

Lemma entry_of_Some_in {A K} `{EqDecision K} (key : A -> K) l k x :
  entry_of key l k = Some x -> x ∈ l /\ key x = k.
Proof.
  unfold entry_of. destruct (index_of key l k) as [i|] eqn:Hi; [|done]. bind_cbn. intros Hx.
  destruct (index_of_Some _ _ _ _ Hi) as (y & Hy & ?). simplify_eq.
  split; [by apply list_elem_of_lookup_2 with i|done].
Qed.

Lemma entry_of_None_in {A K} `{EqDecision K} (key : A -> K) l k x :
  entry_of key l k = None -> x ∈ l -> key x <> k.
Proof.
  intros Hn Hin <-. apply entry_of_None in Hn. apply Hn. by apply list_elem_of_fmap_2.
Qed.

Lemma longest_match_routes routes ip r :
  Forall route_rule_ok routes ->
  longest_match (entry_of route_key routes) ip = Some r ->
  r ∈ routes /\ route_matches r ip /\
  forall r', r' ∈ routes -> route_matches r' ip -> route_depth r' <= route_depth r.
Proof.
  intros Hok (d & Hd & Hf & Hmax)%longest_match_upto_Some.
  destruct (entry_of_Some_in _ _ _ _ Hf) as [Hin [= Hp Hdep]].
  split; [done|]. unfold route_matches. rewrite Hdep. split; [done|]. intros r' Hin' Hm.
  destruct (decide (route_depth r' <= d)) as [|Hgt]; [done|].
  pose proof (proj1 (Forall_forall _ _) Hok r' Hin') as [Hr' _].
  destruct (entry_of_None_in route_key routes (prefix_of ip (route_depth r'), route_depth r') r'); [|done|].
  - apply Hmax. lia.
  - unfold route_key. by rewrite Hm.
Qed.

Lemma longest_match_upto_None {A} (f : Z * Z -> option A) ip n :
  longest_match_upto f ip n = None -> forall d, 1 <= d <= Z.of_nat n -> f (prefix_of ip d, d) = None.
Proof.
  induction n as [|n IH]; cbn [longest_match_upto]; [lia|].
  destruct (f _) eqn:Hf; [done|]. intros H d Hd.
  destruct (decide (d = Z.of_nat (S n))) as [->|]; [done|]. apply IH; [done|lia].
Qed.

Lemma longest_match_no_route routes ip :
  Forall route_rule_ok routes -> longest_match (entry_of route_key routes) ip = None ->
  forall r, r ∈ routes -> ~ route_matches r ip.
Proof.
  intros Hok Hn r Hin Hm. pose proof (proj1 (Forall_forall _ _) Hok r Hin) as [Hr _].
  apply (entry_of_None_in route_key routes (prefix_of ip (route_depth r), route_depth r) r); [|done|].
  - by apply (longest_match_upto_None _ _ 32).
  - unfold route_key. by rewrite Hm.
Qed.

(** C16: on a snapshot that represents a rule set, [dp_lookup_packet] is always
    defined; it reports a flow hit exactly for a rule with the packet's
    five-tuple, otherwise a route hit for a matching route of maximal depth, and a
    miss only if no rule applies; every action pointer it hands out can be
    dereferenced to the action of the rule it reports. *)
Theorem dp_lookup_packet_decision h sa gen flows routes meta :
  snapshot_rep h sa gen flows routes -> rules_ok flows routes -> fits 32 (dst_ipv4 meta) ->
  exists res p, dp_lookup_packet h meta (Some sa) = Some (res, p) /\
    let no_flow := forall r, r ∈ flows -> flow_rule_key r <> dp_flow_key_from_meta meta in
    match res with
    | DP_LOOKUP_FLOW_HIT => exists r, r ∈ flows /\ flow_rule_key r = dp_flow_key_from_meta meta /\
        p ≫= get_action h = Some (flow_action r)
    | DP_LOOKUP_ROUTE_HIT => no_flow /\ exists r, r ∈ routes /\ route_matches r (dst_ipv4 meta) /\
        (forall r', r' ∈ routes -> route_matches r' (dst_ipv4 meta) -> route_depth r' <= route_depth r) /\
        p ≫= get_action h = Some (route_action r)
    | DP_LOOKUP_MISS => p = None /\ no_flow /\
        forall r, r ∈ routes -> ~ route_matches r (dst_ipv4 meta)
    end.
Proof.
  intros Hrep [Hf _ Hr _] Hdst.
  destruct (dp_lookup_packet_represented _ _ _ _ _ _ Hrep Hdst) as ([res p] & -> & Hres & Hp).
  exists res, p. split; [done|]. unfold lookup_spec in *. cbn [fst snd] in *.
  destruct (entry_of flow_rule_key flows _) as [r|] eqn:Hflow; cbn [fst snd] in *.
  { subst. destruct (entry_of_Some_in _ _ _ _ Hflow). destruct p; [|done]. by exists r. }
  pose proof (fun r => entry_of_None_in _ _ _ r Hflow) as Hno.
  destruct (longest_match _ _) as [r|] eqn:Hroute; cbn [fst snd] in *; subst; split; try done.
  - destruct p; [|done]. exists r. by destruct (longest_match_routes _ _ _ Hr Hroute) as (? & ? & ?).
  - by destruct p.
  - split; [done|]. by apply longest_match_no_route.
Qed.

(** ** Building *)
Section Build.
Context (allocate : allocator) (socket_id : Z) (h0 : heap_t) (c : dp_ctl_stats).
Context (Hall : allocator_ok allocate h0).
Context (flows : list dp_flow_rule) (routes : list dp_route_rule) (gen : Z).
Context (Hff : Forall flow_fits flows) (Hrf : Forall route_fits routes).
Context (pf : option (list dp_flow_rule)) (pr : option (list dp_route_rule)).
Context (Hpf : array_of pf flows) (Hpr : array_of pr routes).

Definition run_build : option (Z * option Z * rules_world) :=
  dp_snapshot_build allocate socket_id pf (Z.of_nat (length flows)) pr (Z.of_nat (length routes)) gen
    {| heap := h0; ctl := c |}.

Lemma run_build_cases : within_limits flows routes -> exists ret result w,
  run_build = Some (ret, result, w) /\ build_post allocate socket_id h0 c flows routes gen (ret, result) w.
Proof.
  intros Hlim. pose proof (dp_snapshot_build_wp allocate socket_id h0 c Hall flows routes gen Hff Hrf pf pr Hpf Hpr
    Hlim) as ([ret result] & w & Hrun & HQ)%wp_run.
  exists ret, result, w. by split.
Qed.

(** C31: what the builder accepts.  When the allocations succeed and the tables
    accept the additions, it returns a snapshot exactly for the rule sets that are
    within the capacities and valid; more than 1024 flow or route rules are -ENOSPC,
    whatever they are; a rule set within the capacities that is not valid is -EINVAL
    or -EEXIST.  Where it returns no snapshot it has left everything as it was. *)
Theorem dp_snapshot_build_complete :
  (forall r, r ∈ build_requests socket_id flows routes gen -> exists a, allocate r = inr a) ->
  (forall t k p, 0 <= fst (rte_hash_add_key_data t k p)) ->
  (forall l ip d nh, 0 <= fst (rte_lpm_add l ip d nh)) ->
  exists ret result w, run_build = Some (ret, result, w) /\
    ((exists sa, result = Some sa) <-> within_limits flows routes /\ rules_ok flows routes) /\
    match result with
    | Some _ => ret = 0
    | None => w = {| heap := h0; ctl := c |} /\ (ret = - ENOSPC <-> ~ within_limits flows routes) /\
        (within_limits flows routes -> ret = - EINVAL \/ ret = - EEXIST)
    end.
Proof.
  intros Ha Hh Hl. destruct (decide (within_limits flows routes)) as [Hlim|Hlim].
  2: { exists (- ENOSPC), None, {| heap := h0; ctl := c |}. split; [by apply dp_snapshot_build_limits|].
       split; [split; [by intros [? [=]]|by intros [? _]]|]. by split_and!. }
  destruct (run_build_cases Hlim) as (ret & result & w & Hrun & Hpost). exists ret, result, w.
  split; [done|]. destruct result as [sa|].
  - destruct Hpost as (-> & _ & Hb). apply built_rep in Hb as (Hok & _); [|done..]. split; [|done]. split; [done|by exists sa].
  - destruct Hpost as (Hneg & -> & [[Hbad Hret]|[(r & e & Hin & He & _)|[(t & k & p & t' & He)|
      (l & ip & d & nh & l' & He)]]]).
    + split; [split; [by intros [? [=]]|by intros [_ ?]]|]. split; [done|]. split; [|done].
      split; [|done]. by intros ->; destruct Hret.
    + destruct (Ha r Hin). congruence.
    + pose proof (Hh t k p) as H. rewrite He in H. cbn in H. lia.
    + pose proof (Hl l ip d nh) as H. rewrite He in H. cbn in H. lia.
Qed.

Context (Hlim : within_limits flows routes).

(** C18: a build within the capacities is always defined; if it returns a snapshot then the return code
    is 0, the rules are valid and free of duplicates, nothing that was allocated
    before has changed, and from then on, whatever else is allocated, looking a
    packet up in the snapshot gives the decision of the rule lists. *)
Theorem dp_snapshot_build_refines : exists ret result w,
  run_build = Some (ret, result, w) /\
  forall sa, result = Some sa ->
    ret = 0 /\ rules_ok flows routes /\ h0 ⊆ heap w /\ ctl w = c /\
    forall h meta, heap w ⊆ h -> fits 32 (dst_ipv4 meta) ->
      exists answer, dp_lookup_packet h meta (Some sa) = Some answer /\
        decides h answer (lookup_spec flows routes meta).
Proof.
  destruct (run_build_cases Hlim) as (ret & result & w & Hrun & Hpost). exists ret, result, w.
  split; [done|]. intros sa ->. destruct Hpost as (-> & _ & Hb).
  apply built_rep in Hb as (Hok & Hrep & Hsub & Hctl); [|done..]. split_and!; [done..|].
  intros h meta Hh Hd. by eapply dp_lookup_packet_represented; [eapply snapshot_rep_mono|].
Qed.

(** C32: a build within the capacities that returns no snapshot returns a negative code, has released
    everything it allocated and changed no counter; the code is -EINVAL or
    -EEXIST for a rule set that violates the contract, or comes from an
    allocation or a table that DPDK refused. *)
Theorem dp_snapshot_build_failure ret w :
  run_build = Some (ret, None, w) ->
  ret < 0 /\ w = {| heap := h0; ctl := c |} /\ fail_reason allocate socket_id flows routes gen ret.
Proof. destruct (run_build_cases Hlim) as (? & ? & ? & -> & Hpost). intros [= -> -> ->]. apply Hpost. Qed.

(** C33: freeing a built snapshot gives back exactly the heap the build started
    from, and sets the resource counters of the objects that existed. *)
Theorem dp_snapshot_build_free sa w reclaimed record_stats :
  run_build = Some (0, Some sa, w) ->
  exists s, get_snapshot (heap w) sa = Some s /\
    dp_snapshot_free (Some sa) reclaimed record_stats w =
      Some (tt, {| heap := h0; ctl := free_ctl s reclaimed record_stats c |}).
Proof.
  destruct (run_build_cases Hlim) as (? & ? & ? & -> & Hpost). intros [= -> -> ->].
  destruct Hpost as (_ & _ & aa & ha & la & t & l & -> & Hp & _).
  eexists. split; [apply layout_snapshot|]. by apply dp_snapshot_free_layout.
Qed.
End Build.
End Lookup.
