(* ===== verification/Action.v ===== *)
(** * Applying an action: [dp_action.c]

    The checksum functions are DPDK's.  [Checksums] lists the two the program
    calls, on pointers into the packet as in [Prelude]; [ChecksumsOk] states
    what DPDK documents: with the checksum field cleared, the value returned is
    the one that, stored into the field, makes the RFC 1071 sum of the header
    (or of pseudo header and segment) vanish.  [rfc1071] implements it. *)
From Stdlib Require Import ZArith Lia.
From stdpp Require Import base list numbers option.
From S2P Require Import Prelude Host Packet Api.

(** ** The Internet checksum (RFC 1071) *)

(** The sum of the big-endian 16-bit words; an odd last byte is padded. *)
Fixpoint inet_sum (l : list Z) : Z :=
  match l with
  | b0 :: b1 :: l => be16 b0 b1 + inet_sum l
  | [b] => be16 b 0
  | [] => 0
  end.

(** The ones' complement sum is zero (all ones, for a sum that is not 0). *)
Definition inet_ok (l : list Z) : Prop := inet_sum l mod 65535 = 0.

(** Offset of the checksum in a transport header. *)
Definition l4_cksum_offset (proto : Z) : Z :=
  if proto =? IPPROTO_UDP then UDP_DGRAM_CKSUM else TCP_CKSUM.

(** The pseudo header of an IPv4 header at [p] for [l4_len] bytes. *)
Definition pseudo_header (p : list Z) (proto l4_len : Z) : list Z :=
  take 4 (drop 12 p) ++ take 4 (drop 16 p) ++ [0; proto] ++ be16_bytes l4_len.

Class Checksums := {
  rte_ipv4_cksum : list Z -> option Z;
  rte_ipv4_udptcp_cksum : list Z -> list Z -> option Z;
}.

Class ChecksumsOk {H : Host} (C : Checksums) : Prop := {
  ipv4_cksum_spec p v : bytes p -> rd8 p IPV4_VERSION_IHL = Some v ->
    5 <= v mod 16 -> v mod 16 * 4 <= Z.of_nat (length p) -> field16 p IPV4_HDR_CHECKSUM = Some 0 ->
    exists c, rte_ipv4_cksum p = Some c /\ fits 16 c /\
      forall p', wr16 p IPV4_HDR_CHECKSUM c = Some p' ->
        inet_ok (take (Z.to_nat (v mod 16 * 4)) p');
  udptcp_cksum_spec p q v total proto : bytes p -> bytes q ->
    20 <= Z.of_nat (length p) -> rd8 p IPV4_VERSION_IHL = Some v -> 5 <= v mod 16 ->
    field16 p IPV4_TOTAL_LENGTH = Some total -> rd8 p IPV4_NEXT_PROTO_ID = Some proto ->
    proto = IPPROTO_TCP \/ proto = IPPROTO_UDP ->
    let l4_len := total - v mod 16 * 4 in
    let off := l4_cksum_offset proto in
    off + 2 <= l4_len <= Z.of_nat (length q) -> field16 q off = Some 0 ->
    exists c, rte_ipv4_udptcp_cksum p q = Some c /\ fits 16 c /\
      (proto = IPPROTO_UDP -> c <> 0) /\
      forall q', wr16 q off c = Some q' ->
        inet_ok (pseudo_header p proto l4_len ++ take (Z.to_nat l4_len) q');
}.

(** ** The action *)
Section Action.
Context {H : Host} {C : Checksums}.

(** [if (action->rewrite_mask & bit) field = ...;] *)
Definition masked (action : dp_rule_action) (bit : Z) : bool :=
  negb (Z.land (act_rewrite_mask action) bit =? 0).
Definition write_if (b : bool) (write : list Z -> option (list Z)) (data : list Z)
    : option (list Z) :=
  if b then write data else Some data.

(** The two address writes at the head, through [ipv4]. *)
Definition write_addresses (action : dp_rule_action) (ipv4 : Z) (data : list Z) : option (list Z) :=
  data ← write_if (masked action DP_REWRITE_SRC_IPV4)
    (fun d => wr32 d (ipv4 + IPV4_SRC_ADDR) (rte_cpu_to_be_32 (act_src_ipv4 action))) data;
  write_if (masked action DP_REWRITE_DST_IPV4)
    (fun d => wr32 d (ipv4 + IPV4_DST_ADDR) (rte_cpu_to_be_32 (act_dst_ipv4 action))) data.

(** [ipv4->hdr_checksum = 0; ipv4->hdr_checksum = rte_ipv4_cksum(ipv4);] *)
Definition update_ipv4_cksum (ipv4 : Z) (data : list Z) : option (list Z) :=
  data ← wr16 data (ipv4 + IPV4_HDR_CHECKSUM) 0;
  p ← ptr_add data ipv4;
  cksum ← rte_ipv4_cksum p;
  wr16 data (ipv4 + IPV4_HDR_CHECKSUM) cksum.

Definition rewrite_tcp (action : dp_rule_action) (ipv4 tcp : Z) (data : list Z) : option (list Z) :=
  data ← write_if (masked action DP_REWRITE_SRC_PORT)
    (fun d => wr16 d (tcp + TCP_SRC_PORT) (rte_cpu_to_be_16 (act_src_port action))) data;
  data ← write_if (masked action DP_REWRITE_DST_PORT)
    (fun d => wr16 d (tcp + TCP_DST_PORT) (rte_cpu_to_be_16 (act_dst_port action))) data;
  data ← wr16 data (tcp + TCP_CKSUM) 0;
  data ← update_ipv4_cksum ipv4 data;
  p ← ptr_add data ipv4;
  q ← ptr_add data tcp;
  cksum ← rte_ipv4_udptcp_cksum p q;
  wr16 data (tcp + TCP_CKSUM) cksum.

(** The total length is lowered to the datagram's for the checksum, then restored. *)
Definition rewrite_udp (meta : dp_packet_meta) (action : dp_rule_action) (ipv4 udp : Z)
    (data : list Z) : option (list Z) :=
  data ← write_if (masked action DP_REWRITE_SRC_PORT)
    (fun d => wr16 d (udp + UDP_SRC_PORT) (rte_cpu_to_be_16 (act_src_port action))) data;
  data ← write_if (masked action DP_REWRITE_DST_PORT)
    (fun d => wr16 d (udp + UDP_DST_PORT) (rte_cpu_to_be_16 (act_dst_port action))) data;
  data ← wr16 data (udp + UDP_DGRAM_CKSUM) 0;
  data ← update_ipv4_cksum ipv4 data;
  ipv4_total_length ← rd16 data (ipv4 + IPV4_TOTAL_LENGTH);
  udp_length ← rte_be_to_cpu_16 <$> rd16 data (udp + UDP_DGRAM_LEN);
  data ← wr16 data (ipv4 + IPV4_TOTAL_LENGTH) (rte_cpu_to_be_16 (u16 (l3_len meta + udp_length)));
  p ← ptr_add data ipv4;
  q ← ptr_add data udp;
  cksum ← rte_ipv4_udptcp_cksum p q;
  data ← wr16 data (udp + UDP_DGRAM_CKSUM) cksum;
  wr16 data (ipv4 + IPV4_TOTAL_LENGTH) ipv4_total_length.

(** The return code and the packet afterwards. *)
Definition dp_apply_action (mbuf : option rte_mbuf) (meta : option dp_packet_meta)
    (action : option dp_rule_action) : option (Z * option rte_mbuf) :=
  match mbuf, meta, action with
  | Some m, Some meta, Some action =>
    if (act_type action =? DP_ACTION_DROP) || (act_type action =? DP_ACTION_FORWARD)
    then Some (0, mbuf) else
    if negb (act_type action =? DP_ACTION_REWRITE) || (act_rewrite_mask action =? 0)
    then Some (- EINVAL, mbuf) else
    let data := mbuf_data m in
    _ ← ptr_add data (l2_len meta);
    _ ← ptr_add data (l4_offset meta);
    data ← write_addresses action (l2_len meta) data;
    if l4_proto meta =? IPPROTO_TCP then
      data ← rewrite_tcp action (l2_len meta) (l4_offset meta) data;
      Some (0, Some (mbuf_set_data data m))
    else if l4_proto meta =? IPPROTO_UDP then
      data ← rewrite_udp meta action (l2_len meta) (l4_offset meta) data;
      Some (0, Some (mbuf_set_data data m))
    else Some (- EINVAL, Some (mbuf_set_data data m))
  | _, _, _ => Some (- EINVAL, mbuf)
  end.
End Action.

(** ** RFC 1071 as an implementation of the interface *)
Section Rfc1071.
Context {H : Host}.

(** The word that completes the sum of [l], as the host stores it. *)
Definition complement_word (l : list Z) : Z :=
  let v := - inet_sum l mod 65535 in load16 (v / 256) (v mod 256).
Definition complement_word_nonzero (l : list Z) : Z :=
  let v := - inet_sum l mod 65535 in
  let v := if v =? 0 then 65535 else v in load16 (v / 256) (v mod 256).

Definition rfc1071 : Checksums := {|
  rte_ipv4_cksum p :=
    v ← rd8 p IPV4_VERSION_IHL; Some (complement_word (take (Z.to_nat (v mod 16 * 4)) p));
  rte_ipv4_udptcp_cksum p q :=
    v ← rd8 p IPV4_VERSION_IHL; total ← field16 p IPV4_TOTAL_LENGTH;
    proto ← rd8 p IPV4_NEXT_PROTO_ID;
    let l4_len := total - v mod 16 * 4 in
    Some (complement_word_nonzero (pseudo_header p proto l4_len ++ take (Z.to_nat l4_len) q));
|}.
End Rfc1071.
