(* ===== verification/ActionSpec.v ===== *)
(** * Correctness of [dp_apply_action]

    A rewrite turns the bytes of a frame of the grammar into the bytes of the
    frame whose selected addresses and ports are the action's and whose two
    checksums verify; every other byte is kept. *)
From Stdlib Require Import ZArith Lia.
From stdpp Require Import base list numbers option.
From S2P Require Import Prelude Host Packet Parser Wire ParserSpec Api Action.

(** ** The Internet checksum *)
Lemma list_pair_ind {A} (P : list A -> Prop) :
  P [] -> (forall x, P [x]) -> (forall x y l, P l -> P (x :: y :: l)) -> forall l, P l.
Proof.
  intros H0 H1 H2. fix IH 1. intros [|x [|y l]]; [done|apply H1|apply H2, IH].
Qed.

Lemma inet_sum_app a b : Nat.Even (length a) -> inet_sum (a ++ b) = inet_sum a + inet_sum b.
Proof.
  induction a as [|x|x y a IH] using list_pair_ind; intros He.
  - done.
  - cbn in He. destruct He. lia.
  - cbn [app inet_sum]. rewrite IH; [lia|]. destruct He as [k Hk]. cbn in Hk. exists (k - 1)%nat. lia.
Qed.

(** Replacing the zero word at an even offset adds the word. *)
Lemma inet_sum_set_word pre b0 b1 post : Nat.Even (length pre) ->
  inet_sum (pre ++ b0 :: b1 :: post) = inet_sum (pre ++ 0 :: 0 :: post) + be16 b0 b1.
Proof. intros. rewrite !inet_sum_app by done. cbn [inet_sum]. unfold be16. lia. Qed.

Lemma inet_ok_complement pre post v : Nat.Even (length pre) ->
  v mod 65535 = (- inet_sum (pre ++ 0 :: 0 :: post)) mod 65535 ->
  inet_ok (pre ++ v / 256 :: v mod 256 :: post).
Proof.
  intros He Hv. unfold inet_ok. rewrite inet_sum_set_word, be16_of_bytes by done.
  rewrite Z.add_mod, Hv, <- Z.add_mod by lia. by rewrite Z.add_opp_diag_r.
Qed.

(** ** A 16-bit field in the middle of a buffer *)
Lemma field_split (p : list Z) i : 0 <= i -> i + 2 <= len p ->
  exists pre b0 b1 post, p = pre ++ b0 :: b1 :: post /\ len pre = i.
Proof.
  intros Hi HL. destruct (list_split_at (Z.to_nat i) p) as (pre & [|b0 [|b1 post]] & -> & Hpre);
    rewrite ?length_app in *; cbn [length] in *; try lia.
  exists pre, b0, b1, post. split; [done|lia].
Qed.

Lemma field16_at pre b0 b1 post : field16 (pre ++ b0 :: b1 :: post) (len pre) = Some (be16 b0 b1).
Proof. rewrite <- (Z.add_0_r (len pre)). by rewrite field16_app_r. Qed.

Lemma be16_zero b0 b1 : is_byte b0 -> is_byte b1 -> be16 b0 b1 = 0 -> b0 = 0 /\ b1 = 0.
Proof. unfold be16. fits_lia. Qed.

Lemma insert_at {A} (pre : list A) x y post : <[length pre := y]> (pre ++ x :: post) = pre ++ y :: post.
Proof. by rewrite insert_app_r_alt, Nat.sub_diag by lia. Qed.

Lemma wr8_at pre x post v : wr8 (pre ++ x :: post) (len pre) v = Some (pre ++ v :: post).
Proof.
  rewrite wr8_Some by (rewrite length_app; cbn [length]; lia). by rewrite Nat2Z.id, insert_at.
Qed.

Section Fields.
Context {H : Host} {HO : HostOk H}.

Lemma wr16_at pre b0 b1 post v :
  wr16 (pre ++ b0 :: b1 :: post) (len pre) v =
    Some (pre ++ fst (store16 v) :: snd (store16 v) :: post).
Proof.
  unfold wr16. destruct (store16 v) as [x y]. rewrite wr8_at. bind_cbn. cbn [fst snd].
  replace (len pre + 1) with (len (pre ++ [x])) by (rewrite length_app; cbn [length]; lia).
  rewrite (cons_middle x pre), app_assoc, wr8_at. by rewrite <- app_assoc.
Qed.

(** ** RFC 1071 satisfies the interface *)
Lemma take_field {A} n pre (x y : A) post : len pre + 2 <= n ->
  take (Z.to_nat n) (pre ++ x :: y :: post) = pre ++ x :: y :: take (Z.to_nat (n - len pre - 2)) post.
Proof.
  intros. replace (Z.to_nat n) with (length pre + S (S (Z.to_nat (n - len pre - 2))))%nat by lia.
  by rewrite take_app_add.
Qed.

Lemma load16_cancel v : fits 16 v -> store16 (load16 (v / 256) (v mod 256)) = (v / 256, v mod 256).
Proof. intros. apply store16_load16; Z.div_mod_to_equations; fits_lia. Qed.

Lemma load16_word_fits v : fits 16 v -> fits 16 (load16 (v / 256) (v mod 256)).
Proof. intros. apply load16_fits; Z.div_mod_to_equations; fits_lia. Qed.

Lemma cksum_field pre0 q off n c v : bytes q -> 0 <= off -> off + 2 <= n <= len q -> field16 q off = Some 0 ->
  Nat.Even (length pre0 + Z.to_nat off) -> fits 16 v -> c = load16 (v / 256) (v mod 256) ->
  v mod 65535 = (- inet_sum (pre0 ++ take (Z.to_nat n) q)) mod 65535 ->
  forall q', wr16 q off c = Some q' -> inet_ok (pre0 ++ take (Z.to_nat n) q').
Proof.
  intros Hq Hoff Hn Hz He Hv -> Hsum q'.
  destruct (field_split q off) as (pre & b0 & b1 & post & -> & Hpre); [lia..|]. subst off.
  rewrite field16_at in Hz. injection Hz as Hz. apply Forall_app in Hq as [_ Hq].
  apply Forall_cons_1 in Hq as [Hb0 Hq]. apply Forall_cons_1 in Hq as [Hb1 _].
  destruct (be16_zero _ _ Hb0 Hb1 Hz) as [-> ->]. rewrite wr16_at. intros [= <-].
  rewrite load16_cancel by done. cbn [fst snd]. rewrite take_field in * by lia.
  rewrite app_assoc in *. apply inet_ok_complement; [by rewrite length_app, <- (Nat2Z.id (length pre))|done].
Qed.

Lemma complement_range s : fits 16 (- s mod 65535) /\
  (- s mod 65535) mod 65535 = (- s) mod 65535.
Proof. pose proof (Z.mod_pos_bound (- s) 65535). split; [fits_lia|by rewrite Z.mod_mod]. Qed.

#[export] Instance rfc1071_ok : ChecksumsOk rfc1071.
Proof.
  split.
  - intros p v Hp Hv H5 HL Hz. unfold rfc1071 at 1. cbn [rte_ipv4_cksum]. rewrite Hv. bind_cbn. eexists. split; [done|].
    destruct (complement_range (inet_sum (take (Z.to_nat (v mod 16 * 4)) p))) as [Hf Hs].
    unfold complement_word. split; [by apply load16_word_fits|]. intros p' Hw.
    eapply (cksum_field []); [exact Hp| |split; [|exact HL]| | |exact Hf|done|done|exact Hw];
      unfold IPV4_HDR_CHECKSUM in *; [lia|lia|done|by exists 5%nat].
  - intros p q v total proto Hp Hq HL Hv H5 Ht Hpr Hproto l4_len off Hlen Hz.
    unfold rfc1071 at 1. cbn [rte_ipv4_udptcp_cksum]. rewrite Hv, Ht, Hpr. bind_cbn. eexists. split; [done|]. fold l4_len. unfold complement_word_nonzero.
    set (s := inet_sum _). destruct (complement_range s) as [Hf Hs]. set (v1 := - s mod 65535) in *.
    set (v2 := if v1 =? 0 then 65535 else v1).
    assert (fits 16 v2) as Hf2 by (unfold v2; case_if; [fits_lia|done]).
    assert (v2 mod 65535 = v1) as Hs2.
    { unfold v2. case_if; bool_to_prop; [|done]. by rewrite Heqb. }
    split_and!; [by apply load16_word_fits| |].
    + intros _ E. pose proof (load16_cancel v2 Hf2) as HC. rewrite E, store16_zero in HC.
      injection HC as H0 H1. assert (v2 = 0) as Hz2 by (Z.div_mod_to_equations; lia).
      unfold v2 in Hz2. destruct (Z.eqb_spec v1 0); lia.
    + intros q' Hw. eapply cksum_field; [exact Hq| |exact Hlen|exact Hz| |exact Hf2|done|done|exact Hw].
      * unfold off, l4_cksum_offset. by case_if.
      * unfold pseudo_header. rewrite !length_app, !length_take, !length_drop. cbn [length be16_bytes].
        unfold off, l4_cksum_offset. case_if; [exists 9%nat|exists 14%nat]; unfold UDP_DGRAM_CKSUM, TCP_CKSUM; lia.
Qed.

(** ** Writing inside a part of a buffer *)
Lemma wr8_mid a q r i v q' : wr8 q i v = Some q' -> wr8 (a ++ q ++ r) (len a + i) v = Some (a ++ q' ++ r).
Proof.
  unfold wr8. case_if; intros [= <-]. bool_to_prop.
  rewrite (proj2 (Z.leb_le _ _)), (proj2 (Z.ltb_lt _ _)) by (rewrite ?length_app; lia). cbn [andb].
  rewrite insert_app_r_alt by lia.
  replace (Z.to_nat (len a + i) - length a)%nat with (Z.to_nat i) by lia. by rewrite insert_app_l by lia.
Qed.

Lemma wr16_mid a q r i v q' : wr16 q i v = Some q' -> wr16 (a ++ q ++ r) (len a + i) v = Some (a ++ q' ++ r).
Proof.
  unfold wr16. destruct (store16 v) as [x y].
  destruct (wr8 q i x) as [q1|] eqn:E1; bind_cbn; [|done]. intros E2.
  rewrite (wr8_mid _ _ _ _ _ _ E1). bind_cbn. rewrite <- Z.add_assoc. by apply wr8_mid.
Qed.

Lemma wr32_mid a q r i v q' : wr32 q i v = Some q' -> wr32 (a ++ q ++ r) (len a + i) v = Some (a ++ q' ++ r).
Proof.
  unfold wr32. destruct (store32 v) as [[[x y] z] w].
  destruct (wr8 q i x) as [q1|] eqn:E1; bind_cbn; [|done].
  destruct (wr8 q1 (i + 1) y) as [q2|] eqn:E2; bind_cbn; [|done].
  destruct (wr8 q2 (i + 2) z) as [q3|] eqn:E3; bind_cbn; [|done]. intros E4.
  rewrite (wr8_mid _ _ _ _ _ _ E1). bind_cbn. rewrite <- !Z.add_assoc.
  rewrite (wr8_mid _ _ _ _ _ _ E2). bind_cbn. rewrite (wr8_mid _ _ _ _ _ _ E3). bind_cbn.
  by apply wr8_mid.
Qed.

Lemma wr16_length p i v q : wr16 p i v = Some q -> length q = length p.
Proof.
  unfold wr16. destruct (store16 v). destruct (wr8 p _ _) eqn:E; bind_cbn; [|done].
  intros E2. by rewrite (wr8_length _ _ _ _ E2), (wr8_length _ _ _ _ E).
Qed.
End Fields.

(** ** Rewriting a frame *)
Definition frame_set (src dst ck : Z) (s : l4_segment) (f : frame) : frame := {|
  fr_macs := fr_macs f; fr_tos := fr_tos f; fr_id := fr_id f; fr_flags := fr_flags f;
  fr_ttl := fr_ttl f; fr_cksum := ck; fr_src := src; fr_dst := dst;
  fr_options := fr_options f; fr_l4 := s; fr_trailer := fr_trailer f |}.

Definition set_src v f := frame_set v (fr_dst f) (fr_cksum f) (fr_l4 f) f.
Definition set_dst v f := frame_set (fr_src f) v (fr_cksum f) (fr_l4 f) f.
Definition set_ipv4_cksum v f := frame_set (fr_src f) (fr_dst f) v (fr_l4 f) f.
Definition set_l4 s f := frame_set (fr_src f) (fr_dst f) (fr_cksum f) s f.

Definition set_sport v (s : l4_segment) : l4_segment :=
  match s with
  | Tcp _ dp sa lo fx op pl => Tcp v dp sa lo fx op pl
  | Udp _ dp dl ck body => Udp v dp dl ck body
  end.
Definition set_dport v (s : l4_segment) : l4_segment :=
  match s with
  | Tcp sp _ sa lo fx op pl => Tcp sp v sa lo fx op pl
  | Udp sp _ dl ck body => Udp sp v dl ck body
  end.
Definition set_l4_cksum v (s : l4_segment) : l4_segment :=
  match s with
  | Tcp sp dp sa lo fx op pl => Tcp sp dp sa lo (take 3 fx ++ be16_bytes v ++ drop 5 fx) op pl
  | Udp sp dp dl _ body => Udp sp dp dl v body
  end.

(** The frame after a rewrite that puts [ck] and [ck4] into the checksums. *)
Definition rewrite_frame (a : dp_rule_action) (ck ck4 : Z) (f : frame) : frame :=
  let choose bit new old := if masked a bit then new else old in
  let sport := choose DP_REWRITE_SRC_PORT (act_src_port a) (fst (l4_ports (fr_l4 f))) in
  let dport := choose DP_REWRITE_DST_PORT (act_dst_port a) (snd (l4_ports (fr_l4 f))) in
  frame_set (choose DP_REWRITE_SRC_IPV4 (act_src_ipv4 a) (fr_src f))
            (choose DP_REWRITE_DST_IPV4 (act_dst_ipv4 a) (fr_dst f)) ck
            (set_l4_cksum ck4 (set_dport dport (set_sport sport (fr_l4 f)))) f.

(** What the two checksums of a frame cover. *)
Definition l4_length (s : l4_segment) : Z :=
  match s with Tcp _ _ _ _ _ _ _ => len (l4_bytes s) | Udp _ _ dl _ _ => dl end.
Definition ipv4_cksum_ok (f : frame) : Prop := inet_ok (ipv4_header_bytes f ++ fr_options f).
Definition l4_cksum_ok (f : frame) : Prop :=
  inet_ok (be32_bytes (fr_src f) ++ be32_bytes (fr_dst f) ++ [0; l4_number (fr_l4 f)] ++
           be16_bytes (l4_length (fr_l4 f)) ++
           take (Z.to_nat (l4_length (fr_l4 f))) (l4_bytes (fr_l4 f))).

(** The bytes of a frame whose total length field holds [t]. *)
Definition ipv4_header_with (t : Z) (f : frame) : list Z :=
  [16 * 4 + fr_ihl f; fr_tos f] ++ be16_bytes t ++
  be16_bytes (fr_id f) ++ be16_bytes (fr_flags f) ++
  [fr_ttl f; l4_number (fr_l4 f)] ++ be16_bytes (fr_cksum f) ++
  be32_bytes (fr_src f) ++ be32_bytes (fr_dst f).
Definition frame_bytes_with (t : Z) (f : frame) : list Z :=
  fr_macs f ++ be16_bytes 0x0800 ++ ipv4_header_with t f ++ fr_options f ++
  l4_bytes (fr_l4 f) ++ fr_trailer f.

Lemma frame_bytes_with_total f : frame_bytes f = frame_bytes_with (fr_total_length f) f.
Proof. done. Qed.

Section Rewrite.
Context {H : Host} {HO : HostOk H}.

(** A segment write that keeps the protocol. *)
Lemma frame_write_l4_with t f s i v : frame_ok f -> l4_number s = l4_number (fr_l4 f) ->
  wr16 (l4_bytes (fr_l4 f)) i v = Some (l4_bytes s) ->
  wr16 (frame_bytes_with t f) (34 + len (fr_options f) + i) v = Some (frame_bytes_with t (set_l4 s f)).
Proof.
  intros (_ & Hm & _) Hn Hw.
  assert (ipv4_header_with t (set_l4 s f) = ipv4_header_with t f) as E.
  { unfold ipv4_header_with, fr_ihl. cbn [set_l4 frame_set fr_tos fr_id fr_flags
      fr_ttl fr_cksum fr_src fr_dst fr_options fr_l4]. by rewrite Hn. }
  unfold frame_bytes_with. rewrite E. cbn [set_l4 frame_set fr_macs fr_options fr_l4 fr_trailer].
  rewrite !app_assoc. rewrite <- (app_assoc _ _ (fr_trailer f)), <- (app_assoc _ (l4_bytes s)).
  replace (34 + len (fr_options f)) with
    (len (((fr_macs f ++ be16_bytes 2048) ++ ipv4_header_with t f) ++ fr_options f)).
  - by apply wr16_mid.
  - rewrite !length_app, Hm. cbn [length be16_bytes ipv4_header_with app be32_bytes]. lia.
Qed.

Lemma frame_write_l4 f s i v : frame_ok f -> l4_number s = l4_number (fr_l4 f) ->
  wr16 (l4_bytes (fr_l4 f)) i v = Some (l4_bytes s) ->
  wr16 (frame_bytes f) (34 + len (fr_options f) + i) v = Some (frame_bytes (set_l4 s f)).
Proof.
  intros Hf Hn Hw. rewrite !frame_bytes_with_total.
  assert (fr_total_length (set_l4 s f) = fr_total_length f) as ->.
  { unfold fr_total_length. cbn [set_l4 frame_set fr_options fr_l4].
    by rewrite (wr16_length _ _ _ _ Hw). }
  by apply frame_write_l4_with.
Qed.

(** A header write. *)
Lemma frame_write_ipv4 f g i v (w : list Z -> Z -> Z -> option (list Z)) :
  frame_ok f -> (forall a q r i v q', w q i v = Some q' -> w (a ++ q ++ r) (len a + i) v = Some (a ++ q' ++ r)) ->
  g = frame_set (fr_src g) (fr_dst g) (fr_cksum g) (fr_l4 f) f ->
  w (ipv4_header_bytes f) i v = Some (ipv4_header_bytes g) ->
  w (frame_bytes f) (14 + i) v = Some (frame_bytes g).
Proof.
  intros (_ & Hm & _) Hmid Hg Hw. unfold frame_bytes. rewrite Hg. cbn [frame_set fr_macs fr_options
    fr_l4 fr_trailer]. rewrite <- Hg. rewrite !(app_assoc (fr_macs f)).
  replace 14 with (len (fr_macs f ++ be16_bytes 2048)) by (rewrite length_app, Hm; done).
  by apply Hmid.
Qed.

Lemma frame_write_src f v : frame_ok f -> fits 32 v ->
  wr32 (frame_bytes f) (14 + 12) (rte_cpu_to_be_32 v) = Some (frame_bytes (set_src v f)).
Proof.
  intros Hf Hv. apply frame_write_ipv4; [done|apply wr32_mid|done|]. by rewrite wr32_cpu_to_be.
Qed.

Lemma frame_write_dst f v : frame_ok f -> fits 32 v ->
  wr32 (frame_bytes f) (14 + 16) (rte_cpu_to_be_32 v) = Some (frame_bytes (set_dst v f)).
Proof.
  intros Hf Hv. apply frame_write_ipv4; [done|apply wr32_mid|done|]. by rewrite wr32_cpu_to_be.
Qed.

(** A raw store into the checksum field, seen as the wire value it leaves. *)
Lemma frame_write_ipv4_cksum f c w : frame_ok f -> store16 c = (w / 256, w mod 256) ->
  wr16 (frame_bytes f) (14 + 10) c = Some (frame_bytes (set_ipv4_cksum w f)).
Proof.
  intros Hf Hc. apply frame_write_ipv4; [done|apply wr16_mid|done|]. unfold wr16. by rewrite Hc.
Qed.

Lemma wr16_prefix n l i v l' :
  wr16 (take n l) i v = Some (take n l') -> drop n l' = drop n l -> wr16 l i v = Some l'.
Proof.
  intros Hw Hd. rewrite <- (take_drop n l), <- (take_drop n l'), Hd. by apply (wr16_mid []).
Qed.

(** Stores into a transport header; the fixed part of it is a literal prefix. *)
Section Segment.
Context (s : l4_segment) (Hs : l4_ok s) (c w : Z) (Hc : store16 c = (w / 256, w mod 256)).

Ltac segment_write :=
  destruct s as [sp dp sa lo fx op pl|sp dp dl ck bd]; cbn [l4_ok] in Hs;
  [destruct Hs as (_ & _ & _ & Hsa & _ & _ & Hfx & _); explode_len Hsa; explode_len Hfx|];
  cbn [l4_bytes set_sport set_dport set_l4_cksum be16_bytes app take drop l4_number];
  [apply (wr16_prefix 20)|apply (wr16_prefix 8)]; try reflexivity;
  unfold wr16; rewrite Hc; reflexivity.

Lemma write_sport : wr16 (l4_bytes s) 0 c = Some (l4_bytes (set_sport w s)).
Proof. segment_write. Qed.
Lemma write_dport : wr16 (l4_bytes s) 2 c = Some (l4_bytes (set_dport w s)).
Proof. segment_write. Qed.
Lemma write_l4_cksum :
  wr16 (l4_bytes s) (l4_cksum_offset (l4_number s)) c = Some (l4_bytes (set_l4_cksum w s)).
Proof. segment_write. Qed.
End Segment.

(** *** The lengths and the well-formedness of a frame do not change *)
Lemma frame_set_ok src dst ck s f : frame_ok f -> fits 32 src -> fits 32 dst -> fits 16 ck ->
  l4_ok s -> length (l4_bytes s) = length (l4_bytes (fr_l4 f)) -> frame_ok (frame_set src dst ck s f).
Proof.
  intros Hf Hsrc Hdst Hck Hs HL.
  assert (length (frame_bytes (frame_set src dst ck s f)) = length (frame_bytes f)) as E.
  { unfold frame_bytes, ipv4_header_bytes. cbn [frame_set fr_macs fr_options fr_l4 fr_trailer].
    by rewrite !length_app, HL. }
  unfold frame_ok in *. rewrite E. cbn [frame_set fr_macs fr_tos fr_id fr_flags fr_ttl fr_cksum fr_src
    fr_dst fr_options fr_l4 fr_trailer]. tauto.
Qed.

Lemma set_sport_ok v s : fits 16 v -> l4_ok s ->
  l4_ok (set_sport v s) /\ length (l4_bytes (set_sport v s)) = length (l4_bytes s).
Proof. by destruct s; intros Hv Hs; cbn in *; destruct_and!; split_and!. Qed.

Lemma set_dport_ok v s : fits 16 v -> l4_ok s ->
  l4_ok (set_dport v s) /\ length (l4_bytes (set_dport v s)) = length (l4_bytes s).
Proof. by destruct s; intros Hv Hs; cbn in *; destruct_and!; split_and!. Qed.

Lemma set_l4_cksum_ok v s : fits 16 v -> l4_ok s ->
  l4_ok (set_l4_cksum v s) /\ length (l4_bytes (set_l4_cksum v s)) = length (l4_bytes s).
Proof.
  destruct s; intros Hv Hs; cbn [l4_ok set_l4_cksum] in *; [|by destruct_and!; split_and!].
  destruct_and!. split_and!; try done.
  - repeat first [apply Forall_app; split]; auto using Forall_take, Forall_drop with fits.
  - rewrite !length_app, length_take, length_drop. cbn [length be16_bytes]. lia.
  - cbn [l4_bytes]. rewrite !length_app, length_take, length_drop. cbn [length be16_bytes]. lia.
Qed.

Lemma set_l4_cksum_twice v v' s : l4_ok s -> set_l4_cksum v (set_l4_cksum v' s) = set_l4_cksum v s.
Proof.
  destruct s as [sp dp sa lo fx op pl|]; [|done]. intros (_ & _ & _ & _ & _ & _ & Hfx & _).
  by explode_len Hfx.
Qed.

Lemma l4_cksum_field w s rest : l4_ok s ->
  field16 (l4_bytes (set_l4_cksum w s) ++ rest) (l4_cksum_offset (l4_number s)) = Some w.
Proof.
  destruct s as [sp dp sa lo fx op pl|]; cbn [l4_ok].
  - intros (_ & _ & _ & Hsa & _ & _ & Hfx & _). explode_len Hsa. explode_len Hfx.
    exact (f_equal Some (be16_of_bytes w)).
  - intros _. exact (f_equal Some (be16_of_bytes w)).
Qed.

(** *** The steps of the action *)
Context {C : Checksums} {CO : ChecksumsOk C}.

Definition frame_addresses (a : dp_rule_action) (f : frame) : frame :=
  frame_set (if masked a DP_REWRITE_SRC_IPV4 then act_src_ipv4 a else fr_src f)
            (if masked a DP_REWRITE_DST_IPV4 then act_dst_ipv4 a else fr_dst f)
            (fr_cksum f) (fr_l4 f) f.

Definition segment_ports (a : dp_rule_action) (s : l4_segment) : l4_segment :=
  let s := if masked a DP_REWRITE_SRC_PORT then set_sport (act_src_port a) s else s in
  if masked a DP_REWRITE_DST_PORT then set_dport (act_dst_port a) s else s.

Lemma set_src_ok v f : frame_ok f -> fits 32 v -> frame_ok (set_src v f).
Proof. intros Hf Hv. apply frame_set_ok; try done; apply Hf. Qed.
Lemma set_dst_ok v f : frame_ok f -> fits 32 v -> frame_ok (set_dst v f).
Proof. intros Hf Hv. apply frame_set_ok; try done; apply Hf. Qed.
Lemma set_ipv4_cksum_ok v f : frame_ok f -> fits 16 v -> frame_ok (set_ipv4_cksum v f).
Proof. intros Hf Hv. apply frame_set_ok; try done; apply Hf. Qed.
Lemma set_l4_ok s f : frame_ok f -> l4_ok s -> length (l4_bytes s) = length (l4_bytes (fr_l4 f)) ->
  frame_ok (set_l4 s f).
Proof. intros Hf Hs HL. apply frame_set_ok; try done; apply Hf. Qed.

Lemma write_addresses_frame f a : frame_ok f -> action_fits a ->
  write_addresses a 14 (frame_bytes f) = Some (frame_bytes (frame_addresses a f)) /\
  frame_ok (frame_addresses a f).
Proof.
  intros Hf Ha. unfold write_addresses, write_if, frame_addresses, IPV4_SRC_ADDR, IPV4_DST_ADDR.
  assert (fits 32 (act_src_ipv4 a)) by apply Ha. assert (fits 32 (act_dst_ipv4 a)) by apply Ha.
  destruct (masked a DP_REWRITE_SRC_IPV4), (masked a DP_REWRITE_DST_IPV4); bind_cbn;
    rewrite ?frame_write_src, ?frame_write_dst by done; bind_cbn;
    rewrite ?frame_write_src, ?frame_write_dst by auto using set_src_ok;
    (split; [done|apply frame_set_ok; try done; apply Hf]).
Qed.

Lemma set_l4_id f : set_l4 (fr_l4 f) f = f.
Proof. by destruct f. Qed.

Lemma set_l4_set_l4 s s' f : set_l4 s (set_l4 s' f) = set_l4 s f.
Proof. done. Qed.

(** Both port writes. *)
Lemma write_ports_frame f a : frame_ok f -> action_fits a ->
  (data ← write_if (masked a DP_REWRITE_SRC_PORT)
     (fun d => wr16 d (34 + len (fr_options f) + 0) (rte_cpu_to_be_16 (act_src_port a))) (frame_bytes f);
   write_if (masked a DP_REWRITE_DST_PORT)
     (fun d => wr16 d (34 + len (fr_options f) + 2) (rte_cpu_to_be_16 (act_dst_port a))) data) =
  Some (frame_bytes (set_l4 (segment_ports a (fr_l4 f)) f)) /\
  l4_ok (segment_ports a (fr_l4 f)) /\ l4_number (segment_ports a (fr_l4 f)) = l4_number (fr_l4 f) /\
  length (l4_bytes (segment_ports a (fr_l4 f))) = length (l4_bytes (fr_l4 f)).
Proof.
  intros Hf Ha. assert (l4_ok (fr_l4 f)) as Hs by apply Hf.
  assert (fits 16 (act_src_port a)) as Hsp by apply Ha. assert (fits 16 (act_dst_port a)) as Hdp by apply Ha.
  destruct (set_sport_ok _ _ Hsp Hs) as [Hs1 HL1].
  unfold write_if, segment_ports.
  assert (forall s, l4_number (set_sport (act_src_port a) s) = l4_number s) as Hn1 by by destruct s.
  assert (forall s, l4_number (set_dport (act_dst_port a) s) = l4_number s) as Hn2 by by destruct s.
  destruct (masked a DP_REWRITE_SRC_PORT); bind_cbn.
  - rewrite (frame_write_l4 f (set_sport (act_src_port a) (fr_l4 f))) by
      (auto; (apply write_sport; [done|by apply store16_cpu_to_be])).
    bind_cbn. destruct (set_dport_ok _ _ Hdp Hs1) as [Hs2 HL2].
    destruct (masked a DP_REWRITE_DST_PORT); [|auto].
    rewrite (frame_write_l4 (set_l4 _ f) (set_dport (act_dst_port a) (set_sport (act_src_port a) (fr_l4 f)))).
    + rewrite set_l4_set_l4, Hn2, HL2. auto.
    + by apply set_l4_ok.
    + by rewrite Hn2.
    + apply write_dport; [done|by apply store16_cpu_to_be].
  - destruct (set_dport_ok _ _ Hdp Hs) as [Hs2 HL2].
    destruct (masked a DP_REWRITE_DST_PORT); [|by rewrite set_l4_id].
    rewrite (frame_write_l4 f (set_dport (act_dst_port a) (fr_l4 f))) by
      (auto; (apply write_dport; [done|by apply store16_cpu_to_be])). auto.
Qed.

Lemma frame_with_ipv4_ptr t f : frame_ok f ->
  ptr_add (frame_bytes_with t f) 14 =
    Some (ipv4_header_with t f ++ fr_options f ++ l4_bytes (fr_l4 f) ++ fr_trailer f).
Proof.
  intros (_ & Hm & _). unfold frame_bytes_with. rewrite app_assoc. apply ptr_add_app.
  rewrite length_app, Hm. done.
Qed.

Lemma frame_with_l4_ptr t f : frame_ok f ->
  ptr_add (frame_bytes_with t f) (34 + len (fr_options f)) = Some (l4_bytes (fr_l4 f) ++ fr_trailer f).
Proof.
  intros (_ & Hm & _). unfold frame_bytes_with. rewrite !app_assoc, <- app_assoc. apply ptr_add_app.
  rewrite !length_app, Hm. cbn [length be16_bytes ipv4_header_with app be32_bytes]. lia.
Qed.

Lemma frame_with_bytes t f : frame_ok f -> fits 16 t ->
  bytes (ipv4_header_with t f ++ fr_options f ++ l4_bytes (fr_l4 f) ++ fr_trailer f).
Proof.
  intros Hf Ht. unfold frame_ok in Hf. destruct_and!.
  assert (is_byte (l4_number (fr_l4 f))) by (destruct (fr_l4 f); cbn; fits_lia).
  assert (is_byte (16 * 4 + fr_ihl f)) by (unfold fr_ihl; Z.div_mod_to_equations; fits_lia).
  unfold ipv4_header_with. repeat first [apply Forall_app; split]; eauto using l4_bytes_ok with fits; bytes_list.
Qed.

Lemma fr_ihl_bytes f : frame_ok f -> (64 + fr_ihl f) mod 16 * 4 = 20 + len (fr_options f).
Proof.
  intros Hf. unfold frame_ok in Hf. destruct_and!. unfold fr_ihl. Z.div_mod_to_equations. lia.
Qed.

Lemma fr_total_fits f : frame_ok f -> fits 16 (fr_total_length f).
Proof.
  intros Hf. pose proof (frame_bytes_length f Hf). unfold fr_total_length in *.
  unfold frame_ok in Hf. destruct_and!. fits_lia.
Qed.

(** Both writes of the header checksum. *)
Lemma update_ipv4_cksum_frame f : frame_ok f ->
  exists w, fits 16 w /\ update_ipv4_cksum 14 (frame_bytes f) = Some (frame_bytes (set_ipv4_cksum w f)) /\
    ipv4_cksum_ok (set_ipv4_cksum w f).
Proof.
  intros Hf. unfold update_ipv4_cksum, IPV4_HDR_CHECKSUM.
  rewrite (frame_write_ipv4_cksum f 0 0) by (done || apply store16_zero). bind_cbn.
  assert (frame_ok (set_ipv4_cksum 0 f)) as Hf0 by (by apply set_ipv4_cksum_ok; [|fits_lia]).
  set (f0 := set_ipv4_cksum 0 f) in *. rewrite frame_bytes_with_total, frame_with_ipv4_ptr by done.
  bind_cbn. set (p := ipv4_header_with _ _ ++ _).
  destruct (ipv4_cksum_spec p (64 + fr_ihl f0)) as (c & -> & Hc & Hok).
  - by apply frame_with_bytes, fr_total_fits.
  - done.
  - pose proof (fr_ihl_bytes f0 Hf0). lia.
  - rewrite fr_ihl_bytes by done. unfold p. rewrite !length_app. cbn [length ipv4_header_with app be16_bytes be32_bytes]. lia.
  - done.
  - bind_cbn. destruct (store16_wire c Hc) as (w & Hw & Es & _). exists w. split; [done|].
    rewrite <- frame_bytes_with_total, (frame_write_ipv4_cksum f0 c w) by done. split; [done|].
    unfold ipv4_cksum_ok. specialize (Hok (ipv4_header_bytes (set_ipv4_cksum w f) ++ fr_options f ++
      l4_bytes (fr_l4 f) ++ fr_trailer f)). rewrite fr_ihl_bytes in Hok by done.
    rewrite app_assoc, take_app_length' in Hok.
    + apply Hok. unfold p. rewrite <- app_assoc. apply (wr16_mid []). unfold wr16. by rewrite Es.
    + rewrite length_app, ipv4_header_length. change (fr_options f0) with (fr_options f). lia.
Qed.

(** *** The transport checksum *)
Lemma l4_length_bound s : l4_ok s -> l4_cksum_offset (l4_number s) + 2 <= l4_length s <= len (l4_bytes s).
Proof.
  intros Hs. pose proof (l4_bytes_length s Hs). destruct s; cbn [l4_length l4_ok l4_number] in *; cbn in *;
    destruct_and!; unfold TCP_CKSUM, UDP_DGRAM_CKSUM; lia.
Qed.

Lemma l4_length_set w s : l4_ok s -> fits 16 w -> l4_length (set_l4_cksum w s) = l4_length s.
Proof.
  intros Hs Hw. destruct (set_l4_cksum_ok w s Hw Hs) as [_ HL]. destruct s; [|done].
  cbn [l4_length set_l4_cksum] in *. by rewrite HL.
Qed.

Lemma l4_number_set w s : l4_number (set_l4_cksum w s) = l4_number s.
Proof. by destruct s. Qed.

(** The field that makes the total length cover exactly the segment. *)
Lemma segment_total_fits f : frame_ok f -> fits 16 (20 + len (fr_options f) + l4_length (fr_l4 f)).
Proof.
  intros Hf. pose proof (fr_total_fits f Hf) as Ht. assert (l4_ok (fr_l4 f)) as Hs by apply Hf.
  pose proof (l4_length_bound _ Hs) as [H1 H2]. unfold fr_total_length in Ht.
  assert (0 <= l4_cksum_offset (l4_number (fr_l4 f))) by by destruct (fr_l4 f).
  fits_lia.
Qed.

Lemma l4_cksum_frame f s : frame_ok (set_l4 (set_l4_cksum 0 s) f) -> l4_ok s ->
  let t := 20 + len (fr_options f) + l4_length s in
  let f0 := set_l4 (set_l4_cksum 0 s) f in
  exists c w, fits 16 w /\ store16 c = (w / 256, w mod 256) /\ (l4_number s = 17 -> w <> 0) /\
    (p ← ptr_add (frame_bytes_with t f0) 14; q ← ptr_add (frame_bytes_with t f0) (34 + len (fr_options f));
     rte_ipv4_udptcp_cksum p q) = Some c /\
    l4_cksum_ok (set_l4 (set_l4_cksum w s) f).
Proof.
  intros Hf Hs t f0. change (fr_options f) with (fr_options f0).
  assert (fits 16 0) as H0 by fits_lia. pose proof (l4_length_bound s Hs) as HLs.
  pose proof (set_l4_cksum_ok 0 s H0 Hs) as [Hs0 HL0]. pose proof (l4_length_set 0 s Hs H0) as E0.
  assert (fits 16 t) as Ht by (unfold t; rewrite <- E0; exact (segment_total_fits _ Hf)).
  rewrite frame_with_ipv4_ptr, frame_with_l4_ptr by done. bind_cbn.
  pose proof (frame_with_bytes t f0 Hf Ht) as Hb. set (p := ipv4_header_with _ _ ++ _) in *.
  change (fr_l4 f0) with (set_l4_cksum 0 s) in *. set (q := l4_bytes _ ++ _).
  pose proof (fr_ihl_bytes f0 Hf) as Hihl. change (fr_options f0) with (fr_options f) in Hihl.
  assert (t - (64 + fr_ihl f0) mod 16 * 4 = l4_length s) as Hlen by (unfold t; lia).
  destruct (udptcp_cksum_spec p q (64 + fr_ihl f0) t (l4_number s)) as (c & -> & Hc & Hudp & Hok).
  - done.
  - unfold p in Hb. apply Forall_app in Hb as [_ Hb]. by apply Forall_app in Hb as [_ Hb].
  - unfold p. rewrite !length_app. cbn [length ipv4_header_with app be16_bytes be32_bytes]. lia.
  - done.
  - lia.
  - exact (f_equal Some (be16_of_bytes t)).
  - unfold p, ipv4_header_with. change (fr_l4 f0) with (set_l4_cksum 0 s). by rewrite l4_number_set.
  - destruct s; [by left|by right].
  - rewrite Hlen. unfold q. rewrite length_app, HL0. lia.
  - by apply l4_cksum_field.
  - destruct (store16_wire c Hc) as (w & Hw & Es & Hnz). exists c, w.
    split_and!; [done|done| |done|].
    + intros E. apply Hnz, Hudp, E.
    + destruct (set_l4_cksum_ok w s Hw Hs) as [_ HLw]. unfold l4_cksum_ok.
      cbn [set_l4 frame_set fr_src fr_dst fr_l4]. rewrite l4_length_set, l4_number_set by done.
      rewrite Hlen in Hok. specialize (Hok (l4_bytes (set_l4_cksum w s) ++ fr_trailer f)).
      rewrite take_app_le in Hok by lia. apply Hok.
      apply (wr16_mid []). rewrite <- (set_l4_cksum_twice w 0 s Hs), <- (l4_number_set 0 s).
      by apply write_l4_cksum.
Qed.

(** *** The two rewrites *)
Lemma bind_run {A B D} (x : option A) (g : A -> option B) (k : B -> option D) y :
  (x ≫= g) = Some y -> (x ≫= fun a => g a ≫= k) = k y.
Proof. destruct x as [a|]; bind_cbn; [|done]. by intros ->. Qed.

Lemma ipv4_cksum_ok_set_l4 s f : l4_number s = l4_number (fr_l4 f) ->
  length (l4_bytes s) = length (l4_bytes (fr_l4 f)) -> ipv4_cksum_ok f -> ipv4_cksum_ok (set_l4 s f).
Proof.
  intros Hn HL. unfold ipv4_cksum_ok, ipv4_header_bytes, fr_ihl, fr_total_length.
  cbn [set_l4 frame_set fr_tos fr_id fr_flags fr_ttl fr_cksum fr_src fr_dst fr_options fr_l4].
  by rewrite HL, Hn.
Qed.

(** Ports, checksum fields cleared, header checksum: common to both protocols. *)
Lemma rewrite_prefix f a (k : list Z -> option (list Z)) : frame_ok f -> action_fits a ->
  let l4 := 34 + len (fr_options f) in
  let s := segment_ports a (fr_l4 f) in
  exists w, fits 16 w /\
    let f2 := set_l4 (set_l4_cksum 0 s) (set_ipv4_cksum w f) in
    (data ← write_if (masked a DP_REWRITE_SRC_PORT)
       (fun d => wr16 d (l4 + 0) (rte_cpu_to_be_16 (act_src_port a))) (frame_bytes f);
     data ← write_if (masked a DP_REWRITE_DST_PORT)
       (fun d => wr16 d (l4 + 2) (rte_cpu_to_be_16 (act_dst_port a))) data;
     data ← wr16 data (l4 + l4_cksum_offset (l4_number (fr_l4 f))) 0;
     data ← update_ipv4_cksum 14 data;
     k data) = k (frame_bytes f2) /\
    frame_ok f2 /\ ipv4_cksum_ok f2 /\ l4_ok s /\ l4_number s = l4_number (fr_l4 f).
Proof.
  intros Hf Ha l4 s. destruct (write_ports_frame f a Hf Ha) as (Hp & Hs & Hn & HL).
  fold s in Hp, Hs, Hn, HL. assert (fits 16 0) as H0 by fits_lia.
  destruct (set_l4_cksum_ok 0 s H0 Hs) as [Hs0 HL0].
  assert (frame_ok (set_l4 (set_l4_cksum 0 s) f)) as Hf1 by (apply set_l4_ok; [done..|congruence]).
  destruct (update_ipv4_cksum_frame _ Hf1) as (w & Hw & Hup & Hok). exists w. split; [done|]. intros f2.
  split_and!; [|by apply (set_ipv4_cksum_ok w) in Hf1|exact Hok|done|done].
  rewrite (bind_run _ _ _ _ Hp). rewrite <- Hn.
  rewrite (frame_write_l4 (set_l4 s f) (set_l4_cksum 0 s)).
  - bind_cbn. by rewrite set_l4_set_l4, Hup.
  - by apply set_l4_ok.
  - apply l4_number_set.
  - apply write_l4_cksum; [done|apply store16_zero].
Qed.

(** The frame both rewrites end with. *)
Definition rewritten (f : frame) (s : l4_segment) (ck ck4 : Z) : frame :=
  set_l4 (set_l4_cksum ck4 s) (set_ipv4_cksum ck f).

Definition rewritten_ok (f : frame) (s : l4_segment) (ck ck4 : Z) : Prop :=
  let g := rewritten f s ck ck4 in
  fits 16 ck /\ fits 16 ck4 /\ frame_ok g /\ ipv4_cksum_ok g /\ l4_cksum_ok g /\
  (l4_number s = 17 -> ck4 <> 0).

Lemma rewritten_ok_intro f s ck ck4 :
  frame_ok (rewritten f s ck 0) -> ipv4_cksum_ok (rewritten f s ck 0) -> l4_ok s ->
  fits 16 ck -> fits 16 ck4 -> l4_cksum_ok (rewritten f s ck ck4) -> (l4_number s = 17 -> ck4 <> 0) ->
  rewritten_ok f s ck ck4.
Proof.
  intros Hf Hip Hs Hck Hck4 Hl4 Hnz. assert (fits 16 0) as H0 by fits_lia.
  pose proof (set_l4_cksum_ok ck4 s Hck4 Hs) as [Hs4 HL4]. pose proof (set_l4_cksum_ok 0 s H0 Hs) as [_ HL0].
  split_and!; try done.
  - apply (set_l4_ok (set_l4_cksum ck4 s)) in Hf; [done|done|]. cbn. congruence.
  - apply (ipv4_cksum_ok_set_l4 (set_l4_cksum ck4 s)) in Hip; [done| |]; cbn; [by rewrite !l4_number_set|congruence].
Qed.

Lemma write_final_cksum t f s ck c w : frame_ok (rewritten f s ck 0) -> l4_ok s ->
  store16 c = (w / 256, w mod 256) ->
  wr16 (frame_bytes_with t (rewritten f s ck 0)) (34 + len (fr_options f) + l4_cksum_offset (l4_number s)) c =
    Some (frame_bytes_with t (rewritten f s ck w)).
Proof.
  intros Hf Hs Hc. assert (fits 16 0) as H0 by fits_lia. pose proof (set_l4_cksum_ok 0 s H0 Hs) as [Hs0 _].
  apply (frame_write_l4_with t (rewritten f s ck 0) (set_l4_cksum w s)); [done| |].
  - cbn. by rewrite !l4_number_set.
  - cbn. rewrite <- (set_l4_cksum_twice w 0 s Hs), <- (l4_number_set 0 s). by apply write_l4_cksum.
Qed.

Lemma bind_run2 {A B D G} (x : option A) (y : option B) (g : A -> B -> option D) (k : D -> option G) c :
  (a ← x; b ← y; g a b) = Some c -> (a ← x; b ← y; c ← g a b; k c) = k c.
Proof. destruct x as [a|], y as [b|]; bind_cbn; try done. by intros ->. Qed.

Lemma rewritten_total f s ck w w' : l4_ok s -> fits 16 w -> fits 16 w' ->
  fr_total_length (rewritten f s ck w) = fr_total_length (rewritten f s ck w').
Proof.
  intros Hs Hw Hw'. unfold fr_total_length. cbn.
  pose proof (set_l4_cksum_ok w s Hw Hs) as [_ H1]. pose proof (set_l4_cksum_ok w' s Hw' Hs) as [_ H2]. lia.
Qed.

Lemma rewrite_tcp_frame f a : frame_ok f -> action_fits a -> l4_number (fr_l4 f) = 6 ->
  exists ck ck4, let s := segment_ports a (fr_l4 f) in
    rewrite_tcp a 14 (34 + len (fr_options f)) (frame_bytes f) = Some (frame_bytes (rewritten f s ck ck4)) /\
    rewritten_ok f s ck ck4.
Proof.
  intros Hf Ha Hn. unfold rewrite_tcp, TCP_SRC_PORT, TCP_DST_PORT.
  match goal with |- context [update_ipv4_cksum 14 _ ≫= ?k] =>
    destruct (rewrite_prefix f a k Hf Ha) as (ck & Hck & Hrun & Hf2 & Hip & Hs & Hns) end.
  rewrite Hn in Hrun, Hns. change (l4_cksum_offset 6) with TCP_CKSUM in Hrun. cbv zeta in Hrun.
  set (s := segment_ports a (fr_l4 f)) in *. rewrite Hrun. fold (rewritten f s ck 0) in *.
  destruct (l4_cksum_frame (set_ipv4_cksum ck f) s Hf2 Hs) as (c & w & Hw & Hc & Hnz & Hrun4 & Hok).
  change (fr_options (set_ipv4_cksum ck f)) with (fr_options f) in Hrun4.
  fold (rewritten f s ck 0) in Hrun4. fold (rewritten f s ck w) in Hok.
  rewrite frame_bytes_with_total.
  assert (fr_total_length (rewritten f s ck 0) = 20 + len (fr_options f) + l4_length s) as Et.
  { unfold fr_total_length. cbn. rewrite <- (l4_length_set 0 s Hs) by fits_lia. by destruct s. }
  rewrite Et, (bind_run2 _ _ _ _ _ Hrun4). exists ck, w. split; [|by apply rewritten_ok_intro].
  change TCP_CKSUM with (l4_cksum_offset 6). rewrite <- Hns, (write_final_cksum _ _ _ _ _ w) by done.
  rewrite <- Et, frame_bytes_with_total. by rewrite (rewritten_total f s ck 0 w) by (done || fits_lia).
Qed.

(** The raw total length is read, replaced and put back. *)
Lemma frame_read_total t f : frame_ok f ->
  rd16 (frame_bytes_with t f) (14 + 2) = Some (load16 (t / 256) (t mod 256)).
Proof.
  intros (_ & Hm & _). unfold frame_bytes_with. rewrite app_assoc.
  replace 14 with (len (fr_macs f ++ be16_bytes 2048)) by (rewrite length_app, Hm; done).
  unfold rd16. rewrite <- Z.add_assoc, !rd8_app_r by lia. done.
Qed.

Lemma frame_write_total t w f c : frame_ok f -> store16 c = (w / 256, w mod 256) ->
  wr16 (frame_bytes_with t f) (14 + 2) c = Some (frame_bytes_with w f).
Proof.
  intros (_ & Hm & _) Hc. unfold frame_bytes_with. rewrite !(app_assoc (fr_macs f)).
  replace 14 with (len (fr_macs f ++ be16_bytes 2048)) by (rewrite length_app, Hm; done).
  apply wr16_mid. unfold wr16. by rewrite Hc.
Qed.

Lemma frame_read_dgram_len t f sp dp dl ck body : frame_ok f -> fr_l4 f = Udp sp dp dl ck body -> fits 16 dl ->
  rte_be_to_cpu_16 <$> rd16 (frame_bytes_with t f) (34 + len (fr_options f) + 4) = Some dl.
Proof.
  intros Hf Hl4 Hdl. pose proof (frame_with_l4_ptr t f Hf) as [HL E]%ptr_add_inv.
  unfold rd16. rewrite <- Z.add_assoc, <- !rd8_drop, <- E, Hl4 by lia.
  change (rte_be_to_cpu_16 <$> Some (load16 (dl / 256) (dl mod 256)) = Some dl). cbn.
  rewrite be_to_cpu_load16, be16_of_bytes by (Z.div_mod_to_equations; fits_lia). done.
Qed.

Lemma rewrite_udp_frame f a meta : frame_ok f -> action_fits a -> l4_number (fr_l4 f) = 17 ->
  l3_len meta = 20 + len (fr_options f) ->
  exists ck ck4, let s := segment_ports a (fr_l4 f) in
    rewrite_udp meta a 14 (34 + len (fr_options f)) (frame_bytes f) = Some (frame_bytes (rewritten f s ck ck4)) /\
    rewritten_ok f s ck ck4.
Proof.
  intros Hf Ha Hn Hl3. unfold rewrite_udp, UDP_SRC_PORT, UDP_DST_PORT, UDP_DGRAM_LEN, IPV4_TOTAL_LENGTH.
  match goal with |- context [update_ipv4_cksum 14 _ ≫= ?k] =>
    destruct (rewrite_prefix f a k Hf Ha) as (ck & Hck & Hrun & Hf2 & Hip & Hs & Hns) end.
  rewrite Hn in Hrun, Hns. change (l4_cksum_offset 17) with UDP_DGRAM_CKSUM in Hrun. cbv zeta in Hrun.
  set (s := segment_ports a (fr_l4 f)) in *. rewrite Hrun. clear Hrun. fold (rewritten f s ck 0) in *.
  destruct (l4_cksum_frame (set_ipv4_cksum ck f) s Hf2 Hs) as (c & w & Hw & Hc & Hnz & Hrun4 & Hok).
  change (fr_options (set_ipv4_cksum ck f)) with (fr_options f) in Hrun4.
  fold (rewritten f s ck 0) in Hrun4. fold (rewritten f s ck w) in Hok.
  pose proof (fr_total_fits _ Hf2) as Htot. pose proof (segment_total_fits _ Hf2) as Hseg.
  cbn [rewritten set_l4 frame_set fr_l4 fr_options set_ipv4_cksum] in Hseg. rewrite l4_length_set in Hseg by (done || fits_lia).
  rewrite frame_bytes_with_total, frame_read_total by done. bind_cbn.
  destruct s as [|sp dp dl k0 body] eqn:Es; [discriminate Hns|]. cbn [l4_length] in *.
  set (g := rewritten f (Udp sp dp dl k0 body) ck 0) in *.
  pose proof (frame_read_dgram_len (fr_total_length g) g sp dp dl 0 body Hf2 eq_refl ltac:(apply Hs)) as Edl.
  change (fr_options g) with (fr_options f) in Edl. rewrite Edl. bind_cbn. subst g.
  rewrite Hl3, wrap_id by done.
  rewrite (frame_write_total _ (20 + len (fr_options f) + dl)) by (done || by apply store16_cpu_to_be).
  bind_cbn. rewrite (bind_run2 _ _ _ _ _ Hrun4). exists ck, w.
  change UDP_DGRAM_CKSUM with (l4_cksum_offset (l4_number (Udp sp dp dl k0 body))).
  rewrite (write_final_cksum _ _ _ _ _ w) by done. bind_cbn.
  assert (rewritten_ok f (Udp sp dp dl k0 body) ck w) as Hfin by (by apply rewritten_ok_intro).
  split; [|done].
  rewrite (frame_write_total _ (fr_total_length (rewritten f (Udp sp dp dl k0 body) ck 0)));
    [done|apply Hfin|by apply load16_cancel].
Qed.

(** ** [dp_apply_action] *)
Lemma rewritten_rewrite_frame a ck ck4 f :
  rewritten (frame_addresses a f) (segment_ports a (fr_l4 f)) ck ck4 = rewrite_frame a ck ck4 f.
Proof.
  unfold rewritten, rewrite_frame, segment_ports, frame_addresses, set_l4, set_ipv4_cksum, frame_set.
  cbn. f_equal. by destruct (fr_l4 f), (masked a DP_REWRITE_SRC_PORT), (masked a DP_REWRITE_DST_PORT).
Qed.

Lemma dp_apply_action_frame m f a : frame_ok f -> frame_bytes f = mbuf_data m -> action_fits a ->
  act_type a = DP_ACTION_REWRITE -> act_rewrite_mask a <> 0 ->
  exists ck ck4, let g := rewrite_frame a ck ck4 f in
    dp_apply_action (Some m) (Some (frame_meta f)) (Some a) =
      Some (0, Some (mbuf_set_data (frame_bytes g) m)) /\
    fits 16 ck /\ fits 16 ck4 /\ frame_ok g /\ ipv4_cksum_ok g /\ l4_cksum_ok g /\
    (l4_number (fr_l4 f) = 17 -> ck4 <> 0).
Proof.
  intros Hf Hd Ha Ht Hmask. destruct (write_addresses_frame f a Hf Ha) as [Hadr Hf1].
  unfold dp_apply_action. rewrite Ht, (proj2 (Z.eqb_neq _ 0) Hmask).
  cbn [orb negb DP_ACTION_REWRITE DP_ACTION_DROP DP_ACTION_FORWARD Z.eqb Pos.eqb]. cbv zeta.
  assert (l2_len (frame_meta f) = 14) as -> by (unfold frame_meta; by destruct (fr_l4 f)).
  assert (l4_offset (frame_meta f) = 34 + len (fr_options f)) as -> by (unfold frame_meta; by destruct (fr_l4 f)).
  assert (l4_proto (frame_meta f) = l4_number (fr_l4 f)) as -> by (unfold frame_meta; by destruct (fr_l4 f)).
  assert (l3_len (frame_meta f) = 20 + len (fr_options f)) as Hl3 by (unfold frame_meta; by destruct (fr_l4 f)).
  rewrite <- Hd, frame_ipv4_ptr, frame_l4_ptr, Hadr by done. bind_cbn.
  destruct (fr_l4 f) as [sp dp sa lo fx op pl|sp dp dl ck bd] eqn:El4; cbn [l4_number];
    cbn [Z.eqb Pos.eqb IPPROTO_TCP IPPROTO_UDP].
  - destruct (rewrite_tcp_frame (frame_addresses a f) a Hf1 Ha) as (ck & ck4 & Hrun & Hok); [cbn; by rewrite El4|].
    cbn [frame_addresses frame_set fr_options] in Hrun. rewrite Hrun. bind_cbn.
    cbn [frame_addresses frame_set fr_l4] in Hok. fold (frame_addresses a f) in Hok.
    exists ck, ck4. rewrite <- rewritten_rewrite_frame. split; [done|].
    destruct Hok as (? & ? & ? & ? & ? & ?). by split_and!.
  - destruct (rewrite_udp_frame (frame_addresses a f) a (frame_meta f) Hf1 Ha) as (ck1 & ck4 & Hrun & Hok);
      [cbn; by rewrite El4|done|].
    cbn [frame_addresses frame_set fr_options] in Hrun. rewrite Hrun. bind_cbn.
    cbn [frame_addresses frame_set fr_l4] in Hok. fold (frame_addresses a f) in Hok.
    exists ck1, ck4. rewrite <- rewritten_rewrite_frame. split; [done|].
    destruct Hok as (? & ? & ? & ? & ? & Hnz). split_and!; try done. intros _. apply Hnz.
    rewrite El4. unfold segment_ports. by destruct (masked a DP_REWRITE_SRC_PORT), (masked a DP_REWRITE_DST_PORT).
Qed.
End Rewrite.
