(* ===== verification/ActionProps.v ===== *)
(** * The contract of [dp_action.c]

    The properties of a rewrite, for the packets the parser accepts and, for
    the bytes that stay as they are, for all packets. *)
From Stdlib Require Import ZArith Lia.
From stdpp Require Import base list numbers option.
From S2P Require Import Prelude Host Packet Parser Wire ParserSpec Api Action ActionSpec.

(** The metadata after a rewrite. *)
Definition rewrite_meta (a : dp_rule_action) (m : dp_packet_meta) : dp_packet_meta :=
  let choose bit new old := if masked a bit then new else old in
  {| ether_type := ether_type m;
     src_ipv4 := choose DP_REWRITE_SRC_IPV4 (act_src_ipv4 a) (src_ipv4 m);
     dst_ipv4 := choose DP_REWRITE_DST_IPV4 (act_dst_ipv4 a) (dst_ipv4 m);
     l4_proto := l4_proto m;
     src_port := choose DP_REWRITE_SRC_PORT (act_src_port a) (src_port m);
     dst_port := choose DP_REWRITE_DST_PORT (act_dst_port a) (dst_port m);
     l2_len := l2_len m; l3_len := l3_len m; l4_len := l4_len m; l4_offset := l4_offset m |}.

Lemma frame_meta_rewrite a ck ck4 f :
  frame_meta (rewrite_frame a ck ck4 f) = rewrite_meta a (frame_meta f).
Proof. unfold frame_meta, rewrite_frame, rewrite_meta. by destruct (fr_l4 f). Qed.

Section Properties.
Context {H : Host} {HO : HostOk H} {C : Checksums} {CO : ChecksumsOk C}.

(** C17: a rewrite action applied to an accepted packet succeeds; it replaces
    exactly the addresses and ports its mask selects, leaves every other part of
    the frame as it was, and both checksums of the result verify (and a UDP
    checksum is not the 0 that would mean "none"). *)
Theorem dp_apply_action_rewrites m f a :
  frame_ok f -> frame_bytes f = mbuf_data m -> action_fits a ->
  act_type a = DP_ACTION_REWRITE -> act_rewrite_mask a <> 0 ->
  exists ck ck4, let g := rewrite_frame a ck ck4 f in
    dp_apply_action (Some m) (Some (frame_meta f)) (Some a) =
      Some (0, Some (mbuf_set_data (frame_bytes g) m)) /\
    frame_ok g /\ ipv4_cksum_ok g /\ l4_cksum_ok g /\ (l4_number (fr_l4 f) = 17 -> ck4 <> 0).
Proof.
  intros Hf Hd Ha Ht Hm.
  destruct (dp_apply_action_frame m f a Hf Hd Ha Ht Hm) as (ck & ck4 & ? & ? & ? & ? & ? & ? & ?).
  by exists ck, ck4.
Qed.

(** A rewritten packet is again accepted by the parser, and its metadata are
    those of the original packet with the selected fields replaced. *)
Theorem dp_apply_action_reparse m meta0 meta a :
  mbuf_ok m -> dp_parse_packet (Some m) (Some meta0) = Some (DP_PARSE_OK, Some meta) ->
  action_fits a -> act_type a = DP_ACTION_REWRITE -> act_rewrite_mask a <> 0 ->
  exists m', dp_apply_action (Some m) (Some meta) (Some a) = Some (0, Some m') /\ mbuf_ok m' /\
    dp_parse_packet (Some m') (Some meta0) = Some (DP_PARSE_OK, Some (rewrite_meta a meta)).
Proof.
  intros Hm (Hc & f & Hf & Hd & <-)%dp_parse_packet_grammar Ha Ht Hmask; [|done].
  destruct (dp_apply_action_frame m f a Hf Hd Ha Ht Hmask) as (ck & ck4 & -> & Hck & Hck4 & Hg & _).
  eexists. split; [done|].
  assert (length (frame_bytes (rewrite_frame a ck ck4 f)) = length (mbuf_data m)) as HL.
  { rewrite <- Hd. apply Nat2Z.inj. rewrite !frame_bytes_length by done. unfold fr_total_length, rewrite_frame.
    cbn [frame_set fr_options fr_l4 fr_trailer]. destruct (fr_l4 f) as [sp dp sa lo fx op pl|] eqn:E; [|done].
    assert (l4_ok (fr_l4 f)) as Hs by apply Hf. rewrite E in Hs.
    pose proof (set_l4_cksum_ok ck4 _ Hck4 Hs) as [_ ?]. cbn [set_sport set_dport set_l4_cksum] in *. f_equal. cbn in *. lia. }
  assert (mbuf_ok (mbuf_set_data (frame_bytes (rewrite_frame a ck ck4 f)) m)) as Hm'.
  { destruct Hm as (? & ? & ? & ? & ?). split_and!; try done;
      cbn [mbuf_set_data mbuf_data data_len]; [by apply frame_bytes_ok|by rewrite HL]. }
  split; [done|]. apply dp_parse_packet_grammar; [done|]. split; [done|].
  exists (rewrite_frame a ck ck4 f). split_and!; [done|done|apply frame_meta_rewrite].
Qed.

(** Drop and forward actions return 0 and leave the packet alone; an action
    of another type, a rewrite without a mask and a missing argument are -EINVAL
    and leave it alone too. *)
Theorem dp_apply_action_untouched m meta a :
  (act_type a = DP_ACTION_REWRITE -> act_rewrite_mask a = 0) ->
  dp_apply_action (Some m) (Some meta) (Some a) =
    Some (if decide (act_type a = DP_ACTION_DROP \/ act_type a = DP_ACTION_FORWARD) then 0 else - EINVAL,
          Some m) /\
  (forall mbuf meta a, mbuf = None \/ meta = None \/ a = None ->
     dp_apply_action mbuf meta a = Some (- EINVAL, mbuf)).
Proof.
  intros Hr. split.
  - unfold dp_apply_action. case_if; bool_to_prop.
    + rewrite decide_True by lia. done.
    + rewrite decide_False by lia. destruct (Z.eqb_spec (act_type a) DP_ACTION_REWRITE); [|done].
      by rewrite Hr.
  - by intros [] [] [] [?|[?|?]].
Qed.

(** ** What is not written *)

(** Two buffers of the same length that agree outside [P]. *)
Definition same_outside (P : Z -> Prop) (p q : list Z) : Prop :=
  length q = length p /\ forall j, ~ P j -> rd8 q j = rd8 p j.

#[local] Instance same_outside_trans P : Transitive (same_outside P).
Proof. intros p q r [H1 H2] [H3 H4]. split; [congruence|]. intros j Hj. by rewrite H4, H2. Qed.
#[local] Instance same_outside_refl P : Reflexive (same_outside P).
Proof. done. Qed.

Lemma wr8_outside (P : Z -> Prop) p i v q : P i -> wr8 p i v = Some q -> same_outside P p q.
Proof.
  intros HP Hw. split; [by apply (wr8_length _ _ _ _ Hw)|]. intros j Hj.
  rewrite (rd8_wr8 _ _ _ _ _ Hw), decide_False; [done|congruence].
Qed.

Lemma wr16_outside (P : Z -> Prop) p i v q : P i -> P (i + 1) -> wr16 p i v = Some q -> same_outside P p q.
Proof.
  intros H0 H1. unfold wr16. destruct (store16 v). destruct (wr8 p i _) as [p1|] eqn:E; bind_cbn; [|done].
  intros E2. transitivity p1; (eapply wr8_outside; [|eassumption]; done).
Qed.

Lemma wr32_outside (P : Z -> Prop) p i v q : (forall k, i <= k < i + 4 -> P k) ->
  wr32 p i v = Some q -> same_outside P p q.
Proof.
  intros HP. unfold wr32. destruct (store32 v) as [[[? ?] ?] ?].
  destruct (wr8 p i _) as [p1|] eqn:E; bind_cbn; [|done].
  destruct (wr8 p1 _ _) as [p2|] eqn:E1; bind_cbn; [|done].
  destruct (wr8 p2 _ _) as [p3|] eqn:E2; bind_cbn; [|done]. intros E3.
  transitivity p1; [|transitivity p2; [|transitivity p3]];
    (eapply wr8_outside; [|eassumption]; apply HP; lia).
Qed.

Lemma write_if_outside P b w p q : (forall q, w p = Some q -> same_outside P p q) ->
  write_if b w p = Some q -> same_outside P p q.
Proof. intros Hw. destruct b; cbn; [apply Hw|by intros [= <-]]. Qed.

(** The bytes a rewrite may change: header checksum and addresses, ports, and
    the transport checksum. *)
Definition touched (l2 l4 proto j : Z) : Prop :=
  l2 + 10 <= j < l2 + 20 \/ l4 <= j < l4 + 4 \/
  l4 + l4_cksum_offset proto <= j < l4 + l4_cksum_offset proto + 2.

Ltac bind_inv :=
  match goal with |- (?m ≫= _) = Some _ -> _ => destruct m eqn:?; bind_cbn; [|done] end.

Section Footprint.
Context (l2 l4 proto : Z) (a : dp_rule_action).
Abbreviation outside := (same_outside (touched l2 l4 proto)).

Lemma write_addresses_outside p q : write_addresses a l2 p = Some q -> outside p q.
Proof.
  unfold write_addresses. bind_inv. intros Hq. transitivity l;
    (eapply write_if_outside; [|eassumption]); intros r Hr; eapply wr32_outside; [|exact Hr| |exact Hr];
    unfold touched, IPV4_SRC_ADDR, IPV4_DST_ADDR; lia.
Qed.

Lemma update_ipv4_cksum_outside p q : update_ipv4_cksum l2 p = Some q -> outside p q.
Proof.
  unfold update_ipv4_cksum. do 3 bind_inv. intros Hq.
  transitivity l; (eapply wr16_outside; [| |eassumption]); unfold touched, IPV4_HDR_CHECKSUM; lia.
Qed.

Lemma write_ports_outside off v b p q : off = 0 \/ off = 2 ->
  write_if b (fun d => wr16 d (l4 + off) v) p = Some q -> outside p q.
Proof.
  intros Hoff. apply write_if_outside. intros r. apply wr16_outside; unfold touched; lia.
Qed.

Lemma write_cksum_outside v p q : wr16 p (l4 + l4_cksum_offset proto) v = Some q -> outside p q.
Proof. apply wr16_outside; unfold touched; lia. Qed.
End Footprint.

Lemma rewrite_tcp_outside l2 l4 a p q : rewrite_tcp a l2 l4 p = Some q ->
  same_outside (touched l2 l4 IPPROTO_TCP) p q.
Proof.
  unfold rewrite_tcp. do 7 bind_inv. change TCP_CKSUM with (l4_cksum_offset IPPROTO_TCP) in *. intros Hq.
  transitivity l; [by eapply write_ports_outside; [by left|]|].
  transitivity l0; [by eapply write_ports_outside; [by right|]|].
  transitivity l1; [by eapply write_cksum_outside|].
  transitivity l3; [by eapply update_ipv4_cksum_outside|by eapply write_cksum_outside].
Qed.

Lemma same_outside_weaken (P Q : Z -> Prop) p q : (forall j, P j -> Q j) ->
  same_outside P p q -> same_outside Q p q.
Proof. intros HPQ [HL HS]. split; [done|]. auto. Qed.

(** Putting back a field that was read before. *)
Lemma wr16_restore P i p q r v :
  (forall k b, k = 0 \/ k = 1 -> rd8 p (i + k) = Some b -> is_byte b) -> rd16 p i = Some v ->
  same_outside (fun j => P j \/ j = i \/ j = i + 1) p q -> wr16 q i v = Some r -> same_outside P p r.
Proof.
  intros Hb Hr [HL HS] Hw. split; [by rewrite (wr16_length _ _ _ _ Hw)|]. intros j Hj.
  unfold rd16 in Hr. destruct (rd8 p i) as [b0|] eqn:E0; cbn [mbind option_bind] in Hr; [|done].
  destruct (rd8 p (i + 1)) as [b1|] eqn:E1; cbn [mbind option_bind] in Hr; [|done].
  injection Hr as <-. assert (is_byte b0) by (apply (Hb 0); [lia|by rewrite Z.add_0_r]).
  assert (is_byte b1) by (apply (Hb 1); [lia|done]). unfold wr16 in Hw. rewrite store16_load16 in Hw by done.
  destruct (wr8 q i b0) as [q1|] eqn:W0; cbn [mbind option_bind] in Hw; [|done].
  rewrite (rd8_wr8 _ _ _ _ _ Hw), (rd8_wr8 _ _ _ _ _ W0).
  case_decide; [by subst|]. case_decide; [by subst|]. apply HS. tauto.
Qed.

Lemma same_outside_read16 P p q i : same_outside P p q -> ~ P i -> ~ P (i + 1) -> rd16 p i = rd16 q i.
Proof. intros [_ HS] H0 H1. unfold rd16. by rewrite !HS. Qed.

Lemma rewrite_udp_outside l2 l4 meta a p q : 0 <= l2 -> l2 + 20 <= l4 ->
  (forall k b, k = 0 \/ k = 1 -> rd8 p (l2 + IPV4_TOTAL_LENGTH + k) = Some b -> is_byte b) ->
  rewrite_udp meta a l2 l4 p = Some q -> same_outside (touched l2 l4 IPPROTO_UDP) p q.
Proof.
  intros H2 H4 Hb. unfold rewrite_udp. change UDP_DGRAM_CKSUM with (l4_cksum_offset IPPROTO_UDP).
  destruct (write_if _ _ p) as [d1|] eqn:E1; bind_cbn; [|done].
  destruct (write_if _ _ d1) as [d2|] eqn:E2; bind_cbn; [|done].
  destruct (wr16 d2 _ _) as [d3|] eqn:E3; bind_cbn; [|done].
  destruct (update_ipv4_cksum _ d3) as [d4|] eqn:E4; bind_cbn; [|done].
  assert (same_outside (touched l2 l4 IPPROTO_UDP) p d4) as Hd4.
  { transitivity d1; [by eapply write_ports_outside; [by left|]|].
    transitivity d2; [by eapply write_ports_outside; [by right|]|].
    transitivity d3; [by eapply write_cksum_outside|by eapply update_ipv4_cksum_outside]. }
  assert (rd16 p (l2 + IPV4_TOTAL_LENGTH) = rd16 d4 (l2 + IPV4_TOTAL_LENGTH)) as <-.
  { eapply same_outside_read16; [exact Hd4|..]; unfold touched, IPV4_TOTAL_LENGTH;
      change (l4_cksum_offset IPPROTO_UDP) with 6; lia. }
  bind_inv. bind_inv. destruct (wr16 d4 _ _) as [d5|] eqn:E5; bind_cbn; [|done].
  do 3 bind_inv. destruct (wr16 d5 _ _) as [d6|] eqn:E6; bind_cbn; [|done].
  apply wr16_restore; [done|done|].
  transitivity d4; [by eapply same_outside_weaken; [|exact Hd4]; auto|].
  transitivity d5; [eapply wr16_outside; [| |exact E5]; auto|].
  eapply same_outside_weaken; [|by apply (write_cksum_outside l2 l4) in E6; exact E6]. auto.
Qed.

(** Whatever the packet and the metadata, as long as the transport header
    lies behind a minimal IPv4 header, a call changes no length and no byte
    outside the header checksum, the two addresses, the two ports and the
    transport checksum; in particular the total length that is lowered for the
    UDP checksum is put back. *)
Theorem dp_apply_action_footprint m meta a ret m' :
  bytes (mbuf_data m) -> 0 <= l2_len meta -> l2_len meta + 20 <= l4_offset meta ->
  dp_apply_action (Some m) (Some meta) (Some a) = Some (ret, Some m') ->
  nb_segs m' = nb_segs m /\ pkt_len m' = pkt_len m /\ data_len m' = data_len m /\
  same_outside (touched (l2_len meta) (l4_offset meta) (l4_proto meta)) (mbuf_data m) (mbuf_data m').
Proof.
  intros Hb H2 H4. unfold dp_apply_action. case_if; [by intros [= _ <-]|]. case_if; [by intros [= _ <-]|].
  cbv zeta. do 2 bind_inv. destruct (write_addresses _ _ _) as [d|] eqn:Ed; bind_cbn; [|done].
  pose proof (fun proto => write_addresses_outside _ (l4_offset meta) proto _ _ _ Ed) as Hd.
  destruct (Z.eqb_spec (l4_proto meta) IPPROTO_TCP) as [->|];
    [bind_inv|destruct (Z.eqb_spec (l4_proto meta) IPPROTO_UDP) as [->|]; [bind_inv|]];
    intros [= _ <-]; split_and!; try done; cbn [mbuf_set_data mbuf_data].
  - transitivity d; [done|by apply rewrite_tcp_outside with a].
  - transitivity d; [done|apply rewrite_udp_outside with meta a; [done..| |done]].
    intros k b Hk. destruct (Hd IPPROTO_UDP) as [_ ->]; [apply rd8_byte, Hb|].
    unfold touched, IPV4_TOTAL_LENGTH. change (l4_cksum_offset IPPROTO_UDP) with 6. lia.
Qed.
End Properties.
