(* ===== verification/Rcu.v ===== *)
(** * Quiescent-state-based reclamation: the [rte_rcu_qsbr] interface

    [Qsbr] lists the operations the program calls, [QsbrOk] what DPDK documents:
    a token names a point in time, and a check of it succeeds exactly when every
    reader that was online at that point has since reported a quiescent state
    or gone offline.  [counter_qsbr] implements the interface with a global token
    and, per reader, how far its last report lies behind the token. *)
From Stdlib Require Import ZArith Lia.
From stdpp Require Import base list numbers option gmap.
From S2P Require Import Prelude Api.

Class Qsbr := {
  (** the build constant that bounds lcores and readers *)
  RTE_MAX_LCORE : Z;
  rcu : Type;
  (** the state after [rte_rcu_qsbr_init] for that many readers *)
  rcu_new : Z -> rcu;
  (** [Some errno]: the call failed *)
  rte_rcu_qsbr_thread_register : rcu -> Z -> option Z * rcu;
  rte_rcu_qsbr_thread_unregister : rcu -> Z -> rcu;
  rte_rcu_qsbr_thread_online : rcu -> Z -> rcu;
  rte_rcu_qsbr_thread_offline : rcu -> Z -> rcu;
  rte_rcu_qsbr_quiescent : rcu -> Z -> rcu;
  (** the token *)
  rte_rcu_qsbr_start : rcu -> Z * rcu;
  (** the non-blocking check; the blocking one returns when it holds *)
  rte_rcu_qsbr_check : rcu -> Z -> bool;
}.

Class QsbrOk (Q : Qsbr) := {
  RTE_MAX_LCORE_workers : DP_MAX_WORKERS <= RTE_MAX_LCORE;
  online : rcu -> gset Z;
  issued : rcu -> Z -> Prop;
  (** the readers a token still waits for *)
  pending : rcu -> Z -> gset Z;
  online_new n : online (rcu_new n) = ∅;
  (** [rte_errno] values are not negative *)
  register_errno v r e : fst (rte_rcu_qsbr_thread_register v r) = Some e -> 0 <= e;
  register_online v r : online (snd (rte_rcu_qsbr_thread_register v r)) = online v;
  register_issued v r t : issued v t -> issued (snd (rte_rcu_qsbr_thread_register v r)) t;
  register_pending v r t : issued v t ->
    pending (snd (rte_rcu_qsbr_thread_register v r)) t = pending v t;
  unregister_online v r : r ∉ online v -> online (rte_rcu_qsbr_thread_unregister v r) = online v;
  unregister_issued v r t : issued v t -> issued (rte_rcu_qsbr_thread_unregister v r) t;
  unregister_pending v r t : r ∉ online v -> issued v t ->
    pending (rte_rcu_qsbr_thread_unregister v r) t = pending v t ∖ {[r]};
  online_online v r : online (rte_rcu_qsbr_thread_online v r) = online v ∪ {[r]};
  online_issued v r t : issued v t -> issued (rte_rcu_qsbr_thread_online v r) t;
  online_pending v r t : r ∉ online v -> issued v t ->
    pending (rte_rcu_qsbr_thread_online v r) t = pending v t ∖ {[r]};
  offline_online v r : online (rte_rcu_qsbr_thread_offline v r) = online v ∖ {[r]};
  offline_issued v r t : issued v t -> issued (rte_rcu_qsbr_thread_offline v r) t;
  offline_pending v r t : issued v t ->
    pending (rte_rcu_qsbr_thread_offline v r) t = pending v t ∖ {[r]};
  quiescent_online v r : r ∈ online v -> online (rte_rcu_qsbr_quiescent v r) = online v;
  quiescent_issued v r t : issued v t -> issued (rte_rcu_qsbr_quiescent v r) t;
  quiescent_pending v r t : r ∈ online v -> issued v t ->
    pending (rte_rcu_qsbr_quiescent v r) t = pending v t ∖ {[r]};
  start_online v : online (snd (rte_rcu_qsbr_start v)) = online v;
  start_issued v t : issued v t \/ t = fst (rte_rcu_qsbr_start v) ->
    issued (snd (rte_rcu_qsbr_start v)) t;
  start_pending_new v :
    pending (snd (rte_rcu_qsbr_start v)) (fst (rte_rcu_qsbr_start v)) = online v;
  start_pending_old v t : issued v t -> pending (snd (rte_rcu_qsbr_start v)) t = pending v t;
  pending_online v t : issued v t -> pending v t ⊆ online v;
  check_spec v t : issued v t -> rte_rcu_qsbr_check v t = true <-> pending v t = ∅;
}.

(** ** Token and lags *)
Record counters := { token : Z; lag : gmap Z N }.

Definition report (v : counters) (r : Z) : counters := {| token := token v; lag := <[r := 0%N]> (lag v) |}.

(** The online readers that have not reported since [t] was issued. *)
Definition older (v : counters) (t : Z) : gset Z :=
  dom (filter (fun '(_, n) => token v - Z.of_N n < t) (lag v)).

Definition counter_qsbr : Qsbr := {|
  RTE_MAX_LCORE := 128;
  rcu := counters;
  rcu_new _ := {| token := 1; lag := ∅ |};
  rte_rcu_qsbr_thread_register v _ := (None, v);
  rte_rcu_qsbr_thread_unregister v _ := v;
  rte_rcu_qsbr_thread_online := report;
  rte_rcu_qsbr_thread_offline v r := {| token := token v; lag := delete r (lag v) |};
  rte_rcu_qsbr_quiescent := report;
  rte_rcu_qsbr_start v := (token v + 1, {| token := token v + 1; lag := N.succ <$> lag v |});
  rte_rcu_qsbr_check v t := bool_decide (older v t = ∅);
|}.

Lemma elem_of_older v t r : r ∈ older v t <-> exists n, lag v !! r = Some n /\ token v - Z.of_N n < t.
Proof.
  unfold older. rewrite elem_of_dom. split.
  - intros [c [? ?]%map_lookup_filter_Some]. eauto.
  - intros (c & ? & ?). exists c. by apply map_lookup_filter_Some.
Qed.

(** Reporting takes a reader out of every token that has been issued. *)
Lemma older_report v t r : t <= token v -> older (report v r) t = older v t ∖ {[r]}.
Proof.
  intros Ht. apply set_eq. intros k. rewrite elem_of_difference, elem_of_singleton, !elem_of_older.
  cbn [lag token report]. split.
  - intros (c & Hc & Hlt). destruct (decide (r = k)) as [->|].
    + rewrite lookup_insert_eq in Hc. simplify_eq. lia.
    + rewrite lookup_insert_ne in Hc by done. eauto.
  - intros ((c & Hc & Hlt) & Hne). exists c. by rewrite lookup_insert_ne by done.
Qed.

Lemma older_delete v t r :
  older {| token := token v; lag := delete r (lag v) |} t = older v t ∖ {[r]}.
Proof.
  apply set_eq. intros k. rewrite elem_of_difference, elem_of_singleton, !elem_of_older.
  cbn [lag token]. split.
  - intros (c & [? Hc]%lookup_delete_Some & Hlt). eauto.
  - intros ((c & Hc & Hlt) & Hne). exists c. by rewrite lookup_delete_ne by done.
Qed.

(** A new token waits for every online reader, and old tokens wait as before. *)
Lemma older_start v t :
  older {| token := token v + 1; lag := N.succ <$> lag v |} t =
    if decide (t <= token v) then older v t else
      if decide (t = token v + 1) then dom (lag v) else
        older {| token := token v + 1; lag := N.succ <$> lag v |} t.
Proof.
  case_decide; [|case_decide; [|done]]; apply set_eq; intros k; rewrite ?elem_of_dom, !elem_of_older;
    cbn [lag token]; setoid_rewrite lookup_fmap; destruct (lag v !! k) as [n|]; cbn.
  - split; intros (? & [= <-] & ?); eexists; (split; [done|lia]).
  - by split; intros (? & ? & ?).
  - split; [eauto|]. intros _. eexists. split; [done|lia].
  - split; [by intros (? & ? & ?)|by intros []].
Qed.

Lemma older_subset v t : older v t ⊆ dom (lag v).
Proof. intros k (n & Hn & _)%elem_of_older. by apply elem_of_dom. Qed.

#[export] Instance counter_qsbr_ok : QsbrOk counter_qsbr.
Proof.
  refine {| online := fun v : @rcu counter_qsbr => dom (lag v);
            issued := fun (v : @rcu counter_qsbr) t => t <= token v;
            pending := fun (v : @rcu counter_qsbr) => older v |}; cbn; try done.
  - intros v r t Hr _. pose proof (older_subset v t). set_solver.
  - intros v r. rewrite dom_insert_L. set_solver.
  - intros v r t _. by apply older_report.
  - intros v r. by rewrite dom_delete_L.
  - intros v r t _. apply older_delete.
  - intros v r Hr. rewrite dom_insert_L. set_solver.
  - intros v r t _. by apply older_report.
  - intros v. by rewrite dom_fmap_L.
  - intros v t [?|?]; lia.
  - intros v. rewrite older_start, decide_False, decide_True by lia. done.
  - intros v t Ht. by rewrite older_start, decide_True by done.
  - intros v t _. apply older_subset.
  - intros v t _. apply bool_decide_eq_true.
Defined.
