(* ===== verification/State.v ===== *)
(** * Process state: [struct dp_state]

    The fields of [dp], the worker contexts and the runtime information as
    records, with one setter per field (an assignment [dp.field = v]).  The
    atomics are plain fields: every operation of the model is one step of one
    thread, and the modules that interleave threads interleave those steps. *)
From Stdlib Require Import ZArith Lia.
From stdpp Require Import base list numbers option gmap strings.
From S2P Require Import Prelude Packet Api Tables Heap Rcu.

(** [#define] constants of [dp_internal.h] *)
Definition DP_NB_MBUF := 4096.
Definition DP_CACHE_SIZE := 128.
Definition DP_BURST_SIZE := 32.

(** ** [struct dp_runtime_info] *)
Record dp_runtime_info := {
  info_initialized : Z;
  main_lcore : Z;
  lcore_count : Z;
  version : string;
  rx_port : Z;
  tx_port : Z;
  rx_desc : Z;
  tx_desc : Z;
  nb_mbuf : Z;
  cache_size : Z;
  socket_id : Z;
  info_worker_count : Z;
  info_workers : list dp_worker_info;
}.

Definition set_info_initialized (x : Z) (r : dp_runtime_info) : dp_runtime_info := {|
  info_initialized := x; main_lcore := main_lcore r; lcore_count := lcore_count r; version :=
  version r; rx_port := rx_port r; tx_port := tx_port r; rx_desc := rx_desc r; tx_desc :=
  tx_desc r; nb_mbuf := nb_mbuf r; cache_size := cache_size r; socket_id := socket_id r;
  info_worker_count := info_worker_count r; info_workers := info_workers r |}.
Definition set_main_lcore (x : Z) (r : dp_runtime_info) : dp_runtime_info := {| info_initialized
  := info_initialized r; main_lcore := x; lcore_count := lcore_count r; version := version r;
  rx_port := rx_port r; tx_port := tx_port r; rx_desc := rx_desc r; tx_desc := tx_desc r;
  nb_mbuf := nb_mbuf r; cache_size := cache_size r; socket_id := socket_id r; info_worker_count
  := info_worker_count r; info_workers := info_workers r |}.
Definition set_lcore_count (x : Z) (r : dp_runtime_info) : dp_runtime_info := {|
  info_initialized := info_initialized r; main_lcore := main_lcore r; lcore_count := x; version
  := version r; rx_port := rx_port r; tx_port := tx_port r; rx_desc := rx_desc r; tx_desc :=
  tx_desc r; nb_mbuf := nb_mbuf r; cache_size := cache_size r; socket_id := socket_id r;
  info_worker_count := info_worker_count r; info_workers := info_workers r |}.
Definition set_version (x : string) (r : dp_runtime_info) : dp_runtime_info := {|
  info_initialized := info_initialized r; main_lcore := main_lcore r; lcore_count := lcore_count
  r; version := x; rx_port := rx_port r; tx_port := tx_port r; rx_desc := rx_desc r; tx_desc :=
  tx_desc r; nb_mbuf := nb_mbuf r; cache_size := cache_size r; socket_id := socket_id r;
  info_worker_count := info_worker_count r; info_workers := info_workers r |}.
Definition set_rx_port (x : Z) (r : dp_runtime_info) : dp_runtime_info := {| info_initialized :=
  info_initialized r; main_lcore := main_lcore r; lcore_count := lcore_count r; version :=
  version r; rx_port := x; tx_port := tx_port r; rx_desc := rx_desc r; tx_desc := tx_desc r;
  nb_mbuf := nb_mbuf r; cache_size := cache_size r; socket_id := socket_id r; info_worker_count
  := info_worker_count r; info_workers := info_workers r |}.
Definition set_tx_port (x : Z) (r : dp_runtime_info) : dp_runtime_info := {| info_initialized :=
  info_initialized r; main_lcore := main_lcore r; lcore_count := lcore_count r; version :=
  version r; rx_port := rx_port r; tx_port := x; rx_desc := rx_desc r; tx_desc := tx_desc r;
  nb_mbuf := nb_mbuf r; cache_size := cache_size r; socket_id := socket_id r; info_worker_count
  := info_worker_count r; info_workers := info_workers r |}.
Definition set_rx_desc (x : Z) (r : dp_runtime_info) : dp_runtime_info := {| info_initialized :=
  info_initialized r; main_lcore := main_lcore r; lcore_count := lcore_count r; version :=
  version r; rx_port := rx_port r; tx_port := tx_port r; rx_desc := x; tx_desc := tx_desc r;
  nb_mbuf := nb_mbuf r; cache_size := cache_size r; socket_id := socket_id r; info_worker_count
  := info_worker_count r; info_workers := info_workers r |}.
Definition set_tx_desc (x : Z) (r : dp_runtime_info) : dp_runtime_info := {| info_initialized :=
  info_initialized r; main_lcore := main_lcore r; lcore_count := lcore_count r; version :=
  version r; rx_port := rx_port r; tx_port := tx_port r; rx_desc := rx_desc r; tx_desc := x;
  nb_mbuf := nb_mbuf r; cache_size := cache_size r; socket_id := socket_id r; info_worker_count
  := info_worker_count r; info_workers := info_workers r |}.
Definition set_nb_mbuf (x : Z) (r : dp_runtime_info) : dp_runtime_info := {| info_initialized :=
  info_initialized r; main_lcore := main_lcore r; lcore_count := lcore_count r; version :=
  version r; rx_port := rx_port r; tx_port := tx_port r; rx_desc := rx_desc r; tx_desc :=
  tx_desc r; nb_mbuf := x; cache_size := cache_size r; socket_id := socket_id r;
  info_worker_count := info_worker_count r; info_workers := info_workers r |}.
Definition set_cache_size (x : Z) (r : dp_runtime_info) : dp_runtime_info := {| info_initialized
  := info_initialized r; main_lcore := main_lcore r; lcore_count := lcore_count r; version :=
  version r; rx_port := rx_port r; tx_port := tx_port r; rx_desc := rx_desc r; tx_desc :=
  tx_desc r; nb_mbuf := nb_mbuf r; cache_size := x; socket_id := socket_id r; info_worker_count
  := info_worker_count r; info_workers := info_workers r |}.
Definition set_socket_id (x : Z) (r : dp_runtime_info) : dp_runtime_info := {| info_initialized
  := info_initialized r; main_lcore := main_lcore r; lcore_count := lcore_count r; version :=
  version r; rx_port := rx_port r; tx_port := tx_port r; rx_desc := rx_desc r; tx_desc :=
  tx_desc r; nb_mbuf := nb_mbuf r; cache_size := cache_size r; socket_id := x; info_worker_count
  := info_worker_count r; info_workers := info_workers r |}.
Definition set_info_worker_count (x : Z) (r : dp_runtime_info) : dp_runtime_info := {|
  info_initialized := info_initialized r; main_lcore := main_lcore r; lcore_count := lcore_count
  r; version := version r; rx_port := rx_port r; tx_port := tx_port r; rx_desc := rx_desc r;
  tx_desc := tx_desc r; nb_mbuf := nb_mbuf r; cache_size := cache_size r; socket_id := socket_id
  r; info_worker_count := x; info_workers := info_workers r |}.
Definition set_info_workers (x : list dp_worker_info) (r : dp_runtime_info) : dp_runtime_info :=
  {| info_initialized := info_initialized r; main_lcore := main_lcore r; lcore_count :=
  lcore_count r; version := version r; rx_port := rx_port r; tx_port := tx_port r; rx_desc :=
  rx_desc r; tx_desc := tx_desc r; nb_mbuf := nb_mbuf r; cache_size := cache_size r; socket_id
  := socket_id r; info_worker_count := info_worker_count r; info_workers := x |}.

(** ** [struct dp_worker_ctx] *)
Definition worker_info_zero : dp_worker_info := {| worker_id := 0; lcore_id := 0; rx_queue_id := 0; tx_queue_id := 0 |}.


Record dp_worker_ctx := {
  ctx_info : dp_worker_info;
  ctx_stats : dp_packet_stats;
  result : Z;
  launched : bool;
  reader_registered : bool;
}.

Definition set_ctx_info (x : dp_worker_info) (r : dp_worker_ctx) : dp_worker_ctx := {| ctx_info
  := x; ctx_stats := ctx_stats r; result := result r; launched := launched r; reader_registered
  := reader_registered r |}.
Definition set_ctx_stats (x : dp_packet_stats) (r : dp_worker_ctx) : dp_worker_ctx := {|
  ctx_info := ctx_info r; ctx_stats := x; result := result r; launched := launched r;
  reader_registered := reader_registered r |}.
Definition set_result (x : Z) (r : dp_worker_ctx) : dp_worker_ctx := {| ctx_info := ctx_info r;
  ctx_stats := ctx_stats r; result := x; launched := launched r; reader_registered :=
  reader_registered r |}.
Definition set_launched (x : bool) (r : dp_worker_ctx) : dp_worker_ctx := {| ctx_info :=
  ctx_info r; ctx_stats := ctx_stats r; result := result r; launched := x; reader_registered :=
  reader_registered r |}.
Definition set_reader_registered (x : bool) (r : dp_worker_ctx) : dp_worker_ctx := {| ctx_info
  := ctx_info r; ctx_stats := ctx_stats r; result := result r; launched := launched r;
  reader_registered := x |}.

Definition ctx_zero : dp_worker_ctx := {| ctx_info := worker_info_zero; ctx_stats := stats_zero; result := 0;
  launched := false; reader_registered := false |}.

(** ** [struct dp_state] *)
Section State.
Context {T : DpdkTables} {Q : Qsbr}.


Record dp_state := {
  attempted : bool;
  initialized : bool;
  rules_configured : bool;
  ready : bool;
  running : bool;
  ran : bool;
  stop : bool;
  pool : option Z;
  active_rules : option Z;
  rules_qsbr : option rcu;
  writer_active : bool;
  active_workers : Z;
  registered_readers : Z;
  ports : Z * Z;
  owned : bool * bool;
  started : bool * bool;
  worker_count : Z;
  workers : list dp_worker_ctx;
  info : dp_runtime_info;
  dstats : dp_ctl_stats;
}.

Definition set_attempted (x : bool) (r : dp_state) : dp_state := {| attempted := x; initialized
  := initialized r; rules_configured := rules_configured r; ready := ready r; running := running
  r; ran := ran r; stop := stop r; pool := pool r; active_rules := active_rules r; rules_qsbr :=
  rules_qsbr r; writer_active := writer_active r; active_workers := active_workers r;
  registered_readers := registered_readers r; ports := ports r; owned := owned r; started :=
  started r; worker_count := worker_count r; workers := workers r; info := info r; dstats :=
  dstats r |}.
Definition set_initialized (x : bool) (r : dp_state) : dp_state := {| attempted := attempted r;
  initialized := x; rules_configured := rules_configured r; ready := ready r; running := running
  r; ran := ran r; stop := stop r; pool := pool r; active_rules := active_rules r; rules_qsbr :=
  rules_qsbr r; writer_active := writer_active r; active_workers := active_workers r;
  registered_readers := registered_readers r; ports := ports r; owned := owned r; started :=
  started r; worker_count := worker_count r; workers := workers r; info := info r; dstats :=
  dstats r |}.
Definition set_rules_configured (x : bool) (r : dp_state) : dp_state := {| attempted :=
  attempted r; initialized := initialized r; rules_configured := x; ready := ready r; running :=
  running r; ran := ran r; stop := stop r; pool := pool r; active_rules := active_rules r;
  rules_qsbr := rules_qsbr r; writer_active := writer_active r; active_workers := active_workers
  r; registered_readers := registered_readers r; ports := ports r; owned := owned r; started :=
  started r; worker_count := worker_count r; workers := workers r; info := info r; dstats :=
  dstats r |}.
Definition set_ready (x : bool) (r : dp_state) : dp_state := {| attempted := attempted r;
  initialized := initialized r; rules_configured := rules_configured r; ready := x; running :=
  running r; ran := ran r; stop := stop r; pool := pool r; active_rules := active_rules r;
  rules_qsbr := rules_qsbr r; writer_active := writer_active r; active_workers := active_workers
  r; registered_readers := registered_readers r; ports := ports r; owned := owned r; started :=
  started r; worker_count := worker_count r; workers := workers r; info := info r; dstats :=
  dstats r |}.
Definition set_running (x : bool) (r : dp_state) : dp_state := {| attempted := attempted r;
  initialized := initialized r; rules_configured := rules_configured r; ready := ready r;
  running := x; ran := ran r; stop := stop r; pool := pool r; active_rules := active_rules r;
  rules_qsbr := rules_qsbr r; writer_active := writer_active r; active_workers := active_workers
  r; registered_readers := registered_readers r; ports := ports r; owned := owned r; started :=
  started r; worker_count := worker_count r; workers := workers r; info := info r; dstats :=
  dstats r |}.
Definition set_ran (x : bool) (r : dp_state) : dp_state := {| attempted := attempted r;
  initialized := initialized r; rules_configured := rules_configured r; ready := ready r;
  running := running r; ran := x; stop := stop r; pool := pool r; active_rules := active_rules
  r; rules_qsbr := rules_qsbr r; writer_active := writer_active r; active_workers :=
  active_workers r; registered_readers := registered_readers r; ports := ports r; owned := owned
  r; started := started r; worker_count := worker_count r; workers := workers r; info := info r;
  dstats := dstats r |}.
Definition set_stop (x : bool) (r : dp_state) : dp_state := {| attempted := attempted r;
  initialized := initialized r; rules_configured := rules_configured r; ready := ready r;
  running := running r; ran := ran r; stop := x; pool := pool r; active_rules := active_rules r;
  rules_qsbr := rules_qsbr r; writer_active := writer_active r; active_workers := active_workers
  r; registered_readers := registered_readers r; ports := ports r; owned := owned r; started :=
  started r; worker_count := worker_count r; workers := workers r; info := info r; dstats :=
  dstats r |}.
Definition set_pool (x : option Z) (r : dp_state) : dp_state := {| attempted := attempted r;
  initialized := initialized r; rules_configured := rules_configured r; ready := ready r;
  running := running r; ran := ran r; stop := stop r; pool := x; active_rules := active_rules r;
  rules_qsbr := rules_qsbr r; writer_active := writer_active r; active_workers := active_workers
  r; registered_readers := registered_readers r; ports := ports r; owned := owned r; started :=
  started r; worker_count := worker_count r; workers := workers r; info := info r; dstats :=
  dstats r |}.
Definition set_active_rules (x : option Z) (r : dp_state) : dp_state := {| attempted :=
  attempted r; initialized := initialized r; rules_configured := rules_configured r; ready :=
  ready r; running := running r; ran := ran r; stop := stop r; pool := pool r; active_rules :=
  x; rules_qsbr := rules_qsbr r; writer_active := writer_active r; active_workers :=
  active_workers r; registered_readers := registered_readers r; ports := ports r; owned := owned
  r; started := started r; worker_count := worker_count r; workers := workers r; info := info r;
  dstats := dstats r |}.
Definition set_rules_qsbr (x : option rcu) (r : dp_state) : dp_state := {| attempted :=
  attempted r; initialized := initialized r; rules_configured := rules_configured r; ready :=
  ready r; running := running r; ran := ran r; stop := stop r; pool := pool r; active_rules :=
  active_rules r; rules_qsbr := x; writer_active := writer_active r; active_workers :=
  active_workers r; registered_readers := registered_readers r; ports := ports r; owned := owned
  r; started := started r; worker_count := worker_count r; workers := workers r; info := info r;
  dstats := dstats r |}.
Definition set_writer_active (x : bool) (r : dp_state) : dp_state := {| attempted := attempted
  r; initialized := initialized r; rules_configured := rules_configured r; ready := ready r;
  running := running r; ran := ran r; stop := stop r; pool := pool r; active_rules :=
  active_rules r; rules_qsbr := rules_qsbr r; writer_active := x; active_workers :=
  active_workers r; registered_readers := registered_readers r; ports := ports r; owned := owned
  r; started := started r; worker_count := worker_count r; workers := workers r; info := info r;
  dstats := dstats r |}.
Definition set_active_workers (x : Z) (r : dp_state) : dp_state := {| attempted := attempted r;
  initialized := initialized r; rules_configured := rules_configured r; ready := ready r;
  running := running r; ran := ran r; stop := stop r; pool := pool r; active_rules :=
  active_rules r; rules_qsbr := rules_qsbr r; writer_active := writer_active r; active_workers
  := x; registered_readers := registered_readers r; ports := ports r; owned := owned r; started
  := started r; worker_count := worker_count r; workers := workers r; info := info r; dstats :=
  dstats r |}.
Definition set_registered_readers (x : Z) (r : dp_state) : dp_state := {| attempted := attempted
  r; initialized := initialized r; rules_configured := rules_configured r; ready := ready r;
  running := running r; ran := ran r; stop := stop r; pool := pool r; active_rules :=
  active_rules r; rules_qsbr := rules_qsbr r; writer_active := writer_active r; active_workers
  := active_workers r; registered_readers := x; ports := ports r; owned := owned r; started :=
  started r; worker_count := worker_count r; workers := workers r; info := info r; dstats :=
  dstats r |}.
Definition set_ports (x : Z * Z) (r : dp_state) : dp_state := {| attempted := attempted r;
  initialized := initialized r; rules_configured := rules_configured r; ready := ready r;
  running := running r; ran := ran r; stop := stop r; pool := pool r; active_rules :=
  active_rules r; rules_qsbr := rules_qsbr r; writer_active := writer_active r; active_workers
  := active_workers r; registered_readers := registered_readers r; ports := x; owned := owned r;
  started := started r; worker_count := worker_count r; workers := workers r; info := info r;
  dstats := dstats r |}.
Definition set_owned (x : bool * bool) (r : dp_state) : dp_state := {| attempted := attempted r;
  initialized := initialized r; rules_configured := rules_configured r; ready := ready r;
  running := running r; ran := ran r; stop := stop r; pool := pool r; active_rules :=
  active_rules r; rules_qsbr := rules_qsbr r; writer_active := writer_active r; active_workers
  := active_workers r; registered_readers := registered_readers r; ports := ports r; owned := x;
  started := started r; worker_count := worker_count r; workers := workers r; info := info r;
  dstats := dstats r |}.
Definition set_started (x : bool * bool) (r : dp_state) : dp_state := {| attempted := attempted
  r; initialized := initialized r; rules_configured := rules_configured r; ready := ready r;
  running := running r; ran := ran r; stop := stop r; pool := pool r; active_rules :=
  active_rules r; rules_qsbr := rules_qsbr r; writer_active := writer_active r; active_workers
  := active_workers r; registered_readers := registered_readers r; ports := ports r; owned :=
  owned r; started := x; worker_count := worker_count r; workers := workers r; info := info r;
  dstats := dstats r |}.
Definition set_worker_count (x : Z) (r : dp_state) : dp_state := {| attempted := attempted r;
  initialized := initialized r; rules_configured := rules_configured r; ready := ready r;
  running := running r; ran := ran r; stop := stop r; pool := pool r; active_rules :=
  active_rules r; rules_qsbr := rules_qsbr r; writer_active := writer_active r; active_workers
  := active_workers r; registered_readers := registered_readers r; ports := ports r; owned :=
  owned r; started := started r; worker_count := x; workers := workers r; info := info r; dstats
  := dstats r |}.
Definition set_workers (x : list dp_worker_ctx) (r : dp_state) : dp_state := {| attempted :=
  attempted r; initialized := initialized r; rules_configured := rules_configured r; ready :=
  ready r; running := running r; ran := ran r; stop := stop r; pool := pool r; active_rules :=
  active_rules r; rules_qsbr := rules_qsbr r; writer_active := writer_active r; active_workers
  := active_workers r; registered_readers := registered_readers r; ports := ports r; owned :=
  owned r; started := started r; worker_count := worker_count r; workers := x; info := info r;
  dstats := dstats r |}.
Definition set_info (x : dp_runtime_info) (r : dp_state) : dp_state := {| attempted := attempted
  r; initialized := initialized r; rules_configured := rules_configured r; ready := ready r;
  running := running r; ran := ran r; stop := stop r; pool := pool r; active_rules :=
  active_rules r; rules_qsbr := rules_qsbr r; writer_active := writer_active r; active_workers
  := active_workers r; registered_readers := registered_readers r; ports := ports r; owned :=
  owned r; started := started r; worker_count := worker_count r; workers := workers r; info :=
  x; dstats := dstats r |}.
Definition set_dstats (x : dp_ctl_stats) (r : dp_state) : dp_state := {| attempted := attempted
  r; initialized := initialized r; rules_configured := rules_configured r; ready := ready r;
  running := running r; ran := ran r; stop := stop r; pool := pool r; active_rules :=
  active_rules r; rules_qsbr := rules_qsbr r; writer_active := writer_active r; active_workers
  := active_workers r; registered_readers := registered_readers r; ports := ports r; owned :=
  owned r; started := started r; worker_count := worker_count r; workers := workers r; info :=
  info r; dstats := x |}.

(** ** The world

    The globals, the rule heap, the mbufs somebody owns, and the packets the
    transmit driver took over, in order. *)

Record world := {
  dp : dp_state;
  rules_heap : gmap Z hobj;
  mbufs : gmap Z rte_mbuf;
  wire : list rte_mbuf;
}.

Definition set_dp (x : dp_state) (r : world) : world := {| dp := x; rules_heap := rules_heap r;
  mbufs := mbufs r; wire := wire r |}.
Definition set_rules_heap (x : gmap Z hobj) (r : world) : world := {| dp := dp r; rules_heap :=
  x; mbufs := mbufs r; wire := wire r |}.
Definition set_mbufs (x : gmap Z rte_mbuf) (r : world) : world := {| dp := dp r; rules_heap :=
  rules_heap r; mbufs := x; wire := wire r |}.
Definition set_wire (x : list rte_mbuf) (r : world) : world := {| dp := dp r; rules_heap :=
  rules_heap r; mbufs := mbufs r; wire := x |}.

(** The process as it starts: [struct dp_state dp = { ... }] and zeroed memory. *)
Definition info_zero : dp_runtime_info := {|
  info_initialized := 0; main_lcore := 0; lcore_count := 0; version := ""; rx_port := 0; tx_port := 0;
  rx_desc := 0; tx_desc := 0; nb_mbuf := 0; cache_size := 0; socket_id := 0; info_worker_count := 0;
  info_workers := replicate (Z.to_nat DP_MAX_WORKERS) worker_info_zero |}.
Definition dp_initial : dp_state := {|
  attempted := false; initialized := false; rules_configured := false; ready := false; running := false;
  ran := false; stop := false; pool := None; active_rules := None; rules_qsbr := None; writer_active := false;
  active_workers := 0; registered_readers := 0; ports := (0, 0); owned := (false, false);
  started := (false, false); worker_count := 0; workers := replicate (Z.to_nat DP_MAX_WORKERS) ctx_zero;
  info := info_zero; dstats := ctl_zero |}.

(** An assignment to a global. *)
Definition on_dp (f : dp_state -> dp_state) : M world unit := modify (fun w => set_dp (f (dp w)) w).
End State.
