(* ===== verification/StatsSpec.v ===== *)
(** * Counter accounting

    Counters wrap at 2^64, so every balance between them is a congruence.  A
    linear form over the counters changes by a known amount at each increment;
    the accounting identities of the dataplane are five such forms, and they
    survive increments, bursts and aggregation for the same reason. *)
From Stdlib Require Import ZArith Lia.
From stdpp Require Import base list numbers option.
From S2P Require Import Prelude Api.

Definition all_counters : list counter :=
  [Rx; Parse_ok; Parse_unsupported; Parse_malformed; Flow_hit; Route_hit; Lookup_miss; Action_drop;
   Action_forward; Action_rewrite; Tx_accepted; Tx_unsent; Drop; Rx_bursts; Rx_empty_polls; Tx_bursts].

Definition sum_list (l : list Z) : Z := foldr Z.add 0 l.

(** A linear form over the counters, modulo 2^64. *)
Definition linear (k : counter -> Z) (s : dp_packet_stats) : Z :=
  u64 (sum_list ((fun c => k c * get_counter s c) <$> all_counters)).

(** The accounting identities, as forms that vanish. *)
Definition form (pos neg : list counter) (c : counter) : Z :=
  (if decide (c ∈ pos) then 1 else 0) - (if decide (c ∈ neg) then 1 else 0).

Definition identities : list (counter -> Z) :=
  [form [Rx] [Parse_ok; Parse_unsupported; Parse_malformed];
   form [Parse_ok] [Flow_hit; Route_hit; Lookup_miss];
   form [Parse_ok] [Action_drop; Action_forward; Action_rewrite];
   form [Action_forward; Action_rewrite] [Tx_accepted; Tx_unsent];
   form [Drop] [Parse_unsupported; Parse_malformed; Action_drop; Tx_unsent]].

(** Every received packet was parsed once, every parsed packet looked up once
    and given one action, every forwarded packet accepted or returned by the
    driver, and every other packet dropped. *)
Record balanced (s : dp_packet_stats) : Prop := {
  balance_rx : u64 (rx s) = u64 (parse_ok s + parse_unsupported s + parse_malformed s);
  balance_lookup : u64 (parse_ok s) = u64 (flow_hit s + route_hit s + lookup_miss s);
  balance_action : u64 (parse_ok s) = u64 (action_drop s + action_forward s + action_rewrite s);
  balance_tx : u64 (action_forward s + action_rewrite s) = u64 (tx_accepted s + tx_unsent s);
  balance_drop : u64 (drop_ s) = u64 (parse_unsupported s + parse_malformed s + action_drop s + tx_unsent s);
}.

Lemma wrap_eq_sub a b : u64 a = u64 b <-> u64 (a - b) = 0.
Proof.
  unfold wrap. split; intros E.
  - by rewrite Zminus_mod, E, Z.sub_diag.
  - replace a with (b + (a - b)) by lia. by rewrite Z.add_mod, E, Z.add_0_r, Z.mod_mod by done.
Qed.

Ltac form_compute :=
  repeat match goal with |- context [form ?p ?n ?c] =>
    let r := eval vm_compute in (form p n c) in change (form p n c) with r end.

Lemma balanced_identities s : balanced s <-> Forall (fun k => linear k s = 0) identities.
Proof.
  unfold identities. rewrite !Forall_cons_iff. unfold linear.
  cbn -[wrap Z.mul Z.add Z.sub form]. form_compute. split.
  - intros [H1 H2 H3 H4 H5]. rewrite wrap_eq_sub in H1, H2, H3, H4, H5.
    split_and!; [rewrite <- H1|rewrite <- H2|rewrite <- H3|rewrite <- H4|rewrite <- H5|done];
      f_equal; lia.
  - intros (H1 & H2 & H3 & H4 & H5 & _). split; rewrite wrap_eq_sub;
      [rewrite <- H1|rewrite <- H2|rewrite <- H3|rewrite <- H4|rewrite <- H5]; f_equal; lia.
Qed.

(** ** Increments *)
Lemma sum_list_fmap_add {A} (f g : A -> Z) l :
  sum_list ((fun a => f a + g a) <$> l) = sum_list (f <$> l) + sum_list (g <$> l).
Proof. induction l as [|a l IH]; cbn; [done|]. unfold sum_list in *. rewrite IH. lia. Qed.

Lemma u64_sum_ext {A} (f g : A -> Z) l : (forall a, u64 (f a) = u64 (g a)) ->
  u64 (sum_list (f <$> l)) = u64 (sum_list (g <$> l)).
Proof.
  intros E. induction l as [|a l IH]; [done|].
  change (u64 (f a + sum_list (f <$> l)) = u64 (g a + sum_list (g <$> l))).
  rewrite <- wrap_add_l, E, wrap_add_l. by rewrite <- wrap_add_r, IH, wrap_add_r.
Qed.

Lemma u64_mul_r k a : u64 (k * u64 a) = u64 (k * a).
Proof. unfold wrap. apply Zmult_mod_idemp_r. Qed.

Lemma linear_add k c n s : linear k (add c n s) = u64 (linear k s + k c * n).
Proof.
  unfold linear. rewrite wrap_add_l.
  assert (k c * n = sum_list ((fun c' => if decide (c = c') then k c' * n else 0) <$> all_counters)) as ->
    by (destruct c; lazy -[Z.mul Z.add]; lia).
  rewrite <- sum_list_fmap_add. apply u64_sum_ext. intros c'. rewrite get_add.
  case_decide; subst; [rewrite u64_mul_r|]; f_equal; lia.
Qed.

(** A sequence of increments. *)
Definition bump (cs : list counter) (s : dp_packet_stats) : dp_packet_stats :=
  foldl (fun s c => add c 1 s) s cs.

Lemma bump_app cs cs' s : bump (cs ++ cs') s = bump cs' (bump cs s).
Proof. apply foldl_app. Qed.

Lemma bump_add cs c n s : bump cs (add c n s) = add c n (bump cs s).
Proof.
  revert s. induction cs as [|c' cs IH]; intros s; [done|]. cbn. rewrite add_comm. apply IH.
Qed.

Lemma linear_bump k cs s : linear k (bump cs s) = u64 (linear k s + sum_list (k <$> cs)).
Proof.
  revert s. induction cs as [|c cs IH]; intros s.
  - cbn. rewrite Z.add_0_r. unfold linear. by rewrite wrap_wrap.
  - change (bump (c :: cs) s) with (bump cs (add c 1 s)). cbn [fmap list_fmap sum_list foldr]. rewrite IH, linear_add, wrap_add_l. f_equal. unfold sum_list. lia.
Qed.

(** A counter after a sequence of increments. *)
Lemma get_bump cs s c : stats_fit s ->
  get_counter (bump cs s) c = u64 (get_counter s c + Z.of_nat (length (filter (c =.) cs))).
Proof.
  revert s. induction cs as [|c' cs IH]; intros s Hs.
  - cbn. rewrite Z.add_0_r. symmetry. apply wrap_id, Hs.
  - change (bump (c' :: cs) s) with (bump cs (add c' 1 s)). rewrite IH by by apply add_fit.
    rewrite get_add, filter_cons. repeat case_decide; subst; try done.
    rewrite wrap_add_l. f_equal. cbn [length]. lia.
Qed.

Lemma bump_fit cs s : stats_fit s -> stats_fit (bump cs s).
Proof. revert s. induction cs as [|c cs IH]; intros s Hs; [done|]. by apply IH, add_fit. Qed.
