(* ===== verification/Rules.v ===== *)
(** * The rule lifecycle: configure, publish, teardown and the reader side

    The functions of [dp_lookup.c] that work on the global state.  Publication
    runs while readers go on and blocks in [rte_rcu_qsbr_check(..., true)], so it
    is given in three steps, between which other threads act: [publish_swap] up to
    the exchange of the pointer, [publish_start] for the token, [publish_finish]
    from the return of the check; [dp_publish_rules] composes them. *)
From Stdlib Require Import ZArith Lia.
From stdpp Require Import base list numbers option gmap strings.
From S2P Require Import Prelude Packet Api Tables Heap Snapshot Rcu State.

Section Rules.
Context {T : DpdkTables} {Q : Qsbr}.

Definition DP_RULE_READER_CAPACITY := RTE_MAX_LCORE.

(** Run an operation on the rule heap and the control-plane counters. *)
Definition on_rules {A} (m : M rules_world A) : M world A :=
  fun w => '(a, rw) ← m {| heap := rules_heap w; ctl := dstats (dp w) |};
           Some (a, set_rules_heap (heap rw) (set_dp (set_dstats (ctl rw) (dp w)) w)).

Definition on_stats (f : dp_ctl_stats -> dp_ctl_stats) : M world unit :=
  on_dp (fun d => set_dstats (f (dstats d)) d).

(** What the EAL answers when the QSBR object is created. *)
Record qsbr_env := {
  rte_rcu_qsbr_get_memsize : Z -> Z;                 (** 1 when it fails *)
  memsize_errno : Z;                                 (** [rte_errno] then *)
  qsbr_zmalloc : string -> Z -> Z -> option Z;       (** name, size, socket; [Some errno]: NULL *)
  rte_rcu_qsbr_init : Z -> option Z;                 (** [Some errno]: non-zero *)
}.

Definition dp_qsbr_create (env : qsbr_env) : M world Z :=
  w ← get;
  match rules_qsbr (dp w) with
  | Some _ => mret 0
  | None =>
    let size := rte_rcu_qsbr_get_memsize env DP_RULE_READER_CAPACITY in
    if size =? 1 then mret (neg_errno (memsize_errno env) EINVAL) else
    match qsbr_zmalloc env "dfr_rules_qsbr" size (socket_id (info (dp w))) with
    | Some rte_errno => on_dp (set_rules_qsbr None);; mret (neg_errno rte_errno ENOMEM)
    | None =>
      match rte_rcu_qsbr_init env DP_RULE_READER_CAPACITY with
      | Some rte_errno => on_dp (set_rules_qsbr None);; mret (neg_errno rte_errno EINVAL)
      | None => on_dp (set_rules_qsbr (Some (rcu_new DP_RULE_READER_CAPACITY)));; mret 0
      end
    end
  end.

Definition dp_configure_rules (env : qsbr_env) (allocate : allocator)
    (flows : option (list dp_flow_rule)) (flow_count : Z)
    (routes : option (list dp_route_rule)) (route_count : Z) : M world Z :=
  w ← get;
  if negb (initialized (dp w)) then mret (- ENODEV) else
  if rules_configured (dp w) || ready (dp w) || running (dp w) || ran (dp w)
  then mret (- EALREADY) else
  ret ← dp_qsbr_create env;
  if ret <? 0 then mret ret else
  '(ret, snapshot) ← on_rules (dp_snapshot_build allocate (socket_id (info (dp w)))
                                 flows flow_count routes route_count 1);
  if ret <? 0 then
    on_stats (fun c => set_rules_publish_failed (u64 (rules_publish_failed c + 1)) c);; mret ret
  else
    on_dp (set_active_rules snapshot);;
    on_dp (set_rules_configured true);;
    on_stats (set_rules_generation 1);;
    on_stats (set_rules_publish_success 1);;
    mret 0.

(** ** [dp_publish_rules] *)

(** The locals [old_snapshot] and [next_generation]. *)
Record publication := { pub_old : option Z; pub_generation : Z }.

(** From the lock to the exchange and its counters: [inl ret] when the call
    returns without it. *)
Definition publish_swap (allocate : allocator)
    (flows : option (list dp_flow_rule)) (flow_count : Z)
    (routes : option (list dp_route_rule)) (route_count : Z) : M world (Z + publication) :=
  on_dp (set_writer_active true);;
  w ← get;
  match initialized (dp w), rules_configured (dp w), rules_qsbr (dp w), active_rules (dp w) with
  | true, true, Some _, Some _ =>
    let next_generation := u64 (rules_generation (dstats (dp w)) + 1) in
    '(ret, new_snapshot) ← on_rules (dp_snapshot_build allocate (socket_id (info (dp w)))
                                       flows flow_count routes route_count next_generation);
    if ret <? 0 then
      on_stats (fun c => set_rules_publish_failed (u64 (rules_publish_failed c + 1)) c);;
      on_dp (set_writer_active false);;
      mret (inl ret)
    else
      w ← get;
      let old_snapshot := active_rules (dp w) in
      on_dp (set_active_rules new_snapshot);;
      on_stats (set_rules_generation next_generation);;
      on_stats (fun c => set_rules_publish_success (u64 (rules_publish_success c + 1)) c);;
      mret (inr {| pub_old := old_snapshot; pub_generation := next_generation |})
  | _, _, _, _ => on_dp (set_writer_active false);; mret (inl (- ENODEV))
  end.

Definition publish_start : M world Z :=
  w ← get;
  qsbr ← lift (rules_qsbr (dp w));
  let '(token, qsbr) := rte_rcu_qsbr_start qsbr in
  on_dp (set_rules_qsbr (Some qsbr));;
  mret token.

(** The blocking check returns when this holds. *)
Definition publish_ready (token : Z) (w : world) : bool :=
  match rules_qsbr (dp w) with
  | Some qsbr => rte_rcu_qsbr_check qsbr token
  | None => false
  end.

(** From the return of the check: the return code and [*generation]. *)
Definition publish_finish (p : publication) : M world (Z * Z) :=
  on_rules (dp_snapshot_free (pub_old p) true true);;
  on_dp (set_writer_active false);;
  mret (0, pub_generation p).

(** The whole call: the return code and [*generation] ([None]: NULL).
    [concurrent] is what the other threads do between the exchange and the
    token, [wait] what they do until the check returns. *)
Definition dp_publish_rules (concurrent : M world unit) (wait : Z -> M world unit)
    (allocate : allocator) (flows : option (list dp_flow_rule)) (flow_count : Z)
    (routes : option (list dp_route_rule)) (route_count : Z) (generation : option Z)
    : M world (Z * option Z) :=
  match generation with
  | None => mret (- EINVAL, None)
  | Some _ =>
    r ← publish_swap allocate flows flow_count routes route_count;
    match r with
    | inl ret => mret (ret, generation)
    | inr p =>
      concurrent;;
      token ← publish_start;
      wait token;;
      '(ret, g) ← publish_finish p;
      mret (ret, Some g)
    end
  end.

(** ** Readers *)
Definition dp_rules_active_load : M world (option Z) :=
  w ← get; mret (active_rules (dp w)).

Definition dp_rules_reader_register (reader_id : Z) : M world Z :=
  w ← get;
  match rules_qsbr (dp w) with
  | None => mret (- ENODEV)
  | Some qsbr =>
    if DP_RULE_READER_CAPACITY <=? reader_id then mret (- ENODEV) else
    match rte_rcu_qsbr_thread_register qsbr reader_id with
    | (Some rte_errno, qsbr) =>
      on_dp (set_rules_qsbr (Some qsbr));; mret (neg_errno rte_errno EIO)
    | (None, qsbr) =>
      on_dp (set_rules_qsbr (Some (rte_rcu_qsbr_thread_online qsbr reader_id)));;
      on_dp (fun d => set_registered_readers (u32 (registered_readers d + 1)) d);;
      mret 0
    end
  end.

(** [dp.rules_qsbr] is dereferenced without a check. *)
Definition dp_rules_reader_quiescent (reader_id : Z) : M world unit :=
  w ← get;
  qsbr ← lift (rules_qsbr (dp w));
  on_dp (set_rules_qsbr (Some (rte_rcu_qsbr_quiescent qsbr reader_id))).

Definition dp_rules_reader_unregister (reader_id : Z) : M world unit :=
  w ← get;
  qsbr ← lift (rules_qsbr (dp w));
  let qsbr := rte_rcu_qsbr_thread_offline qsbr reader_id in
  on_dp (set_rules_qsbr (Some (rte_rcu_qsbr_thread_unregister qsbr reader_id)));;
  on_dp (fun d => set_registered_readers (u32 (registered_readers d - 1)) d).

(** ** [dp_rules_teardown] *)
Definition dp_rules_teardown : M world unit :=
  on_dp (set_writer_active true);;
  w ← get;
  let snapshot := active_rules (dp w) in
  on_dp (set_active_rules None);;
  on_rules (dp_snapshot_free snapshot false true);;
  match rules_qsbr (dp w) with
  | None => mret tt
  | Some _ => on_dp (set_rules_qsbr None);; on_stats (set_qsbr_freed 1)
  end;;
  on_dp (set_rules_configured false);;
  on_dp (set_writer_active false).
End Rules.
