(* ===== verification/Binding.v ===== *)
(** * The cgo boundary: [dp_binding.c] and its client [newRuleArrays]

    Argument arrays live in the C heap between [calloc] and [free]; storing
    outside a block, or freeing one twice, is undefined ([None]).  The Go side
    ([binding_linux.go]) copies a rule snapshot into such arrays for the time of
    one call. *)
From Stdlib Require Import ZArith Lia.
From stdpp Require Import base list numbers option gmap strings.
From S2P Require Import Prelude Packet Api Tables Heap Snapshot Rcu State Rules.

(** ** The C heap *)
Inductive block :=
  | Argv (l : list (option Z))            (** [char **]; the strings are addresses *)
  | FlowRules (l : list dp_flow_rule)
  | RouteRules (l : list dp_route_rule).

Abbreviation c_heap := (gmap Z block).

Definition sizeof_char_ptr := 8.
Definition sizeof_dp_flow_rule := 32.
Definition sizeof_dp_route_rule := 24.

(** [calloc(count, size)]: NULL or an address; a function of the heap, so that
    two calls may answer differently. *)
Definition callocator : Type := c_heap -> Z -> Z -> option Z.

(** A block is not handed out while it is live. *)
Definition callocator_ok (calloc : callocator) : Prop :=
  forall h count size a, calloc h count size = Some a -> h !! a = None.

(** [free(p)]: NULL is allowed. *)
Definition c_free (p : option Z) : M c_heap unit :=
  match p with
  | None => mret tt
  | Some a => fun h => _ ← h !! a; Some (tt, delete a h)
  end.

(** [p[index] = ...] in an array of the heap. *)
Definition update_nth {A} (index : Z) (f : A -> A) (l : list A) : option (list A) :=
  if (0 <=? index) && (index <? Z.of_nat (length l)) then Some (alter f (Z.to_nat index) l) else None.

Section Binding.
Context (calloc : callocator).

Definition calloc_block (count size : Z) (b : block) : M c_heap (option Z) :=
  fun h => match calloc h count size with
           | None => Some (None, h)
           | Some a => Some (Some a, <[a := b]> h)
           end.

(** ** [dp_binding.c] *)
Definition dp_argv_alloc (count : Z) : M c_heap (option Z) :=
  calloc_block count sizeof_char_ptr (Argv (replicate (Z.to_nat count) None)).

Definition dp_argv_set (argv : option Z) (index : Z) (value : option Z) : M c_heap unit :=
  fun h => a ← argv;
    match h !! a with
    | Some (Argv l) => l ← update_nth index (fun _ => value) l; Some (tt, <[a := Argv l]> h)
    | _ => None
    end.

Definition dp_argv_free_array (argv : option Z) : M c_heap unit := c_free argv.

Definition dp_flow_rules_alloc (count : Z) : M c_heap (option Z) :=
  calloc_block count sizeof_dp_flow_rule (FlowRules (replicate (Z.to_nat count) flow_zero)).

(** [memset], then the assignments: [reserved] stays zero whatever was there. *)
Definition dp_rule_action_set (type rewrite_mask src_ip dst_ip sport dport : Z)
    (_ : dp_rule_action) : dp_rule_action := {|
  act_type := type; act_rewrite_mask := rewrite_mask; act_reserved := act_reserved action_zero;
  act_src_ipv4 := src_ip; act_dst_ipv4 := dst_ip; act_src_port := sport; act_dst_port := dport |}.

Definition dp_flow_rule_set (rules : option Z) (index src_ip dst_ip sport dport l4_proto
    action_type rewrite_mask rewrite_src_ip rewrite_dst_ip rewrite_sport rewrite_dport : Z)
    : M c_heap unit :=
  fun h => a ← rules;
    match h !! a with
    | Some (FlowRules l) =>
      l ← update_nth index (fun rule => {|
        flow_src_ipv4 := src_ip; flow_dst_ipv4 := dst_ip; flow_src_port := sport;
        flow_dst_port := dport; flow_l4_proto := l4_proto; flow_reserved := flow_reserved flow_zero;
        flow_action := dp_rule_action_set action_type rewrite_mask rewrite_src_ip rewrite_dst_ip
                         rewrite_sport rewrite_dport (flow_action rule) |}) l;
      Some (tt, <[a := FlowRules l]> h)
    | _ => None
    end.

Definition dp_route_rules_alloc (count : Z) : M c_heap (option Z) :=
  calloc_block count sizeof_dp_route_rule (RouteRules (replicate (Z.to_nat count) route_zero)).

Definition dp_route_rule_set (rules : option Z) (index prefix depth
    action_type rewrite_mask rewrite_src_ip rewrite_dst_ip rewrite_sport rewrite_dport : Z)
    : M c_heap unit :=
  fun h => a ← rules;
    match h !! a with
    | Some (RouteRules l) =>
      l ← update_nth index (fun rule => {|
        route_prefix := prefix; route_depth := depth; route_reserved := route_reserved route_zero;
        route_action := dp_rule_action_set action_type rewrite_mask rewrite_src_ip rewrite_dst_ip
                          rewrite_sport rewrite_dport (route_action rule) |}) l;
      Some (tt, <[a := RouteRules l]> h)
    | _ => None
    end.

Definition dp_rule_array_free (rules : option Z) : M c_heap unit := c_free rules.

(** ** The client: [binding_linux.go] *)
Record Action := {
  Type_ : Z; RewriteMask : Z; SrcIPv4 : Z; DstIPv4 : Z; SrcPort : Z; DstPort : Z }.
Record FlowRule := {
  FSrcIPv4 : Z; FDstIPv4 : Z; FSrcPort : Z; FDstPort : Z; L4Proto : Z; FAction : Action }.
Record RouteRule := { Prefix : Z; Depth : Z; RAction : Action }.
Record RuleSnapshot := { Flows : list FlowRule; Routes : list RouteRule }.

Record ruleArrays := { arr_flows : option Z; arr_routes : option Z }.

(** [for i, rule := range rules { set(array, i, rule) }] *)
Fixpoint set_range {A} (set : Z -> A -> M c_heap unit) (i : Z) (rules : list A) : M c_heap unit :=
  match rules with
  | [] => mret tt
  | rule :: rules => set i rule;; set_range set (i + 1) rules
  end.

Definition set_flow (array : option Z) (i : Z) (rule : FlowRule) : M c_heap unit :=
  let action := FAction rule in
  dp_flow_rule_set array i (FSrcIPv4 rule) (FDstIPv4 rule) (FSrcPort rule) (FDstPort rule) (L4Proto rule)
    (Type_ action) (RewriteMask action) (SrcIPv4 action) (DstIPv4 action) (SrcPort action) (DstPort action).

Definition set_route (array : option Z) (i : Z) (rule : RouteRule) : M c_heap unit :=
  let action := RAction rule in
  dp_route_rule_set array i (Prefix rule) (Depth rule)
    (Type_ action) (RewriteMask action) (SrcIPv4 action) (DstIPv4 action) (SrcPort action) (DstPort action).

(** The errors of [newRuleArrays]. *)
Inductive arrays_error := ExceedsCapacity | FlowsOutOfMemory | RoutesOutOfMemory.

Definition fill_routes (snapshot : RuleSnapshot) (flows : option Z)
    : M c_heap (arrays_error + ruleArrays) :=
  if Nat.eqb (length (Routes snapshot)) 0 then mret (inr {| arr_flows := flows; arr_routes := None |}) else
  routes ← dp_route_rules_alloc (Z.of_nat (length (Routes snapshot)));
  match routes with
  | None => dp_rule_array_free flows;; mret (inl RoutesOutOfMemory)
  | Some _ => set_range (set_route routes) 0 (Routes snapshot);;
              mret (inr {| arr_flows := flows; arr_routes := routes |})
  end.

Definition newRuleArrays (snapshot : RuleSnapshot) : M c_heap (arrays_error + ruleArrays) :=
  if (DP_MAX_FLOW_RULES <? Z.of_nat (length (Flows snapshot))) ||
     (DP_MAX_ROUTE_RULES <? Z.of_nat (length (Routes snapshot)))
  then mret (inl ExceedsCapacity) else
  if Nat.eqb (length (Flows snapshot)) 0 then fill_routes snapshot None else
  flows ← dp_flow_rules_alloc (Z.of_nat (length (Flows snapshot)));
  match flows with
  | None => mret (inl FlowsOutOfMemory)
  | Some _ => set_range (set_flow flows) 0 (Flows snapshot);; fill_routes snapshot flows
  end.

Definition release (arrays : ruleArrays) : M c_heap unit :=
  dp_rule_array_free (arr_flows arrays);; dp_rule_array_free (arr_routes arrays).

(** [Init]'s use of the argv helpers: one element more than there are strings. *)
Definition build_argv (strings : list Z) : M c_heap (option Z) :=
  argv ← dp_argv_alloc (Z.of_nat (length strings) + 1);
  match argv with
  | None => mret None
  | Some _ => set_range (fun i p => dp_argv_set argv i (Some p)) 0 strings;; mret argv
  end.
End Binding.

(** ** [ConfigureRules] and [PublishRules] *)

(** The caller's array a native function is given. *)
Definition flows_arg (p : option Z) (h : c_heap) : option (option (list dp_flow_rule)) :=
  match p with
  | None => Some None
  | Some a => match h !! a with Some (FlowRules l) => Some (Some l) | _ => None end
  end.
Definition routes_arg (p : option Z) (h : c_heap) : option (option (list dp_route_rule)) :=
  match p with
  | None => Some None
  | Some a => match h !! a with Some (RouteRules l) => Some (Some l) | _ => None end
  end.

Section Configure.
Context {T : DpdkTables} {Q : Qsbr}.
Context (calloc : callocator) (env : qsbr_env) (allocate : allocator).

(** The native status, or the error of the arrays; the arrays are released in
    every case. *)
Definition ConfigureRules (snapshot : RuleSnapshot) (w : world) (h : c_heap)
    : option ((arrays_error + Z) * (world * c_heap)) :=
  '(r, h) ← newRuleArrays calloc snapshot h;
  match r with
  | inl err => Some (inl err, (w, h))
  | inr arrays =>
    flows ← flows_arg (arr_flows arrays) h;
    routes ← routes_arg (arr_routes arrays) h;
    '(ret, w) ← dp_configure_rules env allocate flows (Z.of_nat (length (Flows snapshot)))
                  routes (Z.of_nat (length (Routes snapshot))) w;
    '(_, h) ← release arrays h;
    Some (inr ret, (w, h))
  end.

(** The native status and [generation], which starts as zero. *)
Definition PublishRules (concurrent : M world unit) (wait : Z -> M world unit) (snapshot : RuleSnapshot)
    (w : world) (h : c_heap) : option ((arrays_error + Z * Z) * (world * c_heap)) :=
  '(r, h) ← newRuleArrays calloc snapshot h;
  match r with
  | inl err => Some (inl err, (w, h))
  | inr arrays =>
    flows ← flows_arg (arr_flows arrays) h;
    routes ← routes_arg (arr_routes arrays) h;
    '((ret, generation), w) ← dp_publish_rules concurrent wait allocate flows (Z.of_nat (length (Flows snapshot)))
                                routes (Z.of_nat (length (Routes snapshot))) (Some 0) w;
    generation ← generation;
    '(_, h) ← release arrays h;
    Some (inr (ret, generation), (w, h))
  end.
End Configure.
