(* ===== verification/Worker.v ===== *)
(** * Workers: [dp_worker.c] and [dp_complete_tx] of [dp_tx.c]

    The packet path works on the mbufs the worker owns, its counters and the
    packets the driver accepted ([packet_world]); freeing or using an mbuf that
    is not owned is undefined.  [dp_worker_run] embeds it into the world of
    [State]. *)
From Stdlib Require Import ZArith Lia.
From stdpp Require Import base list numbers option gmap strings.
From S2P Require Import Prelude Host Packet Parser Api Tables Heap Snapshot Action Rcu State Rules.

(** ** The packet path *)
Record packet_world := {
  pk_mbufs : gmap Z rte_mbuf;
  pk_stats : dp_packet_stats;
  pk_wire : list rte_mbuf;
}.

Definition with_mbufs (f : gmap Z rte_mbuf -> gmap Z rte_mbuf) (w : packet_world) : packet_world :=
  {| pk_mbufs := f (pk_mbufs w); pk_stats := pk_stats w; pk_wire := pk_wire w |}.
Definition with_stats (f : dp_packet_stats -> dp_packet_stats) (w : packet_world) : packet_world :=
  {| pk_mbufs := pk_mbufs w; pk_stats := f (pk_stats w); pk_wire := pk_wire w |}.
Definition with_wire (f : list rte_mbuf -> list rte_mbuf) (w : packet_world) : packet_world :=
  {| pk_mbufs := pk_mbufs w; pk_stats := pk_stats w; pk_wire := f (pk_wire w) |}.

(** [stats->c += n] *)
Definition count (c : counter) (n : Z) : M packet_world unit := modify (with_stats (add c n)).

(** Freeing NULL does nothing; freeing an mbuf twice is undefined. *)
Definition rte_pktmbuf_free (mbuf : option Z) : M packet_world unit :=
  match mbuf with
  | None => mret tt
  | Some id => fun w => _ ← pk_mbufs w !! id; Some (tt, with_mbufs (delete id) w)
  end.

Definition load_mbuf (id : Z) : M packet_world rte_mbuf :=
  fun w => m ← pk_mbufs w !! id; Some (m, w).
Definition store_mbuf (id : Z) (m : rte_mbuf) : M packet_world unit :=
  fun w => _ ← pk_mbufs w !! id; Some (tt, with_mbufs (<[id := m]>) w).

Section PacketPath.
Context {H : Host} {C : Checksums} {T : DpdkTables}.
(** The rule heap during a burst, and what the uninitialised local holds. *)
Context (h : gmap Z hobj) (stack_meta : dp_packet_meta).

(** The mbuf the caller still owns, or NULL. *)
Definition drop_packet (mbuf : option Z) : M packet_world (option Z) :=
  count Drop 1;; rte_pktmbuf_free mbuf;; mret None.

Definition dp_process_packet (mbuf : option Z) (snapshot : option Z) : M packet_world (option Z) :=
  packet ← match mbuf with Some id => m ← load_mbuf id; mret (Some m) | None => mret None end;
  '(parse_result, meta) ← lift (dp_parse_packet packet (Some stack_meta));
  match parse_result with
  | DP_PARSE_UNSUPPORTED => count Parse_unsupported 1;; drop_packet mbuf
  | DP_PARSE_MALFORMED => count Parse_malformed 1;; drop_packet mbuf
  | DP_PARSE_OK =>
    count Parse_ok 1;;
    meta ← lift meta;
    '(lookup_result, action) ← lift (dp_lookup_packet h meta snapshot);
    match lookup_result with
    | DP_LOOKUP_MISS => count Lookup_miss 1;; count Action_drop 1;; drop_packet mbuf
    | _ =>
      count (if decide (lookup_result = DP_LOOKUP_FLOW_HIT) then Flow_hit else Route_hit) 1;;
      a ← lift (action ≫= get_action h);
      if act_type a =? DP_ACTION_DROP then count Action_drop 1;; drop_packet mbuf
      else if act_type a =? DP_ACTION_FORWARD then count Action_forward 1;; mret mbuf
      else
        applied ← (if act_type a =? DP_ACTION_REWRITE then
                     '(ret, packet') ← lift (dp_apply_action packet (Some meta) (Some a));
                     match mbuf, packet' with
                     | Some id, Some m => store_mbuf id m
                     | _, _ => mret tt
                     end;;
                     mret (ret =? 0)
                   else mret false);
        if (applied : bool) then count Action_rewrite 1;; mret mbuf
        else count Action_drop 1;; drop_packet mbuf
    end
  end.

(** ** [dp_complete_tx] *)

(** [for (i = from; i < from + n; i++) rte_pktmbuf_free(pkts[i])] *)
Fixpoint free_range (pkts : list Z) (from n : nat) : M packet_world unit :=
  match n with
  | O => mret tt
  | S n => id ← lift (pkts !! from); rte_pktmbuf_free (Some id);; free_range pkts (S from) n
  end.

Definition dp_complete_tx (pkts : list Z) (n sent : Z) : M packet_world unit :=
  count Tx_accepted sent;;
  count Tx_unsent (n - sent);;
  count Drop (n - sent);;
  free_range pkts (Z.to_nat sent) (Z.to_nat (n - sent)).

(** ** One burst *)

(** The loop over the received packets; survivors are compacted into the front
    of the same array while it is read. *)
Fixpoint process_loop (snapshot : option Z) (i n : nat) (pkts : list Z) (tx_count : Z)
    : M packet_world (list Z * Z) :=
  match n with
  | O => mret (pkts, tx_count)
  | S n =>
    id ← lift (pkts !! i);
    candidate ← dp_process_packet (Some id) snapshot;
    match candidate with
    | None => process_loop snapshot (S i) n pkts tx_count
    | Some c =>
      if tx_count <? Z.of_nat (length pkts)
      then process_loop snapshot (S i) n (<[Z.to_nat tx_count := c]> pkts) (u16 (tx_count + 1))
      else ub
    end
  end.

(** [rte_eth_tx_burst]: the driver takes over the first [sent] packets. *)
Fixpoint tx_take (pkts : list Z) (sent : nat) : M packet_world unit :=
  match sent, pkts with
  | O, _ => mret tt
  | S sent, id :: pkts =>
    m ← load_mbuf id; modify (with_mbufs (delete id));; modify (with_wire (fun l => l ++ [m]));;
    tx_take pkts sent
  | S _, [] => ub
  end.

(** What the environment contributes to one poll: the packets received, how
    many of [n] offered packets the driver accepts. *)
Record poll := { poll_rx : list (Z * rte_mbuf); poll_sent : Z -> Z }.

(** [rte_eth_rx_burst]: fresh mbufs, their pointers in the front of the array. *)
Definition rx_burst (p : poll) (pkts : list Z) : M packet_world (Z * list Z) :=
  modify (with_mbufs (union (list_to_map (poll_rx p))));;
  mret (Z.of_nat (length (poll_rx p)), (poll_rx p).*1 ++ drop (length (poll_rx p)) pkts).

(** What follows the receipt of [n] packets, up to the quiescent report. *)
Definition process_burst (p : poll) (snapshot : option Z) (n : Z) (pkts : list Z) : M packet_world (list Z) :=
  count Rx_bursts 1;;
  if n =? 0 then count Rx_empty_polls 1;; mret pkts else
  count Rx n;;
  '(pkts, tx_count) ← process_loop snapshot 0 (Z.to_nat n) pkts 0;
  (if negb (tx_count =? 0) then
     let sent := poll_sent p tx_count in
     tx_take pkts (Z.to_nat sent);;
     count Tx_bursts 1;;
     dp_complete_tx pkts tx_count sent
   else mret tt);;
  mret pkts.

(** A burst with a snapshot that does not change while packets are received. *)
Definition worker_burst (p : poll) (snapshot : option Z) (pkts : list Z) : M packet_world (list Z) :=
  '(n, pkts) ← rx_burst p pkts; process_burst p snapshot n pkts.
End PacketPath.

(** ** [dp_worker_run] *)
Section Run.
Context {H : Host} {C : Checksums} {T : DpdkTables} {Q : Qsbr}.
Context (stack_meta : dp_packet_meta).

(** [worker->field = ...] for worker [i] *)
Definition on_ctx (i : nat) (f : dp_worker_ctx -> dp_worker_ctx) : M world unit :=
  on_dp (fun d => set_workers (alter f i (workers d)) d).

(** Run packet code with the counters of worker [i]. *)
Definition on_packets {A} (i : nat) (m : M packet_world A) : M world A :=
  fun w =>
    ctx ← workers (dp w) !! i;
    '(a, pw) ← m {| pk_mbufs := mbufs w; pk_stats := ctx_stats ctx; pk_wire := wire w |};
    Some (a, set_wire (pk_wire pw) (set_mbufs (pk_mbufs pw)
           (set_dp (set_workers (<[i := set_ctx_stats (pk_stats pw) ctx]> (workers (dp w))) (dp w)) w))).

(** [worker->info.worker_id] *)
Definition own_id (i : nat) : M world Z :=
  w ← get;
  ctx ← lift (workers (dp w) !! i);
  mret (worker_id (ctx_info ctx)).

(** One iteration: receive, load, process, report. *)
Definition worker_turn (i : nat) (p : poll) (pkts : list Z) : M world (list Z) :=
  '(n, pkts) ← on_packets i (rx_burst p pkts);
  snapshot ← dp_rules_active_load;
  w ← get;
  pkts ← on_packets i (process_burst (rules_heap w) stack_meta p snapshot n pkts);
  id ← own_id i;
  dp_rules_reader_quiescent id;;
  mret pkts.

(** What the environment does from one test of [stop] to the next: other threads
    act on the shared state, and there is something to poll. *)
Record turn := { turn_others : world -> world; turn_poll : poll }.

(** [while (!stop)], along a schedule; the schedule must last until [stop] is seen. *)
Fixpoint worker_loop (i : nat) (ts : list turn) (pkts : list Z) : M world (list Z) :=
  match ts with
  | [] => ub
  | t :: ts =>
    modify (turn_others t);;
    w ← get;
    if stop (dp w) then mret pkts
    else pkts ← worker_turn i (turn_poll t) pkts; worker_loop i ts pkts
  end.

Definition worker_failed (i : nat) (ret : Z) : M world Z :=
  on_ctx i (set_result ret);;
  on_dp (set_stop true);;
  on_dp (fun d => set_active_workers (u32 (active_workers d - 1)) d);;
  mret ret.

(** [injected]: the worker id of the failure injection hook; [pkts]: the
    uninitialised array of [DP_BURST_SIZE] pointers. *)
Definition dp_worker_run (injected : Z) (i : nat) (ts : list turn) (pkts : list Z) : M world Z :=
  on_dp (fun d => set_active_workers (u32 (active_workers d + 1)) d);;
  id ← own_id i;
  if injected =? id then worker_failed i (- EIO) else
  ret ← dp_rules_reader_register id;
  if ret <? 0 then worker_failed i ret else
  on_ctx i (set_reader_registered true);;
  worker_loop i ts pkts;;
  id ← own_id i;
  dp_rules_reader_unregister id;;
  on_ctx i (set_reader_registered false);;
  on_ctx i (set_result 0);;
  on_dp (fun d => set_active_workers (u32 (active_workers d - 1)) d);;
  mret 0.
End Run.
