(* ===== verification/WorkerSpec.v ===== *)
(** * Correctness of the packet path

    What happens to a packet is a function of its bytes and the rule lists
    ([verdict]).  A burst applies it to every received packet, hands the
    survivors to the driver in order, counts each packet once and owns no mbuf
    afterwards that it did not own before. *)
From Stdlib Require Import ZArith Lia.
From stdpp Require Import base list numbers option gmap strings.
From S2P Require Import Prelude Host Packet Parser Wire ParserSpec Api Tables Heap Snapshot SnapshotSpec LookupSpec Action ActionSpec Rcu State StatsSpec Rules Worker.

(** ** Owned mbufs

    [owned l B]: the mbufs listed in [l] beside those of [B]. *)
Definition mbuf_map (l : list (Z * rte_mbuf)) (B : gmap Z rte_mbuf) : gmap Z rte_mbuf :=
  list_to_map l ∪ B.

Record distinct_from (l : list (Z * rte_mbuf)) (B : gmap Z rte_mbuf) : Prop := {
  ids_nodup : NoDup l.*1;
  ids_fresh id : id ∈ l.*1 -> B !! id = None;
}.

Section Owned.
Context (B : gmap Z rte_mbuf).
Implicit Types (l a b : list (Z * rte_mbuf)).

Lemma mbuf_map_lookup a id m b : distinct_from (a ++ (id, m) :: b) B ->
  mbuf_map (a ++ (id, m) :: b) B !! id = Some m.
Proof.
  intros [Hnd _]. unfold mbuf_map. apply lookup_union_Some_l, elem_of_list_to_map_1; [done|].
  set_solver.
Qed.

Lemma mbuf_map_middle a id m b : distinct_from (a ++ (id, m) :: b) B ->
  mbuf_map (a ++ (id, m) :: b) B = <[id := m]> (mbuf_map (a ++ b) B) /\ mbuf_map (a ++ b) B !! id = None.
Proof.
  intros [Hnd Hf]. unfold mbuf_map.
  assert ((a ++ (id, m) :: b) ≡ₚ (id, m) :: a ++ b) as HP by by rewrite Permutation_middle.
  rewrite (list_to_map_proper _ _ Hnd HP). cbn. rewrite insert_union_l. split; [done|].
  rewrite HP in Hnd. cbn in Hnd. apply NoDup_cons in Hnd as [Hni _].
  apply lookup_union_None. split; [by apply not_elem_of_list_to_map_1|]. apply Hf.
  rewrite HP. cbn. by left.
Qed.

Lemma mbuf_map_delete a id m b : distinct_from (a ++ (id, m) :: b) B ->
  delete id (mbuf_map (a ++ (id, m) :: b) B) = mbuf_map (a ++ b) B.
Proof. intros Hd. destruct (mbuf_map_middle _ _ _ _ Hd) as [-> ?]. by apply delete_insert_id. Qed.

Lemma mbuf_map_insert a id m m' b : distinct_from (a ++ (id, m) :: b) B ->
  <[id := m']> (mbuf_map (a ++ (id, m) :: b) B) = mbuf_map (a ++ (id, m') :: b) B.
Proof.
  intros Hd. destruct (mbuf_map_middle _ _ _ _ Hd) as [-> ?].
  assert (distinct_from (a ++ (id, m') :: b) B) as Hd'.
  { destruct Hd as [Hnd Hf]. rewrite fmap_app in Hnd, Hf. split; by rewrite fmap_app. }
  destruct (mbuf_map_middle _ _ _ _ Hd') as [-> _]. by rewrite insert_insert_eq.
Qed.

Lemma distinct_drop a id m b : distinct_from (a ++ (id, m) :: b) B -> distinct_from (a ++ b) B.
Proof.
  intros [Hnd Hf]. rewrite fmap_app in Hnd, Hf. cbn in Hnd, Hf. split; rewrite fmap_app.
  - apply NoDup_app in Hnd as (H1 & H2 & [H3 H4]%NoDup_cons). apply NoDup_app. split_and!; [done| |done].
    intros x Hx Hb. apply (H2 x Hx). by right.
  - intros k [Hk|Hk]%elem_of_app; apply Hf, elem_of_app; [by left|right; by right].
Qed.

Lemma mbuf_map_head id m b : distinct_from ((id, m) :: b) B ->
  mbuf_map ((id, m) :: b) B !! id = Some m /\ delete id (mbuf_map ((id, m) :: b) B) = mbuf_map b B.
Proof. intros Hd. split; [by apply (mbuf_map_lookup [])|by apply (mbuf_map_delete [])]. Qed.

Lemma distinct_replace a id m m' b : distinct_from (a ++ (id, m) :: b) B ->
  distinct_from (a ++ (id, m') :: b) B.
Proof. intros [Hnd Hf]. rewrite fmap_app in Hnd, Hf. split; by rewrite fmap_app. Qed.
End Owned.

(** ** One packet *)
Section Packets.
Context {H : Host} {HO : HostOk H} {C : Checksums} {CO : ChecksumsOk C}.
Context {T : DpdkTables} {TO : DpdkTablesOk T}.
Context (h : gmap Z hobj) (stack_meta : dp_packet_meta) (snapshot : option Z).
Context (flows : list dp_flow_rule) (routes : list dp_route_rule).

(** The rules a worker sees: none at all, or those of a snapshot. *)
Record view : Prop := {
  view_rules : rules_ok flows routes;
  view_flows : Forall flow_fits flows;
  view_routes : Forall route_fits routes;
  view_snapshot : match snapshot with
                  | None => flows = [] /\ routes = []
                  | Some sa => exists gen, snapshot_rep h sa gen flows routes
                  end;
}.

(** Counters and surviving packet, from the action of the matching rule. *)
Definition act_on (m : rte_mbuf) (meta : dp_packet_meta) (a : dp_rule_action)
    : list counter * option rte_mbuf :=
  if act_type a =? DP_ACTION_DROP then ([Action_drop; Drop], None)
  else if act_type a =? DP_ACTION_FORWARD then ([Action_forward], Some m)
  else match dp_apply_action (Some m) (Some meta) (Some a) with
       | Some (_, Some m') => ([Action_rewrite], Some m')
       | _ => ([], None)
       end.

(** What happens to a packet. *)
Definition verdict (m : rte_mbuf) : list counter * option rte_mbuf :=
  match dp_parse_packet (Some m) (Some meta_zero) with
  | Some (DP_PARSE_OK, Some meta) =>
    match lookup_spec flows routes meta with
    | (r, Some a) =>
      let '(cs, o) := act_on m meta a in
      (Parse_ok :: (if decide (r = DP_LOOKUP_FLOW_HIT) then Flow_hit else Route_hit) :: cs, o)
    | (_, None) => ([Parse_ok; Lookup_miss; Action_drop; Drop], None)
    end
  | Some (DP_PARSE_UNSUPPORTED, _) => ([Parse_unsupported; Drop], None)
  | _ => ([Parse_malformed; Drop], None)
  end.

Lemma dp_parse_packet_meta_irrelevant m x y :
  match dp_parse_packet (Some m) (Some x), dp_parse_packet (Some m) (Some y) with
  | Some (r, mx), Some (r', my) => r = r' /\ (r = DP_PARSE_OK -> mx = my)
  | None, None => True
  | _, _ => False
  end.
Proof.
  unfold dp_parse_packet. case_if; [done|]. cbv zeta. case_if; [done|]. case_if; [done|].
  destruct (_ <$> _); bind_cbn; [|done]. case_if; [done|].
  by destruct (dp_parse_ipv4 _ _ _) as [[? ?]|].
Qed.

Lemma lookup_spec_nil meta : lookup_spec [] [] meta = (DP_LOOKUP_MISS, None).
Proof. done. Qed.

Lemma view_lookup meta : view -> fits 32 (dst_ipv4 meta) ->
  exists answer, dp_lookup_packet h meta snapshot = Some answer /\
    decides h answer (lookup_spec flows routes meta).
Proof.
  intros [_ _ _ Hv] Hd. destruct snapshot as [sa|].
  - destruct Hv as [gen Hv]. by eapply dp_lookup_packet_represented.
  - destruct Hv as [-> ->]. rewrite lookup_spec_nil. by eexists.
Qed.

(** The action of a decision is one of the rules', hence valid. *)
Lemma lookup_spec_action meta r a : view -> lookup_spec flows routes meta = (r, Some a) ->
  action_valid a /\ action_fits a /\ r <> DP_LOOKUP_MISS.
Proof.
  intros [[Hf _ Hr _] Hff Hrf _]. unfold lookup_spec.
  destruct (entry_of flow_rule_key flows _) as [x|] eqn:Ef.
  - intros [= <- <-]. apply entry_of_Some_in in Ef as [Hin _].
    destruct (proj1 (Forall_forall _ _) Hf x Hin) as (_ & _ & ?).
    destruct (proj1 (Forall_forall _ _) Hff x Hin) as (_ & _ & _ & _ & _ & ?). done.
  - destruct (longest_match _ _) as [x|] eqn:Er; [|done]. intros [= <- <-].
    destruct (longest_match_routes _ _ _ Hr Er) as [Hin _].
    destruct (proj1 (Forall_forall _ _) Hr x Hin) as (_ & _ & _ & ?).
    destruct (proj1 (Forall_forall _ _) Hrf x Hin) as (_ & _ & ?). done.
Qed.

Lemma count_run c n w : count c n w = Some (tt, with_stats (add c n) w).
Proof. done. Qed.

Lemma drop_packet_run id w : is_Some (pk_mbufs w !! id) ->
  drop_packet (Some id) w = Some (None, with_mbufs (delete id) (with_stats (add Drop 1) w)).
Proof. intros [m Hm]. unfold drop_packet, rte_pktmbuf_free, mbind, M_bind. rewrite count_run. cbn. by rewrite Hm. Qed.

Lemma lookup_spec_None meta r : lookup_spec flows routes meta = (r, None) -> r = DP_LOOKUP_MISS.
Proof. unfold lookup_spec. destruct (entry_of _ _ _); [done|]. by destruct (longest_match _ _); intros [= <-]. Qed.

Lemma parsed_dst_fits m meta0 meta : mbuf_ok m ->
  dp_parse_packet (Some m) (Some meta0) = Some (DP_PARSE_OK, Some meta) -> fits 32 (dst_ipv4 meta).
Proof.
  intros Hm (_ & f & Hf & _ & <-)%dp_parse_packet_grammar; [|done].
  assert (fits 32 (fr_dst f)) by apply Hf. unfold frame_meta. by destruct (fr_l4 f).
Qed.

(** The packet afterwards. *)
Definition settled (id : Z) (o : option rte_mbuf) (cs : list counter) (w : packet_world) : packet_world :=
  {| pk_mbufs := match o with Some m => <[id := m]> (pk_mbufs w) | None => delete id (pk_mbufs w) end;
     pk_stats := bump cs (pk_stats w); pk_wire := pk_wire w |}.

Lemma dp_process_packet_verdict id m w : view -> mbuf_ok m -> pk_mbufs w !! id = Some m ->
  dp_process_packet h stack_meta (Some id) snapshot w =
    Some ((fun _ => id) <$> (verdict m).2, settled id (verdict m).2 (verdict m).1 w).
Proof.
  intros Hv Hm Hw. unfold dp_process_packet, verdict.
  destruct (dp_parse_packet_total m stack_meta Hm) as (r & meta & Hp).
  pose proof (dp_parse_packet_meta_irrelevant m stack_meta meta_zero) as Hirr. rewrite Hp in Hirr.
  destruct (dp_parse_packet (Some m) (Some meta_zero)) as [[r' meta0]|] eqn:Hp0; [|done].
  destruct Hirr as [<- Hok].
  rewrite (M_bind_step _ _ w (Some m) w) by (unfold mbind, M_bind, load_mbuf; by rewrite Hw).
  rewrite Hp. erewrite M_bind_step by done. cbv beta iota.
  destruct r; cbn [fst snd fmap option_fmap option_map].
  2-3: erewrite M_bind_step by done; cbv beta; by rewrite drop_packet_run.
  assert (meta0 = Some meta) as -> by (symmetry; by apply Hok).
  assert (fits 32 (dst_ipv4 meta)) as Hdst by by eapply parsed_dst_fits.
  destruct (view_lookup meta Hv Hdst) as ([res p] & Hl & Hres & Hpa).
  erewrite M_bind_step by done. cbv beta. erewrite M_bind_step by done. cbv beta.
  rewrite Hl. erewrite M_bind_step by done. cbv beta iota.
  destruct (lookup_spec flows routes meta) as [r' [a|]] eqn:Hspec; cbn [fst snd] in Hres, Hpa; subst r'.
  2: { destruct p; [done|].
       assert (res = DP_LOOKUP_MISS) as -> by by eapply lookup_spec_None.
       do 2 (erewrite M_bind_step by done; cbv beta). by rewrite drop_packet_run. }
  destruct p as [p|]; [|done]. destruct (lookup_spec_action _ _ _ Hv Hspec) as (Hav & Haf & Hnm).
  assert (forall A (x y : A), match res with DP_LOOKUP_MISS => x | _ => y end = y) as Hmatch by by destruct res.
  rewrite Hmatch. erewrite M_bind_step by done. cbv beta. cbn [mbind option_bind]. rewrite Hpa.
  erewrite M_bind_step by done. cbv beta. unfold act_on.
  case_if. { erewrite M_bind_step by done. cbv beta. by rewrite drop_packet_run. }
  case_if. { erewrite M_bind_step by done. cbv beta. unfold settled. cbn. by rewrite insert_id. }
  assert (act_type a = DP_ACTION_REWRITE /\ act_rewrite_mask a <> 0) as [Ht Hmask].
  { bool_to_prop. unfold action_valid in Hav. lia. }
  rewrite Ht. cbn [Z.eqb Pos.eqb DP_ACTION_REWRITE].
  apply dp_parse_packet_grammar in Hp as (Hc & f & Hf & Hd & <-); [|done].
  destruct (dp_apply_action_frame m f a Hf Hd Haf Ht Hmask) as (ck & ck4 & Happ & _).
  rewrite Happ. cbn [fst snd fmap option_fmap option_map].
  unfold mbind, M_bind, lift, store_mbuf. cbn. by rewrite Hw.
Qed.

(** ** The burst loop *)
Definition survivors (l : list (Z * rte_mbuf)) : list (Z * rte_mbuf) :=
  omap (fun '(id, m) => pair id <$> (verdict m).2) l.
Definition events (l : list (Z * rte_mbuf)) : list counter :=
  mjoin ((fun '(_, m) => (verdict m).1) <$> l).

Lemma take_compact (pkts : list Z) n id : (n < length pkts)%nat ->
  take (S n) (<[n := id]> pkts) = take n pkts ++ [id].
Proof.
  intros Hn. rewrite (take_S_r _ _ id) by (apply list_lookup_insert_eq; lia). by rewrite take_insert_ge by lia.
Qed.

(** Where the loop stands: [sv] survived and sits in the front of the array and
    among the owned mbufs, [rest] is still to be read. *)
Record loop_at (B : gmap Z rte_mbuf) (sv rest : list (Z * rte_mbuf)) (i : nat) (pkts : list Z)
    (w : packet_world) : Prop := {
  at_ok : Forall mbuf_ok rest.*2;
  at_distinct : distinct_from (sv ++ rest) B;
  at_mbufs : pk_mbufs w = mbuf_map (sv ++ rest) B;
  at_front : take (length sv) pkts = sv.*1;
  at_behind : (length sv <= i)%nat;
  at_rest k id m : rest !! k = Some (id, m) -> pkts !! (i + k)%nat = Some id;
  at_length : (i + length rest <= length pkts)%nat /\ Z.of_nat (length pkts) <= 65535;
}.

Lemma process_loop_spec B : view -> forall rest sv i pkts w, loop_at B sv rest i pkts w ->
  exists pkts', process_loop h stack_meta snapshot i (length rest) pkts (Z.of_nat (length sv)) w =
      Some ((pkts', Z.of_nat (length (sv ++ survivors rest))),
            {| pk_mbufs := mbuf_map (sv ++ survivors rest) B;
               pk_stats := bump (events rest) (pk_stats w); pk_wire := pk_wire w |}) /\
    take (length (sv ++ survivors rest)) pkts' = (sv ++ survivors rest).*1 /\
    length pkts' = length pkts.
Proof.
  intros Hv. induction rest as [|[id m] rest IH]; intros sv i pkts w Hat; destruct Hat as [Hok Hd Hm Hfr Hle Hr [HL1 HL2]].
  { rewrite app_nil_r in *. exists pkts. split_and!; [|done|done]. cbn. rewrite <- Hm. by destruct w. }
  cbn [length process_loop]. cbn in Hok. apply Forall_cons_1 in Hok as [Hmok Hok].
  assert (pkts !! i = Some id) as Hi.
  { rewrite <- (Nat.add_0_r i). by apply (Hr 0%nat id m). }
  rewrite Hi. erewrite M_bind_step by done. cbv beta.
  erewrite M_bind_step by (apply dp_process_packet_verdict; [done|done|rewrite Hm; by apply mbuf_map_lookup]).
  cbv beta. cbn [length] in HL1.
  assert (survivors ((id, m) :: rest) = option_list (pair id <$> (verdict m).2) ++ survivors rest) as Es
    by (unfold survivors; cbn; by destruct (verdict m).2).
  assert (events ((id, m) :: rest) = (verdict m).1 ++ events rest) as Ee by done.
  rewrite Es, Ee. destruct (verdict m) as [cs [m'|]]; cbn [fst snd fmap option_fmap option_map option_list app].
  - rewrite (proj2 (Z.ltb_lt _ _)), Nat2Z.id, wrap_id by fits_lia.
    replace (Z.of_nat (length sv) + 1) with (Z.of_nat (length (sv ++ [(id, m')]))) by (rewrite length_app; cbn [length]; lia).
    destruct (IH (sv ++ [(id, m')]) (S i) (<[length sv := id]> pkts) (settled id (Some m') cs w)) as (pkts' & Hrun & Ht & HL).
    { split.
      - done.
      - rewrite <- app_assoc. by apply distinct_replace with m.
      - rewrite <- app_assoc. unfold settled. cbn. rewrite Hm. by apply mbuf_map_insert.
      - rewrite length_app, Nat.add_1_r, take_compact, Hfr, fmap_app by lia. done.
      - rewrite length_app. cbn [length]. lia.
      - intros k id' m1 Hk. rewrite list_lookup_insert_ne, Nat.add_succ_comm by lia. by apply (Hr _ _ m1).
      - rewrite length_insert. lia. }
    rewrite <- app_assoc in Hrun, Ht. cbn [app] in Hrun, Ht. exists pkts'.
    rewrite Hrun, bump_app. rewrite length_insert in HL. done.
  - destruct (IH sv (S i) pkts (settled id None cs w)) as (pkts' & Hrun & Ht & HL).
    { split; try done.
      - by eapply distinct_drop.
      - unfold settled. cbn. rewrite Hm. by apply mbuf_map_delete.
      - lia.
      - intros k id' m1 Hk. rewrite Nat.add_succ_comm. by apply (Hr _ _ m1).
      - lia. }
    exists pkts'. by rewrite Hrun, bump_app.
Qed.

(** ** Transmission *)
Lemma distinct_cons_r id m l B : distinct_from ((id, m) :: l) B -> distinct_from l B.
Proof. apply (distinct_drop B []). Qed.

Lemma tx_take_spec B : forall a b pkts w, distinct_from (a ++ b) B -> pk_mbufs w = mbuf_map (a ++ b) B ->
  take (length a) pkts = a.*1 ->
  tx_take pkts (length a) w =
    Some (tt, {| pk_mbufs := mbuf_map b B; pk_stats := pk_stats w; pk_wire := pk_wire w ++ a.*2 |}).
Proof.
  induction a as [|[id m] a IH]; intros b pkts w Hd Hm Ht; cbn [app length] in *.
  { cbn. rewrite app_nil_r, <- Hm. by destruct pkts, w. }
  destruct pkts as [|x pkts]; [done|]. cbn in Ht. injection Ht as -> Ht. cbn [tx_take].
  erewrite M_bind_step by (unfold load_mbuf; rewrite Hm, (proj1 (mbuf_map_head B id m (a ++ b) Hd)); done).
  cbv beta. do 2 (erewrite M_bind_step by done; cbv beta).
  rewrite IH with (b := b); [|by eapply distinct_cons_r| |done].
  - cbn. by rewrite <- app_assoc.
  - cbn. rewrite Hm. by apply mbuf_map_head.
Qed.

Lemma free_range_spec B : forall b pkts from w, distinct_from b B -> pk_mbufs w = mbuf_map b B ->
  (forall k id m, b !! k = Some (id, m) -> pkts !! (from + k)%nat = Some id) ->
  free_range pkts from (length b) w =
    Some (tt, {| pk_mbufs := B; pk_stats := pk_stats w; pk_wire := pk_wire w |}).
Proof.
  induction b as [|[id m] b IH]; intros pkts from w Hd Hm Hp; cbn [length free_range].
  { unfold mbuf_map in Hm. cbn in Hm. rewrite left_id_L in Hm by apply _. rewrite <- Hm. by destruct w. }
  rewrite <- (Nat.add_0_r from) at 1. rewrite (Hp 0%nat id m eq_refl). erewrite M_bind_step by done. cbv beta.
  erewrite M_bind_step by (unfold rte_pktmbuf_free; rewrite Hm, (proj1 (mbuf_map_head B id m b Hd)); done).
  cbv beta. rewrite IH; [done|by eapply distinct_cons_r| |].
  - cbn. rewrite Hm. by apply mbuf_map_head.
  - intros k id' m' Hk. rewrite Nat.add_succ_comm. by apply (Hp _ _ m').
Qed.

Lemma front_lookup (l : list (Z * rte_mbuf)) pkts k id m :
  take (length l) pkts = l.*1 -> l !! k = Some (id, m) -> pkts !! k = Some id.
Proof.
  intros Ht Hk. pose proof (lookup_lt_Some _ _ _ Hk).
  rewrite <- (lookup_take_lt pkts (length l)) by done. by rewrite Ht, list_lookup_fmap, Hk.
Qed.

(** The driver takes [a], the rest is freed. *)
Definition tx_counters (n sent : Z) (s : dp_packet_stats) : dp_packet_stats :=
  add Drop (n - sent) (add Tx_unsent (n - sent) (add Tx_accepted sent s)).

Lemma dp_complete_tx_spec B a b pkts w : distinct_from b B -> pk_mbufs w = mbuf_map b B ->
  take (length (a ++ b)) pkts = (a ++ b).*1 ->
  dp_complete_tx pkts (len (a ++ b)) (len a) w =
    Some (tt, {| pk_mbufs := B; pk_stats := tx_counters (len (a ++ b)) (len a) (pk_stats w);
                 pk_wire := pk_wire w |}).
Proof.
  intros Hd Hm Ht. unfold dp_complete_tx. do 3 (erewrite M_bind_step by done; cbv beta).
  replace (Z.to_nat (len (a ++ b) - len a)) with (length b) by (rewrite length_app; lia).
  rewrite Nat2Z.id, (free_range_spec B); [done|done|done|].
  intros k id m Hk. apply (front_lookup (a ++ b) _ _ _ m Ht).
  rewrite lookup_app_r by lia.
  by replace (length a + k - length a)%nat with k by lia.
Qed.

(** Transmission, counters and the freeing of what was not accepted. *)
Lemma send_survivors B sv pkts n w : distinct_from sv B -> pk_mbufs w = mbuf_map sv B ->
  take (length sv) pkts = sv.*1 -> 0 <= n <= len sv ->
  (tx_take pkts (Z.to_nat n);; count Tx_bursts 1;; dp_complete_tx pkts (len sv) n) w =
    Some (tt, {| pk_mbufs := B; pk_stats := tx_counters (len sv) n (add Tx_bursts 1 (pk_stats w));
                 pk_wire := pk_wire w ++ (take (Z.to_nat n) sv).*2 |}).
Proof.
  intros Hd Hm Ht Hn. destruct (list_split_at (Z.to_nat n) sv) as (a & b & -> & La); [lia|].
  rewrite <- La, take_app_length. assert (n = len a) as -> by lia.
  assert (distinct_from b B) as Hdb.
  { clear -Hd. induction a as [|[id m] a IH]; [done|]. by apply IH, distinct_cons_r with id m. }
  erewrite M_bind_step; [|apply (tx_take_spec B a b); [done|done|]].
  2: { rewrite length_app in Ht. apply (f_equal (take (length a))) in Ht.
       rewrite take_take, Nat.min_l, fmap_app, take_app_length' in Ht by (rewrite ?length_fmap; lia). done. }
  cbv beta. erewrite M_bind_step by done. cbv beta. by apply dp_complete_tx_spec.
Qed.

(** ** One burst *)

(** What the environment promises about a poll: fresh and distinct mbufs, at
    most a burst of them, and no more packets accepted than offered. *)
Record poll_ok (p : poll) (B : gmap Z rte_mbuf) : Prop := {
  rx_distinct : distinct_from (poll_rx p) B;
  rx_ok : Forall mbuf_ok (poll_rx p).*2;
  rx_length : (length (poll_rx p) <= Z.to_nat DP_BURST_SIZE)%nat;
  sent_bound n : 0 <= n -> 0 <= poll_sent p n <= n;
}.

Definition burst_sent (p : poll) : Z := poll_sent p (len (survivors (poll_rx p))).

Definition burst_stats (p : poll) (s : dp_packet_stats) : dp_packet_stats :=
  let sv := survivors (poll_rx p) in
  let s := add Rx_bursts 1 s in
  if decide (poll_rx p = []) then add Rx_empty_polls 1 s else
  let s := bump (events (poll_rx p)) (add Rx (len (poll_rx p)) s) in
  if decide (sv = []) then s else tx_counters (len sv) (burst_sent p) (add Tx_bursts 1 s).

Definition transmitted (p : poll) : list rte_mbuf :=
  (take (Z.to_nat (burst_sent p)) (survivors (poll_rx p))).*2.

Lemma decide_len {A} (l : list A) : (len l =? 0) = bool_decide (l = []).
Proof. by destruct l. Qed.

Lemma survivors_length l : (length (survivors l) <= length l)%nat.
Proof. induction l as [|[id m] l IH]; [done|]. unfold survivors in *. cbn. destruct (verdict m).2; cbn; lia. Qed.

Lemma survivors_distinct l B : distinct_from l B -> distinct_from (survivors l) B.
Proof.
  assert (forall id, id ∈ (survivors l).*1 -> id ∈ l.*1) as Hsub.
  { intros id ([id' m'] & -> & Hin)%list_elem_of_fmap. unfold survivors in Hin.
    apply list_elem_of_omap in Hin as ([id2 m2] & Hin & E). apply list_elem_of_fmap.
    exists (id2, m2). destruct (verdict m2).2; [|done]. by injection E as <- _. }
  intros [Hnd Hf]. split; [|auto]. clear Hsub Hf. induction l as [|[id m] l IH]; [done|].
  cbn in Hnd. apply NoDup_cons in Hnd as [Hni Hnd]. unfold survivors in *. cbn.
  destruct (verdict m).2; cbn; [|by apply IH]. apply NoDup_cons. split; [|by apply IH].
  intros ([id' m'] & -> & Hin)%list_elem_of_fmap. apply Hni.
  apply list_elem_of_omap in Hin as ([id2 m2] & Hin & E). apply list_elem_of_fmap.
  exists (id2, m2). destruct (verdict m2).2; [|done]. by injection E as <- _.
Qed.

Lemma worker_burst_spec p pkts w : view -> poll_ok p (pk_mbufs w) ->
  Z.of_nat (length pkts) = DP_BURST_SIZE ->
  exists pkts', worker_burst h stack_meta p snapshot pkts w =
      Some (pkts', {| pk_mbufs := pk_mbufs w; pk_stats := burst_stats p (pk_stats w);
                      pk_wire := pk_wire w ++ transmitted p |}) /\
    Z.of_nat (length pkts') = DP_BURST_SIZE.
Proof.
  intros Hv [Hd Hok HL Hsent] Hpk. unfold worker_burst, process_burst, rx_burst, burst_stats, transmitted.
  set (l := poll_rx p) in *. set (B := pk_mbufs w) in *.
  do 2 (erewrite M_bind_step by done; cbv beta iota). rewrite decide_len, bool_decide_decide.
  assert (length (l.*1 ++ drop (length l) pkts) = length pkts) as HL'
    by (rewrite length_app, length_fmap, length_drop; lia).
  destruct (decide (l = [])) as [El|El]; cbv iota.
  { erewrite M_bind_step by done. cbv beta. exists (l.*1 ++ drop (length l) pkts). split; [|lia].
    unfold with_stats, with_mbufs. cbn [pk_mbufs pk_stats pk_wire]. fold l B.
    rewrite El. cbn. rewrite take_nil, app_nil_r. by rewrite (left_id_L ∅ _). }
  erewrite M_bind_step by done. cbv beta. rewrite Nat2Z.id.
  destruct (process_loop_spec B Hv l [] 0 (l.*1 ++ drop (length l) pkts)
    {| pk_mbufs := mbuf_map l B; pk_stats := add Rx (len l) (add Rx_bursts 1 (pk_stats w)); pk_wire := pk_wire w |})
    as (pkts' & Hrun & Ht & HLp).
  { split; try done.
    - intros k id m Hk. cbn. rewrite lookup_app_l by (rewrite length_fmap; by eapply lookup_lt_Some).
      by rewrite list_lookup_fmap, Hk.
    - rewrite HL'. unfold DP_BURST_SIZE in *. lia. }
  cbn [app length] in Hrun, Ht. erewrite M_bind_step by exact Hrun. cbv beta iota.
  rewrite decide_len, bool_decide_decide. exists pkts'. split; [|lia].
  set (sv := survivors l) in *. destruct (decide (sv = [])) as [Es|Es].
  - rewrite Es. cbn. rewrite take_nil, app_nil_r. unfold mbuf_map. cbn. by rewrite (left_id_L ∅ _).
  - cbn [negb pk_stats pk_wire]. change (poll_sent p (len sv)) with (burst_sent p).
    erewrite M_bind_step; [reflexivity|]. rewrite (send_survivors B sv pkts'); [done| |done|done|].
    + by apply survivors_distinct.
    + apply Hsent. lia.
Qed.

(** ** Every packet is counted once *)
Definition hit_counter (c : counter) : Prop := c = Flow_hit \/ c = Route_hit.

Inductive verdict_shape : list counter * option rte_mbuf -> Prop :=
  | shape_unsupported : verdict_shape ([Parse_unsupported; Drop], None)
  | shape_malformed : verdict_shape ([Parse_malformed; Drop], None)
  | shape_miss : verdict_shape ([Parse_ok; Lookup_miss; Action_drop; Drop], None)
  | shape_drop c : hit_counter c -> verdict_shape ([Parse_ok; c; Action_drop; Drop], None)
  | shape_forward c m : hit_counter c -> verdict_shape ([Parse_ok; c; Action_forward], Some m)
  | shape_rewrite c m : hit_counter c -> verdict_shape ([Parse_ok; c; Action_rewrite], Some m).

Lemma verdict_has_shape m : view -> mbuf_ok m -> verdict_shape (verdict m).
Proof.
  intros Hv Hm. unfold verdict.
  destruct (dp_parse_packet_total m meta_zero Hm) as (r & meta & Hp). rewrite Hp.
  destruct r; [|constructor..].
  destruct (lookup_spec flows routes meta) as [r [a|]] eqn:Hspec; [|constructor].
  destruct (lookup_spec_action _ _ _ Hv Hspec) as (Hav & Haf & _).
  set (c := if decide _ then _ else _). assert (hit_counter c) as Hc by (unfold c; case_decide; [by left|by right]).
  unfold act_on. case_if; [by constructor|]. case_if; [by constructor|]. bool_to_prop.
  assert (act_type a = DP_ACTION_REWRITE /\ act_rewrite_mask a <> 0) as [Ht Hmask]
    by (unfold action_valid in Hav; lia).
  apply dp_parse_packet_grammar in Hp as (Hcont & f & Hf & Hd & <-); [|done].
  destruct (dp_apply_action_frame m f a Hf Hd Haf Ht Hmask) as (ck & ck4 & -> & _). by constructor.
Qed.

(** The weight of the counters of a packet in a linear form: [w] if it survives,
    less the weight [r] of its reception. *)
Definition identity_weight (k : counter -> Z) (r w : Z) : Prop :=
  forall v, verdict_shape v -> sum_list (k <$> v.1) = (if v.2 is Some _ then w else 0) - r.

Lemma identities_weights : Forall (fun k => exists r w, identity_weight k r w /\
  k Rx = r /\ k Tx_accepted = - w /\ k Tx_unsent + k Drop = - w /\
  k Tx_bursts = 0 /\ k Rx_bursts = 0 /\ k Rx_empty_polls = 0) identities.
Proof.
  unfold identities. repeat apply Forall_cons_2; [..|apply Forall_nil_2];
  [exists 1, 0|exists 0, 0|exists 0, 0|exists 0, 1|exists 0, 0];
  (split; [intros v []; repeat match goal with H : hit_counter _ |- _ => destruct H as [->| ->] end; by vm_compute
          |by vm_compute]).
Qed.

Lemma sum_list_app a b : sum_list (a ++ b) = sum_list a + sum_list b.
Proof. induction a as [|x a IH]; [done|]. cbn. unfold sum_list in *. lia. Qed.

Lemma events_weight k r w l : view -> Forall mbuf_ok l.*2 -> identity_weight k r w ->
  sum_list (k <$> events l) = w * len (survivors l) - r * len l.
Proof.
  intros Hv Hok Hk. induction l as [|[id m] l IH]; [cbn; lia|].
  cbn in Hok. apply Forall_cons_1 in Hok as [Hm Hok]. specialize (IH Hok).
  change (events ((id, m) :: l)) with ((verdict m).1 ++ events l).
  rewrite fmap_app, sum_list_app, IH, (Hk _ (verdict_has_shape m Hv Hm)).
  assert (len (survivors ((id, m) :: l)) = len (survivors l) + if (verdict m).2 is Some _ then 1 else 0) as ->
    by (unfold survivors; cbn; destruct (verdict m).2; cbn [fmap option_fmap option_map length]; lia).
  cbn [length]. destruct (verdict m).2; lia.
Qed.

Lemma linear_wrap k s : u64 (linear k s) = linear k s.
Proof. unfold linear. by rewrite wrap_wrap. Qed.

Lemma burst_linear p s k : view -> Forall mbuf_ok (poll_rx p).*2 -> k ∈ identities ->
  linear k (burst_stats p s) = linear k s.
Proof.
  intros Hv Hp Hk. pose proof (proj1 (Forall_forall _ _) identities_weights k Hk) as
    (r & w & Hw & HRx & Hacc & Huns & Htxb & Hrxb & Hemp).
  pose proof (events_weight k r w _ Hv Hp Hw) as Hev. unfold burst_stats.
  repeat case_decide; unfold tx_counters; rewrite ?linear_add, ?linear_bump, ?linear_add, ?wrap_add_l;
    rewrite ?Hev, ?HRx, ?Hacc, ?Htxb, ?Hrxb, ?Hemp;
    rewrite <- ?Z.add_assoc, ?wrap_add_l, <- ?Z.add_assoc, ?wrap_add_l, <- ?Z.add_assoc, ?wrap_add_l;
    rewrite <- (linear_wrap k s) at 2; f_equal; [lia| |].
  - match goal with E : survivors _ = [] |- _ => rewrite E end. cbn [length]. lia.
  - assert (k Drop = - w - k Tx_unsent) as -> by lia. ring.
Qed.

(** A burst keeps the accounting identities. *)
Lemma burst_balanced p s : view -> Forall mbuf_ok (poll_rx p).*2 -> balanced s -> balanced (burst_stats p s).
Proof.
  intros Hv Hp. rewrite !balanced_identities, !Forall_forall. intros Hs k Hk.
  rewrite burst_linear by done. by apply Hs.
Qed.
End Packets.

(** ** Receiving and loading *)
Section Turn.
Context {H : Host} {C : Checksums} {T : DpdkTables} {Q : Qsbr}.
Context (stack_meta : dp_packet_meta) (i : nat).

(** Two pieces of packet code, with a read of the world between them that they
    cannot disturb, are one. *)
Lemma on_packets_then {A B} (m : M packet_world A) (k : A -> M packet_world B) w : on_packets i (a ← m; k a) w = (a ← on_packets i m; on_packets i (k a)) w.
Proof.
  unfold on_packets, mbind, M_bind. destruct (workers (dp w) !! i) as [ctx|] eqn:Hctx; cbn [mbind option_bind]; [|done].
  destruct (m _) as [[a [mb st wi]]|]; cbn [mbind option_bind]; [|done].
  cbn [dp set_wire set_mbufs set_dp workers set_workers mbufs wire pk_mbufs pk_stats pk_wire].
  rewrite list_lookup_insert_eq by by eapply lookup_lt_Some. cbn [mbind option_bind ctx_stats set_ctx_stats].
  destruct (k a _) as [[b pw]|]; cbn [mbind option_bind]; [|done].
  by rewrite list_insert_insert_eq.
Qed.

Lemma on_packets_rules {A} (m : M packet_world A) w a w1 : on_packets i m w = Some (a, w1) ->
  active_rules (dp w1) = active_rules (dp w) /\ rules_heap w1 = rules_heap w.
Proof.
  unfold on_packets. destruct (workers (dp w) !! i); cbn [mbind option_bind]; [|done].
  destruct (m _) as [[b pw]|]; cbn [mbind option_bind]; [|done]. by intros [= _ <-].
Qed.

(** Receiving leaves the rules alone, so a turn can be read as if the snapshot had
    been loaded before the packets were received. *)
Lemma worker_turn_loads p pkts w : worker_turn stack_meta i p pkts w =
  (snapshot ← dp_rules_active_load; w ← get; pkts ← on_packets i (worker_burst (rules_heap w) stack_meta p snapshot pkts);
   id ← own_id i; dp_rules_reader_quiescent id;; mret pkts) w.
Proof.
  unfold worker_turn, worker_burst. transitivity
    (('(n, pkts) ← on_packets i (rx_burst p pkts);
      pkts ← on_packets i (process_burst (rules_heap w) stack_meta p (active_rules (dp w)) n pkts);
      id ← own_id i; dp_rules_reader_quiescent id;; mret pkts) w).
  - unfold mbind, M_bind, dp_rules_active_load. destruct (on_packets i (rx_burst p pkts) w) as [[[n pkts1] w1]|] eqn:E; [|done].
    apply on_packets_rules in E as [Ea Eh]. by rewrite <- Ea, <- Eh.
  - erewrite (M_bind_step dp_rules_active_load) by done. cbv beta. erewrite (M_bind_step get) by done. cbv beta.
    symmetry. etransitivity; [apply (M_bind_run _ _ _ _ (on_packets_then _ _ w))|]. rewrite M_bind_assoc. by apply M_bind_ext; intros [n pkts1] w1.
Qed.
End Turn.
