(* ===== verification/RunSpec.v ===== *)
(** * Correctness of [dp_worker_run] and of the counters

    The whole life of a worker: registration, bursts while other threads act on
    the shared state, and the way out. *)
From Stdlib Require Import ZArith Lia.
From stdpp Require Import base list numbers option gmap strings.
From S2P Require Import Prelude Host Packet Parser Api Tables Heap Snapshot SnapshotSpec Action Rcu State StatsSpec Rules Worker WorkerSpec.

Lemma own_id_run {T : DpdkTables} {Q : Qsbr} i w ctx : workers (dp w) !! i = Some ctx ->
  own_id i w = Some (worker_id (ctx_info ctx), w).
Proof. intros Hctx. unfold own_id. erewrite M_bind_step by done. cbv beta. by rewrite Hctx. Qed.

(** The world after packet code left [pw] for worker [i]. *)
Definition with_packets {T : DpdkTables} {Q : Qsbr} (i : nat) (ctx : dp_worker_ctx) (pw : packet_world) (w : world) : world :=
  set_wire (pk_wire pw) (set_mbufs (pk_mbufs pw)
    (set_dp (set_workers (<[i := set_ctx_stats (pk_stats pw) ctx]> (workers (dp w))) (dp w)) w)).

Definition packets_of {T : DpdkTables} {Q : Qsbr} (ctx : dp_worker_ctx) (w : world) : packet_world :=
  {| pk_mbufs := mbufs w; pk_stats := ctx_stats ctx; pk_wire := wire w |}.

Lemma on_packets_Some {T : DpdkTables} {Q : Qsbr} {A} i (m : M packet_world A) w ctx a w' : workers (dp w) !! i = Some ctx ->
  on_packets i m w = Some (a, w') <-> exists pw, m (packets_of ctx w) = Some (a, pw) /\ w' = with_packets i ctx pw w.
Proof.
  intros Hctx. unfold on_packets. rewrite Hctx. cbn [mbind option_bind]. fold (packets_of ctx w). split.
  - destruct (m _) as [[b pw]|]; [|done]. intros [= -> <-]. by exists pw.
  - by intros (pw & -> & ->).
Qed.

Lemma own_id_with_packets {T : DpdkTables} {Q : Qsbr} i ctx pw w : workers (dp w) !! i = Some ctx ->
  own_id i (with_packets i ctx pw w) = Some (worker_id (ctx_info ctx), with_packets i ctx pw w).
Proof.
  intros Hctx. apply (own_id_run i (with_packets i ctx pw w) (set_ctx_stats (pk_stats pw) ctx)).
  apply list_lookup_insert_eq. by eapply lookup_lt_Some.
Qed.

Section Run.
Context {H : Host} {HO : HostOk H} {C : Checksums} {CO : ChecksumsOk C}.
Context {T : DpdkTables} {TO : DpdkTablesOk T} {Q : Qsbr}.
Context (stack_meta : dp_packet_meta) (i : nat).

(** What a worker may assume of the other threads: they leave its context alone
    and do not tear the rules down while it is registered. *)
Record left_alone (w w' : world) : Prop := {
  others_ctx : workers (dp w') !! i = workers (dp w) !! i;
  others_mbufs : mbufs w' = mbufs w;
  others_qsbr : is_Some (rules_qsbr (dp w'));
}.

(** What an iteration needs: an intact active snapshot and fresh mbufs. *)
Record turn_ok (p : poll) (w : world) : Prop := {
  turn_rules : exists flows routes, view (rules_heap w) (active_rules (dp w)) flows routes;
  turn_fresh : poll_ok p (mbufs w);
}.

(** The schedule is good as long as it is used, and [stop] ends it. *)
Fixpoint turns_ok (ts : list turn) (w : world) : Prop :=
  match ts with
  | [] => False
  | t :: ts =>
    let w1 := turn_others t w in
    left_alone w w1 /\
    (stop (dp w1) = false -> turn_ok (turn_poll t) w1 /\
       forall pkts pkts' w', worker_turn stack_meta i (turn_poll t) pkts w1 = Some (pkts', w') -> turns_ok ts w')
  end.

(** The worker between two turns. *)
Record worker_at (id : Z) (B : gmap Z rte_mbuf) (w : world) : Prop := {
  at_ctx : exists ctx, workers (dp w) !! i = Some ctx /\ worker_id (ctx_info ctx) = id /\
    balanced (ctx_stats ctx);
  at_qsbr : is_Some (rules_qsbr (dp w));
  at_owned : mbufs w = B;
}.

Lemma burst_balanced_any h snapshot flows routes p s :
  view h snapshot flows routes -> Forall mbuf_ok (poll_rx p).*2 -> balanced s ->
  balanced (burst_stats flows routes p s).
Proof. apply burst_balanced. Qed.

Lemma left_alone_at id B w w' : left_alone w w' -> worker_at id B w -> worker_at id B w'.
Proof.
  intros [Hc Hm Hq] [(ctx & Hctx & ?) _ HB]. split; [exists ctx; by rewrite Hc|done|congruence].
Qed.

Lemma worker_turn_spec id B p pkts w :
  worker_at id B w -> turn_ok p w -> Z.of_nat (length pkts) = DP_BURST_SIZE ->
  exists pkts' w', worker_turn stack_meta i p pkts w = Some (pkts', w') /\
    worker_at id B w' /\ Z.of_nat (length pkts') = DP_BURST_SIZE.
Proof.
  intros [(ctx & Hc & Hid & Hbal) [q Hqs] HB] [(flows & routes & Hv) Hp] HL.
  rewrite worker_turn_loads. unfold dp_rules_active_load.
  destruct (worker_burst_spec (rules_heap w) stack_meta (active_rules (dp w)) flows routes p pkts
    (packets_of ctx w) Hv Hp HL) as (pkts' & Hrun & HL').
  exists pkts'.
  do 2 (erewrite M_bind_step by done; cbv beta).
  erewrite M_bind_step by (apply (on_packets_Some _ _ _ ctx); [exact Hc|by eexists]). cbv beta.
  erewrite M_bind_step by by apply own_id_with_packets. cbv beta. unfold with_packets, packets_of. cbn [pk_mbufs pk_stats pk_wire].
  unfold dp_rules_reader_quiescent, mbind, M_bind, get, lift, on_dp, modify.
  cbn [dp set_dp set_workers set_wire set_mbufs rules_qsbr]. rewrite Hqs. bind_cbn.
  eexists. split; [done|]. split; [|done].
  split; cbn [dp set_dp set_workers set_wire set_mbufs rules_qsbr set_rules_qsbr workers mbufs].
  - eexists. rewrite list_lookup_insert_eq by by eapply lookup_lt_Some. split; [done|]. split; [done|]. cbn.
    eapply burst_balanced_any; [done|apply Hp|done].
  - eauto.
  - congruence.
Qed.

(** A turn dereferences the QSBR object, so it is there afterwards. *)
Lemma worker_turn_qsbr p pkts w pkts' w' : worker_turn stack_meta i p pkts w = Some (pkts', w') ->
  is_Some (rules_qsbr (dp w')).
Proof.
  intros Hrun. rewrite worker_turn_loads in Hrun. unfold dp_rules_active_load in Hrun.
  do 2 (erewrite M_bind_step in Hrun by done; cbv beta in Hrun).
  apply M_bind_Some in Hrun as (pkts1 & w1 & _ & Hrun). apply M_bind_Some in Hrun as (ctx & w2 & _ & Hrun).
  apply M_bind_Some in Hrun as ([] & w3 & Hq & [= _ <-]). unfold dp_rules_reader_quiescent, mbind, M_bind, get, lift, on_dp, modify in Hq.
  destruct (rules_qsbr (dp w2)) as [q|]; [|done]. cbn [mbind option_bind] in Hq. injection Hq as <-. by eexists.
Qed.

Lemma worker_loop_spec id B : forall ts pkts w,
  worker_at id B w -> turns_ok ts w -> Z.of_nat (length pkts) = DP_BURST_SIZE ->
  exists pkts' w', worker_loop stack_meta i ts pkts w = Some (pkts', w') /\ worker_at id B w'.
Proof.
  induction ts as [|t ts IH]; intros pkts w Hw Hts HL; [done|].
  destruct Hts as [Ho Hts]. pose proof (left_alone_at id B _ _ Ho Hw) as Hw1. cbn [worker_loop].
  do 2 (erewrite M_bind_step by done; cbv beta). destruct (stop _); [by eexists _, _|].
  destruct (Hts eq_refl) as [Ht Hnext].
  destruct (worker_turn_spec id B (turn_poll t) pkts _ Hw1 Ht HL) as (pkts1 & w1 & Hrun & Hw2 & HL1).
  erewrite M_bind_step by exact Hrun. cbv beta. apply IH; [done| |done]. by eapply Hnext.
Qed.

(** The world after a successful registration. *)
Definition registered (id : Z) (q : rcu) (w : world) : world :=
  let d := set_active_workers (u32 (active_workers (dp w) + 1)) (dp w) in
  let d := set_rules_qsbr (Some (rte_rcu_qsbr_thread_online (snd (rte_rcu_qsbr_thread_register q id)) id)) d in
  let d := set_registered_readers (u32 (registered_readers d + 1)) d in
  let d := set_workers (alter (set_reader_registered true) i (workers d)) d in
  set_dp d w.

Definition can_register (id : Z) (q : rcu) : Prop :=
  0 <= id < RTE_MAX_LCORE /\ fst (rte_rcu_qsbr_thread_register q id) = None.

Ltac run_step := erewrite M_bind_step by done; cbv beta.
Ltac world_cbn := cbn [dp set_dp workers set_workers rules_qsbr set_rules_qsbr active_workers set_active_workers
  registered_readers set_registered_readers mbufs stop set_stop] in *.

Lemma register_run id q w : rules_qsbr (dp w) = Some q -> can_register id q ->
  dp_rules_reader_register id w =
    Some (0, let d := set_rules_qsbr (Some (rte_rcu_qsbr_thread_online (snd (rte_rcu_qsbr_thread_register q id)) id)) (dp w) in
             set_dp (set_registered_readers (u32 (registered_readers d + 1)) d) w).
Proof.
  intros Hq [Hid Hreg]. unfold dp_rules_reader_register. run_step. rewrite Hq.
  unfold DP_RULE_READER_CAPACITY. rewrite (proj2 (Z.leb_gt _ _)) by lia.
  destruct (rte_rcu_qsbr_thread_register q id) as [e q']. cbn in Hreg. subst e. done.
Qed.

Lemma dp_worker_run_normal injected ts pkts w ctx q B :
  workers (dp w) !! i = Some ctx -> injected <> worker_id (ctx_info ctx) ->
  rules_qsbr (dp w) = Some q -> can_register (worker_id (ctx_info ctx)) q ->
  balanced (ctx_stats ctx) -> Z.of_nat (length pkts) = DP_BURST_SIZE -> mbufs w = B ->
  turns_ok ts (registered (worker_id (ctx_info ctx)) q w) ->
  exists w' ctx', dp_worker_run stack_meta injected i ts pkts w = Some (0, w') /\
    workers (dp w') !! i = Some ctx' /\ balanced (ctx_stats ctx') /\
    result ctx' = 0 /\ reader_registered ctx' = false /\ mbufs w' = B.
Proof.
  intros Hctx Hinj Hq Hreg Hbal HL HB Hts. set (id := worker_id (ctx_info ctx)) in *.
  assert (worker_at id B (registered id q w)) as Hat.
  { split; [|by eexists|done]. exists (set_reader_registered true ctx). split_and!; [|done|done].
    unfold registered. world_cbn. by rewrite list_lookup_alter_eq, Hctx. }
  destruct (worker_loop_spec id B ts pkts _ Hat Hts HL) as (pkts' & w2 & Hloop & [(ctx2 & Hc2 & _ & Hb2) [q2 Hq2] HB2]).
  unfold dp_worker_run. run_step. erewrite M_bind_step by (apply own_id_run; exact Hctx). cbv beta. fold id.
  rewrite (proj2 (Z.eqb_neq _ _)) by done.
  erewrite M_bind_step by by apply register_run. cbv beta. cbn [Z.ltb Z.compare].
  run_step. erewrite M_bind_step by exact Hloop. cbv beta. erewrite M_bind_step by (apply own_id_run; exact Hc2). cbv beta.
  erewrite M_bind_step.
  2: { unfold dp_rules_reader_unregister, mbind, M_bind, get, lift, on_dp, modify. rewrite Hq2. bind_cbn. done. }
  cbv beta. do 3 run_step. eexists _, (set_result 0 (set_reader_registered false ctx2)). split; [done|].
  unfold on_ctx. world_cbn. rewrite !list_lookup_alter_eq, Hc2. cbn. by split_and!.
Qed.
End Run.
