(* ===== verification/WorkerProps.v ===== *)
(** * The contract of the packet path

    What a worker does with its packets, stated against the frame grammar of
    [Wire] and the rule lists, without the parser, the tables or the rewriting
    code; the proofs are those of [WorkerSpec] and [RunSpec]. *)
From Stdlib Require Import ZArith Lia.
From stdpp Require Import base list numbers option gmap strings.
From S2P Require Import Prelude Host Packet Parser Wire ParserSpec Api Tables Heap Snapshot SnapshotSpec LookupSpec Action ActionSpec Rcu State StatsSpec Rules Worker WorkerSpec RunSpec.

Section Outcome.
Context (flows : list dp_flow_rule) (routes : list dp_route_rule).

(** The action the rules prescribe for a packet, and the counter of the kind of
    rule: an exact flow rule if there is one, else the most specific route. *)
Definition prescribes (meta : dp_packet_meta) (c : counter) (a : dp_rule_action) : Prop :=
  (c = Flow_hit /\ exists r, r ∈ flows /\ flow_rule_key r = dp_flow_key_from_meta meta /\ flow_action r = a) \/
  (c = Route_hit /\ (forall r, r ∈ flows -> flow_rule_key r <> dp_flow_key_from_meta meta) /\
   exists r, r ∈ routes /\ route_matches r (dst_ipv4 meta) /\ route_action r = a /\
     forall r', r' ∈ routes -> route_matches r' (dst_ipv4 meta) -> route_depth r' <= route_depth r).

Definition no_rule (meta : dp_packet_meta) : Prop :=
  (forall r, r ∈ flows -> flow_rule_key r <> dp_flow_key_from_meta meta) /\
  (forall r, r ∈ routes -> ~ route_matches r (dst_ipv4 meta)).

(** The packet is the frame [f]. *)
Definition carries (m : rte_mbuf) (f : frame) : Prop :=
  mbuf_contiguous m /\ frame_ok f /\ frame_bytes f = mbuf_data m.

Definition unsupported (m : rte_mbuf) : Prop :=
  nb_segs m <> 1 \/ (mbuf_contiguous m /\ frame_unsupported (mbuf_data m)).

(** The counters a packet increments, and the packet to transmit. *)
Inductive outcome (m : rte_mbuf) : list counter -> option rte_mbuf -> Prop :=
  | outcome_unsupported : unsupported m -> outcome m [Parse_unsupported; Drop] None
  | outcome_malformed : ~ unsupported m -> (forall f, ~ carries m f) -> outcome m [Parse_malformed; Drop] None
  | outcome_miss f : carries m f -> no_rule (frame_meta f) ->
      outcome m [Parse_ok; Lookup_miss; Action_drop; Drop] None
  | outcome_drop f c a : carries m f -> prescribes (frame_meta f) c a -> act_type a = DP_ACTION_DROP ->
      outcome m [Parse_ok; c; Action_drop; Drop] None
  | outcome_forward f c a : carries m f -> prescribes (frame_meta f) c a -> act_type a = DP_ACTION_FORWARD ->
      outcome m [Parse_ok; c; Action_forward] (Some m)
  | outcome_rewrite f c a ck ck4 : carries m f -> prescribes (frame_meta f) c a ->
      act_type a = DP_ACTION_REWRITE ->
      frame_ok (rewrite_frame a ck ck4 f) -> ipv4_cksum_ok (rewrite_frame a ck ck4 f) ->
      l4_cksum_ok (rewrite_frame a ck ck4 f) ->
      outcome m [Parse_ok; c; Action_rewrite] (Some (mbuf_set_data (frame_bytes (rewrite_frame a ck ck4 f)) m)).

(** What a burst adds to a counter, from the outcomes of its packets and the
    number of packets the driver accepted. *)
Definition kept (outs : list (list counter * option rte_mbuf)) : list rte_mbuf := omap snd outs.

Definition burst_count (outs : list (list counter * option rte_mbuf)) (sent : Z) (c : counter) : Z :=
  let survived := len (kept outs) in
  len (filter (c =.) (mjoin outs.*1)) +
  match c with
  | Rx => len outs
  | Rx_bursts => 1
  | Rx_empty_polls => if decide (outs = []) then 1 else 0
  | Tx_bursts => if decide (survived = 0) then 0 else 1
  | Tx_accepted => sent
  | Tx_unsent | Drop => survived - sent
  | _ => 0
  end.
End Outcome.

Section Contract.
Context {H : Host} {HO : HostOk H} {C : Checksums} {CO : ChecksumsOk C}.
Context {T : DpdkTables} {TO : DpdkTablesOk T}.
Context (h : gmap Z hobj) (stack_meta : dp_packet_meta) (snapshot : option Z).
Context (flows : list dp_flow_rule) (routes : list dp_route_rule).
Context (Hv : view h snapshot flows routes).

Lemma lookup_spec_prescribes meta r a : lookup_spec flows routes meta = (r, Some a) ->
  prescribes flows routes meta (if decide (r = DP_LOOKUP_FLOW_HIT) then Flow_hit else Route_hit) a.
Proof.
  destruct (view_rules _ _ _ _ Hv) as [_ _ Hr _]. unfold lookup_spec, prescribes.
  destruct (entry_of flow_rule_key flows _) as [x|] eqn:Ef.
  { intros [= <- <-]. left. split; [done|]. destruct (entry_of_Some_in _ _ _ _ Ef). by exists x. }
  destruct (longest_match _ _) as [x|] eqn:Er; [|done]. intros [= <- <-]. right. split; [done|].
  split; [intros r Hin; by apply (entry_of_None_in _ _ _ r Ef)|].
  destruct (longest_match_routes _ _ _ Hr Er) as (? & ? & ?). by exists x.
Qed.

Lemma lookup_spec_no_rule meta r : lookup_spec flows routes meta = (r, None) -> no_rule flows routes meta.
Proof.
  destruct (view_rules _ _ _ _ Hv) as [_ _ Hr _]. unfold lookup_spec.
  destruct (entry_of flow_rule_key flows _) as [x|] eqn:Ef; [done|].
  destruct (longest_match _ _) as [x|] eqn:Er; [done|]. intros _.
  split; [intros r' Hin; by apply (entry_of_None_in _ _ _ r' Ef)|]. by apply longest_match_no_route.
Qed.

Lemma carries_parsed m f : mbuf_ok m -> carries m f ->
  dp_parse_packet (Some m) (Some meta_zero) = Some (DP_PARSE_OK, Some (frame_meta f)).
Proof. intros Hm (Hc & Hf & Hd). apply dp_parse_packet_grammar; eauto. Qed.

Lemma verdict_outcome m : mbuf_ok m -> outcome flows routes m (verdict flows routes m).1 (verdict flows routes m).2.
Proof.
  intros Hm. unfold verdict. destruct (dp_parse_packet_total m meta_zero Hm) as (r & meta & Hp). rewrite Hp.
  pose proof (dp_parse_packet_unsupported m meta_zero Hm) as Hun. rewrite Hp in Hun. destruct r; cbn.
  - apply dp_parse_packet_grammar in Hp as (Hc & f & Hf & Hd & <-); [|done].
    assert (carries m f) as Hcar by done.
    destruct (lookup_spec flows routes (frame_meta f)) as [r [a|]] eqn:Hs;
      [|by eapply outcome_miss, lookup_spec_no_rule].
    pose proof (lookup_spec_prescribes _ _ _ Hs) as Hpr. set (c := if decide _ then _ else _) in *.
    destruct (lookup_spec_action _ _ _ _ _ _ _ Hv Hs) as (Hav & Haf & _).
    unfold act_on. case_if; bool_to_prop; [by eapply outcome_drop|].
    case_if; bool_to_prop; [by eapply outcome_forward|].
    assert (act_type a = DP_ACTION_REWRITE /\ act_rewrite_mask a <> 0) as [Ht Hmask]
      by (unfold action_valid in Hav; lia).
    destruct (dp_apply_action_frame m f a Hf Hd Haf Ht Hmask) as (ck & ck4 & -> & _ & _ & ? & ? & ? & _).
    by eapply outcome_rewrite.
  - apply outcome_unsupported, Hun. by eexists.
  - apply outcome_malformed.
    + intros [? Hx]%Hun. done.
    + intros f Hf. rewrite (carries_parsed m f Hm Hf) in Hp. done.
Qed.

(** C4: processing an owned packet is always defined and does what the frame
    grammar and the rules prescribe: it increments the counters of the outcome,
    and either keeps the (possibly rewritten) packet for transmission or frees
    it, touching no other mbuf; a packet that is not a frame of the grammar or
    that no rule matches is dropped. *)
Theorem dp_process_packet_refines id m w : mbuf_ok m -> pk_mbufs w !! id = Some m ->
  exists cs o, outcome flows routes m cs o /\
    dp_process_packet h stack_meta (Some id) snapshot w =
      Some ((fun _ => id) <$> o,
            {| pk_mbufs := match o with
                           | Some m' => <[id := m']> (pk_mbufs w)
                           | None => delete id (pk_mbufs w)
                           end;
               pk_stats := bump cs (pk_stats w); pk_wire := pk_wire w |}).
Proof.
  intros Hm Hw. exists (verdict flows routes m).1, (verdict flows routes m).2.
  split; [by apply verdict_outcome|]. by apply dp_process_packet_verdict.
Qed.

(** ** Bursts *)
Definition outcomes (l : list (Z * rte_mbuf)) : list (list counter * option rte_mbuf) :=
  (fun p => verdict flows routes p.2) <$> l.

Lemma outcomes_of l : Forall mbuf_ok l.*2 ->
  Forall2 (fun p out => outcome flows routes p.2 out.1 out.2) l (outcomes l).
Proof.
  intros Hl. apply Forall2_fmap_r. rewrite Forall_fmap in Hl. induction Hl; constructor; [|done].
  by apply verdict_outcome.
Qed.

Lemma survivors_outcomes l :
  (survivors flows routes l).*2 = kept (outcomes l).
Proof.
  induction l as [|[id m] l IH]; [done|]. unfold survivors, kept in *. cbn.
  destruct (verdict flows routes m).2; cbn; by rewrite IH.
Qed.

Lemma events_outcomes l :
  events flows routes l = mjoin (outcomes l).*1.
Proof. unfold events, outcomes. rewrite <- list_fmap_compose. f_equal. by apply list_fmap_ext; intros ? [? ?]. Qed.

(** The packets the driver accepts. *)
Definition accepted (p : poll) (outs : list (list counter * option rte_mbuf)) : Z :=
  if decide (len (kept outs) = 0) then 0 else poll_sent p (len (kept outs)).

Lemma get_add_sum c n s c' : stats_fit s ->
  get_counter (add c n s) c' = u64 (get_counter s c' + if decide (c = c') then n else 0).
Proof. intros Hs. rewrite get_add. case_decide; [done|]. rewrite Z.add_0_r. symmetry. apply wrap_id, Hs. Qed.

Ltac fit_tac := repeat first [apply add_fit | apply bump_fit]; done.

Lemma get_burst_stats p s c : stats_fit s ->
  let outs := outcomes (poll_rx p) in
  get_counter (burst_stats flows routes p s) c = u64 (get_counter s c + burst_count outs (accepted p outs) c).
Proof.
  intros Hs outs. unfold burst_stats, burst_sent, burst_count, accepted, tx_counters.
  assert (length (survivors flows routes (poll_rx p)) = length (kept outs)) as HL
    by (unfold outs; by rewrite <- survivors_outcomes, length_fmap).
  assert (length (poll_rx p) = length outs) as HLo by (unfold outs, outcomes; by rewrite length_fmap).
  assert (survivors flows routes (poll_rx p) = [] <-> len (kept outs) = 0) as Hsnil
    by (rewrite <- HL; destruct (survivors _ _ _); cbn; split; done || lia).
  assert (poll_rx p = [] <-> outs = []) as Hnil by (rewrite <- !length_zero_iff_nil; by rewrite HLo).
  rewrite HL, HLo, events_outcomes. fold outs. clearbody outs.
  rewrite (decide_ext _ _ _ _ Hnil), (decide_ext _ _ _ _ Hsnil). clear Hnil Hsnil HL HLo.
  destruct (decide (outs = [])) as [->|Hne]; [|destruct (decide (len (kept outs) = 0)) as [Hk|Hk]];
    repeat first [rewrite get_add_sum by fit_tac | rewrite get_bump by fit_tac];
    repeat first [rewrite <- Z.add_assoc | rewrite wrap_add_l]; apply (f_equal u64); apply (f_equal (Z.add _));
    rewrite ?Hk; destruct c; cbn [length filter mjoin list_join list_fmap fmap kept omap] in *;
    repeat (case_decide; try done); try lia.
Qed.

(** The outcomes of a burst, whatever the counters hold. *)
Lemma worker_burst_outcomes p pkts w : poll_ok p (pk_mbufs w) -> Z.of_nat (length pkts) = DP_BURST_SIZE ->
  exists outs pkts' w', worker_burst h stack_meta p snapshot pkts w = Some (pkts', w') /\
    Forall2 (fun m out => outcome flows routes m out.1 out.2) (poll_rx p).*2 outs /\
    pk_mbufs w' = pk_mbufs w /\
    pk_wire w' = pk_wire w ++ take (Z.to_nat (accepted p outs)) (kept outs) /\
    (stats_fit (pk_stats w) ->
     forall c, get_counter (pk_stats w') c = u64 (get_counter (pk_stats w) c + burst_count outs (accepted p outs) c)).
Proof.
  intros Hp HL. exists (outcomes (poll_rx p)).
  destruct (worker_burst_spec h stack_meta snapshot flows routes p pkts w Hv Hp HL) as (pkts' & Hrun & _).
  exists pkts'. eexists. split; [exact Hrun|]. cbn [pk_mbufs pk_wire pk_stats]. split_and!.
  - apply Forall2_fmap_l, outcomes_of, Hp.
  - done.
  - unfold transmitted, accepted, burst_sent. rewrite <- survivors_outcomes, fmap_take, length_fmap. f_equal.
    case_decide as Hz; [|done].
    assert (survivors flows routes (poll_rx p) = []) as -> by (apply length_zero_iff_nil; lia). cbn. by rewrite take_nil.
  - intros Hs c. by apply get_burst_stats.
Qed.

(** C14: a burst leaves the worker with exactly the mbufs it owned before.  The
    received packets have the outcomes the rules prescribe; the survivors are
    offered in the order of reception, the driver takes a prefix of them and the
    others are freed; every counter has grown by what happened. *)
Theorem worker_burst_contract p pkts w : poll_ok p (pk_mbufs w) -> stats_fit (pk_stats w) ->
  Z.of_nat (length pkts) = DP_BURST_SIZE ->
  exists outs pkts' w', worker_burst h stack_meta p snapshot pkts w = Some (pkts', w') /\
    Forall2 (fun m out => outcome flows routes m out.1 out.2) (poll_rx p).*2 outs /\
    pk_mbufs w' = pk_mbufs w /\
    pk_wire w' = pk_wire w ++ take (Z.to_nat (accepted p outs)) (kept outs) /\
    forall c, get_counter (pk_stats w') c = u64 (get_counter (pk_stats w) c + burst_count outs (accepted p outs) c).
Proof.
  intros Hp Hs HL. destruct (worker_burst_outcomes p pkts w Hp HL) as (outs & pkts' & w' & ? & ? & ? & ? & Hc).
  exists outs, pkts', w'. do 4 (split; [done|]). by apply Hc.
Qed.

(** C26: a burst keeps the five accounting identities: every received packet is
    parsed once, looked up once and given one action if it is accepted, and is
    finally transmitted, returned by the driver or dropped, never twice; they
    hold modulo 2^64 however often the counters have wrapped. *)
Theorem worker_burst_accounts p pkts w : poll_ok p (pk_mbufs w) ->
  Z.of_nat (length pkts) = DP_BURST_SIZE -> balanced (pk_stats w) ->
  exists pkts' w', worker_burst h stack_meta p snapshot pkts w = Some (pkts', w') /\ balanced (pk_stats w').
Proof.
  intros Hp HL Hb.
  destruct (worker_burst_spec h stack_meta snapshot flows routes p pkts w Hv Hp HL) as (pkts' & Hrun & _).
  exists pkts'. eexists. split; [exact Hrun|]. eapply burst_balanced; [exact Hv|apply Hp|done].
Qed.
End Contract.

(** ** Ending a transmission *)

(** Completing a transmission of which the driver accepted the first
    [len a] packets frees exactly the others and counts both; the accepted
    packets are not touched, since the application no longer owns them. *)
Theorem dp_complete_tx_releases_tail B a b pkts w : distinct_from b B -> pk_mbufs w = mbuf_map b B ->
  take (length (a ++ b)) pkts = (a ++ b).*1 ->
  dp_complete_tx pkts (len (a ++ b)) (len a) w =
    Some (tt, {| pk_mbufs := B;
                 pk_stats := add Drop (len b) (add Tx_unsent (len b) (add Tx_accepted (len a) (pk_stats w)));
                 pk_wire := pk_wire w |}).
Proof.
  intros Hd Hm Ht. rewrite dp_complete_tx_spec with (B := B); [|done..]. unfold tx_counters.
  by replace (len (a ++ b) - len a) with (len b) by (rewrite length_app; lia).
Qed.

(** ** The life of a worker *)
Section Life.
Context {H : Host} {HO : HostOk H} {C : Checksums} {CO : ChecksumsOk C}.
Context {T : DpdkTables} {TO : DpdkTablesOk T} {Q : Qsbr}.
Context (stack_meta : dp_packet_meta) (i : nat) (injected : Z) (ts : list turn) (pkts : list Z).

(** A worker that can register runs to the end whatever the number of its
    turns, while the other threads publish rules: it returns 0, records the
    result, is unregistered, its counters still balance, and it owns no mbuf
    that it did not own when it started. *)
Theorem dp_worker_run_completes w ctx q :
  workers (dp w) !! i = Some ctx -> injected <> worker_id (ctx_info ctx) ->
  rules_qsbr (dp w) = Some q -> can_register (worker_id (ctx_info ctx)) q ->
  balanced (ctx_stats ctx) -> Z.of_nat (length pkts) = DP_BURST_SIZE ->
  turns_ok stack_meta i ts (registered i (worker_id (ctx_info ctx)) q w) ->
  exists w' ctx', dp_worker_run stack_meta injected i ts pkts w = Some (0, w') /\
    workers (dp w') !! i = Some ctx' /\ balanced (ctx_stats ctx') /\
    result ctx' = 0 /\ reader_registered ctx' = false /\ mbufs w' = mbufs w.
Proof. intros. by apply dp_worker_run_normal with ctx q. Qed.

(** The reasons why a worker gives up before its first poll. *)
Definition cannot_start (w : world) (id : Z) : Prop :=
  injected = id \/ rules_qsbr (dp w) = None \/ RTE_MAX_LCORE <= id \/
  exists q e q', rules_qsbr (dp w) = Some q /\ rte_rcu_qsbr_thread_register q id = (Some e, q') /\ 0 <= e.

Lemma register_fails w id : rules_qsbr (dp w) = None \/ RTE_MAX_LCORE <= id \/
    (exists q e q', rules_qsbr (dp w) = Some q /\ rte_rcu_qsbr_thread_register q id = (Some e, q') /\ 0 <= e) ->
  exists ret qs, dp_rules_reader_register id w = Some (ret, set_dp (set_rules_qsbr qs (dp w)) w) /\ ret < 0.
Proof.
  intros Hw. unfold dp_rules_reader_register. erewrite M_bind_step by done. cbv beta.
  assert (w = set_dp (set_rules_qsbr (rules_qsbr (dp w)) (dp w)) w) as Hsame by by destruct w as [[]].
  destruct (rules_qsbr (dp w)) as [q|] eqn:Hq.
  2: { exists (- ENODEV), None. split; [by rewrite <- Hsame|done]. }
  unfold DP_RULE_READER_CAPACITY. destruct (Z.leb_spec RTE_MAX_LCORE id).
  { exists (- ENODEV), (Some q). split; [by rewrite <- Hsame|done]. }
  destruct Hw as [?|[?|(q0 & e & q' & [= <-] & He & Hpos)]]; [done|lia|]. rewrite He.
  eexists _, (Some q'). split; [done|]. unfold neg_errno, EIO. destruct (Z.eqb_spec e 0); lia.
Qed.

(** C36: a worker that cannot start (an injected failure, no QSBR object, no
    reader slot) touches no packet and leaves no registration behind: it returns
    and records the error, asks the other workers to stop, and the number of
    active workers is what it was. *)
Theorem dp_worker_run_gives_up w ctx :
  workers (dp w) !! i = Some ctx -> cannot_start w (worker_id (ctx_info ctx)) ->
  fits 32 (active_workers (dp w)) ->
  exists ret w', dp_worker_run stack_meta injected i ts pkts w = Some (ret, w') /\ ret < 0 /\
    workers (dp w') !! i = Some (set_result ret ctx) /\ stop (dp w') = true /\
    active_workers (dp w') = active_workers (dp w) /\
    registered_readers (dp w') = registered_readers (dp w) /\ mbufs w' = mbufs w /\ wire w' = wire w.
Proof.
  intros Hctx Hno Ha. unfold dp_worker_run. erewrite M_bind_step by done. cbv beta.
  erewrite M_bind_step by (apply own_id_run; exact Hctx). cbv beta.
  set (w1 := set_dp (set_active_workers _ _) w).
  assert (forall ret qs, ret < 0 -> exists ret' w', worker_failed i ret (set_dp (set_rules_qsbr qs (dp w1)) w1) = Some (ret', w') /\
    ret' < 0 /\ workers (dp w') !! i = Some (set_result ret' ctx) /\ stop (dp w') = true /\
    active_workers (dp w') = active_workers (dp w) /\
    registered_readers (dp w') = registered_readers (dp w) /\ mbufs w' = mbufs w /\ wire w' = wire w) as Hfail.
  { intros ret qs Hret. exists ret. eexists. split; [done|]. split; [done|]. unfold on_ctx. cbn.
    rewrite list_lookup_alter_eq, Hctx. split_and!; try done.
    rewrite <- Z.add_opp_r, wrap_add_l. replace (active_workers (dp w) + 1 + - (1)) with (active_workers (dp w)) by lia.
    by apply wrap_id. }
  destruct (Z.eqb_spec injected (worker_id (ctx_info ctx))).
  { destruct (Hfail (- EIO) (rules_qsbr (dp w1)) eq_refl) as (ret & w' & Hrun & Hrest).
    exists ret, w'. split; [|done]. by destruct w as [[]]. }
  destruct (register_fails w1 (worker_id (ctx_info ctx))) as (ret & qs & Hreg & Hneg); [by destruct Hno|].
  erewrite M_bind_step by exact Hreg. cbv beta. rewrite (proj2 (Z.ltb_lt _ _)) by done. by apply Hfail.
Qed.
End Life.
