(* ===== verification/Publish.v ===== *)
(** * Publication under concurrent readers

    Readers and the writer as threads over the world of [State].  A reader
    registers, loads the active snapshot at the start of a burst, dereferences
    it, reports a quiescent state and unregisters; the writer swaps snapshots,
    waits for the token and frees the old one.  A step is one call of [Rules];
    the relation interleaves them in every order. *)
From Stdlib Require Import ZArith Lia.
From stdpp Require Import base list numbers option gmap strings relations.
From S2P Require Import Prelude Packet Api Tables Heap Snapshot SnapshotSpec LookupSpec Rcu State Rules.

Section Publish.
Context {T : DpdkTables} {TO : DpdkTablesOk T} {Q : Qsbr} {QO : QsbrOk Q}.
Abbreviation heap_t := (gmap Z hobj).

(** ** Threads *)

(** The writer between calls, after the exchange, and waiting for a token. *)
Inductive writer_state :=
  | Idle
  | Exchanged (p : publication)
  | Waiting (p : publication) (token : Z).

Record system := {
  sys : world;
  (** registered readers: the snapshot each one may still dereference *)
  held : gmap Z (option Z);
  writer : writer_state;
}.

(** The arguments of a publication are a caller's arrays and an allocator; an
    array may be NULL, or longer than the rules that count. *)
Record rule_set := {
  rs_allocate : allocator;
  rs_flow_array : option (list dp_flow_rule);
  rs_route_array : option (list dp_route_rule);
  rs_flows : list dp_flow_rule;
  rs_routes : list dp_route_rule;
}.

Record rule_set_ok (rs : rule_set) (h : heap_t) : Prop := {
  rs_allocator : allocator_ok (rs_allocate rs) h;
  rs_flow_array_ok : array_of (rs_flow_array rs) (rs_flows rs);
  rs_route_array_ok : array_of (rs_route_array rs) (rs_routes rs);
  rs_limits : within_limits (rs_flows rs) (rs_routes rs);
  rs_flows_fit : Forall flow_fits (rs_flows rs);
  rs_routes_fit : Forall route_fits (rs_routes rs);
}.

Definition swap (rs : rule_set) : M world (Z + publication) :=
  publish_swap (rs_allocate rs) (rs_flow_array rs) (Z.of_nat (length (rs_flows rs)))
    (rs_route_array rs) (Z.of_nat (length (rs_routes rs))).

Inductive step : system -> system -> Prop :=
  | step_register r c w' : held c !! r = None ->
      dp_rules_reader_register r (sys c) = Some (0, w') ->
      step c {| sys := w'; held := <[r := None]> (held c); writer := writer c |}
  | step_load r p w' c : held c !! r = Some None ->
      dp_rules_active_load (sys c) = Some (p, w') ->
      step c {| sys := w'; held := <[r := p]> (held c); writer := writer c |}
  | step_quiescent r p w' c : held c !! r = Some p ->
      dp_rules_reader_quiescent r (sys c) = Some (tt, w') ->
      step c {| sys := w'; held := <[r := None]> (held c); writer := writer c |}
  | step_unregister r w' c : held c !! r = Some None ->
      dp_rules_reader_unregister r (sys c) = Some (tt, w') ->
      step c {| sys := w'; held := delete r (held c); writer := writer c |}
  | step_publish_fails rs ret w' c : writer c = Idle -> rule_set_ok rs (rules_heap (sys c)) ->
      swap rs (sys c) = Some (inl ret, w') ->
      step c {| sys := w'; held := held c; writer := Idle |}
  | step_publish_swaps rs p w' c : writer c = Idle -> rule_set_ok rs (rules_heap (sys c)) ->
      swap rs (sys c) = Some (inr p, w') ->
      step c {| sys := w'; held := held c; writer := Exchanged p |}
  | step_publish_starts p token w' c : writer c = Exchanged p ->
      publish_start (sys c) = Some (token, w') ->
      step c {| sys := w'; held := held c; writer := Waiting p token |}
  | step_publish_finishes p token res w' c : writer c = Waiting p token -> publish_ready token (sys c) = true ->
      publish_finish p (sys c) = Some (res, w') ->
      step c {| sys := w'; held := held c; writer := Idle |}.

(** ** The memory of a snapshot as a piece of the heap *)
Record piece (hs : heap_t) (sa : Z) (g : Z) (flows : list dp_flow_rule) (routes : list dp_route_rule) : Prop := {
  piece_layout : exists s acts t l, ptrs_ok ∅ sa s /\ hs = layout ∅ sa s acts t l;
  piece_rep : snapshot_rep hs sa g flows routes;
  piece_rules : rules_ok flows routes;
  piece_fits : Forall flow_fits flows /\ Forall route_fits routes;
}.

Lemma oput_union p o (h : heap_t) : oput p o h = oput p o ∅ ∪ h.
Proof.
  destruct p as [a|]; cbn; [|by rewrite left_id_L by apply _].
  by rewrite insert_union_singleton_l, insert_empty.
Qed.

Lemma layout_union h0 sa s acts t l : layout h0 sa s acts t l = layout ∅ sa s acts t l ∪ h0.
Proof.
  unfold layout. rewrite !(insert_union_singleton_l _ sa). rewrite <- (assoc_L (∪)). f_equal.
  rewrite (oput_union (actions s)), (oput_union (flow_table s) _ (oput _ _ h0)), (oput_union (route_table s) _ h0).
  rewrite (oput_union (actions s) _ (oput (flow_table s) _ _)).
  rewrite (oput_union (flow_table s) _ (oput (route_table s) _ ∅)).
  by rewrite !(assoc_L (∪)).
Qed.

Lemma layout_disjoint h0 sa s acts t l : ptrs_ok h0 sa s -> layout ∅ sa s acts t l ##ₘ h0.
Proof.
  intros [Hsa Ha Hf Hr]. unfold layout, oput. apply map_disjoint_insert_l. split; [done|].
  destruct (actions s) as [aa|]; [apply map_disjoint_insert_l; split; [by apply Ha|]|];
  (destruct (flow_table s) as [fa|]; [apply map_disjoint_insert_l; split; [by apply Hf|]|];
   (destruct (route_table s) as [ra|]; [apply map_disjoint_insert_l; split; [by apply Hr|]|];
    apply map_disjoint_empty_l)).
Qed.

Lemma ptrs_ok_empty h0 sa s : ptrs_ok h0 sa s -> ptrs_ok ∅ sa s.
Proof.
  intros [Hsa Ha Hf Hr]. split; [done|..].
  - intros a E. destruct (Ha a E). done.
  - intros a E. destruct (Hf a E) as (_ & ? & ?). done.
  - intros a E. destruct (Hr a E) as (_ & ? & ? & ?). done.
Qed.

Lemma ptrs_ok_disjoint h0 sa s acts t l : ptrs_ok ∅ sa s -> layout ∅ sa s acts t l ##ₘ h0 -> ptrs_ok h0 sa s.
Proof.
  intros Hp Hd. assert (forall a, is_Some (layout ∅ sa s acts t l !! a) -> h0 !! a = None) as Hfree.
  { intros a [o Ho]. by apply (map_disjoint_Some_l _ _ _ _ Hd Ho). }
  pose proof (layout_live ∅ sa s Hp acts t l) as Live. destruct Hp as [Hsa Ha Hf Hr]. split.
  - apply Hfree, Live. auto.
  - intros a E. destruct (Ha a E). split; [|done]. apply Hfree, Live. auto.
  - intros a E. destruct (Hf a E) as (_ & ? & ?). split; [|done]. apply Hfree, Live. auto.
  - intros a E. destruct (Hr a E) as (_ & ? & ? & ?). split; [|done]. apply Hfree, Live. auto.
Qed.

Lemma array_of_self {A} (l : list A) : array_of (Some l) l.
Proof. exists []. by rewrite app_nil_r. Qed.

(** A successful build adds a piece. *)
Lemma built_piece h0 c flows routes gen sa w :
  within_limits flows routes -> Forall flow_fits flows -> Forall route_fits routes ->
  built h0 c flows routes gen sa w ->
  exists hs, piece hs sa gen flows routes /\ heap w = hs ∪ h0 /\ hs ##ₘ h0 /\ ctl w = c.
Proof.
  intros Hl Hf Hr (aa & ha & la & t & l & -> & Hp & Hfi & Hri).
  set (s := built_snapshot flows routes gen aa ha la) in *.
  set (hs := layout ∅ sa s (all_actions flows routes) t l).
  assert (built ∅ c flows routes gen sa {| heap := hs; ctl := c |}) as Hb.
  { exists aa, ha, la, t, l. split_and!; [done|by eapply ptrs_ok_empty|done|done]. }
  apply built_rep in Hb as (Hok & Hrep & _); [|done..]. exists hs. split_and!; [|apply layout_union|by apply layout_disjoint|done].
  split; [|done|done|done]. exists s, (all_actions flows routes), t, l. split; [by eapply ptrs_ok_empty|done].
Qed.

Lemma layout_dom sa s acts t l a : ptrs_ok ∅ sa s ->
  is_Some (layout ∅ sa s acts t l !! a) <->
  a = sa \/ actions s = Some a \/ flow_table s = Some a \/ route_table s = Some a.
Proof.
  intros Hp. split; [|by apply layout_live]. unfold layout, oput. intros [o Ho].
  destruct (actions s), (flow_table s), (route_table s); rewrite ?lookup_insert, lookup_empty in Ho;
    repeat (case_decide; [subst; auto|]); done.
Qed.

(** Two pieces at one address of one heap are the same memory. *)
Lemma piece_unique sa hs g flows routes hs' g' flows' routes' h :
  piece hs sa g flows routes -> piece hs' sa g' flows' routes' -> hs ⊆ h -> hs' ⊆ h -> hs = hs'.
Proof.
  intros [(s & acts & t & l & Hp & ->) _ _ _] [(s' & acts' & t' & l' & Hp' & ->) _ _ _] Hs Hs'.
  assert (s = s') as <-.
  { pose proof (lookup_weaken _ _ sa (HSnapshot s) (lookup_insert_eq _ _ _) Hs) as E.
    rewrite (lookup_weaken _ _ sa (HSnapshot s') (lookup_insert_eq _ _ _) Hs') in E. by injection E. }
  apply map_eq. intros a.
  assert (is_Some (layout ∅ sa s acts t l !! a) <-> is_Some (layout ∅ sa s acts' t' l' !! a)) as Hdom
    by by rewrite !layout_dom.
  destruct (layout ∅ sa s acts t l !! a) as [o|] eqn:E, (layout ∅ sa s acts' t' l' !! a) as [o'|] eqn:E'; try done.
  - pose proof (lookup_weaken _ _ _ _ E Hs) as H1. by rewrite (lookup_weaken _ _ _ _ E' Hs') in H1.
  - by destruct (proj1 Hdom (ex_intro _ o eq_refl)).
  - by destruct (proj2 Hdom (ex_intro _ o' eq_refl)).
Qed.

(** Freeing a snapshot takes its piece away, wherever it lies. *)
Lemma free_piece hs sa g flows routes h c reclaimed record_stats :
  piece hs sa g flows routes -> hs ##ₘ h ->
  exists c', dp_snapshot_free (Some sa) reclaimed record_stats {| heap := hs ∪ h; ctl := c |} =
    Some (tt, {| heap := h; ctl := c' |}) /\ rules_generation c' = rules_generation c.
Proof.
  intros [(s & acts & t & l & Hp & ->) _ _ _] Hd. rewrite <- layout_union.
  eexists. split; [apply dp_snapshot_free_layout; by eapply ptrs_ok_disjoint|].
  unfold free_ctl. by destruct reclaimed, record_stats, (flow_table s), (route_table s), (actions s).
Qed.

(** ** The invariant *)
Definition holders_idle (sa : Z) (c : system) : Prop :=
  forall r p, held c !! r = Some (Some p) -> p = sa.

(** After the exchange a reader may hold either snapshot. *)
Definition holders_exchanged (sa so : Z) (c : system) : Prop :=
  forall r p, held c !! r = Some (Some p) -> p = sa \/ p = so.

(** While the writer waits, a reader that still holds the old snapshot is one
    the token waits for. *)
Definition holders_waiting (sa so t : Z) (q : rcu) (c : system) : Prop :=
  forall r p, held c !! r = Some (Some p) -> p = sa \/ (p = so /\ r ∈ pending q t).

(** The old generation still lies next to the active one [hs]. *)
Definition two_generations (hs ho : heap_t) (so : Z) (rest : heap_t) (pub : publication) (w : world) : Prop :=
  pub_old pub = Some so /\ (exists go fo ro, piece ho so go fo ro) /\ rules_heap w = hs ∪ (ho ∪ rest) /\
  hs ##ₘ ho ∪ rest /\ ho ##ₘ rest.

Record inv (rest : heap_t) (c : system) : Prop := {
  inv_flags : initialized (dp (sys c)) = true /\ rules_configured (dp (sys c)) = true;
  inv_active : exists q sa hs flows routes,
    rules_qsbr (dp (sys c)) = Some q /\ online q = dom (held c) /\
    active_rules (dp (sys c)) = Some sa /\
    piece hs sa (rules_generation (dstats (dp (sys c)))) flows routes /\
    match writer c with
    | Idle => rules_heap (sys c) = hs ∪ rest /\ hs ##ₘ rest /\ holders_idle sa c
    | Exchanged pub => exists so ho, two_generations hs ho so rest pub (sys c) /\ holders_exchanged sa so c
    | Waiting pub token => exists so ho, two_generations hs ho so rest pub (sys c) /\ issued q token /\
        holders_waiting sa so token q c
    end;
}.

(** What a reader's step keeps. *)
Definition same_rules (w w' : world) : Prop :=
  rules_heap w' = rules_heap w /\ active_rules (dp w') = active_rules (dp w) /\
  initialized (dp w') = initialized (dp w) /\ rules_configured (dp w') = rules_configured (dp w) /\
  dstats (dp w') = dstats (dp w).

Lemma register_effect r w w' : dp_rules_reader_register r w = Some (0, w') ->
  exists q, rules_qsbr (dp w) = Some q /\ same_rules w w' /\
    rules_qsbr (dp w') = Some (rte_rcu_qsbr_thread_online (snd (rte_rcu_qsbr_thread_register q r)) r).
Proof.
  unfold dp_rules_reader_register, mbind, M_bind, get, on_dp, modify.
  destruct (rules_qsbr (dp w)) as [q|]; [|done]. case_if; [done|].
  destruct (rte_rcu_qsbr_thread_register q r) as [[e|] q'] eqn:E.
  - intros [= He _]. exfalso. unfold neg_errno, EIO in He. destruct (Z.eqb_spec e 0); lia.
  - intros [= <-]. exists q. rewrite E. done.
Qed.

Lemma quiescent_effect r w w' : dp_rules_reader_quiescent r w = Some (tt, w') ->
  exists q, rules_qsbr (dp w) = Some q /\ same_rules w w' /\
    rules_qsbr (dp w') = Some (rte_rcu_qsbr_quiescent q r).
Proof.
  unfold dp_rules_reader_quiescent, mbind, M_bind, get, lift, on_dp, modify.
  destruct (rules_qsbr (dp w)) as [q|]; [|done]. bind_cbn. intros [= <-]. by exists q.
Qed.

Lemma unregister_effect r w w' : dp_rules_reader_unregister r w = Some (tt, w') ->
  exists q, rules_qsbr (dp w) = Some q /\ same_rules w w' /\
    rules_qsbr (dp w') = Some (rte_rcu_qsbr_thread_unregister (rte_rcu_qsbr_thread_offline q r) r).
Proof.
  unfold dp_rules_reader_unregister, mbind, M_bind, get, lift, on_dp, modify.
  destruct (rules_qsbr (dp w)) as [q|]; [|done]. bind_cbn. intros [= <-]. by exists q.
Qed.

(** A reader's step keeps the invariant if the reader set follows and nobody
    new holds the old snapshot without being waited for. *)
Lemma inv_reader rest c w' held' q' :
  inv rest c -> same_rules (sys c) w' -> rules_qsbr (dp w') = Some q' -> online q' = dom held' ->
  (forall q, rules_qsbr (dp (sys c)) = Some q -> forall t, issued q t -> issued q' t /\
     forall r p, held' !! r = Some (Some p) -> r ∈ pending q t -> r ∈ pending q' t) ->
  (forall r p, held' !! r = Some (Some p) -> held c !! r = Some (Some p) \/
     active_rules (dp (sys c)) = Some p) ->
  inv rest {| sys := w'; held := held'; writer := writer c |}.
Proof.
  intros [[Hi Hc] (q & sa & hs & fl & rt & Hq & Hon & Ha & Hp & Hw)] (Eh & Ea & Ei & Ec & Es) Hq' Hon' Hpend Hheld.
  split; cbn [sys held writer]; [by rewrite Ei, Ec|]. exists q', sa, hs, fl, rt.
  rewrite Ea, Es. split_and!; [done..|]. destruct (writer c) as [|pub|pub token].
  - destruct Hw as (E & Hd & Hh). rewrite Eh. split_and!; [done|done|]. intros r p Hr. cbn [held] in Hr.
    destruct (Hheld r p Hr) as [?|?]; [by eapply Hh|congruence].
  - destruct Hw as (so & ho & Htwo & Hh). exists so, ho. split; [by unfold two_generations; rewrite Eh|].
    intros r p Hr. cbn [held] in Hr. destruct (Hheld r p Hr) as [Hold|?]; [by eapply Hh|left; congruence].
  - destruct Hw as (so & ho & Htwo & Hiss & Hh). destruct (Hpend q Hq _ Hiss) as [Hiss' Hkeep].
    exists so, ho. split_and!; [by unfold two_generations; rewrite Eh|done|]. intros r p Hr. cbn [held] in Hr.
    destruct (Hheld r p Hr) as [Hold|?]; [|left; congruence].
    destruct (Hh r p Hold) as [?|[? ?]]; [by left|right]. split; [done|by eapply Hkeep].
Qed.

(** ** The writer's steps on the world *)
Definition swap_fails (w w' : world) (ret : Z) : Prop :=
  ret < 0 /\ rules_heap w' = rules_heap w /\ active_rules (dp w') = active_rules (dp w) /\
  rules_qsbr (dp w') = rules_qsbr (dp w) /\
  rules_generation (dstats (dp w')) = rules_generation (dstats (dp w)).

Definition swap_succeeds (rs : rule_set) (w w' : world) (q : rcu) (p : publication) : Prop :=
  exists sn hn,
    active_rules (dp w') = Some sn /\
    piece hn sn (rules_generation (dstats (dp w'))) (rs_flows rs) (rs_routes rs) /\
    rules_heap w' = hn ∪ rules_heap w /\ hn ##ₘ rules_heap w /\
    rules_qsbr (dp w') = Some q /\ pub_old p = active_rules (dp w) /\
    pub_generation p = u64 (rules_generation (dstats (dp w)) + 1) /\
    rules_generation (dstats (dp w')) = pub_generation p.

Lemma swap_run rs w q a : rule_set_ok rs (rules_heap w) ->
  initialized (dp w) = true -> rules_configured (dp w) = true ->
  rules_qsbr (dp w) = Some q -> active_rules (dp w) = Some a ->
  exists res w', swap rs w = Some (res, w') /\
    initialized (dp w') = true /\ rules_configured (dp w') = true /\
    match res with inl ret => swap_fails w w' ret | inr p => swap_succeeds rs w w' q p end.
Proof.
  intros [Hall Hpf Hpr Hlim Hff Hrf] Hi Hc Hq Ha. unfold swap, publish_swap.
  erewrite M_bind_step by done. cbv beta. erewrite M_bind_step by done. cbv beta.
  cbn [dp set_dp set_writer_active initialized rules_configured rules_qsbr active_rules]. rewrite Hi, Hc, Hq, Ha.
  cbv zeta. set (g := u64 _). cbn [info dp set_dp set_writer_active].
  pose proof (dp_snapshot_build_wp (rs_allocate rs) (socket_id (info (dp w))) (rules_heap w) (dstats (dp w)) Hall
    (rs_flows rs) (rs_routes rs) g Hff Hrf (rs_flow_array rs) (rs_route_array rs) Hpf Hpr Hlim) as ([r res] & rw & Hrun & Hpost)%wp_run.
  erewrite M_bind_step by (unfold on_rules; cbn [rules_heap dp set_dp dstats set_writer_active]; rewrite Hrun; done).
  cbv beta iota. destruct res as [sa|]; [destruct Hpost as (-> & _ & Hb)|destruct Hpost as (Hneg & -> & _)].
  - apply built_piece in Hb as (hn & Hp & Eh & Hd & Ec); [|done..]. cbn [Z.ltb Z.compare].
    unfold mbind, M_bind, get, on_dp, on_stats, lift, modify.
    cbn [dp set_dp set_dstats set_writer_active set_rules_heap set_active_rules rules_qsbr active_rules].
    eexists (inr _), _. split; [done|]. cbn. rewrite Hi, Hc. split_and!; [done..|].
    exists sa, hn. cbn. rewrite Eh, Hq. by split_and!.
  - rewrite (proj2 (Z.ltb_lt _ _)) by done. unfold mbind, M_bind, on_dp, on_stats, modify.
    eexists (inl _), _. split; [done|]. cbn. by rewrite Hi, Hc.
Qed.

Lemma finish_run pub so ho go fo ro h w :
  pub_old pub = Some so -> piece ho so go fo ro -> rules_heap w = ho ∪ h -> ho ##ₘ h ->
  exists w', publish_finish pub w = Some ((0, pub_generation pub), w') /\
    rules_heap w' = h /\ active_rules (dp w') = active_rules (dp w) /\
    initialized (dp w') = initialized (dp w) /\ rules_configured (dp w') = rules_configured (dp w) /\
    rules_qsbr (dp w') = rules_qsbr (dp w) /\
    rules_generation (dstats (dp w')) = rules_generation (dstats (dp w)).
Proof.
  intros Eo Hp Eh Hd. unfold publish_finish. rewrite Eo.
  destruct (free_piece _ _ _ _ _ h (dstats (dp w)) true true Hp Hd) as (c' & Hrun & Hg).
  erewrite M_bind_step by (unfold on_rules; rewrite Eh, Hrun; done). cbv beta.
  eexists. split; [done|]. cbn. by rewrite Hg.
Qed.

(** ** Preservation *)
Lemma elem_of_held c r p : held c !! r = Some p -> r ∈ dom (held c).
Proof. intros E. by apply elem_of_dom_2 in E. Qed.

Lemma inv_register rest r w' c : inv rest c -> held c !! r = None -> dp_rules_reader_register r (sys c) = Some (0, w') ->
  inv rest {| sys := w'; held := <[r := None]> (held c); writer := writer c |}.
Proof.
  intros Hinv Hr Hrun.
  pose proof Hinv as [[Hi Hc] (q & sa & hs & fl & rt & Hq & Hon & Ha & Hp & Hw)].
  destruct (register_effect _ _ _ Hrun) as (q0 & E & Hsame & Hq'). simplify_eq.
  assert (r ∉ online q) as Hnot by (rewrite Hon; by apply not_elem_of_dom).
  eapply inv_reader; [done|done|exact Hq'| | |].
  - rewrite online_online, register_online, Hon, dom_insert_L. set_solver.
  - intros q1 E1 t Ht. simplify_eq. split; [by apply online_issued, register_issued|].
    intros r' p' Hr' Hpend. rewrite online_pending, register_pending by
      (rewrite ?register_online; auto using register_issued). apply elem_of_difference.
    split; [done|]. intros ->%elem_of_singleton. by rewrite lookup_insert_eq in Hr'.
  - intros r' p' Hr'. left. destruct (decide (r = r')) as [->|]; [by rewrite lookup_insert_eq in Hr'|].
    by rewrite lookup_insert_ne in Hr'.
Qed.

Lemma inv_load rest r p w' c : inv rest c -> held c !! r = Some None -> dp_rules_active_load (sys c) = Some (p, w') ->
  inv rest {| sys := w'; held := <[r := p]> (held c); writer := writer c |}.
Proof.
  intros Hinv Hr Hrun.
  pose proof Hinv as [[Hi Hc] (q & sa & hs & fl & rt & Hq & Hon & Ha & Hp & Hw)].
  unfold dp_rules_active_load, get, mbind, M_bind in Hrun. injection Hrun as <- <-.
  eapply inv_reader; [done|done|exact Hq| | |].
  - rewrite Hon, dom_insert_L. pose proof (elem_of_held _ _ _ Hr). set_solver.
  - intros q1 E1 t Ht. simplify_eq. auto.
  - intros r' p' Hr'. destruct (decide (r = r')) as [->|].
    + rewrite lookup_insert_eq in Hr'. right. congruence.
    + left. by rewrite lookup_insert_ne in Hr'.
Qed.

Lemma inv_quiescent rest r p w' c : inv rest c -> held c !! r = Some p -> dp_rules_reader_quiescent r (sys c) = Some (tt, w') ->
  inv rest {| sys := w'; held := <[r := None]> (held c); writer := writer c |}.
Proof.
  intros Hinv Hr Hrun.
  pose proof Hinv as [[Hi Hc] (q & sa & hs & fl & rt & Hq & Hon & Ha & Hp & Hw)].
  destruct (quiescent_effect _ _ _ Hrun) as (q0 & E & Hsame & Hq'). simplify_eq.
  assert (r ∈ online q) as Hin by (rewrite Hon; by eapply elem_of_held).
  eapply inv_reader; [done|done|exact Hq'| | |].
  - rewrite quiescent_online, Hon, dom_insert_L by done. set_solver.
  - intros q1 E1 t Ht. simplify_eq. split; [by apply quiescent_issued|].
    intros r' p' Hr' Hpend. rewrite quiescent_pending by done. apply elem_of_difference.
    split; [done|]. intros ->%elem_of_singleton. by rewrite lookup_insert_eq in Hr'.
  - intros r' p' Hr'. left. destruct (decide (r = r')) as [->|]; [by rewrite lookup_insert_eq in Hr'|].
    by rewrite lookup_insert_ne in Hr'.
Qed.

Lemma inv_unregister rest r w' c : inv rest c -> held c !! r = Some None -> dp_rules_reader_unregister r (sys c) = Some (tt, w') ->
  inv rest {| sys := w'; held := delete r (held c); writer := writer c |}.
Proof.
  intros Hinv Hr Hrun.
  pose proof Hinv as [[Hi Hc] (q & sa & hs & fl & rt & Hq & Hon & Ha & Hp & Hw)].
  destruct (unregister_effect _ _ _ Hrun) as (q0 & E & Hsame & Hq'). simplify_eq.
  assert (r ∉ online (rte_rcu_qsbr_thread_offline q r)) as Hnot by (rewrite offline_online; set_solver).
  eapply inv_reader; [done|done|exact Hq'| | |].
  - rewrite unregister_online, offline_online, Hon, dom_delete_L by done. done.
  - intros q1 E1 t Ht. simplify_eq. split; [by apply unregister_issued, offline_issued|].
    intros r' p' Hr' Hpend. rewrite unregister_pending, offline_pending by auto using offline_issued.
    apply lookup_delete_Some in Hr' as [Hne _]. set_solver.
  - intros r' p' [_ Hr']%lookup_delete_Some. by left.
Qed.

Lemma inv_publish_fails rest rs ret w' c : inv rest c -> writer c = Idle -> rule_set_ok rs (rules_heap (sys c)) ->
  swap rs (sys c) = Some (inl ret, w') ->
  inv rest {| sys := w'; held := held c; writer := Idle |}.
Proof.
  intros Hinv Hid Hrs Hrun.
  pose proof Hinv as [[Hi Hc] (q & sa & hs & fl & rt & Hq & Hon & Ha & Hp & Hw)].
  rewrite Hid in Hw. destruct (swap_run rs (sys c) q sa Hrs Hi Hc Hq Ha) as (res & w1 & Hrun1 & Hi' & Hc' & Hres).
  rewrite Hrun in Hrun1. injection Hrun1 as <- <-. destruct Hres as (_ & Eh & Ea & Eq & Eg).
  split; cbn [sys held writer]; [done|]. exists q, sa, hs, fl, rt. by rewrite Eh, Ea, Eq, Eg.
Qed.

Lemma inv_publish_swaps rest rs pub w' c : inv rest c -> writer c = Idle -> rule_set_ok rs (rules_heap (sys c)) ->
  swap rs (sys c) = Some (inr pub, w') ->
  inv rest {| sys := w'; held := held c; writer := Exchanged pub |}.
Proof.
  intros Hinv Hid Hrs Hrun.
  pose proof Hinv as [[Hi Hc] (q & sa & hs & fl & rt & Hq & Hon & Ha & Hp & Hw)].
  rewrite Hid in Hw. destruct (swap_run rs (sys c) q sa Hrs Hi Hc Hq Ha) as (res & w1 & Hrun1 & Hi' & Hc' & Hres).
  rewrite Hrun in Hrun1. injection Hrun1 as <- <-.
  destruct Hres as (sn & hn & Ea & Hpn & Eh & Hd & Eq & Eo & _). destruct Hw as (Eh0 & Hd0 & Hh).
  split; cbn [sys held writer]; [done|]. exists q, sn, hn, (rs_flows rs), (rs_routes rs).
  split_and!; [done..|]. exists sa, hs. unfold two_generations. rewrite Eo, Eh, Eh0. rewrite Eh0 in Hd.
  split; [split_and!; [done|by eexists _, _, _|done..]|]. intros r p Hr. right. by eapply Hh.
Qed.

(** The token is issued after the exchange: every reader that may hold the old
    snapshot is online then, and the token waits for it. *)
Lemma start_run w q : rules_qsbr (dp w) = Some q ->
  publish_start w = Some (fst (rte_rcu_qsbr_start q),
                          set_dp (set_rules_qsbr (Some (snd (rte_rcu_qsbr_start q))) (dp w)) w).
Proof.
  intros Hq. unfold publish_start, mbind, M_bind, get, lift, on_dp, modify. rewrite Hq. bind_cbn.
  by destruct (rte_rcu_qsbr_start q).
Qed.

Lemma inv_publish_starts rest pub token w' c : inv rest c -> writer c = Exchanged pub ->
  publish_start (sys c) = Some (token, w') ->
  inv rest {| sys := w'; held := held c; writer := Waiting pub token |}.
Proof.
  intros [[Hi Hc] (q & sa & hs & fl & rt & Hq & Hon & Ha & Hp & Hw)] Hex Hrun.
  rewrite Hex in Hw. destruct Hw as (so & ho & Htwo & Hh). rewrite (start_run _ q Hq) in Hrun. injection Hrun as <- <-.
  split; [done|]. cbn [sys held writer]. exists (snd (rte_rcu_qsbr_start q)), sa, hs, fl, rt.
  split_and!; [done|by rewrite start_online|done|done|]. exists so, ho.
  split_and!; [exact Htwo|apply start_issued; by right|]. intros r p Hr. cbn [held] in Hr.
  destruct (Hh r p Hr) as [?|?]; [by left|right]. split; [done|].
  rewrite start_pending_new, Hon. by eapply elem_of_held.
Qed.

Lemma two_generations_finish hs ho so rest pub w : two_generations hs ho so rest pub w ->
  exists w', publish_finish pub w = Some ((0, pub_generation pub), w') /\
    rules_heap w' = hs ∪ rest /\ hs ##ₘ rest /\ active_rules (dp w') = active_rules (dp w) /\
    initialized (dp w') = initialized (dp w) /\ rules_configured (dp w') = rules_configured (dp w) /\
    rules_qsbr (dp w') = rules_qsbr (dp w) /\
    rules_generation (dstats (dp w')) = rules_generation (dstats (dp w)).
Proof.
  intros (Eo & (go & fo & ro & Hpo) & Eh & Hd & Hd2).
  assert (hs ∪ (ho ∪ rest) = ho ∪ (hs ∪ rest)) as Ecomm.
  { apply map_disjoint_union_r in Hd as [Hd3 _].
    by rewrite !(assoc_L (∪)), (map_union_comm hs ho). }
  apply map_disjoint_union_r in Hd as [Hd3 Hd4]. rewrite Ecomm in Eh.
  destruct (finish_run pub so ho go fo ro (hs ∪ rest) w Eo Hpo Eh) as (w' & Hrun & Eh' & Hrest).
  { apply map_disjoint_union_r. split; [by symmetry|done]. }
  exists w'. by split_and!; try apply Hrest.
Qed.

Lemma inv_publish_finishes rest pub token res w' c : inv rest c -> writer c = Waiting pub token ->
  publish_ready token (sys c) = true ->
  publish_finish pub (sys c) = Some (res, w') ->
  inv rest {| sys := w'; held := held c; writer := Idle |}.
Proof.
  intros Hinv Hwait Hready Hrun.
  pose proof Hinv as [[Hi Hc] (q & sa & hs & fl & rt & Hq & Hon & Ha & Hp & Hw)].
  rewrite Hwait in Hw. destruct Hw as (so & ho & Htwo & Hiss & Hh).
  destruct (two_generations_finish _ _ _ _ _ _ Htwo) as (w1 & Hrun1 & Eh' & Hd & Ea' & Ei' & Ec' & Eq' & Eg').
  rewrite Hrun in Hrun1. injection Hrun1 as -> <-.
  split; cbn [sys held writer]; [by rewrite Ei', Ec'|]. exists q, sa, hs, fl, rt.
  rewrite Eq', Ea', Eg', Eh'. split_and!; try done. intros r p Hr.
  destruct (Hh r p Hr) as [?|[_ Hpend]]; [done|]. unfold publish_ready in Hready. rewrite Hq in Hready.
  apply check_spec in Hready; [|done]. set_solver.
Qed.

Lemma step_inv rest c c' : inv rest c -> step c c' -> inv rest c'.
Proof.
  intros Hinv Hs. destruct Hs; [eapply inv_register|eapply inv_load|eapply inv_quiescent|eapply inv_unregister
    |eapply inv_publish_fails|eapply inv_publish_swaps|eapply inv_publish_starts|eapply inv_publish_finishes]; done.
Qed.

Lemma steps_inv rest c c' : inv rest c -> rtc step c c' -> inv rest c'.
Proof. intros Hinv Hs. induction Hs as [|c c1 c2 Hs _ IH]; [done|]. by apply IH, (step_inv rest c). Qed.
End Publish.
