(* ===== verification/PublishSpec.v ===== *)
(** * The contract of publication

    From a configured router on, whatever the interleaving of readers and
    publications: readers only meet live, complete generations, every
    publication can finish, and between publications exactly one generation is
    allocated. *)
From Stdlib Require Import ZArith Lia.
From stdpp Require Import base list numbers option gmap strings relations.
From S2P Require Import Prelude Packet Api Tables Heap Snapshot SnapshotSpec LookupSpec Rcu State Rules Publish.

Section Contract.
Context {T : DpdkTables} {TO : DpdkTablesOk T} {Q : Qsbr} {QO : QsbrOk Q}.
Abbreviation heap_t := (gmap Z hobj).

Lemma piece_lookup hs sa g flows routes h meta :
  piece hs sa g flows routes -> hs ⊆ h -> fits 32 (dst_ipv4 meta) ->
  exists answer, dp_lookup_packet h meta (Some sa) = Some answer /\
    decides h answer (lookup_spec flows routes meta).
Proof.
  intros [_ Hrep _ _] Hs Hd. by eapply dp_lookup_packet_represented; [eapply snapshot_rep_mono|].
Qed.

(** The old snapshot is still in memory. *)
Definition publishing (pub : publication) (s : writer_state) : Prop :=
  s = Exchanged pub \/ exists token, s = Waiting pub token.

Lemma two_generations_lookup hs ho so rest pub w : two_generations hs ho so rest pub w ->
  exists flows routes, rules_ok flows routes /\
    forall meta, fits 32 (dst_ipv4 meta) ->
      exists answer, dp_lookup_packet (rules_heap w) meta (Some so) = Some answer /\
        decides (rules_heap w) answer (lookup_spec flows routes meta).
Proof.
  intros (_ & (go & fo & ro & Hpo) & -> & Hd & _). exists fo, ro. split; [apply Hpo|]. intros m Hm.
  eapply piece_lookup; [done| |done]. etrans; [apply map_union_subseteq_l|]. by apply map_union_subseteq_r.
Qed.

(** C5: no use after free.  In every reachable state, a snapshot that a reader
    has loaded and not yet given up is a complete generation, current or
    previous, that still lies in memory: every lookup through it is defined and
    gives the decision of that generation's rules, and its action pointers can
    be dereferenced. *)
Theorem publish_no_use_after_free rest c0 c r p :
  inv rest c0 -> rtc step c0 c -> held c !! r = Some (Some p) ->
  exists flows routes, rules_ok flows routes /\
    (active_rules (dp (sys c)) = Some p \/ exists pub, publishing pub (writer c) /\ pub_old pub = Some p) /\
    forall meta, fits 32 (dst_ipv4 meta) ->
      exists answer, dp_lookup_packet (rules_heap (sys c)) meta (Some p) = Some answer /\
        decides (rules_heap (sys c)) answer (lookup_spec flows routes meta).
Proof.
  intros Hinv Hsteps Hr. destruct (steps_inv _ _ _ Hinv Hsteps) as [_ (q & sa & hs & fl & rt & _ & _ & Ha & Hp & Hw)].
  assert (forall h, hs ⊆ h -> exists flows routes, rules_ok flows routes /\ forall meta, fits 32 (dst_ipv4 meta) ->
    exists answer, dp_lookup_packet h meta (Some sa) = Some answer /\
      decides h answer (lookup_spec flows routes meta)) as Hactive.
  { intros h Hs. exists fl, rt. split; [apply Hp|]. intros meta Hm. by eapply piece_lookup. }
  destruct (writer c) as [|pub|pub token].
  - destruct Hw as (Eh & Hd & Hh). rewrite (Hh r p Hr).
    destruct (Hactive (rules_heap (sys c))) as (f & ro & Hok & Hl); [rewrite Eh; apply map_union_subseteq_l|].
    exists f, ro. split_and!; [done|by left|done].
  - destruct Hw as (so & ho & Htwo & Hh). destruct (Hh r p Hr) as [-> | ->].
    + destruct (Hactive (rules_heap (sys c))) as (f & ro & Hok & Hl); [destruct Htwo as (_ & _ & -> & _); apply map_union_subseteq_l|].
      exists f, ro. split_and!; [done|by left|done].
    + destruct (two_generations_lookup _ _ _ _ _ _ Htwo) as (f & ro & Hok & Hl). exists f, ro.
      split_and!; [done|right; exists pub; split; [by left|apply Htwo]|done].
  - destruct Hw as (so & ho & Htwo & Hiss & Hh). destruct (Hh r p Hr) as [->|[-> _]].
    + destruct (Hactive (rules_heap (sys c))) as (f & ro & Hok & Hl); [destruct Htwo as (_ & _ & -> & _); apply map_union_subseteq_l|].
      exists f, ro. split_and!; [done|by left|done].
    + destruct (two_generations_lookup _ _ _ _ _ _ Htwo) as (f & ro & Hok & Hl). exists f, ro.
      split_and!; [done|right; exists pub; split; [right; by eexists|apply Htwo]|done].
Qed.

(** C23: no leak.  Whenever no publication is waiting, the heap is what it was
    apart from one generation, the active one, however many publications have
    succeeded or failed. *)
Theorem publish_no_leak rest c0 c :
  inv rest c0 -> rtc step c0 c -> writer c = Idle ->
  exists sa hs flows routes, active_rules (dp (sys c)) = Some sa /\
    rules_heap (sys c) = hs ∪ rest /\ hs ##ₘ rest /\
    piece hs sa (rules_generation (dstats (dp (sys c)))) flows routes.
Proof.
  intros Hinv Hsteps Hw. destruct (steps_inv _ _ _ Hinv Hsteps) as [_ (q & sa & hs & fl & rt & _ & _ & Ha & Hp & Hcase)].
  rewrite Hw in Hcase. destruct Hcase as (E & Hd & _). by exists sa, hs, fl, rt.
Qed.

(** One report of reader [r]. *)
Definition reports (r : Z) (c c' : system) : Prop :=
  exists p w', held c !! r = Some p /\ dp_rules_reader_quiescent r (sys c) = Some (tt, w') /\
    c' = {| sys := w'; held := <[r := None]> (held c); writer := writer c |}.

Lemma reports_step r c c' : reports r c c' -> step c c'.
Proof. intros (p & w' & Hr & Hrun & ->). by apply (step_quiescent r p w'). Qed.

Lemma reports_pending rest r c pub token q : inv rest c -> writer c = Waiting pub token ->
  rules_qsbr (dp (sys c)) = Some q -> r ∈ online q ->
  exists c' q', reports r c c' /\ writer c' = Waiting pub token /\ rules_qsbr (dp (sys c')) = Some q' /\
    online q' = online q /\ pending q' token = pending q token ∖ {[r]}.
Proof.
  intros [_ (q0 & sa & hs & fl & rt & Hq & Hon & Ha & Hp & Hw)] Hwait Hq1 Hr.
  rewrite Hq in Hq1. injection Hq1 as ->. rewrite Hwait in Hw. destruct Hw as (so & ho & _ & Hiss & _).
  pose proof Hr as Hr'. rewrite Hon in Hr'. apply elem_of_dom in Hr' as [p Hheld].
  eexists _, (rte_rcu_qsbr_quiescent q r). split.
  - exists p. eexists. split; [done|]. split; [|done].
    unfold dp_rules_reader_quiescent, mbind, M_bind, get, lift, on_dp, modify. rewrite Hq. done.
  - cbn. split_and!; [done|done|by apply quiescent_online|by apply quiescent_pending].
Qed.

Lemma publish_drains rest pub token : forall n c q, inv rest c -> writer c = Waiting pub token ->
  rules_qsbr (dp (sys c)) = Some q -> size (pending q token) = n ->
  exists c1 w', rtc (fun a b => exists r, reports r a b) c c1 /\
    publish_ready token (sys c1) = true /\
    publish_finish pub (sys c1) = Some ((0, pub_generation pub), w').
Proof.
  induction n as [|n IH]; intros c q Hinv Hwait Hq Hn; pose proof Hinv as
    [_ (q0 & sa & hs & fl & rt & Hq0 & Hon & Ha & Hp & Hw)]; rewrite Hq in Hq0; injection Hq0 as <-;
    rewrite Hwait in Hw; destruct Hw as (so & ho & Htwo & Hiss & Hh).
  - destruct (two_generations_finish _ _ _ _ _ _ Htwo) as (w1 & Hrun & _).
    exists c, w1. split_and!; [done| |done]. unfold publish_ready. rewrite Hq.
    apply check_spec; [done|]. by apply leibniz_equiv, size_empty_inv.
  - destruct (size_pos_elem_of (pending q token)) as [r Hr]; [lia|].
    assert (r ∈ online q) as Hr' by by eapply pending_online.
    destruct (reports_pending rest r c pub token q Hinv Hwait Hq Hr') as (c' & q' & Hrep & Hwait' & Hq' & Hon' & Hpend').
    destruct (IH c' q') as (c1 & w1 & Hsteps & Hready & Hfin); [|done|done| |].
    + eapply step_inv; [done|]. by eapply reports_step.
    + rewrite Hpend', size_difference, size_singleton by set_solver. lia.
    + exists c1, w1. split_and!; [|done|done]. eapply rtc_l; [|done]. by exists r.
Qed.

(** A publication terminates.  In every reachable state the token can be
    drawn after an exchange, and while the writer waits, one quiescent report
    from each of some registered readers makes the check succeed; then the
    publication finishes (freeing the old generation is defined) and returns 0
    with the new generation. *)
Theorem publish_can_finish rest c0 c pub :
  inv rest c0 -> rtc step c0 c ->
  (writer c = Exchanged pub -> exists token w', publish_start (sys c) = Some (token, w')) /\
  (forall token, writer c = Waiting pub token ->
     exists c1 w', rtc (fun a b => exists r, reports r a b) c c1 /\
       publish_ready token (sys c1) = true /\
       publish_finish pub (sys c1) = Some ((0, pub_generation pub), w')).
Proof.
  intros Hinv Hsteps. pose proof (steps_inv _ _ _ Hinv Hsteps) as Hc.
  pose proof Hc as [_ (q & ? & ? & ? & ? & Hq & _)]. split.
  - intros _. eexists _, _. by apply start_run.
  - intros token Hwait. by eapply publish_drains.
Qed.

(** ** The whole call *)

(** What other threads do while the writer is inside its call: steps of readers
    that lead to the world [m] computes. *)
Definition reader_step (c c' : system) : Prop := step c c' /\ writer c' = writer c.

Definition interleaves (m : M world unit) (c c' : system) : Prop :=
  m (sys c) = Some (tt, sys c') /\ rtc reader_step c c'.

Lemma reader_steps_step c c' : rtc reader_step c c' -> rtc step c c'.
Proof. apply rtc_subrel. by intros ? ? [? _]. Qed.

(** Inside a call every such step is a reader's, and keeps the rules. *)
Lemma reader_step_rules c c' : writer c <> Idle -> reader_step c c' ->
  same_rules (sys c) (sys c').
Proof.
  intros Hne [Hs Hw]. destruct Hs as [r c w' _ Hrun|r p w' c _ Hrun|r p w' c _ Hrun|r w' c _ Hrun
    |rs ret w' c Hid _ _|rs p w' c Hid _ _|p token w' c Hex _|p token res w' c Hwait _ _];
    cbn [sys writer] in *; try congruence.
  - by destruct (register_effect _ _ _ Hrun) as (? & _ & ? & _).
  - unfold dp_rules_active_load, get, mbind, M_bind in Hrun. by injection Hrun as _ <-.
  - by destruct (quiescent_effect _ _ _ Hrun) as (? & _ & ? & _).
  - by destruct (unregister_effect _ _ _ Hrun) as (? & _ & ? & _).
Qed.

Lemma reader_steps_rules c c' : rtc reader_step c c' -> writer c <> Idle ->
  same_rules (sys c) (sys c') /\ writer c' = writer c.
Proof.
  induction 1 as [c|c c1 c2 Hs _ IH]; intros Hne; [by split|].
  pose proof (reader_step_rules _ _ Hne Hs) as (E1 & E2 & E3 & E4 & E5). destruct Hs as [_ Hw].
  destruct IH as [(F1 & F2 & F3 & F4 & F5) Hw']; [by rewrite Hw|]. split; [|congruence].
  by split_and!; etrans.
Qed.

(** The active snapshot is generation [g] and represents the given rules. *)
Definition now_active (flows : list dp_flow_rule) (routes : list dp_route_rule) (g : Z) (w : world) : Prop :=
  exists sa hs, active_rules (dp w) = Some sa /\ rules_generation (dstats (dp w)) = g /\
    piece hs sa g flows routes /\ hs ⊆ rules_heap w.

Lemma now_active_same flows routes g w w' : active_rules (dp w') = active_rules (dp w) ->
  rules_generation (dstats (dp w')) = rules_generation (dstats (dp w)) -> rules_heap w' = rules_heap w ->
  now_active flows routes g w -> now_active flows routes g w'.
Proof. intros Ea Eg Eh (sa & hs & ? & ? & ? & ?). exists sa, hs. by rewrite Ea, Eg, Eh. Qed.

(** Finishing a publication frees the old generation only. *)
Lemma now_active_finish flows routes g hs sa go fo ro w w' rest : active_rules (dp w) = Some sa ->
  piece hs sa go fo ro -> hs ⊆ rules_heap w -> rules_heap w' = hs ∪ rest ->
  active_rules (dp w') = active_rules (dp w) ->
  rules_generation (dstats (dp w')) = rules_generation (dstats (dp w)) ->
  now_active flows routes g w -> now_active flows routes g w'.
Proof.
  intros Ha Hp Hs Eh Ea Eg (sa' & hs' & Ha' & Hg & Hp' & Hs'). rewrite Ha in Ha'. injection Ha' as <-.
  rewrite (piece_unique _ _ _ _ _ _ _ _ _ _ Hp' Hp Hs' Hs) in Hp'.
  exists sa, hs. rewrite Ea, Eg, Eh. split_and!; [done..|]. apply map_union_subseteq_l.
Qed.

(** The rest of a call, from the exchange. *)
Lemma call_from_exchanged rest wait pub c : inv rest c -> writer c = Exchanged pub ->
  (forall c1 token, step c c1 -> writer c1 = Waiting pub token ->
     exists c2, interleaves (wait token) c1 c2 /\ publish_ready token (sys c2) = true) ->
  exists c', writer c' = Idle /\ rtc step c c' /\
    (forall flows routes g, now_active flows routes g (sys c) -> now_active flows routes g (sys c')) /\
    (token ← publish_start; wait token;; '(ret, g) ← publish_finish pub; mret (ret, Some g)) (sys c) =
      Some ((0, Some (pub_generation pub)), sys c').
Proof.
  intros Hinv Hex Hwait. pose proof Hinv as [_ (q & _ & _ & _ & _ & Hq & _)].
  set (w1 := set_dp (set_rules_qsbr (Some (snd (rte_rcu_qsbr_start q))) (dp (sys c))) (sys c)).
  set (token := fst (rte_rcu_qsbr_start q)).
  set (c1 := {| sys := w1; held := held c; writer := Waiting pub token |}).
  assert (step c c1) as Hs1 by (eapply step_publish_starts; [exact Hex|by apply start_run]).
  destruct (Hwait c1 token Hs1 eq_refl) as (c2 & (Hrun2 & Hr2) & Hready).
  destruct (reader_steps_rules _ _ Hr2) as [(Eh2 & Ea2 & _ & _ & Es2) Hw2]; [done|].
  pose proof (reader_steps_step _ _ Hr2) as Hs2.
  assert (inv rest c2) as [_ (q2 & sa & hs & ? & ? & _ & _ & Ha & Hp & Hcase)] by (eapply steps_inv; [by eapply step_inv|done]).
  rewrite Hw2 in Hcase. destruct Hcase as (so & ho & Htwo & _).
  destruct (two_generations_finish _ _ _ _ _ _ Htwo) as (w3 & Hrun3 & Eh3 & _ & Ea3 & _ & _ & _ & Eg3).
  erewrite M_bind_step by by apply start_run. cbv beta. erewrite M_bind_step by exact Hrun2. cbv beta.
  erewrite M_bind_step by exact Hrun3. cbv beta iota.
  exists {| sys := w3; held := held c2; writer := Idle |}. cbn [sys] in *.
  split_and!; [done| | |done].
  2: { intros flows routes g Hact. eapply now_active_finish; [exact Ha|exact Hp| |exact Eh3|exact Ea3|exact Eg3|].
       - destruct Htwo as (_ & _ & -> & _). apply map_union_subseteq_l.
       - by eapply now_active_same; [exact Ea2|rewrite Es2|exact Eh2|]. }
  eapply rtc_l; [exact Hs1|]. eapply rtc_r; [exact Hs2|]. by apply (step_publish_finishes pub token (0, pub_generation pub) w3 c2).
Qed.

(** What the other threads do during a call: any reader steps after the exchange,
    then any that make the token's check succeed. *)
Definition others_ok (concurrent : M world unit) (wait : Z -> M world unit) (c : system) : Prop :=
  forall c1 pub, step c c1 -> writer c1 = Exchanged pub ->
    exists c2, interleaves concurrent c1 c2 /\
      forall c3 token, step c2 c3 -> writer c3 = Waiting pub token ->
        exists c4, interleaves (wait token) c3 c4 /\ publish_ready token (sys c4) = true.

(** Outcome of a call: a refusal changes nothing that readers see; a success
    makes the given rules the active generation. *)
Definition publish_outcome (rs : rule_set) (g0 : option Z) (c : system) (ret : Z) (out : option Z) (c' : system) : Prop :=
  ret < 0 /\ out = g0 /\ held c' = held c /\ rules_heap (sys c') = rules_heap (sys c) /\
    active_rules (dp (sys c')) = active_rules (dp (sys c)) /\
    rules_generation (dstats (dp (sys c'))) = rules_generation (dstats (dp (sys c))) \/
  ret = 0 /\ out = Some (u64 (rules_generation (dstats (dp (sys c))) + 1)) /\
    now_active (rs_flows rs) (rs_routes rs) (u64 (rules_generation (dstats (dp (sys c))) + 1)) (sys c').

Lemma publish_run rest c rs concurrent wait g :
  inv rest c -> writer c = Idle -> rule_set_ok rs (rules_heap (sys c)) -> others_ok concurrent wait c ->
  exists ret out c', writer c' = Idle /\ rtc step c c' /\
    dp_publish_rules concurrent wait (rs_allocate rs) (rs_flow_array rs) (Z.of_nat (length (rs_flows rs)))
      (rs_route_array rs) (Z.of_nat (length (rs_routes rs))) (Some g) (sys c) = Some ((ret, out), sys c') /\
    publish_outcome rs (Some g) c ret out c'.
Proof.
  intros Hc Hidle Hrs Hothers.
  pose proof Hc as [[Hi Hcf] (q & sa & hs & fl & rt & Hq & _ & Ha & _)]. unfold dp_publish_rules.
  destruct (swap_run rs (sys c) q sa Hrs Hi Hcf Hq Ha) as ([ret|pub] & w1 & Hrun & _ & _ & Hres);
    erewrite M_bind_step by exact Hrun; cbv beta iota.
  { destruct Hres as (Hneg & Eh & Ea & _ & Eg).
    exists ret, (Some g), {| sys := w1; held := held c; writer := Idle |}.
    split_and!; [done|apply rtc_once; by eapply step_publish_fails|done|by left; split_and!]. }
  destruct Hres as (sn & hn & Ean & Hpn & Ehn & _ & _ & _ & Hg & Hg'). rewrite Hg' in Hpn.
  set (c1 := {| sys := w1; held := held c; writer := Exchanged pub |}).
  assert (step c c1) as Hs1 by by eapply step_publish_swaps.
  destruct (Hothers c1 pub Hs1 eq_refl) as (c2 & (Hrun2 & Hr2) & Hwait).
  destruct (reader_steps_rules _ _ Hr2) as [(Eh2 & Ea2 & _ & _ & Es2) Hw2]; [done|].
  pose proof (reader_steps_step _ _ Hr2) as Hs2.
  erewrite M_bind_step by exact Hrun2. cbv beta.
  destruct (call_from_exchanged rest wait pub c2) as (c' & Hidle' & Hsteps' & Hact & Hcall);
    [eapply steps_inv; [by eapply step_inv|done]|done|done|].
  exists 0, (Some (pub_generation pub)), c'.
  split_and!; [done|eapply rtc_l; [done|by etrans]|done|right]. unfold publish_outcome. rewrite <- Hg.
  split_and!; [done..|]. apply Hact, (now_active_same _ _ _ w1); [done|by rewrite Es2|done|].
  exists sn, hn. split_and!; [done..|]. rewrite Ehn. apply map_union_subseteq_l.
Qed.

(** C19: a call of [dp_publish_rules] is a publication of the transition system,
    whatever the readers do meanwhile: it is defined; it either returns a negative
    code after a single step that changes neither the active generation nor the
    heap, and leaves [*generation] alone, or it exchanges, starts, waits and
    finishes, and returns 0 with the next generation number in [*generation],
    and the active snapshot then represents the given rules. *)
Theorem dp_publish_rules_steps rest c0 c rs concurrent wait g :
  inv rest c0 -> rtc step c0 c -> writer c = Idle -> rule_set_ok rs (rules_heap (sys c)) ->
  others_ok concurrent wait c ->
  exists ret out c', writer c' = Idle /\ rtc step c c' /\
    dp_publish_rules concurrent wait (rs_allocate rs) (rs_flow_array rs) (Z.of_nat (length (rs_flows rs)))
      (rs_route_array rs) (Z.of_nat (length (rs_routes rs))) (Some g) (sys c) = Some ((ret, out), sys c') /\
    publish_outcome rs (Some g) c ret out c'.
Proof. intros Hinv Hsteps. apply (publish_run rest). by apply (steps_inv rest c0). Qed.

(** ** Before and after *)
(** [rte_errno] is not negative. *)
Record qsbr_env_ok (env : qsbr_env) : Prop := {
  memsize_errno_ok : 0 <= memsize_errno env;
  zmalloc_errno_ok name size socket e : qsbr_zmalloc env name size socket = Some e -> 0 <= e;
  init_errno_ok n e : rte_rcu_qsbr_init env n = Some e -> 0 <= e;
}.

(** No reader is online: there is no QSBR object yet, or a configuration that
    failed has left one behind. *)
Definition no_readers (w : world) : Prop := forall q, rules_qsbr (dp w) = Some q -> online q = ∅.

Lemma dp_qsbr_create_run env w : qsbr_env_ok env -> no_readers w ->
  exists ret q, dp_qsbr_create env w = Some (ret, set_dp (set_rules_qsbr q (dp w)) w) /\
    (ret = 0 /\ (exists q0, q = Some q0 /\ online q0 = ∅) \/ ret < 0 /\ rules_qsbr (dp w) = None /\ q = None).
Proof.
  intros [Hm Hz Hi] Hno. unfold dp_qsbr_create. erewrite M_bind_step by done. cbv beta.
  destruct (rules_qsbr (dp w)) as [q|] eqn:Hq.
  { exists 0, (Some q). rewrite <- Hq at 1. split; [by destruct w as [[]]|]. left. eauto. }
  cbv zeta. case_if.
  { eexists _, None. rewrite <- Hq at 1. split; [by destruct w as [[]]|]. right. split; [by apply neg_errno_neg|done]. }
  destruct (qsbr_zmalloc env _ _ _) as [e|] eqn:Ez.
  { eexists _, None. split; [done|]. right. split; [apply neg_errno_neg; [by eapply Hz|done]|done]. }
  destruct (rte_rcu_qsbr_init env _) as [e|] eqn:Ei.
  { eexists _, None. split; [done|]. right. split; [apply neg_errno_neg; [by eapply Hi|done]|done]. }
  eexists 0, (Some _). split; [done|]. left. split; [done|]. eexists. split; [done|]. apply online_new.
Qed.

(** The states in which a configuration is accepted. *)
Definition unconfigured (d : dp_state) : bool :=
  initialized d && negb (rules_configured d || ready d || running d || ran d).

(** Configuring does not touch workers, ports or the lifecycle flags. *)
Record same_dataplane (d d' : dp_state) : Prop := {
  sd_flags : initialized d' = initialized d /\ ready d' = ready d /\ running d' = running d /\ ran d' = ran d;
  sd_workers : workers d' = workers d /\ worker_count d' = worker_count d /\
    active_workers d' = active_workers d /\ registered_readers d' = registered_readers d;
  sd_ports : ports d' = ports d /\ owned d' = owned d /\ started d' = started d /\ pool d' = pool d;
  sd_info : info d' = info d;
}.

Lemma configure_run env rs w : qsbr_env_ok env -> no_readers w -> rule_set_ok rs (rules_heap w) ->
  exists ret w', dp_configure_rules env (rs_allocate rs) (rs_flow_array rs) (Z.of_nat (length (rs_flows rs)))
      (rs_route_array rs) (Z.of_nat (length (rs_routes rs))) w = Some (ret, w') /\
    same_dataplane (dp w) (dp w') /\
    if unconfigured (dp w) then
      ret = 0 /\ rules_ok (rs_flows rs) (rs_routes rs) /\ now_active (rs_flows rs) (rs_routes rs) 1 w' /\
        inv (rules_heap w) {| sys := w'; held := ∅; writer := Idle |} \/
      ret < 0 /\ rules_heap w' = rules_heap w /\ active_rules (dp w') = active_rules (dp w) /\
        unconfigured (dp w') = true /\ no_readers w'
    else ret = (if initialized (dp w) then - EALREADY else - ENODEV) /\ w' = w.
Proof.
  intros Henv Hno [Hall Hpf Hpr Hlim Hff Hrf]. unfold dp_configure_rules, unconfigured.
  erewrite M_bind_step by done. cbv beta.
  destruct (initialized (dp w)) eqn:Hi; cbn [negb andb]; [|by eexists _, w].
  destruct (rules_configured (dp w) || ready (dp w) || running (dp w) || ran (dp w))%bool eqn:Hc; cbn [negb]; [by eexists _, w|].
  destruct (dp_qsbr_create_run env w Henv Hno) as (r0 & q & Hrun0 & [(-> & q0 & -> & Hon)|(Hneg & Hq & ->)]);
    erewrite M_bind_step by exact Hrun0; cbv beta.
  2: { rewrite (proj2 (Z.ltb_lt _ _)) by done. eexists r0, _. split; [done|]. split; [by split|]. right.
       cbn. rewrite Hi, Hc. by split_and!. }
  cbn [Z.ltb Z.compare].
  pose proof (dp_snapshot_build_wp (rs_allocate rs) (socket_id (info (dp w))) (rules_heap w) (dstats (dp w)) Hall
    (rs_flows rs) (rs_routes rs) 1 Hff Hrf (rs_flow_array rs) (rs_route_array rs) Hpf Hpr Hlim) as ([r res] & rw & Hrun & Hpost)%wp_run.
  erewrite M_bind_step by (unfold on_rules; cbn [rules_heap dp set_dp dstats set_rules_qsbr]; rewrite Hrun; done).
  cbv beta iota. destruct res as [sa|]; [destruct Hpost as (-> & _ & Hb)|destruct Hpost as (Hneg & -> & _)].
  - apply built_piece in Hb as (hn & Hp & Eh & Hd & Ec); [|done..]. cbn [Z.ltb Z.compare].
    eexists 0, _. split; [done|]. split; [by split|]. left. split_and!; [done|apply Hp|by exists sa, hn; split_and!; [..|cbn; rewrite Eh; apply map_union_subseteq_l]|]. split; [done|].
    exists q0, sa, hn, (rs_flows rs), (rs_routes rs). cbn. rewrite Eh, dom_empty_L. split_and!; done.
  - rewrite (proj2 (Z.ltb_lt _ _)) by done. eexists r, _. split; [done|]. split; [by split|]. right. cbn. rewrite Hi, Hc.
    split_and!; try done. by intros ? [= <-].
Qed.

(** Configuring a router that is initialised and has not been configured,
    made ready or run either starts generation 1 and establishes the invariant of
    publication, with the rules valid, or returns a negative code, leaves the
    heap, the active pointer and every lifecycle flag as they were, and can be
    tried again (a QSBR object created by the failed attempt is reused); in any
    other state it returns -ENODEV or -EALREADY and changes nothing. *)
Theorem dp_configure_rules_contract env rs w : qsbr_env_ok env -> no_readers w ->
  rule_set_ok rs (rules_heap w) ->
  exists ret w', dp_configure_rules env (rs_allocate rs) (rs_flow_array rs) (Z.of_nat (length (rs_flows rs)))
      (rs_route_array rs) (Z.of_nat (length (rs_routes rs))) w = Some (ret, w') /\
    same_dataplane (dp w) (dp w') /\
    if unconfigured (dp w) then
      ret = 0 /\ rules_ok (rs_flows rs) (rs_routes rs) /\ now_active (rs_flows rs) (rs_routes rs) 1 w' /\
        inv (rules_heap w) {| sys := w'; held := ∅; writer := Idle |} \/
      ret < 0 /\ rules_heap w' = rules_heap w /\ active_rules (dp w') = active_rules (dp w) /\
        unconfigured (dp w') = true /\ no_readers w'
    else ret = (if initialized (dp w) then - EALREADY else - ENODEV) /\ w' = w.
Proof. apply configure_run. Qed.

(** The state after a teardown. *)
Definition torn_down (c : dp_ctl_stats) (d : dp_state) : dp_state :=
  set_writer_active false (set_rules_configured false (set_dstats c (set_rules_qsbr None (set_active_rules None d)))).

Lemma teardown_run rest c : inv rest c -> writer c = Idle ->
  exists ctl', dp_rules_teardown (sys c) = Some (tt, set_rules_heap rest (set_dp (torn_down ctl' (dp (sys c))) (sys c))) /\
    qsbr_freed ctl' = 1.
Proof.
  intros [_ (q & sa & hs & fl & rt & Hq & _ & Ha & Hp & Hcase)] Hw.
  rewrite Hw in Hcase. destruct Hcase as (Eh & Hd & _). unfold dp_rules_teardown.
  erewrite M_bind_step by done. cbv beta. erewrite M_bind_step by done. cbv beta.
  cbn [dp set_dp set_writer_active active_rules]. rewrite Ha.
  erewrite M_bind_step by done. cbv beta.
  destruct (free_piece hs sa _ fl rt rest (dstats (dp (sys c))) false true Hp Hd) as (c' & Hrun & _).
  erewrite M_bind_step by (unfold on_rules; cbn [rules_heap dp set_dp dstats set_writer_active set_active_rules];
    rewrite Eh, Hrun; done).
  cbv beta. cbn [dp set_dp set_writer_active set_active_rules rules_qsbr]. rewrite Hq.
  exists (set_qsbr_freed 1 c'). by split.
Qed.

(** What teardown can take apart: a configured router that no thread uses, or one
    without an active snapshot. *)
Definition dismantles (rest : heap_t) (w : world) : Prop :=
  inv rest {| sys := w; held := ∅; writer := Idle |} \/ active_rules (dp w) = None /\ rules_heap w = rest.

Lemma dismantles_run rest w : dismantles rest w ->
  exists ctl', dp_rules_teardown w = Some (tt, set_rules_heap rest (set_dp (torn_down ctl' (dp w)) w)).
Proof.
  intros [Hinv|[Ha Eh]].
  - destruct (teardown_run rest _ Hinv eq_refl) as (ctl' & Hrun & _). by exists ctl'.
  - destruct w as [d h m l]. destruct d as [? ? ? ? ? ? ? ? p q ? ? ? ? ? ? ? ? ? c]. cbn in Ha, Eh. subst p h.
    destruct q as [q|]; [by exists (set_qsbr_freed 1 c)|by exists c].
Qed.

(** Whenever no publication is waiting, teardown is defined, gives back exactly the memory the router started from
    and leaves no active rules, no QSBR object and no configured flag. *)
Theorem dp_rules_teardown_restores rest c0 c :
  inv rest c0 -> rtc step c0 c -> writer c = Idle ->
  exists w', dp_rules_teardown (sys c) = Some (tt, w') /\
    rules_heap w' = rest /\ active_rules (dp w') = None /\ rules_qsbr (dp w') = None /\
    rules_configured (dp w') = false /\ writer_active (dp w') = false /\ qsbr_freed (dstats (dp w')) = 1.
Proof.
  intros Hinv Hsteps Hw. destruct (teardown_run rest c) as (ctl' & -> & ?); [by eapply steps_inv|done|].
  by eexists.
Qed.
End Contract.
