(* ===== verification/BurstSpec.v ===== *)
(** * A burst sees one generation

    A worker loads the active snapshot once per burst and processes up to 32
    packets through it, while the writer may exchange, wait for and free
    snapshots at any point in between.  The model of the worker runs the burst
    against one heap; this file shows that nothing is lost by that: a burst whose
    packets are processed at different moments of any execution of the
    publication protocol is the burst run at the moment of the load. *)
From Stdlib Require Import ZArith Lia.
From stdpp Require Import base list numbers option gmap strings relations.
From S2P Require Import Prelude Host Packet Parser Api Tables Heap Snapshot SnapshotSpec LookupSpec Action Rcu State Rules Worker Publish PublishSpec.

(** ** The memory of a generation decides a packet *)
Section Agree.
Context {H : Host} {C : Checksums} {T : DpdkTables} {TO : DpdkTablesOk T}.
Context (hs h : gmap Z hobj) (Hsub : hs ⊆ h).

Lemma get_action_mono p aa l : ap_base p = aa -> get_actions hs aa = Some l -> get_action h p = get_action hs p.
Proof.
  intros E Hl. unfold get_action. by rewrite E, (get_actions_mono _ _ _ _ Hsub Hl), Hl.
Qed.

(** Looking up in a heap that has the generation looks at nothing else. *)
Lemma lookup_agree sa gen flows routes meta : snapshot_rep hs sa gen flows routes ->
  dp_lookup_packet h meta (Some sa) = dp_lookup_packet hs meta (Some sa) /\
  forall res p, dp_lookup_packet hs meta (Some sa) = Some (res, Some p) -> get_action h p = get_action hs p.
Proof.
  intros (aa & ha & la & t & l & Hsn & Ha & Hf & Hr). unfold dp_lookup_packet.
  rewrite (get_snapshot_mono _ _ _ _ Hsub Hsn), Hsn. bind_cbn.
  cbn [built_snapshot flow_table route_table actions action_count]. set (k := dp_flow_key_from_meta meta).
  assert (forall p, ap_base p = aa -> Z.of_nat (length flows) + Z.of_nat (length routes) <> 0 ->
    get_action h p = get_action hs p) as Hact by (intros p E Hne; eapply get_action_mono; eauto).
  rewrite (flow_answer hs flows aa ha t k Hf), (flow_answer h flows aa ha t k)
    by (intros Hne; destruct (Hf Hne); split; [by eapply get_hash_mono|done]).
  destruct (index_of flow_rule_key flows k) as [i|] eqn:Hi; cbn [fmap option_fmap option_map]; bind_cbn.
  { split; [done|]. intros res p [= <- <-]. apply Hact; [done|]. apply index_of_lt in Hi. lia. }
  case_if; bool_to_prop; [done|]. destruct Hr as [Hl _]; [done|].
  rewrite (get_lpm_mono _ _ _ _ Hsub Hl), Hl. bind_cbn. split; [done|]. intros res p.
  destruct (rte_lpm_lookup l _); [|done]. case_if; [|done].
  rewrite (proj2 (Z.eqb_neq (_ + _) 0)) by lia. bind_cbn. intros [= <- <-]. apply Hact; [done|lia].
Qed.

Lemma process_agree stack_meta mbuf sa gen flows routes w : snapshot_rep hs sa gen flows routes ->
  dp_process_packet h stack_meta mbuf (Some sa) w = dp_process_packet hs stack_meta mbuf (Some sa) w.
Proof.
  intros Hrep. unfold dp_process_packet, mbind, M_bind.
  match goal with |- match ?m w with _ => _ end = _ => destruct (m w) as [[packet w1]|]; [|done] end.
  destruct (lift (dp_parse_packet packet (Some stack_meta)) w1) as [[[[| |] meta] w2]|]; try done.
  destruct (count Parse_ok 1 w2) as [[? w3]|]; [|done].
  destruct (lift meta w3) as [[m w4]|]; [|done].
  destruct (lookup_agree sa gen flows routes m Hrep) as [-> Hact].
  unfold lift at 1 4. destruct (dp_lookup_packet hs m (Some sa)) as [[res [p|]]|] eqn:E; try done.
  specialize (Hact _ _ eq_refl). destruct res; try done; cbn [mbind option_bind]; by rewrite Hact.
Qed.
End Agree.

(** ** Interleaving *)
Section Burst.
Context {H : Host} {C : Checksums} {T : DpdkTables} {TO : DpdkTablesOk T} {Q : Qsbr} {QO : QsbrOk Q}.
Abbreviation heap_t := (gmap Z hobj).

(** A step after which reader [r] still dereferences [p]. *)
Definition step_under (r p : Z) (c c' : system) : Prop := step c c' /\ held c' !! r = Some (Some p).

(** The memory of the generation a reader holds. *)
Lemma held_piece rest c r p : inv rest c -> held c !! r = Some (Some p) ->
  exists hs g flows routes, piece hs p g flows routes /\ hs ⊆ rules_heap (sys c).
Proof.
  intros [_ (q & sa & hs & fl & rt & _ & _ & _ & Hp & Hw)] Hr.
  destruct (writer c) as [|pub|pub token].
  - destruct Hw as (-> & _ & Hh). rewrite (Hh r p Hr). do 4 eexists. split; [done|]. apply map_union_subseteq_l.
  - destruct Hw as (so & ho & (_ & (go & fo & ro & Hpo) & -> & Hd & _) & Hh).
    destruct (Hh r p Hr) as [-> | ->]; do 4 eexists; (split; [done|]); [apply map_union_subseteq_l|].
    etrans; [apply map_union_subseteq_l|]. by apply map_union_subseteq_r.
  - destruct Hw as (so & ho & (_ & (go & fo & ro & Hpo) & -> & Hd & _) & _ & Hh).
    destruct (Hh r p Hr) as [->|[-> _]]; do 4 eexists; (split; [done|]); [apply map_union_subseteq_l|].
    etrans; [apply map_union_subseteq_l|]. by apply map_union_subseteq_r.
Qed.

(** What is freed is never what a reader holds. *)
Lemma step_keeps_piece rest c c' r p hs g flows routes : inv rest c -> held c !! r = Some (Some p) ->
  piece hs p g flows routes -> hs ⊆ rules_heap (sys c) -> step c c' -> hs ⊆ rules_heap (sys c').
Proof.
  intros Hinv Hr Hpc Hsub Hs.
  pose proof Hinv as [[Hi Hc] (q & sa & hs0 & fl & rt & Hq & _ & Ha & Hp & Hw)].
  destruct Hs as [r' c w' _ Hrun|r' p' w' c _ Hrun|r' p' w' c _ Hrun|r' w' c _ Hrun|rs ret w' c Hid Hrs Hrun
    |rs pub w' c Hid Hrs Hrun|pub token w' c _ Hrun|pub token res w' c Hwait Hready Hrun]; cbn [sys].
  - destruct (register_effect _ _ _ Hrun) as (? & _ & [-> _] & _). done.
  - unfold dp_rules_active_load, get, mbind, M_bind in Hrun. by injection Hrun as _ <-.
  - destruct (quiescent_effect _ _ _ Hrun) as (? & _ & [-> _] & _). done.
  - destruct (unregister_effect _ _ _ Hrun) as (? & _ & [-> _] & _). done.
  - destruct (swap_run rs (sys c) q sa Hrs Hi Hc Hq Ha) as (res & w1 & Hrun1 & _ & _ & Hres).
    rewrite Hrun in Hrun1. injection Hrun1 as <- <-. destruct Hres as (_ & -> & _). done.
  - destruct (swap_run rs (sys c) q sa Hrs Hi Hc Hq Ha) as (res & w1 & Hrun1 & _ & _ & Hres).
    rewrite Hrun in Hrun1. injection Hrun1 as <- <-. destruct Hres as (sn & hn & _ & _ & -> & Hd & _).
    etrans; [exact Hsub|]. by apply map_union_subseteq_r.
  - rewrite (start_run _ q Hq) in Hrun. by injection Hrun as _ <-.
  - rewrite Hwait in Hw. destruct Hw as (so & ho & Htwo & Hiss & Hh).
    assert (p = sa) as ->.
    { destruct (Hh r p Hr) as [?|[_ Hpend]]; [done|]. unfold publish_ready in Hready. rewrite Hq in Hready.
      apply check_spec in Hready; [|done]. rewrite Hready in Hpend. by apply not_elem_of_empty in Hpend. }
    destruct (two_generations_finish _ _ _ _ _ _ Htwo) as (w1 & Hrun1 & Eh & _).
    rewrite Hrun in Hrun1. injection Hrun1 as _ <-. rewrite Eh.
    assert (hs = hs0) as ->.
    { eapply piece_unique; [exact Hpc|exact Hp|exact Hsub|]. destruct Htwo as (_ & _ & -> & _).
      apply map_union_subseteq_l. }
    apply map_union_subseteq_l.
Qed.

Lemma steps_keep_piece rest r p hs g flows routes c c' : rtc (step_under r p) c c' -> inv rest c ->
  held c !! r = Some (Some p) -> piece hs p g flows routes -> hs ⊆ rules_heap (sys c) -> hs ⊆ rules_heap (sys c').
Proof.
  induction 1 as [|c c1 c2 [Hs Hr1] _ IH]; intros Hinv Hr Hpc Hsub; [done|].
  apply IH; [by eapply step_inv|done|done|]. by eapply step_keeps_piece.
Qed.

(** The loop of a burst, other threads acting between packets: [heap_at k] is the
    heap when packet [k] is processed. *)
Fixpoint interleaved_loop (stack_meta : dp_packet_meta) (heap_at : nat -> heap_t) (snapshot : option Z)
    (i n : nat) (pkts : list Z) (tx_count : Z) : M packet_world (list Z * Z) :=
  match n with
  | O => mret (pkts, tx_count)
  | S n =>
    id ← lift (pkts !! i);
    candidate ← dp_process_packet (heap_at i) stack_meta (Some id) snapshot;
    match candidate with
    | None => interleaved_loop stack_meta heap_at snapshot (S i) n pkts tx_count
    | Some c =>
      if tx_count <? Z.of_nat (length pkts)
      then interleaved_loop stack_meta heap_at snapshot (S i) n (<[Z.to_nat tx_count := c]> pkts) (u16 (tx_count + 1))
      else ub
    end
  end.

Lemma interleaved_loop_same stack_meta heap_at h snapshot : forall n i pkts tx_count w,
  (forall k id w, dp_process_packet (heap_at k) stack_meta (Some id) snapshot w =
                  dp_process_packet h stack_meta (Some id) snapshot w) ->
  interleaved_loop stack_meta heap_at snapshot i n pkts tx_count w =
    process_loop h stack_meta snapshot i n pkts tx_count w.
Proof.
  induction n as [|n IH]; intros i pkts tx_count w Hsame; [done|]. cbn [interleaved_loop process_loop].
  unfold mbind, M_bind. destruct (lift (pkts !! i) w) as [[id w1]|]; [|done]. rewrite Hsame.
  destruct (dp_process_packet h stack_meta (Some id) snapshot w1) as [[[c|] w2]|]; [|by apply IH|done].
  case_if; [by apply IH|done].
Qed.

(** C22: bursts are atomic.  In every reachable state where a worker has loaded a
    snapshot, let other threads take any steps while it works through its burst,
    publications that exchange and free snapshots included: every packet gets
    the verdict it would have got at the moment of the load, so the loop computes
    exactly what it computes when nothing moves in between, and the packets of
    one burst are all decided by one complete rule set. *)
Theorem burst_sees_one_generation rest c0 c r p (at_packet : nat -> system) stack_meta n pkts w :
  inv rest c0 -> rtc step c0 c -> held c !! r = Some (Some p) ->
  (forall k, rtc (step_under r p) c (at_packet k)) ->
  interleaved_loop stack_meta (fun k => rules_heap (sys (at_packet k))) (Some p) 0 n pkts 0 w =
    process_loop (rules_heap (sys c)) stack_meta (Some p) 0 n pkts 0 w /\
  exists flows routes, rules_ok flows routes /\
    forall k meta, fits 32 (dst_ipv4 meta) ->
      exists answer, dp_lookup_packet (rules_heap (sys (at_packet k))) meta (Some p) = Some answer /\
        decides (rules_heap (sys (at_packet k))) answer (lookup_spec flows routes meta).
Proof.
  intros Hinv Hsteps Hr Hat. pose proof (steps_inv _ _ _ Hinv Hsteps) as Hc.
  destruct (held_piece _ _ _ _ Hc Hr) as (hs & g & flows & routes & Hp & Hsub).
  assert (forall k, hs ⊆ rules_heap (sys (at_packet k))) as Hk.
  { intros k. by apply (steps_keep_piece rest r p hs g flows routes c). }
  pose proof (piece_rep _ _ _ _ _ Hp) as Hrep. split.
  - apply interleaved_loop_same. intros k id w1.
    rewrite (process_agree _ _ (Hk k) _ _ _ _ _ _ _ Hrep). symmetry. by eapply process_agree.
  - exists flows, routes. split; [apply Hp|]. intros k meta Hm. by eapply piece_lookup.
Qed.
End Burst.
