(* ===== verification/ReaderSpec.v ===== *)
(** * A worker as a reader of the publication system

    [RunSpec] runs a worker against other threads it makes assumptions about:
    that the active snapshot stays intact, that the rules are not torn down.
    Here these assumptions are discharged: the other threads take steps of the
    publication system, or do packet work of their own, and the worker itself is
    one of the system's readers from its registration to its way out. *)
From Stdlib Require Import ZArith Lia.
From stdpp Require Import base list numbers option gmap strings relations.
From S2P Require Import Prelude Host Packet Api Tables Heap Snapshot SnapshotSpec LookupSpec Action Rcu State StatsSpec Rules Worker WorkerSpec RunSpec Publish PublishSpec.

(** ** What rule operations leave alone *)
Ltac outside := split; repeat apply conj; (reflexivity || congruence).

Section Outside.
Context {T : DpdkTables} {Q : Qsbr}.

(** Everything but the rules, the QSBR object, the writer and the reader count. *)
Record outside (w w' : world) : Prop := {
  out_packets : mbufs w' = mbufs w /\ wire w' = wire w;
  out_workers : workers (dp w') = workers (dp w) /\ worker_count (dp w') = worker_count (dp w) /\
    active_workers (dp w') = active_workers (dp w);
  out_run : ready (dp w') = ready (dp w) /\ running (dp w') = running (dp w) /\ ran (dp w') = ran (dp w) /\
    stop (dp w') = stop (dp w);
  out_ports : ports (dp w') = ports (dp w) /\ owned (dp w') = owned (dp w) /\ started (dp w') = started (dp w) /\
    pool (dp w') = pool (dp w);
  out_info : info (dp w') = info (dp w);
}.

#[export] Instance outside_preorder : PreOrder outside.
Proof.
  split; [intros w; outside|].
  intros w1 w2 w3 [[? ?] (? & ? & ?) (? & ? & ? & ?) (? & ? & ? & ?) ?] [[? ?] (? & ? & ?) (? & ? & ? & ?) (? & ? & ? & ?) ?].
  outside.
Qed.

Context (R : world -> world -> Prop) {RP : PreOrder R}.
Context (R_rules : forall w h c, R w (set_rules_heap h (set_dp (set_dstats c (dp w)) w))).
Abbreviation framed := (Prelude.framed R).

Lemma framed_on_dp f : (forall w, R w (set_dp (f (dp w)) w)) -> framed (on_dp f).
Proof. intros Hf w a w' [= _ <-]. apply Hf. Qed.

Lemma framed_on_rules {A} (m : M rules_world A) : framed (on_rules m).
Proof. intros w a w'. unfold on_rules. destruct (m _) as [[b rw]|]; [|done]. intros [= _ <-]. apply R_rules. Qed.

Lemma framed_on_stats f : framed (on_stats f).
Proof.
  apply framed_on_dp. intros w. assert (w = set_rules_heap (rules_heap w) w) as E by by destruct w.
  rewrite E at 2. apply R_rules.
Qed.
End Outside.

#[export] Hint Resolve framed_on_rules framed_on_stats : frames.

Section Count.
Context {T : DpdkTables} {Q : Qsbr}.

(** The number of registered readers is the readers' business. *)
Definition same_count (w w' : world) : Prop := registered_readers (dp w') = registered_readers (dp w).

#[export] Instance same_count_preorder : PreOrder same_count.
Proof. split; [done|]. intros w1 w2 w3. unfold same_count. congruence. Qed.

Lemma outside_rules w h c : outside w (set_rules_heap h (set_dp (set_dstats c (dp w)) w)).
Proof. outside. Qed.

Lemma same_count_rules w h c : same_count w (set_rules_heap h (set_dp (set_dstats c (dp w)) w)).
Proof. done. Qed.
End Count.
#[export] Hint Resolve outside_preorder same_count_preorder outside_rules same_count_rules : frames.

Ltac framed :=
  repeat first [apply framed_bind; [apply _| |intros ?] | solve [eauto with frames]
               | apply framed_on_dp; intros ?; first [reflexivity | outside] | case_match].

Section Reader.
Context {H : Host} {HO : HostOk H} {C : Checksums} {CO : ChecksumsOk C}.
Context {T : DpdkTables} {TO : DpdkTablesOk T} {Q : Qsbr} {QO : QsbrOk Q}.

Lemma register_framed r : framed outside (dp_rules_reader_register r).
Proof. unfold dp_rules_reader_register. framed. Qed.
Lemma load_framed : framed outside dp_rules_active_load.
Proof. unfold dp_rules_active_load. framed. Qed.
Lemma quiescent_framed r : framed outside (dp_rules_reader_quiescent r).
Proof. unfold dp_rules_reader_quiescent. framed. Qed.
Lemma unregister_framed r : framed outside (dp_rules_reader_unregister r).
Proof. unfold dp_rules_reader_unregister. framed. Qed.
Lemma swap_framed rs : framed outside (swap rs).
Proof. unfold swap, publish_swap. framed. Qed.
Lemma start_framed : framed outside publish_start.
Proof. unfold publish_start. framed. Qed.
Lemma finish_framed p : framed outside (publish_finish p).
Proof. unfold publish_finish. framed. Qed.

Lemma step_outside c c' : step c c' -> outside (sys c) (sys c').
Proof.
  destruct 1; cbn [sys]; [eapply register_framed|eapply load_framed|eapply quiescent_framed|eapply unregister_framed
    |eapply swap_framed|eapply swap_framed|eapply start_framed|eapply finish_framed]; done.
Qed.

(** ** The reader count counts the readers *)
Definition counted (c : system) : Prop := registered_readers (dp (sys c)) = u32 (Z.of_nat (size (held c))).

Lemma register_count r w w' : dp_rules_reader_register r w = Some (0, w') ->
  registered_readers (dp w') = u32 (registered_readers (dp w) + 1).
Proof.
  unfold dp_rules_reader_register, mbind, M_bind, get, on_dp, modify. destruct (rules_qsbr (dp w)) as [q|]; [|done].
  case_if; [done|]. destruct (rte_rcu_qsbr_thread_register q r) as [[e|] q'] eqn:E; [|by intros [= <-]].
  intros [= He _]. exfalso. unfold neg_errno, EIO in He. destruct (Z.eqb_spec e 0); lia.
Qed.

Lemma unregister_count r w w' : dp_rules_reader_unregister r w = Some (tt, w') ->
  registered_readers (dp w') = u32 (registered_readers (dp w) - 1).
Proof.
  unfold dp_rules_reader_unregister, mbind, M_bind, get, lift, on_dp, modify.
  destruct (rules_qsbr (dp w)) as [q|]; [|done]. bind_cbn. by intros [= <-].
Qed.

Lemma load_same_count : framed same_count dp_rules_active_load.
Proof. unfold dp_rules_active_load. framed. Qed.
Lemma quiescent_same_count r : framed same_count (dp_rules_reader_quiescent r).
Proof. unfold dp_rules_reader_quiescent. framed. Qed.
Lemma swap_same_count rs : framed same_count (swap rs).
Proof. unfold swap, publish_swap. framed. Qed.
Lemma start_same_count : framed same_count publish_start.
Proof. unfold publish_start. framed. Qed.
Lemma finish_same_count p : framed same_count (publish_finish p).
Proof. unfold publish_finish. framed. Qed.

Lemma counted_insert c r p n : held c !! r = Some p -> counted c ->
  registered_readers (dp (sys c)) = u32 (Z.of_nat (size (<[r := n]> (held c)))).
Proof. intros Hr ->. by rewrite map_size_insert_Some by by eexists. Qed.

Lemma step_counted c c' : step c c' -> counted c -> counted c'.
Proof.
  unfold counted.
  destruct 1 as [r c w' Hr Hrun|r p w' c Hr Hrun|r p w' c Hr Hrun|r w' c Hr Hrun|rs ret w' c _ _ Hrun
    |rs pub w' c _ _ Hrun|pub token w' c _ Hrun|pub token res w' c _ _ Hrun]; intros Hc; cbn [sys held].
  - rewrite (register_count _ _ _ Hrun), Hc, wrap_add_l, map_size_insert_None by done. f_equal. lia.
  - rewrite (load_same_count _ _ _ Hrun). by eapply counted_insert.
  - rewrite (quiescent_same_count _ _ _ _ Hrun). by eapply counted_insert.
  - rewrite (unregister_count _ _ _ Hrun), Hc. rewrite map_size_delete_Some by by eexists.
    assert (size (held c) <> 0%nat) by (intros E%map_size_empty_inv; by rewrite E in Hr).
    unfold Z.sub. rewrite wrap_add_l. f_equal. lia.
  - by rewrite (swap_same_count _ _ _ _ Hrun).
  - by rewrite (swap_same_count _ _ _ _ Hrun).
  - by rewrite (start_same_count _ _ _ Hrun).
  - by rewrite (finish_same_count _ _ _ _ Hrun).
Qed.

Record sound (rest : gmap Z hobj) (c : system) : Prop := { sound_inv : inv rest c; sound_count : counted c }.

Lemma step_sound rest c c' : step c c' -> sound rest c -> sound rest c'.
Proof. intros Hs [Hi Hc]. split; [by eapply step_inv|by eapply step_counted]. Qed.

(** ** Packet work between rule operations *)
Lemma inv_work rest c w' : inv rest c -> same_rules (sys c) w' -> rules_qsbr (dp w') = rules_qsbr (dp (sys c)) ->
  inv rest {| sys := w'; held := held c; writer := writer c |}.
Proof.
  intros Hinv Hsame Eq. pose proof Hinv as [_ (q & sa & hs & fl & rt & Hq & Hon & _)].
  eapply inv_reader; [done|done|by rewrite Eq|done| |by auto]. intros q' Hq' t Ht. rewrite Hq in Hq'. injection Hq' as <-. auto.
Qed.

Lemma sound_work rest c w' : sound rest c -> same_rules (sys c) w' -> rules_qsbr (dp w') = rules_qsbr (dp (sys c)) ->
  same_count (sys c) w' -> sound rest {| sys := w'; held := held c; writer := writer c |}.
Proof. intros [Hi Hc] Hs Hq Hn. split; [by apply inv_work|]. unfold counted. cbn. by rewrite Hn. Qed.

(** The active snapshot is one a worker can use. *)
Lemma inv_view rest c : inv rest c -> exists flows routes, view (rules_heap (sys c)) (active_rules (dp (sys c))) flows routes.
Proof.
  intros [_ (q & sa & hs & fl & rt & _ & _ & -> & [_ Hrep Hok [Hf Hr]] & Hw)]. exists fl, rt. split; try done.
  exists (rules_generation (dstats (dp (sys c)))). eapply snapshot_rep_mono; [|done].
  destruct (writer c) as [|pub|pub token]; [destruct Hw as (-> & _)|destruct Hw as (so & ho & (_ & _ & -> & _) & _)
    |destruct Hw as (so & ho & (_ & _ & -> & _) & _)]; apply map_union_subseteq_l.
Qed.

(** ** One worker among the others *)
Context (stack_meta : dp_packet_meta) (i : nat) (id : Z).

(** What the packet work of the others keeps besides: chosen by the client, and
    kept by rule operations and by this worker's own packet work. *)
Context (K : world -> world -> Prop) {KP : PreOrder K}.
Context (K_outside : forall w w', outside w w' -> K w w').
Context (K_packets : forall w ctx ctx' ms ws, workers (dp w) !! i = Some ctx -> ctx_info ctx' = ctx_info ctx ->
  K w (set_wire ws (set_mbufs ms (set_dp (set_workers (<[i := ctx']> (workers (dp w))) (dp w)) w)))).

(** Another thread acts: a step of the publication system by another reader or
    the writer, or work on its own packets and its own context. *)
Inductive others : system -> system -> Prop :=
  | others_step c c' : step c c' -> held c' !! id = held c !! id -> others c c'
  | others_work c w' : same_rules (sys c) w' -> rules_qsbr (dp w') = rules_qsbr (dp (sys c)) ->
      workers (dp w') !! i = workers (dp (sys c)) !! i -> mbufs w' = mbufs (sys c) -> same_count (sys c) w' ->
      K (sys c) w' ->
      others c {| sys := w'; held := held c; writer := writer c |}.

Lemma others_keep rest c c' : rtc others c c' -> sound rest c ->
  sound rest c' /\ held c' !! id = held c !! id /\ workers (dp (sys c')) !! i = workers (dp (sys c)) !! i /\
  mbufs (sys c') = mbufs (sys c) /\ K (sys c) (sys c').
Proof.
  induction 1 as [c|c c1 c2 Ho _ IH]; intros Hinv; [by split_and!|].
  assert (sound rest c1 /\ held c1 !! id = held c !! id /\ workers (dp (sys c1)) !! i = workers (dp (sys c)) !! i /\
    mbufs (sys c1) = mbufs (sys c) /\ K (sys c) (sys c1)) as (Hinv1 & Eh & Ew & Em & HK).
  { destruct Ho as [c c' Hs Hh|c w' Hsame Eq Ew Em Hn HK]; [|split; [by apply sound_work|by split_and!]].
    pose proof (step_outside _ _ Hs) as Hout. split; [by eapply step_sound|]. split; [done|].
    destruct Hout as [[Em _] (Ew & _) _ _ _]. rewrite Ew. split_and!; [done|done|]. by apply K_outside, step_outside. }
  destruct (IH Hinv1) as (? & ? & ? & ? & ?). split_and!; [done|congruence|congruence|congruence|by etrans].
Qed.

(** A schedule in the system: the others bring the world to where [stop] is tested.
    [left] holds where it is seen. *)
Fixpoint turns_in (left : system -> Prop) (ts : list turn) (c : system) : Prop :=
  match ts with
  | [] => False
  | t :: ts => exists c1, rtc others c c1 /\ turn_others t (sys c) = sys c1 /\
      if stop (dp (sys c1)) then left c1 else
        poll_ok (turn_poll t) (mbufs (sys c1)) /\
        forall pkts pkts' w', worker_turn stack_meta i (turn_poll t) pkts (sys c1) = Some (pkts', w') ->
          turns_in left ts {| sys := w'; held := held c1; writer := writer c1 |}
  end.

(** What a turn does to the rest of the world. *)
Lemma worker_turn_effect p pkts w1 pkts' w' ctx : worker_turn stack_meta i p pkts w1 = Some (pkts', w') ->
  workers (dp w1) !! i = Some ctx -> worker_id (ctx_info ctx) = id ->
  exists w2, same_rules w1 w2 /\ rules_qsbr (dp w2) = rules_qsbr (dp w1) /\
    same_count w1 w2 /\ K w1 w2 /\ dp_rules_reader_quiescent id w2 = Some (tt, w').
Proof.
  intros Hrun Hctx Hid. rewrite worker_turn_loads in Hrun. unfold dp_rules_active_load in Hrun.
  do 2 (erewrite M_bind_step in Hrun by done; cbv beta in Hrun).
  apply M_bind_Some in Hrun as (pkts2 & w2 & Hp & Hrun). apply (on_packets_Some _ _ _ ctx) in Hp as (pw & _ & ->); [|done].
  erewrite M_bind_step in Hrun by by apply own_id_with_packets. cbv beta in Hrun. rewrite Hid in Hrun.
  apply M_bind_Some in Hrun as ([] & w3 & Hq & [= _ <-]). exists (with_packets i ctx pw w1).
  split_and!; [done..|by eapply K_packets|done].
Qed.

(** One turn: the load, the burst, the report. *)
Lemma turn_in_system rest p pkts c1 B : sound rest c1 -> held c1 !! id = Some None -> worker_at i id B (sys c1) ->
  poll_ok p (mbufs (sys c1)) -> Z.of_nat (length pkts) = DP_BURST_SIZE ->
  exists pkts' w', worker_turn stack_meta i p pkts (sys c1) = Some (pkts', w') /\
    sound rest {| sys := w'; held := held c1; writer := writer c1 |} /\
    worker_at i id B w' /\ Z.of_nat (length pkts') = DP_BURST_SIZE /\ K (sys c1) w'.
Proof.
  intros Hinv1 Hh1 Hat Hp HL.
  pose proof (inv_view rest c1 (sound_inv _ _ Hinv1)) as Hview.
  pose proof (sound_inv _ _ Hinv1) as [_ (q & sa & _ & _ & _ & Hq & _ & Ha & _)].
  destruct (worker_turn_spec stack_meta i id B p pkts (sys c1) Hat) as (pkts' & w' & Hrun & Hat' & HL'); [by split|done|].
  exists pkts', w'. split; [done|]. destruct Hat as [(ctx & Hctx & Hid & _) _ _].
  destruct (worker_turn_effect p pkts (sys c1) pkts' w' ctx Hrun Hctx Hid) as (w2 & Hsame & Eq & Hn & HK2 & Hqu).
  assert (sound rest {| sys := sys c1; held := <[id := Some sa]> (held c1); writer := writer c1 |}) as Hinv2.
  { eapply step_sound; [|exact Hinv1]. eapply step_load; [done|]. unfold dp_rules_active_load.
    erewrite M_bind_step by done. by rewrite Ha. }
  set (c3 := {| sys := w2; held := <[id := Some sa]> (held c1); writer := writer c1 |}).
  assert (sound rest c3) as Hinv3 by by apply (sound_work _ _ _ Hinv2).
  assert (held c3 !! id = Some (Some sa)) as Hh3 by by apply lookup_insert_eq.
  pose proof (step_sound rest _ _ (step_quiescent id (Some sa) w' c3 Hh3 Hqu) Hinv3) as Hinv4.
  cbn [c3 held writer] in Hinv4.
  rewrite insert_insert_eq, insert_id in Hinv4 by done. split_and!; try done.
  etrans; [done|]. apply K_outside. by eapply quiescent_framed.
Qed.

Lemma turns_in_system rest B left : forall ts pkts c, sound rest c -> held c !! id = Some None -> worker_at i id B (sys c) ->
  turns_in left ts c -> Z.of_nat (length pkts) = DP_BURST_SIZE ->
  exists pkts' c', worker_loop stack_meta i ts pkts (sys c) = Some (pkts', sys c') /\ left c' /\ sound rest c' /\
    held c' !! id = Some None /\ worker_at i id B (sys c') /\ K (sys c) (sys c').
Proof.
  induction ts as [|t ts IH]; intros pkts c Hinv Hh Hat Hts HL; [done|].
  destruct Hts as (c1 & Ho & Et & Hts). destruct (others_keep rest c c1 Ho Hinv) as (Hinv1 & Hh1 & Ew & Em & HK).
  rewrite Hh in Hh1. assert (worker_at i id B (sys c1)) as Hat1.
  { eapply left_alone_at; [|done]. split; [done|done|]. destruct Hinv1 as [[_ (q & sa & _ & _ & _ & Hq & _)] _]. by eexists. }
  cbn [worker_loop]. do 2 (erewrite M_bind_step by done; cbv beta). rewrite Et.
  destruct (stop (dp (sys c1))); [by exists pkts, c1; split_and!|]. destruct Hts as [Hp Hts].
  destruct (turn_in_system rest (turn_poll t) pkts c1 B Hinv1 Hh1 Hat1 Hp HL) as (pkts1 & w1 & Hrun & Hinv2 & Hat2 & HL1 & HK1).
  destruct (IH pkts1 _ Hinv2 Hh1 Hat2 (Hts _ _ _ Hrun) HL1) as (pkts' & c' & Hloop & Hleft & Hinv' & Hh' & Hat' & HK').
  exists pkts', c'. erewrite M_bind_step by exact Hrun. split_and!; try done. etrans; [done|]. by etrans.
Qed.

(** ** The whole life of the worker *)

(** The world after the worker has unregistered and recorded its result. *)
Definition departed (q : rcu) (w : world) : world :=
  let d := set_rules_qsbr (Some (rte_rcu_qsbr_thread_unregister (rte_rcu_qsbr_thread_offline q id) id)) (dp w) in
  let d := set_registered_readers (u32 (registered_readers d - 1)) d in
  let d := set_workers (alter (set_result 0) i (alter (set_reader_registered false) i (workers d))) d in
  set_dp (set_active_workers (u32 (active_workers d - 1)) d) w.

(** The system once the worker is registered. *)
Definition entered (q : rcu) (c : system) : system :=
  {| sys := registered i id q (sys c); held := <[id := None]> (held c); writer := writer c |}.

Lemma entered_sound rest c q : sound rest c -> rules_qsbr (dp (sys c)) = Some q -> can_register id q -> held c !! id = None ->
  sound rest (entered q c).
Proof.
  intros Hinv Hq Hreg Hh. set (w1 := set_dp (set_active_workers (u32 (active_workers (dp (sys c)) + 1)) (dp (sys c))) (sys c)).
  assert (sound rest {| sys := w1; held := held c; writer := writer c |}) as Hinv1 by by apply sound_work.
  pose proof (step_sound rest _ _ (step_register id {| sys := w1; held := held c; writer := writer c |} _ Hh
    (register_run id q w1 Hq Hreg)) Hinv1) as Hinv2.
  by apply (sound_work rest _ (registered i id q (sys c)) Hinv2).
Qed.

Lemma departed_sound rest c q : sound rest c -> rules_qsbr (dp (sys c)) = Some q -> held c !! id = Some None ->
  sound rest {| sys := departed q (sys c); held := delete id (held c); writer := writer c |}.
Proof.
  intros Hinv Hq Hh.
  assert (exists w1, dp_rules_reader_unregister id (sys c) = Some (tt, w1) /\ same_rules w1 (departed q (sys c)) /\
    rules_qsbr (dp (departed q (sys c))) = rules_qsbr (dp w1) /\ same_count w1 (departed q (sys c))) as (w1 & Hrun & Hsame & Eq & Hn).
  { unfold dp_rules_reader_unregister, mbind, M_bind, get, lift. rewrite Hq. bind_cbn. eexists. split; [done|]. by split_and!. }
  exact (sound_work rest _ _ (step_sound rest _ _ (step_unregister id w1 c Hh Hrun) Hinv) Hsame Eq Hn).
Qed.

Lemma worker_life rest c ctx q B injected left ts pkts :
  sound rest c -> held c !! id = None -> rules_qsbr (dp (sys c)) = Some q -> can_register id q ->
  workers (dp (sys c)) !! i = Some ctx -> worker_id (ctx_info ctx) = id -> injected <> id ->
  balanced (ctx_stats ctx) -> mbufs (sys c) = B -> Z.of_nat (length pkts) = DP_BURST_SIZE ->
  turns_in left ts (entered q c) ->
  exists c' q', dp_worker_run stack_meta injected i ts pkts (sys c) = Some (0, departed q' (sys c')) /\
    left c' /\ sound rest c' /\ rules_qsbr (dp (sys c')) = Some q' /\ held c' !! id = Some None /\ worker_at i id B (sys c') /\
    K (registered i id q (sys c)) (sys c').
Proof.
  intros Hinv Hh Hq Hreg Hctx Hid Hinj Hbal HB HL Hts.
  assert (worker_at i id B (sys (entered q c))) as Hat.
  { split; [|by eexists|done]. exists (set_reader_registered true ctx). split_and!; [|done|done]. cbn.
    by rewrite list_lookup_alter_eq, Hctx. }
  destruct (turns_in_system rest B left ts pkts (entered q c) (entered_sound _ _ _ Hinv Hq Hreg Hh)) as
    (pkts' & c' & Hloop & Hleft & Hinv' & Hh' & Hat' & HK); [cbn; by rewrite lookup_insert_eq|done..|].
  pose proof (at_qsbr _ _ _ _ Hat') as [q' Hq']. exists c', q'. split; [|by split_and!].
  unfold dp_worker_run. erewrite M_bind_step by done. cbv beta.
  erewrite M_bind_step by (apply own_id_run; exact Hctx). cbv beta. rewrite Hid, (proj2 (Z.eqb_neq _ _)) by done.
  erewrite M_bind_step by (apply (register_run id q); [exact Hq|exact Hreg]). cbv beta. cbn [Z.ltb Z.compare].
  erewrite M_bind_step by done. cbv beta. erewrite M_bind_step by exact Hloop. cbv beta.
  destruct (at_ctx _ _ _ _ Hat') as (ctx' & Hctx' & Hid' & _).
  erewrite M_bind_step by (apply own_id_run; exact Hctx'). cbv beta. rewrite Hid'.
  erewrite M_bind_step.
  2: { unfold dp_rules_reader_unregister, mbind, M_bind, get, lift. rewrite Hq'. bind_cbn. done. }
  cbv beta. do 3 (erewrite M_bind_step by done; cbv beta). done.
Qed.
End Reader.

Section Life.
Context {H : Host} {HO : HostOk H} {C : Checksums} {CO : ChecksumsOk C}.
Context {T : DpdkTables} {TO : DpdkTablesOk T} {Q : Qsbr} {QO : QsbrOk Q}.

(** The others may do anything that is not this worker's. *)
Definition anything (_ _ : world) : Prop := True.

#[export] Instance anything_preorder : PreOrder anything.
Proof. by split. Qed.

(** A worker lives among publications.  Let a worker that can register run
    through any schedule of turns that ends with a stop, while the other threads take steps of the publication system
    (exchanges and frees of snapshots, registrations, reports) and do their own
    packet work.  Nothing is assumed of the snapshots it loads: the invariant
    provides them.  The run is defined and returns 0; the worker is unregistered,
    its counters still balance and it owns exactly the mbufs it owned before; and
    the publication system is left in a state that again satisfies the invariant,
    so that the next publication, worker or teardown finds what it needs. *)
Theorem dp_worker_run_in_system rest c ctx q stack_meta i injected left ts pkts :
  let id := worker_id (ctx_info ctx) in
  sound rest c -> held c !! id = None -> rules_qsbr (dp (sys c)) = Some q -> can_register id q ->
  workers (dp (sys c)) !! i = Some ctx -> injected <> id -> balanced (ctx_stats ctx) ->
  Z.of_nat (length pkts) = DP_BURST_SIZE -> turns_in stack_meta i id anything left ts (entered i id q c) ->
  exists c' ctx', dp_worker_run stack_meta injected i ts pkts (sys c) = Some (0, sys c') /\
    sound rest c' /\ held c' !! id = None /\ workers (dp (sys c')) !! i = Some ctx' /\
    balanced (ctx_stats ctx') /\ result ctx' = 0 /\ reader_registered ctx' = false /\ mbufs (sys c') = mbufs (sys c) /\
    exists c1, left c1 /\ held c' = delete id (held c1) /\ writer c' = writer c1.
Proof.
  intros id Hinv Hh Hq Hreg Hctx Hinj Hbal HL Hts.
  destruct (worker_life stack_meta i id anything (fun _ _ _ => I) (fun _ _ _ _ _ _ _ => I) rest c ctx q _ injected left ts pkts
    Hinv Hh Hq Hreg Hctx eq_refl Hinj Hbal eq_refl HL Hts) as (c1 & q1 & Hrun & Hleft & Hinv1 & Hq1 & Hh1 & [(ctx1 & Hc1 & _ & Hb1) _ Hm1] & _).
  exists {| sys := departed i id q1 (sys c1); held := delete id (held c1); writer := writer c1 |},
    (set_result 0 (set_reader_registered false ctx1)).
  split; [exact Hrun|]. split; [by apply departed_sound|]. split; [apply lookup_delete_eq|].
  split; [cbn; by rewrite !list_lookup_alter_eq, Hc1|]. split_and!; try done. by exists c1.
Qed.
End Life.
