(* ===== verification/Crew.v ===== *)
(** * All workers at once

    [dp_worker_run] cut where it touches shared state: a stage is a point of its
    body with the locals that are live there, and [worker_step] runs the code from
    one stage to the next.  A crew is the world with the stage of every launched
    worker and the state of the publisher; [crew_step] interleaves them in every
    order, with no assumption on scheduling.  [worker_remaining] relates the stages
    to [dp_worker_run]. *)
From Stdlib Require Import ZArith Lia.
From stdpp Require Import base list numbers option gmap strings relations.
From S2P Require Import Prelude Host Packet Api Tables Heap Action Rcu State Rules Worker WorkerSpec Publish.

(** ** Stages *)
Inductive stage :=
  | Launched (pkts : list Z)                        (** on entry *)
  | Counted (pkts : list Z)                         (** in [dp.active_workers] *)
  | Failing (ret : Z)                               (** about to give up *)
  | Registered (pkts : list Z)                      (** a reader of the rules *)
  | Polling (pkts : list Z)                         (** at the test of [dp.stop] *)
  | Looping (pkts : list Z)                         (** has seen it clear *)
  | Reading (snapshot : option Z) (pkts : list Z)   (** has loaded the snapshot *)
  | Reporting (snapshot : option Z) (pkts : list Z) (** the burst is over *)
  | Leaving                                         (** has seen [dp.stop] *)
  | Unregistered
  | Returned (ret : Z).

Section Crew.
Context {H : Host} {C : Checksums} {T : DpdkTables} {Q : Qsbr}.
Context (stack_meta : dp_packet_meta) (injected : Z).

(** The last lines of [dp_worker_run]. *)
Definition worker_exit (i : nat) : M world Z :=
  on_ctx i (set_reader_registered false);;
  on_ctx i (set_result 0);;
  on_dp (fun d => set_active_workers (u32 (active_workers d - 1)) d);;
  mret 0.

(** The poll, the packets, the transmission.  The source polls before it loads the
    snapshot; receiving touches no rules, so here the load comes first, which makes
    the time for which the snapshot is held longer, not shorter ([worker_turn_loads]). *)
Definition worker_packets (i : nat) (p : poll) (snapshot : option Z) (pkts : list Z) : M world (list Z) :=
  w ← get; on_packets i (worker_burst (rules_heap w) stack_meta p snapshot pkts).

Definition worker_step (i : nat) (p : poll) (s : stage) : M world stage :=
  match s with
  | Launched pkts => on_dp (fun d => set_active_workers (u32 (active_workers d + 1)) d);; mret (Counted pkts)
  | Counted pkts =>
    id ← own_id i;
    if injected =? id then mret (Failing (- EIO)) else
    ret ← dp_rules_reader_register id;
    mret (if ret <? 0 then Failing ret else Registered pkts)
  | Failing ret => ret ← worker_failed i ret; mret (Returned ret)
  | Registered pkts => on_ctx i (set_reader_registered true);; mret (Polling pkts)
  | Polling pkts => w ← get; mret (if stop (dp w) then Leaving else Looping pkts)
  | Looping pkts => snapshot ← dp_rules_active_load; mret (Reading snapshot pkts)
  | Reading snapshot pkts => pkts ← worker_packets i p snapshot pkts; mret (Reporting snapshot pkts)
  | Reporting _ pkts => id ← own_id i; dp_rules_reader_quiescent id;; mret (Polling pkts)
  | Leaving => id ← own_id i; dp_rules_reader_unregister id;; mret Unregistered
  | Unregistered => ret ← worker_exit i; mret (Returned ret)
  | Returned _ => ub
  end.

(** ** Crews *)
Record crew := {
  state : world;
  (** by worker number; a worker that is not launched has no stage *)
  stages : gmap Z stage;
  publisher : writer_state;
}.

(** What a stage lets its worker dereference; [None]: not a reader. *)
Definition reads (s : stage) : option (option Z) :=
  match s with
  | Registered _ | Polling _ | Looping _ | Leaving => Some None
  | Reading snapshot _ | Reporting snapshot _ => Some snapshot
  | _ => None
  end.

(** The crew as the publication system sees it. *)
Definition readers_of (c : crew) : system :=
  {| sys := state c; held := omap reads (stages c); writer := publisher c |}.

(** Worker [i] has gone to stage [s] and left the world [w]. *)
Definition advance (i : nat) (s : stage) (w : world) (c : crew) : crew :=
  {| state := w; stages := <[Z.of_nat i := s]> (stages c); publisher := publisher c |}.

Definition on_state (f : world -> world) (c : crew) : crew :=
  {| state := f (state c); stages := stages c; publisher := publisher c |}.

(** [dp_dataplane_request_stop] *)
Definition halt (w : world) : world := set_dp (set_stop true (dp w)) w.

Inductive crew_step : crew -> crew -> Prop :=
  | crew_works i p s s' w' c : stages c !! Z.of_nat i = Some s -> poll_ok p (mbufs (state c)) ->
      worker_step i p s (state c) = Some (s', w') ->
      crew_step c (advance i s' w' c)
  | crew_publishes c s' : step (readers_of c) s' -> held s' = held (readers_of c) ->
      crew_step c {| state := sys s'; stages := stages c; publisher := writer s' |}
  | crew_stops c : crew_step c (on_state halt c).

(** A worker's step in a crew. *)
Definition crew_work (c c' : crew) : Prop := exists i p s s' w', stages c !! Z.of_nat i = Some s /\
  poll_ok p (mbufs (state c)) /\ worker_step i p s (state c) = Some (s', w') /\ c' = advance i s' w' c.

Lemma crew_work_step c c' : crew_work c c' -> crew_step c c'.
Proof. intros (i & p & s & s' & w' & Hi & Hp & Hrun & ->). by eapply crew_works. Qed.

Lemma crew_works_run c c' : rtc crew_work c c' -> rtc crew_step c c'.
Proof. apply rtc_subrel. exact crew_work_step. Qed.

Lemma crew_works_publisher c c' : rtc crew_work c c' -> publisher c' = publisher c.
Proof. induction 1 as [|c c1 c' (i & p & s & s' & w' & _ & _ & _ & ->) _ IH]; [done|]. by rewrite IH. Qed.

Lemma halt_run w : on_dp (set_stop true) w = Some (tt, halt w).
Proof. reflexivity. Qed.

(** ** The stages make up [dp_worker_run] *)

(** What a worker at a stage still has to do, along a schedule: [p] is what it
    polls next if it is inside an iteration. *)
Definition worker_remaining (i : nat) (ts : list turn) (p : poll) (s : stage) : M world Z :=
  let leave := id ← own_id i; dp_rules_reader_unregister id;; worker_exit i in
  let report pkts := id ← own_id i; dp_rules_reader_quiescent id;; worker_loop stack_meta i ts pkts;; leave in
  match s with
  | Launched pkts => dp_worker_run stack_meta injected i ts pkts
  | Counted pkts =>
    id ← own_id i;
    if injected =? id then worker_failed i (- EIO) else
    ret ← dp_rules_reader_register id;
    if ret <? 0 then worker_failed i ret else
    on_ctx i (set_reader_registered true);; worker_loop stack_meta i ts pkts;; leave
  | Failing ret => worker_failed i ret
  | Registered pkts => on_ctx i (set_reader_registered true);; worker_loop stack_meta i ts pkts;; leave
  | Polling pkts => worker_loop stack_meta i ts pkts;; leave
  | Looping pkts => snapshot ← dp_rules_active_load; pkts ← worker_packets i p snapshot pkts; report pkts
  | Reading snapshot pkts => pkts ← worker_packets i p snapshot pkts; report pkts
  | Reporting _ pkts => report pkts
  | Leaving => leave
  | Unregistered => worker_exit i
  | Returned ret => mret ret
  end.

(** A worker on its own: its schedule says what the others do before each test of
    [dp.stop] and what it polls. *)
Inductive solo_step (i : nat) : list turn * poll * stage * world -> list turn * poll * stage * world -> Prop :=
  | solo_test t ts p pkts w s' w' :
      worker_step i (turn_poll t) (Polling pkts) (turn_others t w) = Some (s', w') ->
      solo_step i (t :: ts, p, Polling pkts, w) (ts, turn_poll t, s', w')
  | solo_works ts p s w s' w' : (forall pkts, s <> Polling pkts) -> worker_step i p s w = Some (s', w') ->
      solo_step i (ts, p, s, w) (ts, p, s', w').

(** Run the first action of a hypothesis, in the goal too. *)
Ltac run_first E := apply M_bind_Some in E as (? & ? & ?E & E); erewrite M_bind_step by eassumption; cbv beta.

Lemma solo_remaining i ts p s w ts' p' s' w' : solo_step i (ts, p, s, w) (ts', p', s', w') ->
  worker_remaining i ts p s w = worker_remaining i ts' p' s' w'.
Proof.
  inversion 1 as [t ? ? pkts ? ? ? E|? ? ? ? ? ? Hne E]; subst.
  - change (Some (if stop (dp (turn_others t w)) then Leaving else Looping pkts, turn_others t w) = Some (s', w')) in E.
    injection E as <- <-. cbn [worker_remaining worker_loop]. unfold mbind, M_bind, get, modify. destruct (stop _); [done|].
    rewrite worker_turn_loads. unfold dp_rules_active_load, worker_packets, mbind, M_bind, get, mret, M_ret.
    cbn [worker_remaining]. unfold dp_rules_active_load, worker_packets, mbind, M_bind, get, mret, M_ret.
    match goal with |- context [on_packets i ?m ?w0] => destruct (on_packets i m w0) as [[pkts' w1]|]; [|done] end.
    destruct (own_id i w1) as [[id w2]|]; [|done].
    by destruct (dp_rules_reader_quiescent id w2) as [[[] w3]|].
  - destruct s; cbn [worker_remaining worker_step] in *; try by destruct (Hne pkts).
    + unfold dp_worker_run. run_first E. by injection E as <- <-.
    + run_first E. case_if; [by injection E as <- <-|]. run_first E. injection E as <- <-. by case_if.
    + apply M_bind_Some in E as (? & ? & E0 & [= <- <-]). exact E0.
    + run_first E. by injection E as <- <-.
    + run_first E. by injection E as <- <-.
    + run_first E. by injection E as <- <-.
    + do 2 run_first E. by injection E as <- <-.
    + do 2 run_first E. by injection E as <- <-.
    + apply M_bind_Some in E as (? & ? & E0 & [= <- <-]). exact E0.
    + done.
Qed.

(** What is defined as a whole can take its first step. *)
Lemma remaining_steps i ts p s w ret w' : worker_remaining i ts p s w = Some (ret, w') ->
  s = Returned ret \/ exists ts1 p1 s1 w1, solo_step i (ts, p, s, w) (ts1, p1, s1, w1).
Proof.
  intros E. destruct s; cbn [worker_remaining] in E; [right..|left].
  - eexists _, _, _, _. apply solo_works; [done|]. reflexivity.
  - apply M_bind_Some in E as (id & w1 & E1 & E). destruct (injected =? id) eqn:Hi.
    + eexists _, _, _, _. apply solo_works; [done|]. cbn. erewrite M_bind_step by exact E1. cbv beta. by rewrite Hi.
    + apply M_bind_Some in E as (r & w2 & E2 & E). eexists _, _, _, _. apply solo_works; [done|]. cbn.
      erewrite M_bind_step by exact E1. cbv beta. rewrite Hi. by erewrite M_bind_step by exact E2.
  - eexists _, _, _, _. apply solo_works; [done|]. cbn. by erewrite M_bind_step by exact E.
  - eexists _, _, _, _. apply solo_works; [done|]. reflexivity.
  - destruct ts as [|t ts]; [by apply M_bind_Some in E as (? & ? & ? & _)|].
    eexists _, _, _, _. apply solo_test. reflexivity.
  - eexists _, _, _, _. apply solo_works; [done|]. reflexivity.
  - apply M_bind_Some in E as (pkts' & w1 & E & _). eexists _, _, _, _. apply solo_works; [done|].
    cbn. by erewrite M_bind_step by exact E.
  - apply M_bind_Some in E as (id & w1 & E1 & E). apply M_bind_Some in E as ([] & w2 & E2 & _).
    eexists _, _, _, _. apply solo_works; [done|]. cbn. erewrite M_bind_step by exact E1. cbv beta. by erewrite M_bind_step by exact E2.
  - apply M_bind_Some in E as (id & w1 & E1 & E). apply M_bind_Some in E as ([] & w2 & E2 & _).
    eexists _, _, _, _. apply solo_works; [done|]. cbn. erewrite M_bind_step by exact E1. cbv beta. by erewrite M_bind_step by exact E2.
  - eexists _, _, _, _. apply solo_works; [done|]. cbn. by erewrite M_bind_step by exact E.
  - by injection E as <- _.
Qed.

(** How far a stage is from the end, iterations not counted. *)
Definition distance (s : stage) : nat :=
  match s with
  | Launched _ => 6 | Looping _ => 6 | Counted _ => 5 | Reading _ _ => 5 | Registered _ => 4 | Reporting _ _ => 4
  | Polling _ => 3 | Leaving => 2 | Unregistered => 1 | Failing _ => 1 | Returned _ => 0
  end.

(** Outside an iteration every step leads closer to the end. *)
Lemma worker_step_closer i p s w s' w' : worker_step i p s w = Some (s', w') ->
  (distance s' < distance s)%nat \/ exists pkts, s = Polling pkts /\ s' = Looping pkts /\ stop (dp w) = false.
Proof.
  destruct s; cbn [worker_step]; intros E; try done.
  all: repeat (apply M_bind_Some in E as (? & ? & ?E & E)); try (injection E as <- <-; left; cbn; lia).
  - destruct (injected =? x); [injection E as <- <-; left; cbn; lia|]. apply M_bind_Some in E as (? & ? & _ & [= <- <-]).
    left. case_if; cbn; lia.
  - injection E0 as <- <-. injection E as <- <-. destruct (stop (dp w)) eqn:Hs; [left; cbn; lia|right; by eexists].
Qed.

Lemma solo_shrinks i ts p s w ts' p' s' w' : solo_step i (ts, p, s, w) (ts', p', s', w') ->
  (8 * length ts' + distance s' < 8 * length ts + distance s)%nat.
Proof.
  inversion 1 as [t ? ? pkts ? ? ? E|? ? ? ? ? ? Hne E]; subst.
  - apply worker_step_closer in E as [?|(pk & [= <-] & -> & _)]; cbn [length distance] in *; lia.
  - apply worker_step_closer in E as [?|(pk & -> & _ & _)]; [lia|by destruct (Hne pk)].
Qed.

(** [dp_worker_run] is its stages.  Along any schedule, a call of
    [dp_worker_run] returns [ret] in the world [w'] exactly when running the
    stages one after the other gets from the entry to that return. *)
Theorem dp_worker_run_stages i ts pkts p w ret w' :
  dp_worker_run stack_meta injected i ts pkts w = Some (ret, w') <->
  exists ts' p', rtc (solo_step i) (ts, p, Launched pkts, w) (ts', p', Returned ret, w').
Proof.
  refine (iff_trans (unrolled (solo_step i) (fun '(ts, p, s, w) => worker_remaining i ts p s w)
    (fun '(ret, w') '(_, _, s, w) => s = Returned ret /\ w = w') (fun '(ts, _, s, _) => 8 * length ts + distance s)%nat
    _ _ _ _ (ts, p, Launched pkts, w) (ret, w')) _).
  - intros [[[? ?] ?] ?] [[[? ?] ?] ?]. apply solo_remaining.
  - intros [[[? ?] ?] ?] [[[? ?] ?] ?]. apply solo_shrinks.
  - by intros [ret0 w0] [[[? ?] ?] ?] [-> ->].
  - intros [ret0 w0] [[[? ?] ?] ?] E. destruct (remaining_steps _ _ _ _ _ _ _ E) as [->|(? & ? & ? & ? & Hs)]; [left|by right; eexists].
    by injection E as ->.
  - split; [intros ([[[ts' p'] s'] w1] & Hr & -> & ->); by exists ts', p'|]. intros (ts' & p' & Hr). by eexists.
Qed.
End Crew.
