(* ===== verification/CrewSpec.v ===== *)
(** * A crew is safe

    The invariant of all workers and the publisher together, that every step keeps
    it, that no worker is ever stuck, and that a stop request brings all of them
    home. *)
From Stdlib Require Import ZArith Lia.
From stdpp Require Import base list numbers option gmap strings relations.
From S2P Require Import Prelude Host Packet Api Tables Heap Snapshot SnapshotSpec LookupSpec Action Rcu State StatsSpec Rules Worker WorkerSpec RunSpec Publish PublishSpec BurstSpec ReaderSpec Crew.

Section Spec.
Context {H : Host} {HO : HostOk H} {C : Checksums} {CO : ChecksumsOk C}.
Context {T : DpdkTables} {TO : DpdkTablesOk T} {Q : Qsbr} {QO : QsbrOk Q}.
Context (stack_meta : dp_packet_meta) (injected : Z).
Abbreviation worker_step := (worker_step stack_meta injected).
Abbreviation crew_step := (crew_step stack_meta injected).

(** ** The invariant *)

(** Counted in [dp.active_workers]. *)
Definition enrolled (s : stage) : option unit :=
  match s with Launched _ | Returned _ => None | _ => Some tt end.

(** What [worker->reader_registered] says. *)
Definition flagged (s : stage) : bool :=
  match s with Polling _ | Looping _ | Reading _ _ | Reporting _ _ | Leaving | Unregistered => true | _ => false end.

(** The locals of a stage. *)
Definition stage_ok (s : stage) : Prop :=
  match s with
  | Launched pkts | Counted pkts | Registered pkts | Polling pkts | Looping pkts | Reporting _ pkts => Z.of_nat (length pkts) = DP_BURST_SIZE
  | Reading snapshot pkts => is_Some snapshot /\ Z.of_nat (length pkts) = DP_BURST_SIZE
  | Failing ret => ret < 0
  | _ => True
  end.

(** The context of worker [i], at stage [s] if it is launched. *)
Record ctx_ok (ctx : dp_worker_ctx) (i : nat) (s : option stage) : Prop := {
  cx_id : worker_id (ctx_info ctx) = Z.of_nat i;
  cx_balanced : balanced (ctx_stats ctx);
  cx_registered : reader_registered ctx = from_option flagged false s;
  cx_result ret : s = Some (Returned ret) -> result ctx = ret;
}.

Record crew_ok (n : nat) (rest : gmap Z hobj) (B : gmap Z rte_mbuf) (c : crew) : Prop := {
  ck_sound : sound rest (readers_of c);
  ck_active : active_workers (dp (state c)) = u32 (Z.of_nat (size (omap enrolled (stages c))));
  ck_mbufs : mbufs (state c) = B;
  ck_stage r s : stages c !! r = Some s -> stage_ok s /\ exists i, (i < n)%nat /\ r = Z.of_nat i;
  ck_ctx i : (i < n)%nat -> exists ctx, workers (dp (state c)) !! i = Some ctx /\ ctx_ok ctx i (stages c !! Z.of_nat i);
}.

(** ** Moving one worker *)
Lemma omap_same {A B} (f : A -> option B) (m : gmap Z A) r s s' : m !! r = Some s -> f s' = f s ->
  omap f (<[r := s']> m) = omap f m.
Proof.
  intros Hr E. rewrite omap_insert, E. pose proof (lookup_omap f m r) as L. rewrite Hr in L. cbn in L.
  destruct (f s); [by apply insert_id|by apply delete_id].
Qed.

Definition headcount (s : stage) : Z := match enrolled s with Some _ => 1 | None => 0 end.

Lemma enrolled_moves (m : gmap Z stage) r s s' : m !! r = Some s ->
  Z.of_nat (size (omap enrolled (<[r := s']> m))) = Z.of_nat (size (omap enrolled m)) + headcount s' - headcount s.
Proof.
  intros Hr. rewrite omap_insert. pose proof (lookup_omap enrolled m r) as L. rewrite Hr in L. cbn in L.
  unfold headcount. destruct (enrolled s) as [[]|] eqn:E, (enrolled s') as [[]|] eqn:E'.
  - rewrite map_size_insert_Some by by eexists. lia.
  - rewrite map_size_delete_Some by by eexists.
    assert (size (omap enrolled m) <> 0%nat) by (intros E0%map_size_empty_inv; by rewrite E0 in L). lia.
  - rewrite map_size_insert_None by done. lia.
  - rewrite delete_id by done. lia.
Qed.

Lemma crew_moves n rest B c i s s' w' ctx' : crew_ok n rest B c -> stages c !! Z.of_nat i = Some s ->
  sound rest (readers_of (advance i s' w' c)) ->
  active_workers (dp w') = u32 (active_workers (dp (state c)) + (headcount s' - headcount s)) ->
  mbufs w' = mbufs (state c) -> stage_ok s' ->
  workers (dp w') !! i = Some ctx' -> ctx_ok ctx' i (Some s') ->
  (forall j, j <> i -> workers (dp w') !! j = workers (dp (state c)) !! j) ->
  crew_ok n rest B (advance i s' w' c).
Proof.
  intros [Hs Ha Hm Hst Hcx] Hi Hs' Ha' Hm' Hok Hctx Hcok Hothers. split; cbn [advance state stages]; [done| |congruence|..].
  - rewrite Ha', Ha, wrap_add_l, (enrolled_moves _ _ _ _ Hi). f_equal. lia.
  - intros r s0. rewrite lookup_insert_Some. intros [[<- <-]|[_ Hr]]; [|by eapply Hst]. split; [done|by eapply Hst].
  - intros j Hj. destruct (decide (j = i)) as [->|Hne].
    + exists ctx'. by rewrite lookup_insert_eq.
    + rewrite Hothers, lookup_insert_ne by lia. auto.
Qed.

(** A move that is no business of the publication system. *)
Lemma quiet_sound rest c i s s' w' : sound rest (readers_of c) -> stages c !! Z.of_nat i = Some s -> reads s' = reads s ->
  same_rules (state c) w' -> rules_qsbr (dp w') = rules_qsbr (dp (state c)) -> same_count (state c) w' ->
  sound rest (readers_of (advance i s' w' c)).
Proof.
  intros Hs Hi Er Hsame Hq Hn. unfold readers_of, advance. cbn [state stages publisher].
  rewrite (omap_same _ _ _ _ _ Hi Er). by apply (sound_work rest (readers_of c)).
Qed.

Lemma held_at c i s : stages c !! Z.of_nat i = Some s -> held (readers_of c) !! Z.of_nat i = reads s.
Proof. intros Hi. cbn. by rewrite lookup_omap, Hi. Qed.

(** A move that is a step of the publication system. *)
Lemma reader_sound rest c i s' w' h : sound rest (readers_of c) ->
  step (readers_of c) {| sys := w'; held := h; writer := publisher c |} ->
  h = omap reads (<[Z.of_nat i := s']> (stages c)) ->
  sound rest (readers_of (advance i s' w' c)).
Proof. intros Hs Hst ->. by eapply step_sound. Qed.

Lemma held_view rest c r p : inv rest c -> held c !! r = Some (Some p) ->
  exists flows routes, view (rules_heap (sys c)) (Some p) flows routes.
Proof.
  intros Hinv Hr. destruct (held_piece _ _ _ _ Hinv Hr) as (hs & g & flows & routes & [_ Hrep Hok [Hf Hrt]] & Hsub).
  exists flows, routes. split; [done..|]. exists g. by eapply snapshot_rep_mono.
Qed.

(** The same when the worker stays in, or out of, the count. *)
Lemma crew_stays n rest B c i s s' w' ctx' : crew_ok n rest B c -> stages c !! Z.of_nat i = Some s ->
  sound rest (readers_of (advance i s' w' c)) ->
  active_workers (dp w') = active_workers (dp (state c)) -> headcount s' = headcount s ->
  mbufs w' = mbufs (state c) -> stage_ok s' ->
  workers (dp w') !! i = Some ctx' -> ctx_ok ctx' i (Some s') ->
  (forall j, j <> i -> workers (dp w') !! j = workers (dp (state c)) !! j) ->
  crew_ok n rest B (advance i s' w' c).
Proof.
  intros Hok Hi Hs Ha Hc Hm Hst Hctx Hcok Ho. eapply crew_moves; [done|done|done| |done|done|exact Hctx|done|done]. rewrite Ha, Hc, (ck_active _ _ _ _ Hok).
  rewrite Z.sub_diag, Z.add_0_r. symmetry. by apply wrap_wrap.
Qed.

(** Registration succeeds, or leaves the readers as they were. *)
Lemma register_cases rest c r : sound rest c -> held c !! r = None ->
  exists ret w', dp_rules_reader_register r (sys c) = Some (ret, w') /\ outside (sys c) w' /\
    ((ret = 0 /\ step c {| sys := w'; held := <[r := None]> (held c); writer := writer c |}) \/
     (ret < 0 /\ sound rest {| sys := w'; held := held c; writer := writer c |})).
Proof.
  intros Hs Hr. pose proof Hs as [Hinv Hn]. pose proof Hinv as [_ (q & sa & hs & fl & rt & Hq & Hon & _)].
  assert (exists ret w', dp_rules_reader_register r (sys c) = Some (ret, w')) as (ret & w' & Hrun).
  { unfold dp_rules_reader_register. erewrite M_bind_step by done. cbv beta. rewrite Hq.
    case_if; [by eexists _, _|]. destruct (rte_rcu_qsbr_thread_register q r) as [[e|] q']; by eexists _, _. }
  exists ret, w'. split; [done|]. split; [by eapply register_framed|]. pose proof Hrun as Hrun0.
  unfold dp_rules_reader_register in Hrun. erewrite M_bind_step in Hrun by done. cbv beta in Hrun. rewrite Hq in Hrun.
  destruct (DP_RULE_READER_CAPACITY <=? r).
  { injection Hrun as <- <-. right. split; [done|]. by destruct c. }
  destruct (rte_rcu_qsbr_thread_register q r) as [[e|] q'] eqn:E.
  - injection Hrun as <- <-. right. pose proof (register_errno q r e ltac:(by rewrite E)) as He.
    split; [unfold neg_errno, EIO; destruct (Z.eqb_spec e 0); lia|]. split; [|done].
    eapply (inv_reader rest c _ _ q'); [done|done|done| | |by auto].
    + pose proof (register_online q r) as Ho. rewrite E in Ho. cbn in Ho. by rewrite Ho.
    + intros q0 Hq0 t Ht. rewrite Hq in Hq0. injection Hq0 as <-.
      pose proof (register_issued q r t Ht) as Hi. pose proof (register_pending q r t Ht) as Hp. rewrite E in Hi, Hp.
      cbn in Hi, Hp. split; [done|]. by rewrite Hp.
  - injection Hrun as <- <-. left. split; [done|]. by eapply step_register.
Qed.

(** ** The moves of a worker *)
Section Moves.
Context (n : nat) (rest : gmap Z hobj) (B : gmap Z rte_mbuf) (c : crew) (i : nat) (p : poll).
Context (Hok : crew_ok n rest B c).

(** From stage [s] the worker can go on, and the crew stays sound. *)
Definition can_move (s : stage) : Prop :=
  exists s' w', worker_step i p s (state c) = Some (s', w') /\ crew_ok n rest B (advance i s' w' c).

Lemma stage_facts s : stages c !! Z.of_nat i = Some s -> exists ctx, workers (dp (state c)) !! i = Some ctx /\
  ctx_ok ctx i (Some s) /\ stage_ok s /\ own_id i (state c) = Some (Z.of_nat i, state c).
Proof.
  intros Hi. destruct (ck_stage _ _ _ _ Hok _ _ Hi) as (Hst & k & Hk & E). assert (k = i) as -> by lia.
  destruct (ck_ctx _ _ _ _ Hok i Hk) as (ctx & Hctx & Hcok). rewrite Hi in Hcok. exists ctx. split_and!; try done.
  rewrite <- (cx_id _ _ _ Hcok). by apply own_id_run.
Qed.

Lemma moves_launched pkts : stages c !! Z.of_nat i = Some (Launched pkts) -> can_move (Launched pkts).
Proof.
  intros Hi. destruct (stage_facts _ Hi) as (ctx & Hctx & [? ? ? ?] & Hst & _). eexists _, _. split; [done|].
  eapply (crew_moves n rest B c i _ (Counted pkts) _ ctx); [done|exact Hi| |done|done|done|done|by split|done].
  by eapply quiet_sound; [apply Hok|exact Hi|..].
Qed.

Lemma moves_counted pkts : stages c !! Z.of_nat i = Some (Counted pkts) -> can_move (Counted pkts).
Proof.
  intros Hi. destruct (stage_facts _ Hi) as (ctx & Hctx & [? ? ? ?] & Hst & Hid). unfold can_move. cbn [Crew.worker_step].
  setoid_rewrite M_bind_step; [|exact Hid].
  destruct (injected =? Z.of_nat i).
  { exists (Failing (- EIO)), (state c). split; [done|].
    eapply (crew_stays n rest B c i _ _ _ ctx); [done|exact Hi| |done|done|done|done|done|by split|done].
    by eapply quiet_sound; [apply Hok|exact Hi|..]. }
  destruct (register_cases rest (readers_of c) (Z.of_nat i) (ck_sound _ _ _ _ Hok)) as (ret & w' & Hrun & Hout & Hcase);
    [by rewrite (held_at _ _ _ Hi)|].
  cbn [readers_of sys] in Hrun. setoid_rewrite M_bind_step; [|exact Hrun]. eexists _, _. split; [done|].
  destruct Hout as [[Em _] (Ew & _ & Ea) _ _ _]. cbn [readers_of sys] in *.
  eapply (crew_stays n rest B c i _ _ _ ctx); [done|exact Hi| |done| |done| |by rewrite Ew| |by rewrite Ew].
  - destruct Hcase as [[-> Hs]|[Hneg Hs]].
    + eapply reader_sound; [apply Hok|exact Hs|]. cbn [Z.ltb Z.compare]. by rewrite omap_insert.
    + rewrite (proj2 (Z.ltb_lt _ _)) by done. unfold readers_of, advance. cbn [state stages publisher].
      rewrite (omap_same _ _ _ _ _ Hi) by done. exact Hs.
  - by case_if.
  - destruct Hcase as [[-> _]|[Hneg _]]; [done|]. by rewrite (proj2 (Z.ltb_lt _ _)).
  - split; try done; [|intros r; by case_if]. by case_if.
Qed.

Lemma moves_failing ret : stages c !! Z.of_nat i = Some (Failing ret) -> can_move (Failing ret).
Proof.
  intros Hi. destruct (stage_facts _ Hi) as (ctx & Hctx & [? ? ? _] & Hst & _). eexists _, _. split; [done|].
  eapply (crew_moves n rest B c i _ (Returned ret) _ (set_result ret ctx)); [done|exact Hi| |done|done|done| | |].
  - by eapply quiet_sound; [apply Hok|exact Hi|..].
  - cbn. by rewrite list_lookup_alter_eq, Hctx.
  - split; try done. by intros r [= ->].
  - intros j Hj. cbn. by apply list_lookup_alter_ne.
Qed.

Lemma moves_registered pkts : stages c !! Z.of_nat i = Some (Registered pkts) -> can_move (Registered pkts).
Proof.
  intros Hi. destruct (stage_facts _ Hi) as (ctx & Hctx & [? ? ? ?] & Hst & _). eexists _, _. split; [done|].
  eapply (crew_stays n rest B c i _ (Polling pkts) _ (set_reader_registered true ctx)); [done|exact Hi| |done|done|done|done| | |].
  - by eapply quiet_sound; [apply Hok|exact Hi|..].
  - cbn. by rewrite list_lookup_alter_eq, Hctx.
  - by split.
  - intros j Hj. cbn. by apply list_lookup_alter_ne.
Qed.

Lemma moves_polling pkts : stages c !! Z.of_nat i = Some (Polling pkts) -> can_move (Polling pkts).
Proof.
  intros Hi. destruct (stage_facts _ Hi) as (ctx & Hctx & [? ? ? ?] & Hst & _). unfold can_move. cbn [Crew.worker_step].
  setoid_rewrite M_bind_step; [|done]. eexists _, (state c). split; [done|].
  eapply (crew_stays n rest B c i _ _ _ ctx); [done|exact Hi| |done| |done| |done| |done].
  - by eapply quiet_sound; [apply Hok|exact Hi|case_match|..].
  - by case_match.
  - by case_match.
  - split; try done; [by case_match|]. intros ret. by case_match.
Qed.

Lemma moves_looping pkts : stages c !! Z.of_nat i = Some (Looping pkts) -> can_move (Looping pkts).
Proof.
  intros Hi. destruct (stage_facts _ Hi) as (ctx & Hctx & [? ? ? ?] & Hst & _). unfold can_move. cbn [Crew.worker_step].
  pose proof (ck_sound _ _ _ _ Hok) as [[_ (q & sa & _ & _ & _ & _ & _ & Ha & _)] _]. cbn [readers_of sys] in Ha.
  assert (dp_rules_active_load (state c) = Some (Some sa, state c)) as Hload.
  { unfold dp_rules_active_load. erewrite M_bind_step by done. by rewrite Ha. }
  exists (Reading (Some sa) pkts), (state c). split; [by erewrite M_bind_step by exact Hload|].
  eapply (crew_stays n rest B c i _ _ _ ctx); [done|exact Hi| |done|done|done|by split|done|by split|done].
  eapply reader_sound; [apply Hok| |symmetry; apply omap_insert].
  apply (step_load (Z.of_nat i) (Some sa) (state c) (readers_of c)); [by rewrite (held_at _ _ _ Hi)|exact Hload].
Qed.

Lemma moves_reading snapshot pkts : poll_ok p (mbufs (state c)) ->
  stages c !! Z.of_nat i = Some (Reading snapshot pkts) -> can_move (Reading snapshot pkts).
Proof.
  intros Hp Hi. destruct (stage_facts _ Hi) as (ctx & Hctx & [? Hbal ? ?] & [[sa ->] HL] & _).
  destruct (held_view rest (readers_of c) (Z.of_nat i) sa) as (flows & routes & Hv); [apply Hok|by rewrite (held_at _ _ _ Hi)|].
  cbn [readers_of sys] in Hv.
  destruct (worker_burst_spec (rules_heap (state c)) stack_meta (Some sa) flows routes p pkts (packets_of ctx (state c)) Hv Hp HL)
    as (pkts' & Hrun & HL').
  eexists _, _. split.
  { cbn. unfold worker_packets. erewrite M_bind_step; [done|]. erewrite M_bind_step by done. cbv beta.
    apply (on_packets_Some _ _ _ ctx); [exact Hctx|by eexists]. }
  eapply (crew_stays n rest B c i _ _ _ (set_ctx_stats _ ctx)); [done|exact Hi| |done|done|done|exact HL'| | |].
  - by eapply quiet_sound; [apply Hok|exact Hi|..].
  - apply list_lookup_insert_eq. by eapply lookup_lt_Some.
  - split; try done. cbn. eapply burst_balanced_any; [done|apply Hp|done].
  - intros j Hj. cbn. by apply list_lookup_insert_ne.
Qed.

Lemma moves_reporting snapshot pkts : stages c !! Z.of_nat i = Some (Reporting snapshot pkts) -> can_move (Reporting snapshot pkts).
Proof.
  intros Hi. destruct (stage_facts _ Hi) as (ctx & Hctx & [? ? ? ?] & Hst & Hid). unfold can_move. cbn [Crew.worker_step].
  pose proof (ck_sound _ _ _ _ Hok) as [[_ (q & sa & _ & _ & _ & Hq & _)] _]. cbn [readers_of sys] in Hq.
  setoid_rewrite M_bind_step; [|exact Hid].
  assert (dp_rules_reader_quiescent (Z.of_nat i) (state c) =
    Some (tt, set_dp (set_rules_qsbr (Some (rte_rcu_qsbr_quiescent q (Z.of_nat i))) (dp (state c))) (state c))) as Hrun.
  { unfold dp_rules_reader_quiescent. erewrite M_bind_step by done. cbv beta. by rewrite Hq. }
  setoid_rewrite M_bind_step; [|exact Hrun]. eexists _, _. split; [done|].
  eapply (crew_stays n rest B c i _ (Polling pkts) _ ctx); [done|exact Hi| |done|done|done|done|done|by split|done].
  eapply reader_sound; [apply Hok| |symmetry; apply omap_insert].
  by apply (step_quiescent (Z.of_nat i) snapshot _ (readers_of c)); [rewrite (held_at _ _ _ Hi)|].
Qed.

Lemma moves_leaving : stages c !! Z.of_nat i = Some Leaving -> can_move Leaving.
Proof.
  intros Hi. destruct (stage_facts _ Hi) as (ctx & Hctx & [? ? ? ?] & Hst & Hid). unfold can_move. cbn [Crew.worker_step].
  pose proof (ck_sound _ _ _ _ Hok) as [[_ (q & sa & _ & _ & _ & Hq & _)] _]. cbn [readers_of sys] in Hq.
  setoid_rewrite M_bind_step; [|exact Hid].
  assert (exists w', dp_rules_reader_unregister (Z.of_nat i) (state c) = Some (tt, w')) as (w' & Hrun).
  { unfold dp_rules_reader_unregister. eexists. erewrite M_bind_step by done. cbv beta. by rewrite Hq. }
  pose proof (unregister_framed _ _ _ _ Hrun) as [[Em _] (Ew & _ & Ea) _ _ _].
  setoid_rewrite M_bind_step; [|exact Hrun]. eexists _, _. split; [done|].
  eapply (crew_stays n rest B c i _ Unregistered _ ctx); [done|exact Hi| |done|done|done|done|by rewrite Ew|by split|by rewrite Ew].
  eapply reader_sound; [apply Hok| |symmetry; apply omap_insert].
  by apply (step_unregister (Z.of_nat i) _ (readers_of c)); [rewrite (held_at _ _ _ Hi)|].
Qed.

Lemma moves_unregistered : stages c !! Z.of_nat i = Some Unregistered -> can_move Unregistered.
Proof.
  intros Hi. destruct (stage_facts _ Hi) as (ctx & Hctx & [? ? ? _] & Hst & _). eexists _, _. split; [done|].
  eapply (crew_moves n rest B c i _ (Returned 0) _ (set_result 0 (set_reader_registered false ctx))); [done|exact Hi| |done|done|done| | |].
  - by eapply quiet_sound; [apply Hok|exact Hi|..].
  - cbn. by rewrite !list_lookup_alter_eq, Hctx.
  - split; try done. by intros r [= <-].
  - intros j Hj. cbn. by rewrite !list_lookup_alter_ne.
Qed.

(** No worker is ever stuck. *)
Lemma worker_moves s : poll_ok p (mbufs (state c)) -> stages c !! Z.of_nat i = Some s ->
  (exists ret, s = Returned ret) \/ can_move s.
Proof.
  intros Hp Hi. destruct s; [right..|left; by eexists].
  - by apply moves_launched.
  - by apply moves_counted.
  - by apply moves_failing.
  - by apply moves_registered.
  - by apply moves_polling.
  - by apply moves_looping.
  - by apply moves_reading.
  - by apply moves_reporting.
  - by apply moves_leaving.
  - by apply moves_unregistered.
Qed.
End Moves.

(** ** What no step touches *)

(** What stays: the lifecycle fields, every worker's place, a stop request. *)
Record workplace (w w' : world) : Prop := {
  wp_run : ready (dp w') = ready (dp w) /\ running (dp w') = running (dp w) /\ ran (dp w') = ran (dp w);
  wp_count : worker_count (dp w') = worker_count (dp w);
  wp_places : (fun ctx => (ctx_info ctx, launched ctx)) <$> workers (dp w') = (fun ctx => (ctx_info ctx, launched ctx)) <$> workers (dp w);
  wp_ports : owned (dp w') = owned (dp w) /\ started (dp w') = started (dp w);
  wp_stop : stop (dp w) = true -> stop (dp w') = true;
}.

#[export] Instance workplace_preorder : PreOrder workplace.
Proof.
  split; [intros w; by split; split_and?|].
  intros w1 w2 w3 [(? & ? & ?) ? ? [? ?] ?] [(? & ? & ?) ? ? [? ?] ?]. split; [split_and!; congruence|congruence|congruence|split; congruence|auto].
Qed.

Lemma workplace_rules w h k : workplace w (set_rules_heap h (set_dp (set_dstats k (dp w)) w)).
Proof. by split. Qed.

Lemma workplace_outside w w' : outside w w' -> workplace w w'.
Proof.
  intros [_ (Ew & Ec & _) (Er & Eu & En & Es) (_ & Eo & Est & _) _]. split; [by split_and!|done|by rewrite Ew|by split|by rewrite Es].
Qed.

Lemma places_alter f i (ws : list dp_worker_ctx) : (forall ctx, ctx_info (f ctx) = ctx_info ctx /\ launched (f ctx) = launched ctx) ->
  (fun ctx => (ctx_info ctx, launched ctx)) <$> alter f i ws = (fun ctx => (ctx_info ctx, launched ctx)) <$> ws.
Proof.
  intros Hf. apply list_eq. intros j. rewrite !list_lookup_fmap. destruct (decide (j = i)) as [->|].
  - rewrite list_lookup_alter_eq. destruct (ws !! i); [|done]. cbn. by destruct (Hf d) as [-> ->].
  - by rewrite list_lookup_alter_ne.
Qed.

Lemma workplace_on_ctx i f : (forall ctx, ctx_info (f ctx) = ctx_info ctx /\ launched (f ctx) = launched ctx) ->
  framed workplace (on_ctx i f).
Proof. intros Hf. apply framed_on_dp. intros w. split; try done. cbn. by apply places_alter. Qed.

Lemma workplace_packets i (m : M packet_world (list Z)) : framed workplace (on_packets i m).
Proof.
  intros w a w' E. unfold on_packets in E. destruct (workers (dp w) !! i) as [ctx|] eqn:Hctx; [|done].
  cbn [mbind option_bind] in E. destruct (m _) as [[b pw]|]; [|done]. cbn [mbind option_bind] in E. injection E as _ <-.
  split; try done. cbn. rewrite list_fmap_insert. apply list_insert_id. by rewrite list_lookup_fmap, Hctx.
Qed.

Lemma workplace_worker i p s : framed workplace (worker_step i p s).
Proof.
  destruct s; cbn [Crew.worker_step].
  all: repeat first [apply framed_bind; [apply _| |intros ?] | case_match].
  all: first [apply framed_ret; apply _ | apply framed_get; apply _ | apply framed_lift; apply _ | by apply workplace_on_ctx
             | apply workplace_packets | by apply framed_on_dp; split | done].
Qed.

Lemma crew_workplace c c' : crew_step c c' -> workplace (state c) (state c').
Proof.
  destruct 1 as [i p s s' w' c _ _ Hrun|c s' Hs _|c]; cbn.
  - by eapply workplace_worker.
  - by eapply (workplace_outside _ _ (step_outside _ _ Hs)).
  - by split.
Qed.

Lemma crew_run_workplace c c' : rtc crew_step c c' -> workplace (state c) (state c').
Proof. induction 1 as [|c c1 c2 Hs _ IH]; [done|]. etrans; [by apply crew_workplace|done]. Qed.

(** ** Every step keeps the invariant *)
Lemma crew_step_ok n rest B c c' : crew_step c c' -> crew_ok n rest B c -> crew_ok n rest B c'.
Proof.
  destruct 1 as [i p s s' w' c Hi Hp Hrun|c s' Hs Hh|c]; intros Hok.
  - destruct (worker_moves n rest B c i p Hok s Hp Hi) as [(ret & ->)|(s1 & w1 & Hrun1 & Hok1)]; [done|].
    rewrite Hrun in Hrun1. by injection Hrun1 as <- <-.
  - pose proof (step_outside _ _ Hs) as [[Em _] (Ew & _ & Ea) _ _ _]. cbn [readers_of sys] in *.
    destruct Hok as [Hso Ha Hm Hst Hc]. split; cbn [state stages].
    + assert (readers_of {| state := sys s'; stages := stages c; publisher := writer s' |} = s') as ->.
      { destruct s' as [w h p]. cbn in Hh. by subst. }
      by eapply step_sound.
    + by rewrite Ea.
    + by rewrite Em.
    + done.
    + by rewrite Ew.
  - destruct Hok as [Hso Ha Hm Hst Hc]. split; try done. by apply (sound_work rest (readers_of c)).
Qed.

Lemma crew_run_ok n rest B c c' : rtc crew_step c c' -> crew_ok n rest B c -> crew_ok n rest B c'.
Proof. induction 1 as [|c c1 c2 Hs _ IH]; [done|]. intros Hok. by eapply IH, crew_step_ok. Qed.

(** ** Coming home *)

(** No step takes a worker further from the end once [stop] is set. *)
Lemma crew_step_closer c c' r s : crew_step c c' -> stop (dp (state c)) = true -> stages c !! r = Some s ->
  exists s', stages c' !! r = Some s' /\ (distance s' <= distance s)%nat.
Proof.
  destruct 1 as [i p s0 s' w' c Hi _ Hrun|c s' _ _|c]; intros Hstop Hr; [|by exists s..].
  cbn [advance stages]. destruct (decide (r = Z.of_nat i)) as [->|Hne].
  - rewrite lookup_insert_eq. exists s'. split; [done|]. rewrite Hi in Hr. injection Hr as <-.
    apply worker_step_closer in Hrun as [?|(_ & _ & _ & E)]; [lia|congruence].
  - rewrite lookup_insert_ne by done. by exists s.
Qed.

(** A poll that receives nothing. *)
Definition idle_poll : poll := {| poll_rx := []; poll_sent _ := 0 |}.

Lemma idle_poll_ok B : poll_ok idle_poll B.
Proof. split; [split; [constructor|by intros ? ?%elem_of_nil]|constructor|cbn; lia|cbn; lia]. Qed.

Lemma worker_comes_home n rest B i : forall d c s, crew_ok n rest B c -> stop (dp (state c)) = true ->
  stages c !! Z.of_nat i = Some s -> (distance s <= d)%nat ->
  exists c' ret, rtc (crew_work stack_meta injected) c c' /\ stages c' = <[Z.of_nat i := Returned ret]> (stages c) /\ publisher c' = publisher c.
Proof.
  induction d as [|d IH]; intros c s Hok Hstop Hi Hd.
  - destruct s as [| | | | | | | | | |ret]; cbn in Hd; try lia. exists c, ret. by rewrite insert_id.
  - destruct (worker_moves n rest B c i idle_poll Hok s (idle_poll_ok _) Hi) as [(ret & ->)|(s' & w' & Hrun & Hok')].
    { exists c, ret. by rewrite insert_id. }
    assert (crew_work stack_meta injected c (advance i s' w' c)) as Hs
      by (exists i, idle_poll, s, s', w'; split_and!; [done|apply idle_poll_ok|done|done]).
    assert (distance s' < distance s)%nat as Hlt.
    { apply worker_step_closer in Hrun as [?|(_ & _ & _ & E)]; [lia|congruence]. }
    destruct (IH (advance i s' w' c) s' Hok') as (c' & ret & Hr & Es & Ep).
    { apply crew_work_step, crew_workplace in Hs as [_ _ _ _ ?]; auto. }
    { apply lookup_insert_eq. }
    { lia. }
    exists c', ret. split; [by eapply rtc_l|]. cbn [advance stages publisher] in *. by rewrite Es, insert_insert_eq.
Qed.

(** Everybody is back. *)
Definition all_home (c : crew) : Prop := forall r s, stages c !! r = Some s -> exists ret, s = Returned ret.

(** Then only the publisher can do anything. *)
Lemma home_run c c' : rtc crew_step c c' -> all_home c ->
  all_home c' /\ stages c' = stages c /\ (exists b, outside (set_dp (set_stop b (dp (state c))) (state c)) (state c')).
Proof.
  induction 1 as [c|c c1 c' Hs _ IH]; intros Hh; [split_and!; [done|done|by exists (stop (dp (state c)))]|].
  assert (stages c1 = stages c /\ exists b, outside (set_dp (set_stop b (dp (state c))) (state c)) (state c1)) as [Es [b Hout]].
  { destruct Hs as [i p s s' w' c Hi _ Hrun|c s' Hs _|c].
    - by destruct (Hh _ _ Hi) as (ret & ->).
    - split; [done|]. exists (stop (dp (state c))). pose proof (step_outside _ _ Hs) as [? ? ? ? ?]. by split.
    - split; [done|]. exists true. by split. }
  destruct IH as (Hh' & Es' & b' & Hout'); [intros r s; rewrite Es; apply Hh|]. split; [done|]. split; [congruence|]. exists b'.
  destruct Hout as [[? ?] (? & ? & ?) (? & ? & ? & ?) (? & ? & ? & ?) ?], Hout' as [[? ?] (? & ? & ?) (? & ? & ? & ?) (? & ? & ? & ?) ?].
  cbn in *. split; cbn; split_and?; congruence.
Qed.

Lemma crew_comes_home n rest B c : crew_ok n rest B c -> stop (dp (state c)) = true ->
  exists c', rtc (crew_work stack_meta injected) c c' /\ all_home c' /\ publisher c' = publisher c.
Proof.
  intros Hok Hstop.
  assert (forall k, (k <= n)%nat -> exists c', rtc (crew_work stack_meta injected) c c' /\ publisher c' = publisher c /\
    forall i s, (i < k)%nat -> stages c' !! Z.of_nat i = Some s -> exists ret, s = Returned ret) as Hall.
  { induction k as [|k IH]; intros Hk; [exists c; split_and!; [done|done|lia]|].
    destruct IH as (c1 & Hr1 & Ep1 & Hh1); [lia|]. destruct (stages c1 !! Z.of_nat k) as [s|] eqn:Hs.
    - destruct (worker_comes_home n rest B k (distance s) c1 s) as (c2 & ret & Hr2 & Es & Ep2); [|..|done|].
      { by eapply crew_run_ok, Hok; apply crew_works_run. }
      { by apply (crew_run_workplace _ _ (crew_works_run _ _ _ _ Hr1)). }
      { done. }
      exists c2. split; [by etrans|]. split; [congruence|]. intros i s' Hi. rewrite Es. intros Hl.
      destruct (decide (i = k)) as [->|]; [rewrite lookup_insert_eq in Hl; injection Hl as <-; by eexists|].
      rewrite lookup_insert_ne in Hl by lia. apply (Hh1 i s'); [lia|done].
    - exists c1. split; [done|]. split; [done|]. intros i s' Hi Hl.
      destruct (decide (i = k)) as [->|]; [congruence|]. apply (Hh1 i s'); [lia|done]. }
  destruct (Hall n (le_n n)) as (c' & Hr & Ep & Hh). exists c'. split; [done|]. split; [|done].
  intros r s Hl. destruct (ck_stage _ _ _ _ (crew_run_ok _ _ _ _ _ (crew_works_run _ _ _ _ Hr) Hok) _ _ Hl) as (_ & i & Hi & ->). by eapply Hh.
Qed.

(** C7: no worker is ever stuck.  However workers, publications and stop requests
    are interleaved, in every reachable state each worker that has not returned can
    take its next step: no lookup goes through a freed snapshot, no rule object or
    context is missing, and what it gives up, it gives back.  The invariant holds
    again after that step: the count of active workers and the count of readers are
    exact, every worker's counters balance, its registration flag says what its
    stage says, and the mbufs owned between bursts are those owned at the start. *)
Theorem crew_never_stuck n rest B c0 c i s p : crew_ok n rest B c0 -> rtc crew_step c0 c ->
  stages c !! Z.of_nat i = Some s -> poll_ok p (mbufs (state c)) ->
  (exists ret ctx, s = Returned ret /\ workers (dp (state c)) !! i = Some ctx /\ result ctx = ret) \/
  exists s' w', worker_step i p s (state c) = Some (s', w') /\ crew_ok n rest B (advance i s' w' c).
Proof.
  intros Hok0 Hr Hi Hp. pose proof (crew_run_ok _ _ _ _ _ Hr Hok0) as Hok.
  destruct (worker_moves n rest B c i p Hok s Hp Hi) as [(ret & ->)|?]; [left|by right].
  destruct (stage_facts n rest B c i Hok _ Hi) as (ctx & Hctx & [_ _ _ Hres] & _). exists ret, ctx. split_and!; auto.
Qed.

(** C24: a stop brings every worker home.  After a stop request the flag stays set; no
    step of anyone takes a worker further from its end, and each step of its own
    takes it closer; and whatever has happened before, the workers alone can
    finish: there is a way on in which all of them have returned and the
    publisher has not moved. *)
Theorem crew_stops_all n rest B c0 c : crew_ok n rest B c0 -> rtc crew_step c0 c -> stop (dp (state c)) = true ->
  (forall c', crew_step c c' -> stop (dp (state c')) = true /\
     forall r s, stages c !! r = Some s -> exists s', stages c' !! r = Some s' /\ (distance s' <= distance s)%nat) /\
  (forall i p s s' w', worker_step i p s (state c) = Some (s', w') -> (distance s' < distance s)%nat) /\
  exists c', rtc crew_step c c' /\ all_home c' /\ publisher c' = publisher c.
Proof.
  intros Hok0 Hr Hstop. split_and!.
  - intros c' Hs. split; [by apply (crew_workplace _ _ Hs)|]. intros r s. by eapply crew_step_closer.
  - intros i p s s' w' Hrun. apply worker_step_closer in Hrun as [?|(_ & _ & _ & E)]; [done|congruence].
  - destruct (crew_comes_home n rest B c) as (c' & Hr' & ?); [by eapply crew_run_ok|done|]. exists c'. split; [by apply crew_works_run|done].
Qed.
End Spec.
