(* ===== verification/DrainSpec.v ===== *)
(** * The workers let a publication finish

    A publisher that waits for its token waits for the workers only, and they do
    not wait for it: each of them reaches a report, or leaves, within a few steps of
    its own, whatever the stop flag says. *)
From Stdlib Require Import ZArith Lia.
From stdpp Require Import base list numbers option gmap sets relations.
From S2P Require Import Prelude Host Packet Api Tables Heap Action Rcu State StatsSpec Rules Worker WorkerSpec RunSpec Publish PublishSpec ReaderSpec Crew CrewSpec.

Section Drain.
Context {H : Host} {HO : HostOk H} {C : Checksums} {CO : ChecksumsOk C}.
Context {T : DpdkTables} {TO : DpdkTablesOk T} {Q : Qsbr} {QO : QsbrOk Q}.
Context (stack_meta : dp_packet_meta) (injected : Z).
Abbreviation worker_step := (worker_step stack_meta injected).

Abbreviation crew_work := (crew_work stack_meta injected).

Lemma crew_works_ok n rest B c c' : rtc crew_work c c' -> crew_ok n rest B c -> crew_ok n rest B c'.
Proof. intros Hr. by eapply crew_run_ok, crew_works_run. Qed.

(** Steps to the next report. *)
Definition to_report (s : stage) : nat :=
  match s with
  | Registered _ => 5 | Polling _ => 4 | Looping _ => 3 | Reading _ _ => 2 | Reporting _ _ | Leaving => 1 | _ => 0
  end.

(** What a waiting publisher's token waits for. *)
Definition awaited (token : Z) (w : world) : gset Z :=
  match rules_qsbr (dp w) with Some q => pending q token | None => ∅ end.

Definition same_qsbr (w w' : world) : Prop := rules_qsbr (dp w') = rules_qsbr (dp w).

#[export] Instance same_qsbr_preorder : PreOrder same_qsbr.
Proof. split; [by intros ?|]. unfold same_qsbr. intros ? ? ? ? ?. congruence. Qed.

Lemma same_qsbr_packets i (m : M packet_world (list Z)) : framed same_qsbr (on_packets i m).
Proof.
  intros w a w' E. unfold on_packets in E. destruct (workers (dp w) !! i) as [ctx|]; [|done].
  cbn [mbind option_bind] in E. destruct (m _) as [[b pw]|]; [|done]. cbn [mbind option_bind] in E. by injection E as _ <-.
Qed.

Section One.
Context (n : nat) (rest : gmap Z hobj) (B : gmap Z rte_mbuf) (pub : publication) (token : Z).

(** A reader's step reports, or leads closer to its report; nobody else has to wait
    longer for it. *)
Lemma reader_step c i s s' w' : crew_ok n rest B c -> publisher c = Waiting pub token -> stages c !! Z.of_nat i = Some s ->
  is_Some (reads s) -> worker_step i idle_poll s (state c) = Some (s', w') ->
  awaited token w' ⊆ awaited token (state c) /\
  (Z.of_nat i ∉ awaited token w' \/ is_Some (reads s') /\ (to_report s' < to_report s)%nat).
Proof.
  intros Hok Hpub Hi Hr E. destruct (stage_facts n rest B c i Hok s Hi) as (_ & _ & _ & _ & Hid).
  pose proof (ck_sound _ _ _ _ Hok) as [[_ (q & sa & hs & fl & ro & Hq & Hon & _ & _ & Hcase)] _]. cbn [readers_of sys held writer] in *.
  rewrite Hpub in Hcase. destruct Hcase as (so & ho & _ & Hiss & _).
  assert (Z.of_nat i ∈ online q) as Hin.
  { rewrite Hon. apply elem_of_dom. rewrite lookup_omap, Hi. cbn. destruct Hr as [x ->]. by eexists. }
  assert (same_qsbr (state c) w' -> awaited token w' ⊆ awaited token (state c)) as Hsame by (unfold awaited; by intros ->).
  assert (forall q', rules_qsbr (dp w') = Some q' -> pending q' token = pending q token ∖ {[Z.of_nat i]} ->
    awaited token w' ⊆ awaited token (state c) /\ Z.of_nat i ∉ awaited token w') as Hreport.
  { intros q' E' Ep. unfold awaited. rewrite E', Hq, Ep. set_solver. }
  destruct s as [pkts|pkts|ret|pkts|pkts|pkts|snap pkts|snap pkts| | |ret]; cbn [reads] in Hr; try by destruct Hr.
  all: cbn [Crew.worker_step] in E; apply M_bind_Some in E as (a & w1 & E1 & E).
  - injection E as <- <-. injection E1 as _ <-. split; [by apply Hsame|]. right. cbn. split; [by eexists|lia].
  - injection E1 as <- <-. injection E as <- <-. split; [by apply Hsame|]. right. destruct (stop _); cbn; (split; [by eexists|lia]).
  - injection E1 as <- <-. injection E as <- <-. split; [by apply Hsame|]. right. cbn. split; [by eexists|lia].
  - assert (same_qsbr (state c) w1) as Hs1.
    { unfold worker_packets in E1. apply M_bind_Some in E1 as (? & ? & [= <- <-] & E1). by apply same_qsbr_packets in E1. }
    injection E as <- <-. split; [by apply Hsame|]. right. cbn. split; [by eexists|lia].
  - rewrite Hid in E1. injection E1 as <- <-. apply M_bind_Some in E as ([] & w2 & E2 & [= <- <-]).
    destruct (quiescent_effect _ _ _ E2) as (q0 & Hq0 & _ & Hq'). rewrite Hq in Hq0. injection Hq0 as <-.
    destruct (Hreport _ Hq'); [by apply quiescent_pending|]. auto.
  - rewrite Hid in E1. injection E1 as <- <-. apply M_bind_Some in E as ([] & w2 & E2 & [= <- <-]).
    destruct (unregister_effect _ _ _ E2) as (q0 & Hq0 & _ & Hq'). rewrite Hq in Hq0. injection Hq0 as <-.
    destruct (Hreport _ Hq'); [|by auto]. rewrite unregister_pending, offline_pending; [set_solver|done| |by apply offline_issued].
    rewrite offline_online. set_solver.
Qed.

(** Only readers are awaited. *)
Lemma awaited_reader c r : crew_ok n rest B c -> publisher c = Waiting pub token -> r ∈ awaited token (state c) ->
  exists s, stages c !! r = Some s /\ is_Some (reads s).
Proof.
  intros Hok Hpub Hin.
  pose proof (ck_sound _ _ _ _ Hok) as [[_ (q & sa & hs & fl & ro & Hq & Hon & _ & _ & Hcase)] _]. cbn [readers_of sys held writer] in *.
  rewrite Hpub in Hcase. destruct Hcase as (so & ho & _ & Hiss & _). unfold awaited in Hin. rewrite Hq in Hin.
  apply (pending_online _ _ Hiss) in Hin. rewrite Hon in Hin. apply elem_of_dom in Hin as [y Hy]. rewrite lookup_omap in Hy.
  destruct (stages c !! r) as [s|]; [|done]. exists s. split; [done|by eexists].
Qed.

(** One worker reports. *)
Lemma worker_reports i : forall d c, crew_ok n rest B c -> publisher c = Waiting pub token ->
  (from_option to_report 0 (stages c !! Z.of_nat i) <= d)%nat ->
  exists c', rtc crew_work c c' /\ awaited token (state c') ⊆ awaited token (state c) /\ Z.of_nat i ∉ awaited token (state c').
Proof.
  induction d as [|d IH]; intros c Hok Hpub Hd;
    (destruct (decide (Z.of_nat i ∈ awaited token (state c))) as [Hin|]; [|by exists c]);
    destruct (awaited_reader c _ Hok Hpub Hin) as (s & Hi & Hr); rewrite Hi in Hd; cbn in Hd.
  { exfalso. destruct Hr as [y Hr]. destruct s; cbn in Hr, Hd; done || lia. }
  destruct (worker_moves stack_meta injected n rest B c i idle_poll Hok s (idle_poll_ok _) Hi) as [(ret & ->)|(s' & w' & Hrun & Hok')]; [by destruct Hr|].
  destruct (reader_step c i s s' w' Hok Hpub Hi Hr Hrun) as [Hsub Hcase].
  assert (crew_work c (advance i s' w' c)) as Hstep by (exists i, idle_poll, s, s', w'; split_and!; [done|apply idle_poll_ok|done|done]).
  destruct Hcase as [Hout|[_ Hlt]].
  { exists (advance i s' w' c). split; [by apply rtc_once|]. by split. }
  destruct (IH (advance i s' w' c) Hok' Hpub) as (c' & Hrun' & Hsub' & Hout).
  { cbn [advance stages]. rewrite lookup_insert_eq. cbn. lia. }
  exists c'. split; [by eapply rtc_l|]. split; [|done]. etrans; [exact Hsub'|exact Hsub].
Qed.

(** All of them do, and the check succeeds. *)
Lemma crew_drains c : crew_ok n rest B c -> publisher c = Waiting pub token ->
  exists c', rtc crew_work c c' /\ publish_ready token (state c') = true.
Proof.
  intros Hok Hpub.
  assert (forall k, exists c', rtc crew_work c c' /\ forall i, (i < k)%nat -> Z.of_nat i ∉ awaited token (state c')) as Hall.
  { induction k as [|k (c1 & Hr1 & Hout1)]; [exists c; split; [done|lia]|].
    destruct (worker_reports k (from_option to_report 0%nat (stages c1 !! Z.of_nat k)) c1) as (c2 & Hr2 & Hsub & Hout);
      [by eapply crew_works_ok|by rewrite (crew_works_publisher _ _ _ _ Hr1)|done|].
    exists c2. split; [by etrans|]. intros i Hi. destruct (decide (i = k)) as [->|]; [done|].
    intros ?%Hsub. by apply (Hout1 i); [lia|]. }
  destruct (Hall n) as (c' & Hr & Hout). exists c'. split; [done|]. pose proof (crew_works_ok _ _ _ _ _ Hr Hok) as Hok'.
  pose proof (ck_sound _ _ _ _ Hok') as [[_ (q & sa & hs & fl & ro & Hq & _ & _ & _ & Hcase)] _]. cbn [readers_of sys held writer] in *.
  pose proof (crew_works_publisher _ _ _ _ Hr) as Hpub'. rewrite Hpub in Hpub'. rewrite Hpub' in Hcase. destruct Hcase as (so & ho & _ & Hiss & _).
  unfold publish_ready. rewrite Hq. apply check_spec; [done|]. apply set_eq. intros r. split; [|by intros ?%not_elem_of_empty].
  intros Hin. exfalso. assert (r ∈ awaited token (state c')) as Hr' by (unfold awaited; by rewrite Hq).
  destruct (awaited_reader c' r Hok' Hpub' Hr') as (s & Hs & _). destruct (ck_stage _ _ _ _ Hok' _ _ Hs) as (_ & i & Hi & ->).
  by apply (Hout i Hi).
Qed.
End One.
End Drain.
