(* ===== verification/BindingSpec.v ===== *)
(** * The cgo boundary, specified

    Marshalling is faithful and leaves nothing behind: the arrays hold the
    rules of the snapshot, with reserved fields cleared, and releasing them
    gives the C heap back. *)
From Stdlib Require Import ZArith Lia.
From stdpp Require Import base list numbers option gmap strings.
From S2P Require Import Prelude Packet Api Tables Heap Snapshot SnapshotSpec LookupSpec Rcu State Rules Binding Publish PublishSpec.

(** ** What the native side reads *)
Definition c_action (a : Action) : dp_rule_action := {|
  act_type := Type_ a; act_rewrite_mask := RewriteMask a; act_reserved := 0;
  act_src_ipv4 := SrcIPv4 a; act_dst_ipv4 := DstIPv4 a; act_src_port := SrcPort a; act_dst_port := DstPort a |}.
Definition c_flow (r : FlowRule) : dp_flow_rule := {|
  flow_src_ipv4 := FSrcIPv4 r; flow_dst_ipv4 := FDstIPv4 r; flow_src_port := FSrcPort r;
  flow_dst_port := FDstPort r; flow_l4_proto := L4Proto r; flow_reserved := (0, 0, 0);
  flow_action := c_action (FAction r) |}.
Definition c_route (r : RouteRule) : dp_route_rule := {|
  route_prefix := Prefix r; route_depth := Depth r; route_reserved := (0, 0, 0);
  route_action := c_action (RAction r) |}.

Definition c_flows (s : RuleSnapshot) : list dp_flow_rule := c_flow <$> Flows s.
Definition c_routes (s : RuleSnapshot) : list dp_route_rule := c_route <$> Routes s.

(** NULL stands for no rules. *)
Definition arg_of {A} (l : list A) : option (list A) := if Nat.eqb (length l) 0 then None else Some l.

Lemma array_of_arg {A} (l : list A) : array_of (arg_of l) l.
Proof. destruct l; [done|]. exists []. by rewrite app_nil_r. Qed.

(** ** Filling an array *)
Section Fill.
Context {A B : Type} (Con : list B -> block) (set : Z -> A -> M c_heap unit) (mk : A -> B) (a : Z).

(** One call writes one element. *)
Context (Hset : forall i rule (l : list B) h, (i < length l)%nat ->
  set (Z.of_nat i) rule (<[a := Con l]> h) = Some (tt, <[a := Con (<[i := mk rule]> l)]> h)).

Lemma set_range_fill rules : forall pre rest h, (length rules <= length rest)%nat ->
  set_range set (Z.of_nat (length pre)) rules (<[a := Con (pre ++ rest)]> h) =
    Some (tt, <[a := Con (pre ++ (mk <$> rules) ++ drop (length rules) rest)]> h).
Proof.
  induction rules as [|rule rules IH]; intros pre rest h Hl; cbn [set_range]; [done|].
  destruct rest as [|x rest]; cbn [length] in Hl; [lia|].
  erewrite M_bind_step by (apply Hset; rewrite length_app; cbn; lia).
  rewrite insert_app_r_alt, Nat.sub_diag by lia. cbn [list_insert insert].
  replace (Z.of_nat (length pre) + 1) with (Z.of_nat (length (pre ++ [mk rule]))) by (rewrite length_app; cbn; lia).
  change (mk rule :: rest) with ([mk rule] ++ rest). rewrite app_assoc, IH by lia.
  by rewrite <- app_assoc.
Qed.

(** A fresh array is filled exactly. *)
Lemma set_range_fresh rules x h : set_range set 0 rules (<[a := Con (replicate (length rules) x)]> h) =
  Some (tt, <[a := Con (mk <$> rules)]> h).
Proof.
  pose proof (set_range_fill rules [] (replicate (length rules) x) h) as E.
  rewrite length_replicate, drop_ge, app_nil_r in E by (by rewrite length_replicate). by apply E.
Qed.
End Fill.

Lemma update_nth_insert {B} i f (l : list B) x : (i < length l)%nat -> (forall y, f y = x) ->
  update_nth (Z.of_nat i) f l = Some (<[i := x]> l).
Proof.
  intros Hi Hf. unfold update_nth.
  rewrite (proj2 (Z.leb_le _ _)), (proj2 (Z.ltb_lt _ _)), Nat2Z.id by lia. cbn [andb]. f_equal.
  apply list_eq. intros j. destruct (decide (i = j)) as [->|].
  - rewrite list_lookup_alter_eq, list_lookup_insert_eq by done.
    destruct (lookup_lt_is_Some_2 l j Hi) as [y ->]. cbn. by rewrite Hf.
  - by rewrite list_lookup_alter_ne, list_lookup_insert_ne.
Qed.

(** A setter on a block of its kind. *)
Ltac set_one value :=
  intros i rule l h Hi; unfold set_flow, set_route, dp_flow_rule_set, dp_route_rule_set, dp_argv_set; bind_cbn;
  rewrite lookup_insert_eq; rewrite (update_nth_insert i _ l (value rule)) by done; bind_cbn; by rewrite insert_insert_eq.

Lemma fill_flows a rules h0 :
  set_range (set_flow (Some a)) 0 rules (<[a := FlowRules (replicate (length rules) flow_zero)]> h0) =
    Some (tt, <[a := FlowRules (c_flow <$> rules)]> h0).
Proof. apply (set_range_fresh FlowRules). set_one c_flow. Qed.

Lemma fill_route_array a rules h0 :
  set_range (set_route (Some a)) 0 rules (<[a := RouteRules (replicate (length rules) route_zero)]> h0) =
    Some (tt, <[a := RouteRules (c_route <$> rules)]> h0).
Proof. apply (set_range_fresh RouteRules). set_one c_route. Qed.

(** ** Marshalling *)

(** The arrays hold the rules, everything else is as before, and releasing the
    arrays restores the heap. *)
Record marshalled (s : RuleSnapshot) (h h' : c_heap) (arrays : ruleArrays) : Prop := {
  m_flows : flows_arg (arr_flows arrays) h' = Some (arg_of (c_flows s));
  m_routes : routes_arg (arr_routes arrays) h' = Some (arg_of (c_routes s));
  m_rest : h ⊆ h';
  m_release : release arrays h' = Some (tt, h);
}.

Section Marshal.
Context (calloc : callocator) (Hcalloc : callocator_ok calloc).

Lemma arg_of_cons {A} (l : list A) : Nat.eqb (length l) 0 = false -> arg_of l = Some l.
Proof. unfold arg_of. by intros ->. Qed.

Lemma arg_of_fmap {A B} (f : A -> B) (l : list A) : arg_of (f <$> l) = if Nat.eqb (length l) 0 then None else Some (f <$> l).
Proof. unfold arg_of. by rewrite length_fmap. Qed.

Lemma c_free_live a b (h : c_heap) : h !! a = None -> c_free (Some a) (<[a := b]> h) = Some (tt, h).
Proof. intros Ha. unfold c_free. rewrite lookup_insert_eq. bind_cbn. by rewrite delete_insert_id. Qed.

Lemma calloc_block_run count size b h : exists p h', calloc_block calloc count size b h = Some (p, h') /\
  match p with None => h' = h | Some a => h !! a = None /\ h' = <[a := b]> h end.
Proof.
  unfold calloc_block. destruct (calloc h count size) as [a|] eqn:Ea; eexists _, _; (split; [done|]); [|done].
  split; [by eapply Hcalloc|done].
Qed.

(** With the flow array in place (or NULL). *)
Lemma fill_routes_run s flows h h1 : flows_arg flows h1 = Some (arg_of (c_flows s)) -> h ⊆ h1 ->
  dp_rule_array_free flows h1 = Some (tt, h) ->
  exists r h', fill_routes calloc s flows h1 = Some (r, h') /\
    match r with inl e => e = RoutesOutOfMemory /\ h' = h | inr arrays => marshalled s h h' arrays end.
Proof.
  intros Hf Hsub Hfree. unfold fill_routes. case_if.
  - eexists _, h1. split; [done|]. split; cbn; [done| |done|].
    + unfold c_routes. by rewrite arg_of_fmap, Heqb.
    + unfold release. cbn [arr_flows arr_routes]. by erewrite M_bind_step by exact Hfree.
  - unfold dp_route_rules_alloc. rewrite Nat2Z.id.
    destruct (calloc_block_run (Z.of_nat (length (Routes s))) sizeof_dp_route_rule
      (RouteRules (replicate (length (Routes s)) route_zero)) h1) as ([a|] & h2 & Hrun & Ea);
      erewrite M_bind_step by exact Hrun; cbv beta iota.
    2: { subst. erewrite M_bind_step by exact Hfree. by eexists _, h. }
    destruct Ea as [Ea ->]. erewrite M_bind_step by apply fill_route_array. cbv beta. eexists _, _. split; [done|]. split; cbn [arr_flows arr_routes].
    + destruct flows as [fa|]; [|done]. cbn in *. rewrite lookup_insert_ne; [done|]. intros ->. by rewrite Ea in Hf.
    + cbn. rewrite lookup_insert_eq. unfold c_routes. by rewrite arg_of_fmap, Heqb.
    + transitivity h1; [done|]. by apply insert_subseteq.
    + unfold release. cbn [arr_flows arr_routes]. unfold dp_rule_array_free in *.
      destruct flows as [fa|]; cbn [c_free] in *.
      * assert (a <> fa) as Hne by (intros ->; by rewrite Ea in Hfree).
        destruct (h1 !! fa) as [b|] eqn:Eb; [|done]. cbn in Hfree. injection Hfree as <-.
        erewrite M_bind_step by (rewrite lookup_insert_ne by done; rewrite Eb; done). cbv beta.
        rewrite delete_insert_ne by done. apply c_free_live. by rewrite lookup_delete_ne.
      * injection Hfree as <-. erewrite M_bind_step by done. by apply c_free_live.
Qed.

(** What marshalling promises. *)
Definition arrays_post (s : RuleSnapshot) (h : c_heap) (r : arrays_error + ruleArrays) (h' : c_heap) : Prop :=
  match r with
  | inl e => h' = h /\ (e = ExceedsCapacity <-> ~ within_limits (c_flows s) (c_routes s))
  | inr arrays => within_limits (c_flows s) (c_routes s) /\ marshalled s h h' arrays
  end.

Lemma newRuleArrays_run s h :
  exists r h', newRuleArrays calloc s h = Some (r, h') /\ arrays_post s h r h'.
Proof.
  assert (within_limits (c_flows s) (c_routes s) <->
    (DP_MAX_FLOW_RULES <? Z.of_nat (length (Flows s))) || (DP_MAX_ROUTE_RULES <? Z.of_nat (length (Routes s))) = false)
    as Hlim by (unfold within_limits, c_flows, c_routes; rewrite !length_fmap; destruct (orb _ _) eqn:E; bool_to_prop; lia).
  unfold newRuleArrays. destruct (orb _ _).
  { eexists _, h. split; [done|]. split; [done|]. split; [|done]. by intros _ ?%Hlim. }
  apply proj2 in Hlim. specialize (Hlim eq_refl).
  assert (forall flows h1, flows_arg flows h1 = Some (arg_of (c_flows s)) -> h ⊆ h1 ->
    dp_rule_array_free flows h1 = Some (tt, h) ->
    exists r h', fill_routes calloc s flows h1 = Some (r, h') /\ arrays_post s h r h') as Hroutes.
  { intros flows h1 Hf Hsub Hfree. destruct (fill_routes_run s flows h h1 Hf Hsub Hfree) as (r & h' & Hrun & Hr).
    exists r, h'. split; [done|]. destruct r as [e|arrays]; [|by split]. by destruct Hr as [-> ->]. }
  case_if.
  - apply Hroutes; [|done|done]. cbn. unfold c_flows. by rewrite arg_of_fmap, Heqb.
  - unfold dp_flow_rules_alloc. rewrite Nat2Z.id.
    destruct (calloc_block_run (Z.of_nat (length (Flows s))) sizeof_dp_flow_rule
      (FlowRules (replicate (length (Flows s)) flow_zero)) h) as ([a|] & h2 & Hrun & Ea);
      erewrite M_bind_step by exact Hrun; cbv beta iota.
    2: { subst. by eexists _, h. }
    destruct Ea as [Ea ->]. erewrite M_bind_step by apply fill_flows. cbv beta.
    apply Hroutes; [|by apply insert_subseteq|by apply c_free_live].
    cbn. rewrite lookup_insert_eq. unfold c_flows. by rewrite arg_of_fmap, Heqb.
Qed.
End Marshal.

(** ** The argument vector *)
Lemma build_argv_run calloc strings h : callocator_ok calloc ->
  exists p h', build_argv calloc strings h = Some (p, h') /\
    match p with
    | None => h' = h
    | Some a => h !! a = None /\ h' = <[a := Argv ((Some <$> strings) ++ [None])]> h
    end.
Proof.
  intros Hc. unfold build_argv, dp_argv_alloc.
  destruct (calloc_block_run calloc Hc (Z.of_nat (length strings) + 1) sizeof_char_ptr
    (Argv (replicate (Z.to_nat (Z.of_nat (length strings) + 1)) None)) h) as ([a|] & h1 & Hrun & Ha);
    erewrite M_bind_step by exact Hrun; cbv beta iota; [|by eexists _, h1].
  destruct Ha as [Ha ->]. exists (Some a), (<[a := Argv ((Some <$> strings) ++ [None])]> h). split; [|done].
  replace (Z.to_nat (Z.of_nat (length strings) + 1)) with (length strings + 1)%nat by lia. rewrite replicate_add.
  pose proof (set_range_fill Argv (fun i p => dp_argv_set (Some a) i (Some p)) Some a) as Hfill.
  assert (Hone : forall i (p : Z) l h, (i < length l)%nat ->
    dp_argv_set (Some a) (Z.of_nat i) (Some p) (<[a := Argv l]> h) = Some (tt, <[a := Argv (<[i := Some p]> l)]> h))
    by (intros i rule l h0 Hi; unfold dp_argv_set; bind_cbn; rewrite lookup_insert_eq;
        rewrite (update_nth_insert i _ l (Some rule)) by done; bind_cbn; by rewrite insert_insert_eq).
  specialize (Hfill Hone strings [] (replicate (length strings) None ++ replicate 1 None) h).
  rewrite drop_app_length' in Hfill by (by rewrite length_replicate).
  erewrite M_bind_step by (apply Hfill; rewrite length_app, length_replicate; lia). done.
Qed.

(** The argument vector for the EAL is terminated.  After [Init] has copied
    its strings, the array holds them in order followed by NULL, in a block that
    was not live before, with the rest of the C heap unchanged; freeing it
    restores the heap.  When [calloc] fails nothing has changed. *)
Theorem build_argv_terminated calloc strings h : callocator_ok calloc ->
  exists p h', build_argv calloc strings h = Some (p, h') /\
    match p with
    | None => h' = h
    | Some a => h !! a = None /\ h' = <[a := Argv ((Some <$> strings) ++ [None])]> h /\
        dp_argv_free_array p h' = Some (tt, h)
    end.
Proof.
  intros Hc. destruct (build_argv_run calloc strings h Hc) as ([a|] & h' & Hrun & Ha); eexists _, _;
    (split; [exact Hrun|]); [|done].
  destruct Ha as [Ha ->]. split_and!; [done|done|]. by apply c_free_live.
Qed.

(** Marshalling is a faithful copy.  For every snapshot, [newRuleArrays] is
    defined; it refuses exactly when the snapshot exceeds the native capacity or
    an allocation fails, and then the C heap is as before; otherwise the native
    functions read back exactly the rules of the snapshot, reserved fields zero
    (NULL for an empty list), all other blocks are untouched, and [release]
    restores the heap. *)
Theorem newRuleArrays_roundtrip calloc s h : callocator_ok calloc ->
  exists r h', newRuleArrays calloc s h = Some (r, h') /\
    match r with
    | inl e => h' = h /\ (e = ExceedsCapacity <-> ~ within_limits (c_flows s) (c_routes s))
    | inr arrays => flows_arg (arr_flows arrays) h' = Some (arg_of (c_flows s)) /\
        routes_arg (arr_routes arrays) h' = Some (arg_of (c_routes s)) /\ h ⊆ h' /\
        release arrays h' = Some (tt, h)
    end.
Proof.
  intros Hc. destruct (newRuleArrays_run calloc Hc s h) as (r & h' & Hrun & Hr). exists r, h'. split; [done|].
  destruct r as [e|arrays]; [done|]. by destruct Hr as [_ []].
Qed.

(** ** [ConfigureRules] *)
Section Configure.
Context {T : DpdkTables} {TO : DpdkTablesOk T} {Q : Qsbr} {QO : QsbrOk Q}.

(** The values have the widths of their Go types. *)
Definition snapshot_fits (s : RuleSnapshot) : Prop :=
  Forall flow_fits (c_flows s) /\ Forall route_fits (c_routes s).

(** The arguments of the native call. *)
Definition native_rules (allocate : allocator) (s : RuleSnapshot) : rule_set := {|
  rs_allocate := allocate; rs_flow_array := arg_of (c_flows s); rs_route_array := arg_of (c_routes s);
  rs_flows := c_flows s; rs_routes := c_routes s |}.

Lemma native_rules_ok allocate s h : allocator_ok allocate h -> within_limits (c_flows s) (c_routes s) ->
  snapshot_fits s -> rule_set_ok (native_rules allocate s) h.
Proof. intros Ha Hl [Hf Hr]. split; try done; apply array_of_arg. Qed.

Lemma ConfigureRules_run calloc env allocate s w h : callocator_ok calloc -> qsbr_env_ok env ->
  allocator_ok allocate (rules_heap w) -> snapshot_fits s -> no_readers w ->
  exists r w', ConfigureRules calloc env allocate s w h = Some (r, (w', h)) /\
    match r with
    | inl _ => w' = w
    | inr ret =>
      same_dataplane (dp w) (dp w') /\
      if unconfigured (dp w) then
        ret = 0 /\ rules_ok (c_flows s) (c_routes s) /\ now_active (c_flows s) (c_routes s) 1 w' /\
          inv (rules_heap w) {| sys := w'; held := ∅; writer := Idle |} \/
        ret < 0 /\ rules_heap w' = rules_heap w /\ active_rules (dp w') = active_rules (dp w) /\
          unconfigured (dp w') = true /\ no_readers w'
      else ret = (if initialized (dp w) then - EALREADY else - ENODEV) /\ w' = w
    end.
Proof.
  intros Hc Henv Hall [Hff Hrf] Hno.
  destruct (newRuleArrays_run calloc Hc s h) as (r & h' & Hrun & Hr). unfold ConfigureRules. rewrite Hrun. bind_cbn.
  destruct r as [e|arrays]; [destruct Hr as [-> _]; by eexists _, w|]. destruct Hr as [Hlim [Hfl Hro _ Hrel]].
  rewrite Hfl. bind_cbn. rewrite Hro. bind_cbn.
  destruct (configure_run env (native_rules allocate s) w Henv Hno) as (ret & w' & Hcall & Hpost);
    [by apply native_rules_ok|].
  cbn [native_rules rs_allocate rs_flow_array rs_route_array rs_flows rs_routes] in Hcall. unfold c_flows at 2, c_routes at 2 in Hcall.
  rewrite !length_fmap in Hcall. rewrite Hcall. bind_cbn. rewrite Hrel. bind_cbn. by exists (inr ret), w'.
Qed.

Lemma PublishRules_run calloc allocate concurrent wait s rest c h : callocator_ok calloc ->
  inv rest c -> writer c = Idle -> allocator_ok allocate (rules_heap (sys c)) -> snapshot_fits s ->
  others_ok concurrent wait c ->
  exists r c', PublishRules calloc allocate concurrent wait s (sys c) h = Some (r, (sys c', h)) /\
    writer c' = Idle /\ rtc step c c' /\
    match r with
    | inl _ => c' = c
    | inr (ret, g) => publish_outcome (native_rules allocate s) (Some 0) c ret (Some g) c'
    end.
Proof.
  intros Hc Hinv Hidle Hall Hfits Hothers. unfold PublishRules.
  destruct (newRuleArrays_run calloc Hc s h) as (r & h' & Hrun & Hr). rewrite Hrun. bind_cbn.
  destruct r as [e|arrays]; [destruct Hr as [-> _]; exists (inl e), c; split_and!; [done..|apply rtc_refl|done]|].
  destruct Hr as [Hlim [Hfl Hro _ Hrel]]. rewrite Hfl. bind_cbn. rewrite Hro. bind_cbn.
  destruct (publish_run rest c (native_rules allocate s) concurrent wait 0 Hinv Hidle) as
    (ret & out & c' & Hidle' & Hsteps & Hcall & Hout); [by apply native_rules_ok|done|].
  cbn [native_rules rs_allocate rs_flow_array rs_route_array rs_flows rs_routes] in Hcall. unfold c_flows at 2, c_routes at 2 in Hcall.
  rewrite !length_fmap in Hcall. rewrite Hcall. bind_cbn.
  assert (exists g, out = Some g) as [g ->] by (destruct Hout as [(_ & -> & _)|(_ & -> & _)]; eauto).
  bind_cbn. rewrite Hrel. bind_cbn. by exists (inr (ret, g)), c'.
Qed.

(** The configuration call of the control plane.  Whatever the snapshot,
    the C heap is afterwards as before; a snapshot beyond the capacity, or a
    failed allocation, leaves the router untouched, and otherwise the router goes
    through [dp_configure_rules] on the marshalled rules: in a state that accepts
    a configuration, generation 1 is active with these rules and the publication
    invariant holds, or a negative code leaves heap, active pointer and flags. *)
Theorem ConfigureRules_contract calloc env allocate s w h : callocator_ok calloc -> qsbr_env_ok env ->
  allocator_ok allocate (rules_heap w) -> snapshot_fits s -> no_readers w ->
  exists r w', ConfigureRules calloc env allocate s w h = Some (r, (w', h)) /\
    match r with
    | inl _ => w' = w
    | inr ret =>
      same_dataplane (dp w) (dp w') /\
      if unconfigured (dp w) then
        ret = 0 /\ rules_ok (c_flows s) (c_routes s) /\ now_active (c_flows s) (c_routes s) 1 w' /\
          inv (rules_heap w) {| sys := w'; held := ∅; writer := Idle |} \/
        ret < 0 /\ rules_heap w' = rules_heap w /\ active_rules (dp w') = active_rules (dp w) /\
          unconfigured (dp w') = true /\ no_readers w'
      else ret = (if initialized (dp w) then - EALREADY else - ENODEV) /\ w' = w
    end.
Proof. apply ConfigureRules_run. Qed.

(** Publishing from the control plane.  Whatever the snapshot and whatever
    the readers do during the call, the C heap is afterwards as before; a snapshot
    beyond the capacity, or a failed allocation, does not enter the publication
    protocol at all; otherwise the call is one publication, which either fails and
    keeps the active generation, or returns the next generation number and makes
    the marshalled rules the active ones. *)
Theorem PublishRules_contract calloc allocate concurrent wait s rest c h : callocator_ok calloc ->
  inv rest c -> writer c = Idle -> allocator_ok allocate (rules_heap (sys c)) -> snapshot_fits s ->
  others_ok concurrent wait c ->
  exists r c', PublishRules calloc allocate concurrent wait s (sys c) h = Some (r, (sys c', h)) /\
    writer c' = Idle /\ rtc step c c' /\
    match r with
    | inl _ => c' = c
    | inr (ret, g) => publish_outcome (native_rules allocate s) (Some 0) c ret (Some g) c'
    end.
Proof. apply PublishRules_run. Qed.
End Configure.
