(* ===== verification/Runtime.v ===== *)
(** * Runtime lifecycle and statistics: [dp_runtime.c] *)
From Stdlib Require Import ZArith Lia.
From stdpp Require Import base list numbers option gmap strings.
From S2P Require Import Prelude Packet Api Tables Heap Rcu State.

(** ** Aggregation *)
Definition dp_packet_stats_add (total local : dp_packet_stats) : dp_packet_stats := {|
  rx := u64 (rx total + rx local);
  parse_ok := u64 (parse_ok total + parse_ok local);
  parse_unsupported := u64 (parse_unsupported total + parse_unsupported local);
  parse_malformed := u64 (parse_malformed total + parse_malformed local);
  flow_hit := u64 (flow_hit total + flow_hit local);
  route_hit := u64 (route_hit total + route_hit local);
  lookup_miss := u64 (lookup_miss total + lookup_miss local);
  action_drop := u64 (action_drop total + action_drop local);
  action_forward := u64 (action_forward total + action_forward local);
  action_rewrite := u64 (action_rewrite total + action_rewrite local);
  tx_accepted := u64 (tx_accepted total + tx_accepted local);
  tx_unsent := u64 (tx_unsent total + tx_unsent local);
  drop_ := u64 (drop_ total + drop_ local);
  rx_bursts := u64 (rx_bursts total + rx_bursts local);
  rx_empty_polls := u64 (rx_empty_polls total + rx_empty_polls local);
  tx_bursts := u64 (tx_bursts total + tx_bursts local);
|}.

(** [struct dp_worker_stats] and [struct dp_stats] *)
Record dp_worker_stats := { ws_info : dp_worker_info; ws_packets : dp_packet_stats }.
Record dp_stats := {
  st_packets : dp_packet_stats;
  st_worker_count : Z;
  st_workers : list dp_worker_stats;
  st_rules : dp_ctl_stats;
}.

Section Runtime.
Context {T : DpdkTables} {Q : Qsbr}.

(** [for (i = from; i < from + n; i++)]: workers[i] copied and added; an index
    past the array is undefined. *)
Fixpoint collect (ws : list dp_worker_ctx) (from n : nat) (out : list dp_worker_stats)
    (total : dp_packet_stats) : option (list dp_worker_stats * dp_packet_stats) :=
  match n with
  | O => Some (out, total)
  | S n =>
    ctx ← ws !! from;
    if (from <? length out)%nat then
      collect ws (S from) n
        (<[from := {| ws_info := ctx_info ctx; ws_packets := ctx_stats ctx |}]> out)
        (dp_packet_stats_add total (ctx_stats ctx))
    else None
  end.

(** The return code and [*stats]; [stale] is what [dp.stats.workers] holds. *)
Definition dp_dataplane_get_stats (d : dp_state) (stale : list dp_worker_stats) (stats : option dp_stats)
    : option (Z * option dp_stats) :=
  match stats with
  | None => Some (- EINVAL, None)
  | Some _ =>
    if running d then Some (- EBUSY, stats) else
    '(ws, total) ← collect (workers d) 0 (Z.to_nat (worker_count d)) stale stats_zero;
    Some (0, Some {| st_packets := total; st_worker_count := worker_count d; st_workers := ws;
                     st_rules := dstats d |})
  end.

(** ** Start and end of the process *)
Record eal_env := {
  rte_version : string;
  rte_eal_init : option Z;          (** [Some rte_errno]: negative *)
  rte_get_main_lcore : Z;
  rte_lcore_count : Z;
  rte_socket_id : Z;
  rte_eal_cleanup : Z;
}.

Definition set_info_with (f : dp_runtime_info -> dp_runtime_info) (d : dp_state) : dp_state :=
  set_info (f (info d)) d.

Definition dp_runtime_init (env : eal_env) (argc : Z) (argv : option (list string)) : M world Z :=
  w ← get;
  if attempted (dp w) then mret (- EALREADY) else
  if (argc <? 1) || (match argv with None => true | Some _ => false end) then mret (- EINVAL) else
  on_dp (set_attempted true);;
  if negb (String.eqb (rte_version env) "DPDK 25.11.3") then mret (- ENOTSUP) else
  match rte_eal_init env with
  | Some rte_errno => mret (neg_errno rte_errno EIO)
  | None =>
    on_dp (set_initialized true);;
    on_dp (set_info_with (set_info_initialized 1));;
    on_dp (set_info_with (set_main_lcore (rte_get_main_lcore env)));;
    on_dp (set_info_with (set_lcore_count (rte_lcore_count env)));;
    on_dp (set_info_with (set_version (rte_version env)));;
    on_dp (set_info_with (set_socket_id (rte_socket_id env)));;
    mret 0
  end.

Definition dp_runtime_get_info (d : dp_state) (out : option dp_runtime_info) : Z * option dp_runtime_info :=
  match out with
  | None => (- EINVAL, None)
  | Some _ => if negb (initialized d) then (- ENODEV, out) else (0, Some (info d))
  end.

(** No worker is launched or registered, in any of the three records of it. *)
Definition dp_workers_stopped (d : dp_state) : option bool :=
  if negb (active_workers d =? 0) || negb (registered_readers d =? 0) then Some false else
  (fix go (i n : nat) : option bool :=
     match n with
     | O => Some true
     | S n => ctx ← workers d !! i;
              if launched ctx || reader_registered ctx then Some false else go (S i) n
     end) 0%nat (Z.to_nat (worker_count d)).

Definition dp_runtime_cleanup (env : eal_env) : M world Z :=
  w ← get;
  let d := dp w in
  if negb (initialized d) then mret (- ENODEV) else
  stopped ← (if running d then mret false else lift (dp_workers_stopped d));
  if running d || negb stopped ||
     is_set (pool d) || fst (owned d) || snd (owned d) || fst (started d) || snd (started d) ||
     is_set (active_rules d) || is_set (rules_qsbr d) || writer_active d || rules_configured d
  then mret (- EBUSY) else
  on_dp (set_initialized false);;
  mret (rte_eal_cleanup env).

(** ** [dp_test_runtime_cleanup_guard] *)
Inductive live_resource :=
  | DP_TEST_LIVE_WORKER | DP_TEST_LIVE_PORT | DP_TEST_LIVE_MEMPOOL | DP_TEST_LIVE_ACTIVE_RULES
  | DP_TEST_LIVE_QSBR | DP_TEST_LIVE_WRITER | DP_TEST_LIVE_READER.

(** The enumeration values; any other argument is [None]. *)
Definition live_resource_of (resource : Z) : option live_resource :=
  match resource with
  | 1 => Some DP_TEST_LIVE_WORKER | 2 => Some DP_TEST_LIVE_PORT | 3 => Some DP_TEST_LIVE_MEMPOOL
  | 4 => Some DP_TEST_LIVE_ACTIVE_RULES | 5 => Some DP_TEST_LIVE_QSBR
  | 6 => Some DP_TEST_LIVE_WRITER | 7 => Some DP_TEST_LIVE_READER
  | _ => None
  end.

(** Make one resource look alive; the pointers are sentinels nobody dereferences. *)
Definition pretend_live (r : live_resource) (d : dp_state) : dp_state :=
  match r with
  | DP_TEST_LIVE_WORKER => set_active_workers 1 d
  | DP_TEST_LIVE_PORT => set_owned (true, snd (owned d)) d
  | DP_TEST_LIVE_MEMPOOL => set_pool (Some 1) d
  | DP_TEST_LIVE_ACTIVE_RULES => set_active_rules (Some 1) d
  | DP_TEST_LIVE_QSBR => set_rules_qsbr (Some (rcu_new 0)) d
  | DP_TEST_LIVE_WRITER => set_writer_active true d
  | DP_TEST_LIVE_READER => set_registered_readers 1 d
  end.

(** [dp.field = saved field], for every field the hook saves. *)
Definition restore (saved d : dp_state) : dp_state :=
  set_registered_readers (registered_readers saved)
    (set_active_workers (active_workers saved)
      (set_writer_active (writer_active saved)
        (set_rules_qsbr (rules_qsbr saved)
          (set_active_rules (active_rules saved)
            (set_rules_configured (rules_configured saved)
              (set_pool (pool saved)
                (set_owned (fst (owned saved), snd (owned d))
                  (set_running (running saved)
                    (set_initialized (initialized saved) d))))))))).

Definition dp_test_runtime_cleanup_guard (env : eal_env) (resource : Z) : M world Z :=
  w ← get;
  let saved := dp w in
  match live_resource_of resource with
  | None => mret (- EINVAL)
  | Some r =>
    on_dp (set_initialized true);;
    on_dp (pretend_live r);;
    ret ← dp_runtime_cleanup env;
    on_dp (restore saved);;
    mret ret
  end.
End Runtime.
