(* ===== verification/RuntimeSpec.v ===== *)
(** * Correctness of the runtime lifecycle and of the statistics *)
From Stdlib Require Import ZArith Lia.
From stdpp Require Import base list numbers option gmap strings.
From S2P Require Import Prelude Packet Api Tables Heap Rcu State StatsSpec Runtime.

(** ** Sums of counters *)
Lemma get_stats_add s t c :
  get_counter (dp_packet_stats_add s t) c = u64 (get_counter s c + get_counter t c).
Proof. by destruct c. Qed.

Lemma linear_stats_add k s t : linear k (dp_packet_stats_add s t) = u64 (linear k s + linear k t).
Proof.
  unfold linear. rewrite wrap_add_l, wrap_add_r, <- sum_list_fmap_add. apply u64_sum_ext.
  intros c. rewrite get_stats_add, u64_mul_r. f_equal. lia.
Qed.

Definition add_all (l : list dp_packet_stats) (s : dp_packet_stats) : dp_packet_stats :=
  foldl dp_packet_stats_add s l.

Lemma get_add_all l s c : stats_fit s ->
  get_counter (add_all l s) c = u64 (get_counter s c + sum_list ((fun t => get_counter t c) <$> l)).
Proof.
  revert s. induction l as [|t l IH]; intros s Hs.
  - cbn. rewrite Z.add_0_r. symmetry. apply wrap_id, Hs.
  - change (add_all (t :: l) s) with (add_all l (dp_packet_stats_add s t)). rewrite IH by (intros c'; rewrite get_stats_add; by apply wrap_fits).
    rewrite get_stats_add, wrap_add_l. f_equal. unfold sum_list. cbn. lia.
Qed.

Lemma add_all_balanced l s : balanced s -> Forall balanced l -> balanced (add_all l s).
Proof.
  intros Hs Hl. revert s Hs. induction Hl as [|t l Ht Hl IH]; intros s Hs; [done|]. apply IH.
  rewrite balanced_identities, Forall_forall in *. intros k Hk.
  rewrite linear_stats_add, Hs, (Ht k Hk) by done. done.
Qed.

Lemma balanced_zero : balanced stats_zero.
Proof. by split. Qed.

Section Runtime.
Context {T : DpdkTables} {Q : Qsbr}.

(** ** [dp_dataplane_get_stats] *)
Definition worker_report (ctx : dp_worker_ctx) : dp_worker_stats :=
  {| ws_info := ctx_info ctx; ws_packets := ctx_stats ctx |}.

Lemma collect_run ws : forall n from out total,
  (from + n <= length ws)%nat -> (from + n <= length out)%nat ->
  collect ws from n out total =
    Some (take from out ++ (worker_report <$> take n (drop from ws)) ++ drop (from + n) out,
          add_all (ctx_stats <$> take n (drop from ws)) total).
Proof.
  induction n as [|n IH]; intros from out total Hw Ho.
  { rewrite Nat.add_0_r, !take_0. cbn. by rewrite take_drop. }
  destruct (lookup_lt_is_Some_2 ws from) as [ctx Hctx]; [lia|].
  destruct (lookup_lt_is_Some_2 out from) as [old Hold]; [lia|].
  cbn [collect]. rewrite Hctx. bind_cbn. rewrite (proj2 (Nat.ltb_lt _ _)) by lia.
  rewrite IH by (rewrite ?length_insert; lia). rewrite (drop_S _ _ _ Hctx). cbn [take fmap list_fmap].
  f_equal. f_equal. rewrite (take_S_r _ _ (worker_report ctx)) by (rewrite list_lookup_insert_eq by lia; done).
  rewrite take_insert_ge, drop_insert_lt by lia. rewrite <- app_assoc. cbn [app].
  by rewrite Nat.add_succ_comm.
Qed.

Lemma dp_dataplane_get_stats_spec d stale old :
  running d = false -> (Z.to_nat (worker_count d) <= length (workers d))%nat ->
  (Z.to_nat (worker_count d) <= length stale)%nat ->
  exists out, dp_dataplane_get_stats d stale (Some old) = Some (0, Some out) /\
    let ws := take (Z.to_nat (worker_count d)) (workers d) in
    (forall c, get_counter (st_packets out) c = u64 (sum_list ((fun ctx => get_counter (ctx_stats ctx) c) <$> ws))) /\
    st_workers out = (worker_report <$> ws) ++ drop (Z.to_nat (worker_count d)) stale /\
    st_rules out = dstats d /\
    (Forall (fun ctx => balanced (ctx_stats ctx)) ws -> balanced (st_packets out)) /\
    st_worker_count out = worker_count d.
Proof.
  intros Hr Hw Hs. unfold dp_dataplane_get_stats. rewrite Hr, collect_run by lia. bind_cbn.
  eexists. split; [done|]. cbn [st_packets st_workers st_rules st_worker_count take app Nat.add]. split_and!; [|done|done| |done].
  - intros c. rewrite get_add_all by by intros []. rewrite <- list_fmap_compose. by destruct c.
  - intros Hb. apply add_all_balanced; [apply balanced_zero|]. by apply Forall_fmap.
Qed.

(** Statistics of a router that is not running are available: the totals
    are, counter by counter, the sums over the workers modulo 2^64, every worker
    is reported with its own counters, slots without a worker are left alone,
    and the totals satisfy the accounting identities when the workers do. *)
Theorem dp_dataplane_get_stats_totals d stale old :
  running d = false -> (Z.to_nat (worker_count d) <= length (workers d))%nat ->
  (Z.to_nat (worker_count d) <= length stale)%nat ->
  exists out, dp_dataplane_get_stats d stale (Some old) = Some (0, Some out) /\
    let ws := take (Z.to_nat (worker_count d)) (workers d) in
    (forall c, get_counter (st_packets out) c = u64 (sum_list ((fun ctx => get_counter (ctx_stats ctx) c) <$> ws))) /\
    st_workers out = (worker_report <$> ws) ++ drop (Z.to_nat (worker_count d)) stale /\
    st_rules out = dstats d /\
    (Forall (fun ctx => balanced (ctx_stats ctx)) ws -> balanced (st_packets out)).
Proof.
  intros Hr Hw Hs. destruct (dp_dataplane_get_stats_spec d stale old Hr Hw Hs) as (out & ? & ? & ? & ? & ? & _).
  by exists out.
Qed.

(** ** [dp_runtime_cleanup] *)
Definition workers_idle (d : dp_state) : Prop :=
  active_workers d = 0 /\ registered_readers d = 0 /\
  forall i ctx, (i < Z.to_nat (worker_count d))%nat -> workers d !! i = Some ctx ->
    launched ctx = false /\ reader_registered ctx = false.

(** Nothing of the dataplane is alive. *)
Record released (d : dp_state) : Prop := {
  released_workers : workers_idle d;
  released_run : running d = false;
  released_pool : pool d = None;
  released_ports : owned d = (false, false) /\ started d = (false, false);
  released_rules : active_rules d = None /\ rules_qsbr d = None /\ rules_configured d = false;
  released_writer : writer_active d = false;
}.

Definition within_array (d : dp_state) : Prop :=
  worker_count d <= DP_MAX_WORKERS /\ (Z.to_nat (worker_count d) <= length (workers d))%nat.

Lemma dp_workers_stopped_spec d : within_array d ->
  exists b, dp_workers_stopped d = Some b /\ (b = true <-> workers_idle d).
Proof.
  intros [_ Hn]. unfold dp_workers_stopped, workers_idle.
  destruct (Z.eqb_spec (active_workers d) 0); cbn [negb orb];
    [|exists false; split; [done|]; split; [done|]; by intros [? _]].
  destruct (Z.eqb_spec (registered_readers d) 0); cbn [negb orb];
    [|exists false; split; [done|]; split; [done|]; by intros (_ & ? & _)].
  set (ws := workers d) in *. remember (Z.to_nat (worker_count d)) as n eqn:En. clear En.
  match goal with |- context [?g 0%nat n] => set (go := g) end.
  assert (forall m i, (i + m <= length ws)%nat -> exists b, go i m = Some b /\
    (b = true <-> forall j ctx, (i <= j < i + m)%nat -> ws !! j = Some ctx ->
                    launched ctx = false /\ reader_registered ctx = false)) as Hgo.
  { induction m as [|m IH]; intros i Hi.
    { exists true. split; [done|]. split; [|done]. intros _ j ctx Hj. lia. }
    destruct (lookup_lt_is_Some_2 ws i) as [ctx Hctx]; [lia|]. cbn [go]. fold go. rewrite Hctx. bind_cbn.
    destruct (launched ctx || reader_registered ctx) eqn:Hl.
    { exists false. split; [done|]. split; [done|]. intros Hall.
      destruct (Hall i ctx) as [H1 H2]; [lia|done|]. by rewrite H1, H2 in Hl. }
    apply orb_false_iff in Hl. destruct (IH (S i)) as (b & -> & Hb); [lia|]. exists b. split; [done|].
    rewrite Hb. split; intros Hall j c Hj Hc.
    - destruct (decide (j = i)) as [->|]; [by simplify_eq|]. apply (Hall j c); [lia|done].
    - apply (Hall j c); [lia|done]. }
  destruct (Hgo n 0%nat Hn) as (b & -> & Hb). exists b. split; [done|]. rewrite Hb.
  split; [intros Hall; split_and!; try done|intros (_ & _ & Hall)]; intros j c Hj; apply (Hall j c); lia.
Qed.

Lemma dp_runtime_cleanup_run env w : within_array (dp w) -> initialized (dp w) = true ->
  (released (dp w) /\ dp_runtime_cleanup env w = Some (rte_eal_cleanup env, set_dp (set_initialized false (dp w)) w)) \/
  (~ released (dp w) /\ dp_runtime_cleanup env w = Some (- EBUSY, w)).
Proof.
  intros Hn Hi. destruct (dp_workers_stopped_spec _ Hn) as (b & Hb & Hidle).
  unfold dp_runtime_cleanup. erewrite M_bind_step by done. cbv beta. rewrite Hi. cbn [negb].
  destruct (running (dp w)) eqn:Hrun; [right|].
  { erewrite M_bind_step by done. split; [intros [? ? _ _ _ _]; congruence|done]. }
  rewrite Hb. erewrite M_bind_step by done. cbv beta. cbn [orb].
  destruct b; cbn [negb orb]; [|right; split; [|done]; intros [Hid _ _ _ _ _]; by apply Hidle in Hid].
  destruct (is_set (pool (dp w)) || _ || _ || _ || _ || _ || _ || _ || _) eqn:E; [right|left].
  - split; [|done]. intros [_ _ Hp [Ho Hs] (Ha & Hq & Hc) Hw].
    by rewrite Hp, Ho, Hs, Ha, Hq, Hc, Hw in E.
  - split; [|done]. rewrite !orb_false_iff in E. destruct E as [[[[[[[[Hp Ho1] Ho2] Hs1] Hs2] Ha] Hq] Hw] Hc].
    destruct (owned (dp w)) eqn:?, (started (dp w)) eqn:?, (pool (dp w)) eqn:?, (active_rules (dp w)) eqn:?,
      (rules_qsbr (dp w)) eqn:?; try done.
    cbn in *. subst. split; try done. by apply Hidle.
Qed.

(** C38: the cleanup guard.  An initialised process shuts the EAL down exactly
    when no worker, port, pool, rule set or writer is left; otherwise it
    reports -EBUSY and changes nothing. *)
Theorem dp_runtime_cleanup_guard env w : within_array (dp w) -> initialized (dp w) = true ->
  (released (dp w) /\ dp_runtime_cleanup env w = Some (rte_eal_cleanup env, set_dp (set_initialized false (dp w)) w)) \/
  (~ released (dp w) /\ dp_runtime_cleanup env w = Some (- EBUSY, w)).
Proof. apply dp_runtime_cleanup_run. Qed.

(** ** The guard's test hook *)
Lemma pretend_live_not_released r d : ~ released (pretend_live r d).
Proof. destruct r; intros [[? [? _]] ? ? [? ?] (? & ? & ?) ?]; cbn in *; simplify_eq. Qed.

Lemma restore_pretend r d : restore d (pretend_live r (set_initialized true d)) = d.
Proof. by destruct d as [? ? ? ? ? ? ? ? ? ? ? ? ? ? [] ? ? ? ? ?], r. Qed.

(** The hook that checks the guard gets -EBUSY for each of the seven kinds
    of resource it can simulate, whatever state it is called in, and puts that
    state back; it refuses other arguments. *)
Theorem dp_test_runtime_cleanup_guard_busy env w resource : within_array (dp w) ->
  dp_test_runtime_cleanup_guard env resource w =
    Some (if decide (1 <= resource <= 7) then - EBUSY else - EINVAL, w).
Proof.
  intros Hn. unfold dp_test_runtime_cleanup_guard. erewrite M_bind_step by done. cbv beta zeta.
  assert (live_resource_of resource = None /\ ~ (1 <= resource <= 7) \/
    exists r, live_resource_of resource = Some r /\ 1 <= resource <= 7) as [[-> Hr]|(r & -> & Hr)].
  { unfold live_resource_of. destruct (decide (1 <= resource <= 7)) as [Hr|Hr].
    - right. assert (resource = 1 \/ resource = 2 \/ resource = 3 \/ resource = 4 \/ resource = 5 \/
        resource = 6 \/ resource = 7) as Hc by lia.
      destruct Hc as [->|[->|[->|[->|[->|[->| ->]]]]]]; by eexists.
    - left. split; [|done]. destruct resource as [|p|p]; try done.
      do 3 (try destruct p as [p|p|]); try done; lia. }
  { by rewrite decide_False. }
  rewrite decide_True by done. do 2 (erewrite M_bind_step by done; cbv beta).
  set (w1 := set_dp (pretend_live r _) _).
  assert (within_array (dp w1) /\ initialized (dp w1) = true) as [Hn1 Hi1] by by destruct r.
  destruct (dp_runtime_cleanup_run env w1 Hn1 Hi1) as [[Hrel _]|[_ Hrun]];
    [by apply pretend_live_not_released in Hrel|].
  erewrite M_bind_step by exact Hrun. cbv beta. erewrite M_bind_step by done. cbv beta. unfold w1.
  cbn [dp set_dp]. rewrite restore_pretend. by destruct w.
Qed.

(** ** [dp_runtime_init] *)

Lemma init_again env argc argv w : attempted (dp w) = true ->
  dp_runtime_init env argc argv w = Some (- EALREADY, w).
Proof. intros Ha. unfold dp_runtime_init. erewrite M_bind_step by done. by rewrite Ha. Qed.

(** The state an EAL that starts leaves. *)
Definition started_state (env : eal_env) (d : dp_state) : dp_state :=
  set_info_with (fun i => set_socket_id (rte_socket_id env) (set_version (rte_version env)
    (set_lcore_count (rte_lcore_count env) (set_main_lcore (rte_get_main_lcore env) (set_info_initialized 1 i)))))
    (set_initialized true (set_attempted true d)).

Definition eal_starts (env : eal_env) : Prop :=
  rte_version env = "DPDK 25.11.3"%string /\ rte_eal_init env = None.

Lemma init_run env argc args w : attempted (dp w) = false -> 1 <= argc ->
  (forall e, rte_eal_init env = Some e -> 0 <= e) ->
  exists ret w', dp_runtime_init env argc (Some args) w = Some (ret, w') /\
    (ret = 0 /\ eal_starts env /\ w' = set_dp (started_state env (dp w)) w \/
     ret < 0 /\ ~ eal_starts env /\ w' = set_dp (set_attempted true (dp w)) w).
Proof.
  intros Ha Hc He. unfold dp_runtime_init. erewrite M_bind_step by done. cbv beta. rewrite Ha.
  rewrite (proj2 (Z.ltb_ge _ _)) by done. cbn [orb]. erewrite M_bind_step by done. cbv beta.
  destruct (String.eqb_spec (rte_version env) "DPDK 25.11.3") as [Hv|Hv]; cbn [negb].
  2: { eexists _, _. split; [done|]. right. split; [done|]. split; [by intros [? _]|done]. }
  destruct (rte_eal_init env) as [e|] eqn:Hinit.
  - specialize (He e eq_refl). eexists _, _. split; [done|]. right.
    split; [unfold neg_errno, EIO; destruct (Z.eqb_spec e 0); lia|]. split; [|done]. intros [_ E]. congruence.
  - do 6 (erewrite M_bind_step by done; cbv beta). eexists 0, _. split; [done|]. left. split; [done|]. split; [by split|done].
Qed.

(** One attempt per process.  Initialisation with arguments makes every
    later call fail with -EALREADY and change nothing, whether it succeeded or
    not; it succeeds exactly when the EAL of the expected version starts, and
    then records the main lcore, the lcore count and the socket. *)
Theorem dp_runtime_init_once env argc args w :
  attempted (dp w) = false -> initialized (dp w) = false -> 1 <= argc ->
  (forall e, rte_eal_init env = Some e -> 0 <= e) ->
  exists ret w', dp_runtime_init env argc (Some args) w = Some (ret, w') /\
    (ret = 0 <-> initialized (dp w') = true) /\
    (ret = 0 <-> rte_version env = "DPDK 25.11.3"%string /\ rte_eal_init env = None) /\
    (ret = 0 -> main_lcore (info (dp w')) = rte_get_main_lcore env /\
       lcore_count (info (dp w')) = rte_lcore_count env /\ socket_id (info (dp w')) = rte_socket_id env) /\
    forall env' argc' argv', dp_runtime_init env' argc' argv' w' = Some (- EALREADY, w').
Proof.
  intros Ha Hi Hc He. destruct (init_run env argc args w Ha Hc He) as (ret & w' & Hrun & Hcase).
  exists ret, w'. split; [done|]. assert (attempted (dp w') = true) as Ha' by by destruct Hcase as [(_ & _ & ->)|(_ & _ & ->)].
  fold (eal_starts env). destruct Hcase as [(-> & Hs & ->)|(Hneg & Hs & ->)].
  - split_and!; try done; intros; by apply init_again.
  - change (initialized (dp (set_dp (set_attempted true (dp w)) w))) with (initialized (dp w)). rewrite Hi.
    split; [split; [lia|done]|]. split; [split; [lia|done]|]. split; [lia|]. intros. by apply init_again.
Qed.
End Runtime.
