(* ===== verification/GoStats.v ===== *)
(** * Info and statistics in Go: [binding_linux.go]

    [GetInfo] and [GetStats] copy what the native side reports into structures that
    the Go side owns; the manager keeps the last of each. *)
From Stdlib Require Import ZArith Lia.
From stdpp Require Import base list numbers option gmap strings.
From S2P Require Import Prelude Packet Api Tables Heap Rcu State Runtime StatsSpec RuntimeSpec.

(** ** The structures *)
Module Go.
Record WorkerInfo := { WorkerID : Z; LcoreID : Z; RXQueueID : Z; TXQueueID : Z }.

Record Info := {
  Initialized : bool;
  MainLcore : Z; LcoreCount : Z;
  Version : string;
  RXPort : Z; TXPort : Z; RXDesc : Z; TXDesc : Z;
  NBMbuf : Z; CacheSize : Z;
  SocketID : Z;
  InfoWorkers : list WorkerInfo;
}.

Record PacketStats := {
  RX : Z; ParseOK : Z; ParseUnsupported : Z; ParseMalformed : Z;
  FlowHit : Z; RouteHit : Z; LookupMiss : Z;
  ActionDrop : Z; ActionForward : Z; ActionRewrite : Z;
  TXAccepted : Z; TXUnsent : Z; Drop : Z;
  RXBursts : Z; RXEmptyPolls : Z; TXBursts : Z;
}.

Record WorkerStats := { WorkerStatsInfo : WorkerInfo; Packets : PacketStats }.

(** The totals are the first fields of the Go structure. *)
Record Stats := {
  Totals : PacketStats;
  StatsWorkers : list WorkerStats;
  RulesGeneration : Z; RulesPublishSuccess : Z; RulesPublishFailed : Z; RulesReclaimed : Z;
  PortsClosed : Z; PoolInUse : Z;
  PoolFreed : bool; FlowTableFreed : bool; RouteTableFreed : bool; ActionStoreFreed : bool; SnapshotFreed : bool; QSBRFreed : bool;
}.

(** [Info{}] and [Stats{}] *)
Definition no_info : Info := {|
  Initialized := false; MainLcore := 0; LcoreCount := 0; Version := ""; RXPort := 0; TXPort := 0; RXDesc := 0; TXDesc := 0;
  NBMbuf := 0; CacheSize := 0; SocketID := 0; InfoWorkers := [] |}.
Definition no_packets : PacketStats := {|
  RX := 0; ParseOK := 0; ParseUnsupported := 0; ParseMalformed := 0; FlowHit := 0; RouteHit := 0; LookupMiss := 0;
  ActionDrop := 0; ActionForward := 0; ActionRewrite := 0; TXAccepted := 0; TXUnsent := 0; Drop := 0;
  RXBursts := 0; RXEmptyPolls := 0; TXBursts := 0 |}.
Definition no_stats : Stats := {|
  Totals := no_packets; StatsWorkers := []; RulesGeneration := 0; RulesPublishSuccess := 0; RulesPublishFailed := 0;
  RulesReclaimed := 0; PortsClosed := 0; PoolInUse := 0; PoolFreed := false; FlowTableFreed := false; RouteTableFreed := false;
  ActionStoreFreed := false; SnapshotFreed := false; QSBRFreed := false |}.
End Go.

(** ** The conversions *)
Definition worker_info (w : dp_worker_info) : Go.WorkerInfo := {|
  Go.WorkerID := worker_id w; Go.LcoreID := lcore_id w; Go.RXQueueID := rx_queue_id w; Go.TXQueueID := tx_queue_id w |}.

Definition packet_stats (p : dp_packet_stats) : Go.PacketStats := {|
  Go.RX := rx p; Go.ParseOK := parse_ok p; Go.ParseUnsupported := parse_unsupported p; Go.ParseMalformed := parse_malformed p;
  Go.FlowHit := flow_hit p; Go.RouteHit := route_hit p; Go.LookupMiss := lookup_miss p; Go.ActionDrop := action_drop p;
  Go.ActionForward := action_forward p; Go.ActionRewrite := action_rewrite p; Go.TXAccepted := tx_accepted p;
  Go.TXUnsent := tx_unsent p; Go.Drop := drop_ p; Go.RXBursts := rx_bursts p; Go.RXEmptyPolls := rx_empty_polls p;
  Go.TXBursts := tx_bursts p |}.

Definition worker_stats (w : dp_worker_stats) : Go.WorkerStats :=
  {| Go.WorkerStatsInfo := worker_info (ws_info w); Go.Packets := packet_stats (ws_packets w) |}.

(** [for i := from; i < from + n; i++ { result = append(result, f(workers[i])) }]; an
    index past the array panics. *)
Fixpoint convert {A B} (f : A -> B) (workers : list A) (from n : nat) (result : list B) : option (list B) :=
  match n with
  | O => Some result
  | S n => worker ← workers !! from; convert f workers (S from) n (result ++ [f worker])
  end.

Definition go_info (info : dp_runtime_info) : option Go.Info :=
  workers ← convert worker_info (info_workers info) 0 (Z.to_nat (info_worker_count info)) [];
  Some {|
    Go.Initialized := negb (info_initialized info =? 0); Go.MainLcore := main_lcore info; Go.LcoreCount := lcore_count info;
    Go.Version := version info; Go.RXPort := rx_port info; Go.TXPort := tx_port info; Go.RXDesc := rx_desc info;
    Go.TXDesc := tx_desc info; Go.NBMbuf := nb_mbuf info; Go.CacheSize := cache_size info; Go.SocketID := socket_id info;
    Go.InfoWorkers := workers |}.

Definition go_stats (s : dp_stats) : option Go.Stats :=
  workers ← convert worker_stats (st_workers s) 0 (Z.to_nat (st_worker_count s)) [];
  let c := st_rules s in
  Some {|
    Go.Totals := packet_stats (st_packets s); Go.StatsWorkers := workers;
    Go.RulesGeneration := rules_generation c; Go.RulesPublishSuccess := rules_publish_success c;
    Go.RulesPublishFailed := rules_publish_failed c; Go.RulesReclaimed := rules_reclaimed c;
    Go.PortsClosed := ports_closed c; Go.PoolInUse := pool_in_use c;
    Go.PoolFreed := negb (pool_freed c =? 0); Go.FlowTableFreed := negb (flow_table_freed c =? 0);
    Go.RouteTableFreed := negb (route_table_freed c =? 0); Go.ActionStoreFreed := negb (action_store_freed c =? 0);
    Go.SnapshotFreed := negb (snapshot_freed c =? 0); Go.QSBRFreed := negb (qsbr_freed c =? 0) |}.

(** ** Nothing is lost *)
Lemma convert_run {A B} (f : A -> B) workers n : forall from result, (from + n <= length workers)%nat ->
  convert f workers from n result = Some (result ++ (f <$> take n (drop from workers))).
Proof.
  induction n as [|n IH]; intros from result Hn; cbn [convert]; [by rewrite app_nil_r|].
  destruct (lookup_lt_is_Some_2 workers from) as [x Hx]; [lia|]. rewrite Hx. bind_cbn. rewrite IH by lia.
  rewrite (drop_S _ _ _ Hx). cbn. by rewrite <- app_assoc.
Qed.

(** The C counters of the Go counters. *)
Definition c_packets (p : Go.PacketStats) : dp_packet_stats := {|
  rx := Go.RX p; parse_ok := Go.ParseOK p; parse_unsupported := Go.ParseUnsupported p; parse_malformed := Go.ParseMalformed p;
  flow_hit := Go.FlowHit p; route_hit := Go.RouteHit p; lookup_miss := Go.LookupMiss p; action_drop := Go.ActionDrop p;
  action_forward := Go.ActionForward p; action_rewrite := Go.ActionRewrite p; tx_accepted := Go.TXAccepted p;
  tx_unsent := Go.TXUnsent p; drop_ := Go.Drop p; rx_bursts := Go.RXBursts p; rx_empty_polls := Go.RXEmptyPolls p;
  tx_bursts := Go.TXBursts p |}.

Lemma c_packets_stats p : c_packets (packet_stats p) = p.
Proof. by destruct p. Qed.

(** ** What the statistics say of a router *)
Section Reports.
Context {T : DpdkTables} {Q : Qsbr}.

(** [s] reports [d]: totals are the sums over the workers modulo 2^64, every worker is
    there with its own counters, and the counters of rules and resources are those of
    the native side. *)
Record reports (d : dp_state) (s : Go.Stats) : Prop := {
  rp_totals c : get_counter (c_packets (Go.Totals s)) c =
    u64 (sum_list ((fun ctx => get_counter (ctx_stats ctx) c) <$> take (Z.to_nat (worker_count d)) (workers d)));
  rp_workers : Go.StatsWorkers s = (fun ctx => worker_stats (worker_report ctx)) <$> take (Z.to_nat (worker_count d)) (workers d);
  rp_balanced : Forall (fun ctx => balanced (ctx_stats ctx)) (take (Z.to_nat (worker_count d)) (workers d)) -> balanced (c_packets (Go.Totals s));
  rp_rules : (Go.RulesGeneration s, Go.RulesPublishSuccess s, Go.RulesPublishFailed s, Go.RulesReclaimed s) =
    (rules_generation (dstats d), rules_publish_success (dstats d), rules_publish_failed (dstats d), rules_reclaimed (dstats d));
  rp_ports : (Go.PortsClosed s, Go.PoolInUse s) = (ports_closed (dstats d), pool_in_use (dstats d));
  rp_freed : Forall2 (fun (b : bool) z => b = true <-> z <> 0)
    [Go.PoolFreed s; Go.FlowTableFreed s; Go.RouteTableFreed s; Go.ActionStoreFreed s; Go.SnapshotFreed s; Go.QSBRFreed s]
    [pool_freed (dstats d); flow_table_freed (dstats d); route_table_freed (dstats d); action_store_freed (dstats d);
     snapshot_freed (dstats d); qsbr_freed (dstats d)];
}.

Lemma flag_spec z : negb (z =? 0) = true <-> z <> 0.
Proof. rewrite negb_true_iff, Z.eqb_neq. done. Qed.

Lemma stats_report d stale old : running d = false -> (Z.to_nat (worker_count d) <= length (workers d))%nat ->
  (Z.to_nat (worker_count d) <= length stale)%nat ->
  exists s out, dp_dataplane_get_stats d stale (Some old) = Some (0, Some s) /\ go_stats s = Some out /\ reports d out.
Proof.
  intros Hr Hw Hs. destruct (dp_dataplane_get_stats_spec d stale old Hr Hw Hs) as (s & Hrun & Hc & Ew & Er & Hb & En).
  exists s. unfold go_stats. rewrite En, convert_run by (rewrite Ew, length_app, length_fmap, length_take; lia).
  eexists. split; [done|]. split; [done|]. split; cbn [Go.Totals Go.StatsWorkers]; rewrite ?c_packets_stats, ?Er; try done.
  - cbn [app]. rewrite drop_0, Ew, take_app_le by (rewrite length_fmap, length_take; lia).
    rewrite take_ge by (rewrite length_fmap, length_take; lia). by rewrite <- list_fmap_compose.
  - repeat (apply Forall2_cons_2; [apply flag_spec|]). apply Forall2_nil_2.
Qed.

End Reports.

Lemma info_lists i : (Z.to_nat (info_worker_count i) <= length (info_workers i))%nat ->
  exists out, go_info i = Some out /\ Go.LcoreCount out = lcore_count i /\
    Go.InfoWorkers out = worker_info <$> take (Z.to_nat (info_worker_count i)) (info_workers i).
Proof. intros Hn. unfold go_info. rewrite convert_run by lia. by eexists. Qed.
