(* ===== verification/GoSlice.v ===== *)
(** * Go slices

    A slice is a window on an array that other slices may share: [append] writes
    into the array when its capacity allows it, and into a fresh copy otherwise,
    so that what an operation of the control plane changes depends on what it
    shares.  The model has the arrays explicitly; [elements_of] is what a slice
    shows, and the lemmas say when a window is left alone. *)
From Stdlib Require Import ZArith Lia.
From stdpp Require Import base list numbers option gmap.
From S2P Require Import Prelude.

Section Slices.
Context {A : Type}.

(** Arrays by number; a number is used once. *)
Record go_mem := { arrays : gmap nat (list A); next_array : nat }.

(** [s_array] is [None] for a nil slice. *)
Record slice := { s_array : option nat; s_off : nat; s_len : nat; s_cap : nat }.

Definition nil_slice : slice := {| s_array := None; s_off := 0; s_len := 0; s_cap := 0 |}.

(** The elements from [len] to [cap] that a growing [append] makes room for: the
    runtime's choice. *)
Context (growth : nat -> nat -> nat).

(** The elements of a slice: what [range] iterates over. *)
Definition elements_of (s : slice) (m : go_mem) : option (list A) :=
  match s_array s with
  | None => if Nat.eqb (s_len s + s_cap s) 0 then Some [] else None
  | Some a => l ← arrays m !! a;
              if Nat.leb (s_off s + s_cap s) (length l) && Nat.leb (s_len s) (s_cap s)
              then Some (take (s_len s) (drop (s_off s) l)) else None
  end.

Definition range_over (s : slice) : M go_mem (list A) := fun m => l ← elements_of s m; Some (l, m).

(** [s[:high]] and [s[low:]]: out of range panics. *)
Definition slice_to (s : slice) (high : nat) : M go_mem slice :=
  if Nat.leb high (s_cap s)
  then mret {| s_array := s_array s; s_off := s_off s; s_len := high; s_cap := s_cap s |} else ub.
Definition slice_from (s : slice) (low : nat) : M go_mem slice :=
  if Nat.leb low (s_len s)
  then mret {| s_array := s_array s; s_off := s_off s + low; s_len := s_len s - low; s_cap := s_cap s - low |}
  else ub.

(** A fresh array. *)
Definition new_array (l : list A) (len : nat) : M go_mem slice :=
  fun m => let a := next_array m in
    Some ({| s_array := Some a; s_off := 0; s_len := len; s_cap := length l |},
          {| arrays := <[a := l]> (arrays m); next_array := S a |}).

(** Overwrite [l] from position [i]. *)
Definition write_at (i : nat) (xs l : list A) : list A := take i l ++ xs ++ drop (i + length xs) l.

(** [append(s, xs...)] for values [xs] that have been read. *)
Definition append_values (zero : A) (s : slice) (xs : list A) : M go_mem slice :=
  let len := (s_len s + length xs)%nat in
  match xs with
  | [] => mret s
  | _ =>
    if Nat.leb len (s_cap s) then
      fun m => a ← s_array s; l ← arrays m !! a;
        Some ({| s_array := s_array s; s_off := s_off s; s_len := len; s_cap := s_cap s |},
              {| arrays := <[a := write_at (s_off s + s_len s) xs l]> (arrays m); next_array := next_array m |})
    else
      old ← range_over s;
      new_array (old ++ xs ++ replicate (growth (s_cap s) len) zero) len
  end.

(** [append(s, t...)] *)
Definition append_slice (zero : A) (s t : slice) : M go_mem slice :=
  xs ← range_over t; append_values zero s xs.

(** ** What is shared *)

(** Arrays are numbered below [next_array]. *)
Definition mem_ok (m : go_mem) : Prop := forall a, is_Some (arrays m !! a) -> (a < next_array m)%nat.

(** The first [n] arrays are as they were. *)
Definition keeps (n : nat) (m m' : go_mem) : Prop :=
  (forall a, (a < n)%nat -> arrays m' !! a = arrays m !! a) /\ (next_array m <= next_array m')%nat.

(** The array of the slice is one of the first [n], or none of them. *)
Definition older (n : nat) (s : slice) : Prop := forall a, s_array s = Some a -> (a < n)%nat.
Definition newer (n : nat) (s : slice) : Prop := forall a, s_array s = Some a -> (n <= a)%nat.

#[export] Instance keeps_preorder n : PreOrder (keeps n).
Proof.
  split; [by split|]. intros m1 m2 m3 [Hs Hn] [Hs' Hn']. split; [|lia]. intros a Ha. by rewrite Hs', Hs.
Qed.

Lemma keeps_le n n' m m' : (n' <= n)%nat -> keeps n m m' -> keeps n' m m'.
Proof. intros Hn [Hs Hm]. split; [|done]. intros a Ha. apply Hs. lia. Qed.

Lemma elements_keeps n s m m' : keeps n m m' -> older n s -> elements_of s m' = elements_of s m.
Proof.
  intros [Hs _] Ho. unfold elements_of. destruct (s_array s) as [a|] eqn:E; [|done]. by rewrite Hs by by apply Ho.
Qed.

Lemma elements_newer n s (m m' : go_mem) : (forall a, (n <= a)%nat -> arrays m' !! a = arrays m !! a) ->
  newer n s -> elements_of s m' = elements_of s m.
Proof.
  intros Hs Ho. unfold elements_of. destruct (s_array s) as [a|] eqn:E; [|done]. by rewrite Hs by by apply Ho.
Qed.

Lemma elements_older s m l : mem_ok m -> elements_of s m = Some l -> older (next_array m) s.
Proof.
  intros Hm. unfold elements_of. intros E a Ha. rewrite Ha in E. apply Hm.
  destruct (arrays m !! a); [by eexists|done].
Qed.

Lemma elements_run s m l : elements_of s m = Some l -> range_over s m = Some (l, m).
Proof. unfold range_over. by intros ->. Qed.

(** A slice shows a part of the array it lies in. *)
Lemma elements_inv s m l : elements_of s m = Some l ->
  (s_array s = None /\ l = [] /\ s_len s = 0%nat /\ s_cap s = 0%nat) \/
  exists a x, s_array s = Some a /\ arrays m !! a = Some x /\ (s_off s + s_cap s <= length x)%nat /\
    (s_len s <= s_cap s)%nat /\ l = take (s_len s) (drop (s_off s) x).
Proof.
  unfold elements_of. destruct (s_array s) as [a|].
  - destruct (arrays m !! a) as [x|] eqn:Hx; [|done]. bind_cbn.
    destruct (Nat.leb _ _ && Nat.leb _ _) eqn:Hc; [|done]. intros [= <-]. right.
    apply andb_true_iff in Hc as [H1%Nat.leb_le H2%Nat.leb_le]. by exists a, x.
  - destruct (Nat.eqb_spec (s_len s + s_cap s) 0); [|done]. intros [= <-]. left. split_and!; lia || done.
Qed.

Lemma elements_intro s m a x : s_array s = Some a -> arrays m !! a = Some x ->
  (s_off s + s_cap s <= length x)%nat -> (s_len s <= s_cap s)%nat ->
  elements_of s m = Some (take (s_len s) (drop (s_off s) x)).
Proof.
  intros Ha Hx H1 H2. unfold elements_of. rewrite Ha, Hx. bind_cbn.
  by rewrite (proj2 (Nat.leb_le _ _) H1), (proj2 (Nat.leb_le _ _) H2).
Qed.

Lemma elements_length s m l : elements_of s m = Some l -> length l = s_len s.
Proof.
  intros [(_ & -> & -> & _)|(a & x & _ & _ & H1 & H2 & ->)]%elements_inv; [done|].
  rewrite length_take, length_drop. lia.
Qed.

(** What an operation leaves: a slice of its own showing [l], the first [n]
    arrays untouched. *)
Definition owns (n : nat) (m : go_mem) (l : list A) (s : slice) (m' : go_mem) : Prop :=
  keeps n m m' /\ mem_ok m' /\ newer n s /\ elements_of s m' = Some l.

Lemma new_array_run n l len m : mem_ok m -> (n <= next_array m)%nat -> (len <= length l)%nat ->
  exists s m', new_array l len m = Some (s, m') /\ owns n m (take len l) s m'.
Proof.
  intros Hm Hn Hl. eexists _, _. split; [done|]. split_and!.
  - split; [|cbn; lia]. intros a Ha. cbn. rewrite lookup_insert_ne by lia. done.
  - intros a [x Hx]. cbn in *. destruct (decide (a = next_array m)) as [->|]; [lia|].
    rewrite lookup_insert_ne in Hx by done. assert (a < next_array m)%nat by (apply Hm; by rewrite Hx). lia.
  - by intros a [= <-].
  - rewrite (elements_intro _ _ (next_array m) l); cbn; [by rewrite drop_0|done|by rewrite lookup_insert_eq|lia..].
Qed.

Lemma write_at_length i xs l : (i + length xs <= length l)%nat -> length (write_at i xs l) = length l.
Proof. intros H. unfold write_at. rewrite !length_app, length_take, length_drop. lia. Qed.

Lemma write_at_window off len xs l : (off + len + length xs <= length l)%nat ->
  take (len + length xs) (drop off (write_at (off + len) xs l)) = take len (drop off l) ++ xs.
Proof.
  intros H. unfold write_at. rewrite drop_app_le by (rewrite length_take; lia).
  rewrite <- take_drop_commute. rewrite app_assoc, take_app_le by (rewrite length_app, length_take, length_drop; lia).
  apply take_ge. rewrite length_app, length_take, length_drop. lia.
Qed.

(** Appending to a slice one owns. *)
Lemma append_run n zero s xs m l : mem_ok m -> (n <= next_array m)%nat -> newer n s -> elements_of s m = Some l ->
  exists s' m', append_values zero s xs m = Some (s', m') /\ owns n m (l ++ xs) s' m'.
Proof.
  intros Hm Hn Hnew Hl. pose proof (elements_length _ _ _ Hl) as HL. unfold append_values.
  destruct xs as [|x0 xs0] eqn:Exs; [exists s, m; rewrite app_nil_r; by split_and!|]. rewrite <- Exs. cbv zeta.
  destruct (Nat.leb_spec (s_len s + length xs) (s_cap s)) as [Hfit|Hgrow].
  - apply elements_inv in Hl as [(_ & _ & H1 & H2)|(a & x & Ha & Hx & H1 & H2 & ->)].
    { subst xs. cbn [length] in Hfit. lia. }
    rewrite Ha. bind_cbn. rewrite Hx. bind_cbn. eexists _, _. split; [done|].
    assert (a < next_array m)%nat as Hlt by (apply Hm; by rewrite Hx).
    specialize (Hnew a Ha). split_and!.
    + split; [|done]. intros b Hb. cbn. by rewrite lookup_insert_ne by lia.
    + intros b [y Hy]. cbn in *. destruct (decide (b = a)) as [->|]; [done|].
      rewrite lookup_insert_ne in Hy by done. apply Hm. by rewrite Hy.
    + by intros b [= <-].
    + assert (s_off s + s_len s + length xs <= length x)%nat as Hx3 by lia.
      rewrite (elements_intro _ _ a (write_at (s_off s + s_len s) xs x)); cbn;
        [|done|by rewrite lookup_insert_eq|rewrite write_at_length by lia; lia|lia].
      by rewrite write_at_window by lia.
  - erewrite M_bind_step by by apply elements_run. cbv beta.
    destruct (new_array_run n (l ++ xs ++ replicate (growth (s_cap s) (s_len s + length xs)) zero)
      (s_len s + length xs) m Hm Hn) as (s' & m' & Hrun & Hown); [rewrite !length_app; lia|].
    exists s', m'. split; [done|]. rewrite app_assoc, take_app_le, take_ge in Hown; [done|rewrite length_app; lia..].
Qed.

(** [append([]T(nil), t...)]: a private copy. *)
Lemma clone_run n zero t m l : mem_ok m -> (n <= next_array m)%nat -> elements_of t m = Some l ->
  exists s' m', append_slice zero nil_slice t m = Some (s', m') /\ owns n m l s' m'.
Proof.
  intros Hm Hn Hl. unfold append_slice. erewrite M_bind_step by by apply elements_run. cbv beta.
  by apply (append_run n zero nil_slice l m []).
Qed.

(** [append(s[:i], s[i+1:]...)] *)
Definition remove_at (zero : A) (s : slice) (i : nat) : M go_mem slice :=
  head ← slice_to s i; tail ← slice_from s (i + 1); append_slice zero head tail.

Lemma slice_to_run s i m : (i <= s_cap s)%nat ->
  slice_to s i m = Some ({| s_array := s_array s; s_off := s_off s; s_len := i; s_cap := s_cap s |}, m).
Proof. intros H. unfold slice_to. by rewrite (proj2 (Nat.leb_le _ _) H). Qed.

Lemma slice_from_run s i m : (i <= s_len s)%nat ->
  slice_from s i m = Some ({| s_array := s_array s; s_off := s_off s + i; s_len := s_len s - i; s_cap := s_cap s - i |}, m).
Proof. intros H. unfold slice_from. by rewrite (proj2 (Nat.leb_le _ _) H). Qed.

Lemma remove_run n zero s i m l : mem_ok m -> (n <= next_array m)%nat -> newer n s ->
  elements_of s m = Some l -> (i < length l)%nat ->
  exists s' m', remove_at zero s i m = Some (s', m') /\ owns n m (delete i l) s' m'.
Proof.
  intros Hm Hn Hnew Hl Hi. pose proof (elements_length _ _ _ Hl) as HL.
  apply elements_inv in Hl as [(_ & -> & _)|(a & x & Ha & Hx & H1 & H2 & El)]; [cbn in Hi; lia|].
  unfold remove_at, append_slice. erewrite M_bind_step by (apply slice_to_run; lia). cbv beta.
  erewrite M_bind_step by (apply slice_from_run; lia). cbv beta. erewrite M_bind_step.
  2: { apply elements_run. eapply elements_intro; cbn [s_array s_off s_len s_cap]; [exact Ha|exact Hx|lia|lia]. }
  cbv beta. cbn [s_array s_off s_len s_cap].
  set (head := {| s_array := s_array s; s_off := s_off s; s_len := i; s_cap := s_cap s |}).
  destruct (append_run n zero head
    (take (s_len s - (i + 1)) (drop (s_off s + (i + 1)) x)) m (take i (drop (s_off s) x)) Hm Hn) as (s' & m' & Hrun & Hown);
    [exact Hnew|apply (elements_intro head m a x); cbn; [done|done|lia|lia]|].
  exists s', m'. split; [exact Hrun|]. subst l.
  rewrite delete_take_drop, take_take, Nat.min_l, skipn_firstn_comm, drop_drop by lia.
  by rewrite <- (Nat.add_1_r i).
Qed.
End Slices.
#[global] Arguments go_mem : clear implicits.
