(* ===== verification/Control.v ===== *)
(** * The control plane's rules: [control/dataplane/rules.go]

    The Go manager keeps its own copy of the active rules in slices, checks every
    change against it and publishes the result through the native layer.  Slices
    live in the memory of [GoSlice]; the native call is a parameter, so that the
    manager is verified against what it relies on (ControlSpec) before that is
    discharged by the native code. *)
From Stdlib Require Import ZArith Lia.
From stdpp Require Import base list numbers option gmap strings.
From S2P Require Import Prelude Api Binding GoSlice GoStats.

(** ** Data *)
Record RuleAction := {
  Type_ : Z; RewriteMask : Z; SrcIPv4 : Z; DstIPv4 : Z; SrcPort : Z; DstPort : Z }.
Record FlowRule := {
  FSrcIPv4 : Z; FDstIPv4 : Z; FSrcPort : Z; FDstPort : Z; L4Proto : Z; FAction : RuleAction }.
Record FlowKey := {
  KSrcIPv4 : Z; KDstIPv4 : Z; KSrcPort : Z; KDstPort : Z; KL4Proto : Z }.
Record RouteRule := { Prefix : Z; Depth : Z; RAction : RuleAction }.
Record RouteKey := { KPrefix : Z; KDepth : Z }.
Record RuleSnapshot := { Flows : slice; Routes : slice }.

Definition action_default : RuleAction :=
  {| Type_ := 0; RewriteMask := 0; SrcIPv4 := 0; DstIPv4 := 0; SrcPort := 0; DstPort := 0 |}.
Definition flow_default : FlowRule := {| FSrcIPv4 := 0; FDstIPv4 := 0; FSrcPort := 0; FDstPort := 0;
  L4Proto := 0; FAction := action_default |}.
Definition route_default : RouteRule := {| Prefix := 0; Depth := 0; RAction := action_default |}.

#[export] Instance RuleAction_eq_dec : EqDecision RuleAction.
Proof. solve_decision. Defined.
#[export] Instance FlowKey_eq_dec : EqDecision FlowKey.
Proof. solve_decision. Defined.
#[export] Instance RouteKey_eq_dec : EqDecision RouteKey.
Proof. solve_decision. Defined.

Definition flowRuleKey (rule : FlowRule) : FlowKey := {|
  KSrcIPv4 := FSrcIPv4 rule; KDstIPv4 := FDstIPv4 rule; KSrcPort := FSrcPort rule;
  KDstPort := FDstPort rule; KL4Proto := L4Proto rule |}.
Definition routeRuleKey (rule : RouteRule) : RouteKey := {| KPrefix := Prefix rule; KDepth := Depth rule |}.

(** ** [validateRules] *)
Inductive action_error :=
  | NonRewriteMask
  | UnknownActionType (t : Z)
  | InvalidRewriteMask (mask : Z).

Definition validateRuleAction (action : RuleAction) : option action_error :=
  let validMask := Z.lor (Z.lor (Z.lor DP_REWRITE_SRC_IPV4 DP_REWRITE_DST_IPV4) DP_REWRITE_SRC_PORT) DP_REWRITE_DST_PORT in
  if (Type_ action =? DP_ACTION_DROP) || (Type_ action =? DP_ACTION_FORWARD) then
    if negb (RewriteMask action =? 0) then Some NonRewriteMask else None
  else if negb (Type_ action =? DP_ACTION_REWRITE) then Some (UnknownActionType (Type_ action))
  else if (RewriteMask action =? 0) || negb (Z.ldiff (RewriteMask action) validMask =? 0)
  then Some (InvalidRewriteMask (RewriteMask action)) else None.

Inductive rules_error :=
  | CapacityExceeded
  | UnsupportedProtocol (index : nat) (proto : Z)
  | InvalidFlowAction (index : nat) (e : action_error)
  | DuplicateFlow (index : nat)
  | InvalidDepth (index : nat) (depth : Z)
  | PrefixNotNormalized (index : nat)
  | InvalidRouteAction (index : nat) (e : action_error)
  | DuplicateRoute (index : nat).

(** [[5]uint64] and [[2]uint64] map keys *)
Definition flow_map_key (rule : FlowRule) : Z * Z * Z * Z * Z :=
  (FSrcIPv4 rule, FDstIPv4 rule, FSrcPort rule, FDstPort rule, L4Proto rule).
Definition route_map_key (rule : RouteRule) : Z * Z := (Prefix rule, Depth rule).

Fixpoint validate_flows (index : nat) (flowKeys : gset (Z * Z * Z * Z * Z)) (rules : list FlowRule) : option rules_error :=
  match rules with
  | [] => None
  | rule :: rules =>
    if negb (L4Proto rule =? 6) && negb (L4Proto rule =? 17) then Some (UnsupportedProtocol index (L4Proto rule)) else
    match validateRuleAction (FAction rule) with
    | Some err => Some (InvalidFlowAction index err)
    | None =>
      let key := flow_map_key rule in
      if decide (key ∈ flowKeys) then Some (DuplicateFlow index)
      else validate_flows (S index) ({[key]} ∪ flowKeys) rules
    end
  end.

Fixpoint validate_routes (index : nat) (routeKeys : gset (Z * Z)) (rules : list RouteRule) : option rules_error :=
  match rules with
  | [] => None
  | rule :: rules =>
    if (Depth rule =? 0) || (32 <? Depth rule) then Some (InvalidDepth index (Depth rule)) else
    let mask := if negb (Depth rule =? 0) then u32 (Z.shiftl (2 ^ 32 - 1) (u8 (32 - Depth rule))) else 0 in
    if negb (Z.land (Prefix rule) mask =? Prefix rule) then Some (PrefixNotNormalized index) else
    match validateRuleAction (RAction rule) with
    | Some err => Some (InvalidRouteAction index err)
    | None =>
      let key := route_map_key rule in
      if decide (key ∈ routeKeys) then Some (DuplicateRoute index)
      else validate_routes (S index) ({[key]} ∪ routeKeys) rules
    end
  end.

(** The check on what the two slices show. *)
Definition validate_elements (flows : list FlowRule) (routes : list RouteRule) : option rules_error :=
  if (DP_MAX_FLOW_RULES <? Z.of_nat (length flows)) || (DP_MAX_ROUTE_RULES <? Z.of_nat (length routes))
  then Some CapacityExceeded else
  match validate_flows 0 ∅ flows with
  | Some err => Some err
  | None => validate_routes 0 ∅ routes
  end.

(** [toNativeRules], element by element *)
Definition native_action (a : RuleAction) : Binding.Action :=
  Binding.Build_Action (Type_ a) (RewriteMask a) (SrcIPv4 a) (DstIPv4 a) (SrcPort a) (DstPort a).
Definition native_flow (rule : FlowRule) : Binding.FlowRule :=
  Binding.Build_FlowRule (FSrcIPv4 rule) (FDstIPv4 rule) (FSrcPort rule) (FDstPort rule) (L4Proto rule)
    (native_action (FAction rule)).
Definition native_route (rule : RouteRule) : Binding.RouteRule :=
  Binding.Build_RouteRule (Prefix rule) (Depth rule) (native_action (RAction rule)).
Definition native_snapshot (flows : list FlowRule) (routes : list RouteRule) : Binding.RuleSnapshot :=
  Binding.Build_RuleSnapshot (native_flow <$> flows) (native_route <$> routes).

(** ** The manager's state *)
Record go_heap := { flow_mem : go_mem FlowRule; route_mem : go_mem RouteRule }.

(** What [publishRules] may report. *)
Inductive native_error :=
  | ArraysError (e : arrays_error)
  | Status (rc : Z).

Inductive control_error :=
  | DuplicateKey
  | KeyNotFound
  | Invalid (e : rules_error)
  | NotAvailable
  | PublishFailed (e : native_error).

Section Manager.
Context {N : Type} (publishRules : Binding.RuleSnapshot -> M N (native_error + Z)).
Context (growth : nat -> nat -> nat).

(** [Runtime], with the native side it is connected to. *)
Record runtime := {
  memory : go_heap;
  currentRules : RuleSnapshot;
  rt_generation : Z;
  rulesOpen : bool;
  rt_info : Go.Info;
  rt_stats : Go.Stats;
  native : N;
}.

Definition set_memory (h : go_heap) (r : runtime) : runtime := {|
  memory := h; currentRules := currentRules r; rt_generation := rt_generation r; rulesOpen := rulesOpen r;
  rt_info := rt_info r; rt_stats := rt_stats r; native := native r |}.
Definition set_currentRules (s : RuleSnapshot) (r : runtime) : runtime := {|
  memory := memory r; currentRules := s; rt_generation := rt_generation r; rulesOpen := rulesOpen r;
  rt_info := rt_info r; rt_stats := rt_stats r; native := native r |}.
Definition set_rt_generation (g : Z) (r : runtime) : runtime := {|
  memory := memory r; currentRules := currentRules r; rt_generation := g; rulesOpen := rulesOpen r;
  rt_info := rt_info r; rt_stats := rt_stats r; native := native r |}.
Definition set_rulesOpen (b : bool) (r : runtime) : runtime := {|
  memory := memory r; currentRules := currentRules r; rt_generation := rt_generation r; rulesOpen := b;
  rt_info := rt_info r; rt_stats := rt_stats r; native := native r |}.
Definition set_rt_info (i : Go.Info) (r : runtime) : runtime := {|
  memory := memory r; currentRules := currentRules r; rt_generation := rt_generation r;
  rulesOpen := rulesOpen r; rt_info := i; rt_stats := rt_stats r; native := native r |}.
Definition set_rt_stats (s : Go.Stats) (r : runtime) : runtime := {|
  memory := memory r; currentRules := currentRules r; rt_generation := rt_generation r;
  rulesOpen := rulesOpen r; rt_info := rt_info r; rt_stats := s; native := native r |}.
Definition set_native (n : N) (r : runtime) : runtime := {|
  memory := memory r; currentRules := currentRules r; rt_generation := rt_generation r;
  rulesOpen := rulesOpen r; rt_info := rt_info r; rt_stats := rt_stats r; native := n |}.

Definition on_flows {A} (m : M (go_mem FlowRule) A) : M runtime A := fun r =>
  '(a, fm) ← m (flow_mem (memory r)); Some (a, set_memory {| flow_mem := fm; route_mem := route_mem (memory r) |} r).
Definition on_routes {A} (m : M (go_mem RouteRule) A) : M runtime A := fun r =>
  '(a, rm) ← m (route_mem (memory r)); Some (a, set_memory {| flow_mem := flow_mem (memory r); route_mem := rm |} r).
Definition on_native {A} (m : M N A) : M runtime A := fun r =>
  '(a, n) ← m (native r); Some (a, set_native n r).

Definition cloneRules (snapshot : RuleSnapshot) : M runtime RuleSnapshot :=
  flows ← on_flows (append_slice growth flow_default nil_slice (Flows snapshot));
  routes ← on_routes (append_slice growth route_default nil_slice (Routes snapshot));
  mret {| Flows := flows; Routes := routes |}.

Definition validateRules (snapshot : RuleSnapshot) : M runtime (option rules_error) :=
  flows ← on_flows (range_over (Flows snapshot));
  routes ← on_routes (range_over (Routes snapshot));
  mret (validate_elements flows routes).

Definition toNativeRules (snapshot : RuleSnapshot) : M runtime Binding.RuleSnapshot :=
  flows ← on_flows (range_over (Flows snapshot));
  routes ← on_routes (range_over (Routes snapshot));
  mret (native_snapshot flows routes).

Definition publishSnapshotLocked (snapshot : RuleSnapshot) : M runtime (option control_error) :=
  r ← get;
  if negb (rulesOpen r) then mret (Some NotAvailable) else
  n ← toNativeRules snapshot;
  result ← on_native (publishRules n);
  match result with
  | inl err => mret (Some (PublishFailed err))
  | inr generation =>
    copy ← cloneRules snapshot;
    modify (set_currentRules copy);;
    modify (set_rt_generation generation);;
    mret None
  end.

(** ** The operations, each with [rulesMu] held from its first use of the state *)
Definition validate_and_publish (candidate : RuleSnapshot) : M runtime (option control_error) :=
  err ← validateRules candidate;
  match err with
  | Some err => mret (Some (Invalid err))
  | None => publishSnapshotLocked candidate
  end.

Definition ReplaceRules (snapshot : RuleSnapshot) : M runtime (option control_error) :=
  candidate ← cloneRules snapshot;
  validate_and_publish candidate.

Definition AddFlow (rule : FlowRule) : M runtime (option control_error) :=
  r ← get;
  candidate ← cloneRules (currentRules r);
  let wanted := flowRuleKey rule in
  existing ← on_flows (range_over (Flows candidate));
  if is_set (index_of flowRuleKey existing wanted) then mret (Some DuplicateKey) else
  flows ← on_flows (append_values growth flow_default (Flows candidate) [rule]);
  validate_and_publish {| Flows := flows; Routes := Routes candidate |}.

Definition DeleteFlow (key : FlowKey) : M runtime (option control_error) :=
  r ← get;
  candidate ← cloneRules (currentRules r);
  existing ← on_flows (range_over (Flows candidate));
  match index_of flowRuleKey existing key with
  | None => mret (Some KeyNotFound)
  | Some index =>
    flows ← on_flows (remove_at growth flow_default (Flows candidate) index);
    publishSnapshotLocked {| Flows := flows; Routes := Routes candidate |}
  end.

Definition AddRoute (rule : RouteRule) : M runtime (option control_error) :=
  r ← get;
  candidate ← cloneRules (currentRules r);
  let wanted := routeRuleKey rule in
  existing ← on_routes (range_over (Routes candidate));
  if is_set (index_of routeRuleKey existing wanted) then mret (Some DuplicateKey) else
  routes ← on_routes (append_values growth route_default (Routes candidate) [rule]);
  validate_and_publish {| Flows := Flows candidate; Routes := routes |}.

Definition DeleteRoute (key : RouteKey) : M runtime (option control_error) :=
  r ← get;
  candidate ← cloneRules (currentRules r);
  existing ← on_routes (range_over (Routes candidate));
  match index_of routeRuleKey existing key with
  | None => mret (Some KeyNotFound)
  | Some index =>
    routes ← on_routes (remove_at growth route_default (Routes candidate) index);
    publishSnapshotLocked {| Flows := Flows candidate; Routes := routes |}
  end.

Definition RulesGeneration : M runtime Z := r ← get; mret (rt_generation r).
End Manager.
#[global] Arguments runtime : clear implicits.
