(* ===== verification/ControlSpec.v ===== *)
(** * The control plane's rules, specified

    The manager's check is the native contract; every operation is a transition
    of an abstract rule table that either happens on both sides, Go copy and
    native generation, or on neither; and nothing is shared with the caller. *)
From Stdlib Require Import ZArith Lia.
From stdpp Require Import base list numbers option gmap strings.
From S2P Require Import Prelude Packet Api Tables Snapshot SnapshotSpec Binding BindingSpec GoSlice Control.

(** ** The check is the native contract *)
Definition native_flows (flows : list FlowRule) : list dp_flow_rule := (c_flow ∘ native_flow) <$> flows.
Definition native_routes (routes : list RouteRule) : list dp_route_rule := (c_route ∘ native_route) <$> routes.

(** The fields have the widths of their Go types. *)
Definition rules_fit (flows : list FlowRule) (routes : list RouteRule) : Prop :=
  Forall flow_fits (native_flows flows) /\ Forall route_fits (native_routes routes).

Lemma c_flows_native flows routes : c_flows (native_snapshot flows routes) = native_flows flows.
Proof. unfold c_flows, native_flows. cbn. by rewrite <- list_fmap_compose. Qed.
Lemma c_routes_native flows routes : c_routes (native_snapshot flows routes) = native_routes routes.
Proof. unfold c_routes, native_routes. cbn. by rewrite <- list_fmap_compose. Qed.

Lemma validateRuleAction_spec a : fits 8 (RewriteMask a) ->
  validateRuleAction a = None <-> action_valid (c_action (native_action a)).
Proof.
  intros Hm. unfold validateRuleAction, action_valid. cbn [c_action native_action act_reserved act_type act_rewrite_mask
    Binding.Type_ Binding.RewriteMask]. cbv zeta.
  change (Z.lor (Z.lor (Z.lor DP_REWRITE_SRC_IPV4 DP_REWRITE_DST_IPV4) DP_REWRITE_SRC_PORT) DP_REWRITE_DST_PORT) with 15.
  rewrite Z.ldiff_land. pose proof (ldiff_15 (RewriteMask a)) as Hd.
  unfold DP_ACTION_DROP, DP_ACTION_FORWARD, DP_ACTION_REWRITE.
  destruct (Z.eqb_spec (Type_ a) 0), (Z.eqb_spec (Type_ a) 1), (Z.eqb_spec (Type_ a) 2),
    (Z.eqb_spec (RewriteMask a) 0), (Z.eqb_spec (Z.land (RewriteMask a) (Z.lnot 15)) 0); cbn [orb negb];
    split; try done; intros; fits_lia.
Qed.

Section Scan.
Context {A K : Type} `{Countable K} (key : A -> K) (ok : A -> Prop).

(** A scan that refuses bad elements and repeated keys accepts exactly the lists
    of good elements with distinct keys. *)
Definition scan_ok (seen : gset K) (l : list A) : Prop :=
  Forall ok l /\ NoDup (key <$> l) /\ (forall x, x ∈ l -> key x ∉ seen).

Lemma scan_ok_nil seen : scan_ok seen [].
Proof. split_and!; [done|constructor|]. by intros x ?%elem_of_nil. Qed.

Lemma scan_ok_cons seen x l : scan_ok seen (x :: l) <-> ok x /\ (key x ∉ seen) /\ scan_ok ({[key x]} ∪ seen) l.
Proof.
  unfold scan_ok. rewrite Forall_cons, fmap_cons, NoDup_cons. setoid_rewrite elem_of_cons. split.
  - intros ([? ?] & [Hx ?] & Hs). split_and!; auto. intros y Hy. rewrite elem_of_union, elem_of_singleton.
    intros [E|?]; [|by eapply Hs; eauto]. apply Hx. rewrite <- E. by apply list_elem_of_fmap_2.
  - intros (? & ? & ? & ? & Hs). split_and!; auto.
    + intros (y & E & Hy)%list_elem_of_fmap. apply (Hs y Hy). rewrite <- E. set_solver.
    + intros y [->|Hy]; [done|]. specialize (Hs y Hy). set_solver.
Qed.
End Scan.

Lemma NoDup_fmap_same {A B C} (f : A -> B) (g : A -> C) l :
  (forall x y, f x = f y <-> g x = g y) -> NoDup (f <$> l) <-> NoDup (g <$> l).
Proof.
  intros Hfg. induction l as [|x l IH]; [by split; constructor|]. rewrite !fmap_cons, !NoDup_cons, IH.
  assert (f x ∈ f <$> l <-> g x ∈ g <$> l) as ->; [|done].
  rewrite !list_elem_of_fmap. split; intros (y & E & ?); exists y; by apply Hfg in E.
Qed.

Definition flow_ok (r : FlowRule) : Prop := flow_rule_ok (c_flow (native_flow r)).
Definition route_ok (r : RouteRule) : Prop := route_rule_ok (c_route (native_route r)).

Lemma validate_flows_spec rules : forall index seen, Forall flow_fits (native_flows rules) ->
  validate_flows index seen rules = None <-> scan_ok flow_map_key flow_ok seen rules.
Proof.
  induction rules as [|r rules IH]; intros index seen Hf; [split; [intros _; apply scan_ok_nil|done]|].
  cbn in Hf. apply Forall_cons_1 in Hf as [(_ & _ & _ & _ & _ & (_ & Hm & _)) Hf].
  rewrite scan_ok_cons. unfold flow_ok at 1, flow_rule_ok.
  cbn [validate_flows c_flow native_flow flow_l4_proto Binding.L4Proto flow_reserved flow_action Binding.FAction].
  rewrite <- validateRuleAction_spec by done.
  unfold IPPROTO_TCP, IPPROTO_UDP.
  destruct (Z.eqb_spec (L4Proto r) 6), (Z.eqb_spec (L4Proto r) 17); cbn [negb andb];
    try (split; [done|intros ([[?|?] _] & _); lia]); try lia.
  all: destruct (validateRuleAction (FAction r)); [split; [done|by intros ((_ & _ & ?) & _)]|].
  all: case_decide; [split; [done|by intros (_ & ? & _)]|].
  all: rewrite IH by done; split; [intros ?; split_and!; auto|by intros (_ & _ & ?)].
Qed.

Lemma go_mask depth : 1 <= depth <= 32 -> u32 (Z.shiftl (2 ^ 32 - 1) (u8 (32 - depth))) = depth_mask depth.
Proof. intros Hd. unfold depth_mask. rewrite (wrap_id 8) by fits_lia. done. Qed.

Lemma validate_routes_spec rules : forall index seen, Forall route_fits (native_routes rules) ->
  validate_routes index seen rules = None <-> scan_ok route_map_key route_ok seen rules.
Proof.
  induction rules as [|r rules IH]; intros index seen Hf; [split; [intros _; apply scan_ok_nil|done]|].
  cbn in Hf. apply Forall_cons_1 in Hf as [(_ & Hd & (_ & Hm & _)) Hf].
  rewrite scan_ok_cons. unfold route_ok at 1, route_rule_ok.
  cbn [validate_routes c_route native_route route_depth Binding.Depth route_reserved route_action Binding.RAction
    route_prefix Binding.Prefix] in *.
  rewrite <- validateRuleAction_spec by done.
  destruct (Z.eqb_spec (Depth r) 0); cbn [negb orb]; [split; [done|intros ((? & _) & _); lia]|].
  destruct (Z.ltb_spec 32 (Depth r)); [split; [done|intros ((? & _) & _); lia]|]. cbv zeta.
  assert (1 <= Depth r <= 32) as Hr by fits_lia. rewrite go_mask by done. fold (prefix_of (Prefix r) (Depth r)).
  destruct (Z.eqb_spec (prefix_of (Prefix r) (Depth r)) (Prefix r)); cbn [negb];
    [|split; [done|by intros ((_ & _ & ? & _) & _)]].
  destruct (validateRuleAction (RAction r)); [split; [done|by intros ((_ & _ & _ & ?) & _)]|].
  case_decide; [split; [done|by intros (_ & ? & _)]|].
  rewrite IH by done. split; [intros ?|by intros (_ & _ & ?)]. split; [by split; [exact Hr|]|by split].
Qed.

Lemma validate_elements_spec flows routes : rules_fit flows routes ->
  validate_elements flows routes = None <->
    within_limits (native_flows flows) (native_routes routes) /\ rules_ok (native_flows flows) (native_routes routes).
Proof.
  intros [Hf Hr]. unfold validate_elements, within_limits, native_flows, native_routes. rewrite !length_fmap.
  destruct (Z.ltb_spec DP_MAX_FLOW_RULES (Z.of_nat (length flows))); cbn [orb]; [split; [done|intros [? _]; lia]|].
  destruct (Z.ltb_spec DP_MAX_ROUTE_RULES (Z.of_nat (length routes))); [split; [done|intros [? _]; lia]|].
  pose proof (validate_flows_spec flows 0 ∅ Hf) as Hvf. pose proof (validate_routes_spec routes 0 ∅ Hr) as Hvr.
  assert (scan_ok flow_map_key flow_ok ∅ flows <-> Forall flow_rule_ok (native_flows flows) /\
    NoDup (flow_rule_key <$> native_flows flows)) as Hsf.
  { unfold scan_ok, native_flows. rewrite <- list_fmap_compose, Forall_fmap.
    rewrite (NoDup_fmap_same flow_map_key (flow_rule_key ∘ (c_flow ∘ native_flow))); [split; [by intros (? & ? & _)|]|].
    - intros [? ?]. split_and!; [done..|]. intros. apply not_elem_of_empty.
    - intros x y. split; [intros [= ? ? ? ? ?]|intros [= ? ? ? ? ?]]; unfold flow_rule_key, flow_map_key; cbn; congruence. }
  assert (scan_ok route_map_key route_ok ∅ routes <-> Forall route_rule_ok (native_routes routes) /\
    NoDup (route_key <$> native_routes routes)) as Hsr.
  { unfold scan_ok, native_routes. rewrite <- list_fmap_compose, Forall_fmap.
    rewrite (NoDup_fmap_same route_map_key (route_key ∘ (c_route ∘ native_route))) by done.
    split; [by intros (? & ? & _)|]. intros [? ?]. split_and!; [done..|]. intros. apply not_elem_of_empty. }
  rewrite Hsf in Hvf. rewrite Hsr in Hvr. destruct (validate_flows 0 ∅ flows).
  - split; [done|]. intros [_ [? ? _ _]]. by assert (Some r = None) by by apply Hvf.
  - rewrite Hvr. split; [intros [? ?]; split; [done|]; by split; try apply Hvf|by intros [_ [_ _ ? ?]]].
Qed.

(** ** What the manager relies on

    [shows n g flows routes]: on the native side, generation [g] is active and
    decides packets by these rules. *)
Class NativeOk {N : Type} (publishRules : Binding.RuleSnapshot -> M N (native_error + Z))
    (shows : N -> Z -> list dp_flow_rule -> list dp_route_rule -> Prop) : Prop := {
  publish_native n g flows routes flows' routes' : shows n g flows routes -> rules_fit flows' routes' ->
    exists res n', publishRules (native_snapshot flows' routes') n = Some (res, n') /\
      match res with
      | inl _ => shows n' g flows routes
      | inr g' => g' = u64 (g + 1) /\ shows n' g' (native_flows flows') (native_routes routes')
      end;
}.

Section Manager.
Context {N : Type} (publishRules : Binding.RuleSnapshot -> M N (native_error + Z)) (growth : nat -> nat -> nat).
Context (shows : N -> Z -> list dp_flow_rule -> list dp_route_rule -> Prop) {HN : NativeOk publishRules shows}.
Abbreviation runtime := (runtime N).

(** ** Memory *)

(** What the two slices of a snapshot show. *)
Definition shows_in (s : RuleSnapshot) (h : go_heap) (flows : list FlowRule) (routes : list RouteRule) : Prop :=
  elements_of (Flows s) (flow_mem h) = Some flows /\ elements_of (Routes s) (route_mem h) = Some routes.

Definition heap_ok (h : go_heap) : Prop := mem_ok (flow_mem h) /\ mem_ok (route_mem h).

(** The arrays of [h] are as they were in [h']. *)
Definition later (h h' : go_heap) : Prop :=
  keeps (next_array (flow_mem h)) (flow_mem h) (flow_mem h') /\
  keeps (next_array (route_mem h)) (route_mem h) (route_mem h') /\ heap_ok h'.

(** The slices lie in arrays made since [h]. *)
Definition private_since (h : go_heap) (s : RuleSnapshot) : Prop :=
  newer (next_array (flow_mem h)) (Flows s) /\ newer (next_array (route_mem h)) (Routes s).

Lemma later_refl h : heap_ok h -> later h h.
Proof. intros Hh. by split_and!. Qed.

Lemma later_trans h h' h'' : later h h' -> later h' h'' -> later h h''.
Proof.
  intros (Hf & Hr & _) (Hf' & Hr' & Hok). split_and!; [| |done].
  - etrans; [done|]. eapply keeps_le; [apply Hf|done].
  - etrans; [done|]. eapply keeps_le; [apply Hr|done].
Qed.

Lemma private_earlier h h' s : later h h' -> private_since h' s -> private_since h s.
Proof. intros ([_ Hf] & [_ Hr] & _) [Hs Hs']. split; intros a Ha; [apply Hs in Ha|apply Hs' in Ha]; lia. Qed.

Lemma shows_in_later s h h' flows routes : heap_ok h -> later h h' -> shows_in s h flows routes -> shows_in s h' flows routes.
Proof.
  intros [Hm Hm'] (Hf & Hr & _) [Ef Er]. split.
  - rewrite (elements_keeps _ _ _ _ Hf); [done|]. by eapply elements_older.
  - rewrite (elements_keeps _ _ _ _ Hr); [done|]. by eapply elements_older.
Qed.

Lemma set_memory_same (r : runtime) : set_memory (memory r) r = r.
Proof. by destruct r. Qed.

Lemma on_flows_elements (r : runtime) s l : elements_of s (flow_mem (memory r)) = Some l ->
  on_flows (range_over s) r = Some (l, r).
Proof.
  intros E. unfold on_flows. rewrite (elements_run _ _ _ E). bind_cbn. by destruct r as [[]].
Qed.

Lemma on_routes_elements (r : runtime) s l : elements_of s (route_mem (memory r)) = Some l ->
  on_routes (range_over s) r = Some (l, r).
Proof.
  intros E. unfold on_routes. rewrite (elements_run _ _ _ E). bind_cbn. by destruct r as [[]].
Qed.

Lemma toNativeRules_run (r : runtime) s flows routes : shows_in s (memory r) flows routes ->
  toNativeRules s r = Some (native_snapshot flows routes, r).
Proof.
  intros [Ef Er]. unfold toNativeRules. erewrite M_bind_step by by apply on_flows_elements. cbv beta.
  by erewrite M_bind_step by by apply on_routes_elements.
Qed.

Lemma validateRules_run (r : runtime) s flows routes : shows_in s (memory r) flows routes ->
  validateRules s r = Some (validate_elements flows routes, r).
Proof.
  intros [Ef Er]. unfold validateRules. erewrite M_bind_step by by apply on_flows_elements. cbv beta.
  by erewrite M_bind_step by by apply on_routes_elements.
Qed.

(** C39: the manager's check is the builder's.  On every snapshot whose fields
    have the widths of their Go types [validateRules] is defined, changes nothing,
    and accepts exactly the rule sets within the capacities that satisfy the
    contract of the native builder, duplicates included. *)
Theorem validateRules_exact (r : runtime) s flows routes : shows_in s (memory r) flows routes -> rules_fit flows routes ->
  exists res, validateRules s r = Some (res, r) /\
    (res = None <-> within_limits (native_flows flows) (native_routes routes) /\
                    rules_ok (native_flows flows) (native_routes routes)).
Proof.
  intros Hs Hfit. exists (validate_elements flows routes). split; [by apply validateRules_run|by apply validate_elements_spec].
Qed.

(** [base] is the memory the operation started from. *)
Lemma cloneRules_run base (r : runtime) s flows routes : later base (memory r) -> shows_in s (memory r) flows routes ->
  exists c h, cloneRules growth s r = Some (c, set_memory h r) /\ later base h /\
    shows_in c h flows routes /\ private_since base c.
Proof.
  intros (Hf & Hr & Hmf & Hmr) [Ef Er]. unfold cloneRules.
  destruct (clone_run growth (next_array (flow_mem base)) flow_default _ _ _ Hmf (proj2 Hf) Ef) as
    (sf & mf & Hrunf & Hkf & Hokf & Hnf & Ef').
  destruct (clone_run growth (next_array (route_mem base)) route_default _ _ _ Hmr (proj2 Hr) Er) as
    (sr & mr & Hrunr & Hkr & Hokr & Hnr & Er').
  erewrite M_bind_step by (unfold on_flows; rewrite Hrunf; done). cbv beta.
  erewrite M_bind_step by (unfold on_routes; cbn [memory set_memory route_mem flow_mem]; rewrite Hrunr; done). cbv beta.
  eexists _, _. split; [done|]. split; [|by split]. split; [by etrans|]. split; [by etrans|by split].
Qed.

(** ** The state between two operations *)
Record coherent (r : runtime) (flows : list FlowRule) (routes : list RouteRule) : Prop := {
  co_heap : heap_ok (memory r);
  co_contents : shows_in (currentRules r) (memory r) flows routes;
  co_fit : rules_fit flows routes;
  co_valid : validate_elements flows routes = None;
  co_native : shows (native r) (rt_generation r) (native_flows flows) (native_routes routes);
}.

(** An operation that was to turn the rules into [flows'] and [routes']. *)
Definition outcome (r : runtime) (flows flows' : list FlowRule) (routes routes' : list RouteRule)
    (err : option control_error) (r' : runtime) : Prop :=
  later (memory r) (memory r') /\ rulesOpen r' = rulesOpen r /\
  match err with
  | None => coherent r' flows' routes' /\ rt_generation r' = u64 (rt_generation r + 1) /\
      private_since (memory r) (currentRules r') /\ rulesOpen r = true
  | Some _ => coherent r' flows routes /\ rt_generation r' = rt_generation r /\ currentRules r' = currentRules r
  end.

Lemma coherent_later r flows routes h : coherent r flows routes -> later (memory r) h -> coherent (set_memory h r) flows routes.
Proof.
  intros [Hh Hc Hf Hv Hn] Hl. split; try done; [apply Hl|]. by eapply shows_in_later.
Qed.

Lemma refused r flows flows' routes routes' e h : coherent r flows routes -> later (memory r) h ->
  outcome r flows flows' routes routes' (Some e) (set_memory h r).
Proof. intros Hc Hl. split_and!; try done. by apply coherent_later. Qed.

Lemma publish_locked_run r h c flows flows' routes routes' : coherent r flows routes -> later (memory r) h ->
  shows_in c h flows' routes' -> rules_fit flows' routes' -> validate_elements flows' routes' = None ->
  exists err r', publishSnapshotLocked publishRules growth c (set_memory h r) = Some (err, r') /\
    outcome r flows flows' routes routes' err r' /\
    (err = None \/ err = Some NotAvailable \/ exists e, err = Some (PublishFailed e)).
Proof.
  intros Hco Hl Hc Hfit Hval. unfold publishSnapshotLocked. erewrite M_bind_step by done. cbv beta.
  cbn [rulesOpen set_memory]. destruct (rulesOpen r) eqn:Hopen; cbn [negb].
  2: { eexists _, _. split; [done|]. split; [by apply refused|auto]. }
  erewrite M_bind_step by by apply toNativeRules_run. cbv beta. destruct (publish_native (native r) _ _ _ flows' routes' (co_native _ _ _ Hco) Hfit) as (res & n' & Hrun & Hres).
  erewrite M_bind_step by (unfold on_native; cbn [native set_memory]; rewrite Hrun; done). cbv beta.
  destruct res as [e|g].
  - eexists _, _. split; [done|]. split; [|eauto]. split_and!; try done.
    destruct (coherent_later _ _ _ _ Hco Hl) as [? ? ? ? ?]. by split.
  - destruct Hres as [-> Hshows].
    destruct (cloneRules_run (memory r) (set_native n' (set_memory h r)) c flows' routes' Hl) as
      (c' & h' & Hclone & Hl' & Hc' & Hpriv); [done|].
    erewrite M_bind_step by exact Hclone. cbv beta. do 2 (erewrite M_bind_step by done; cbv beta).
    eexists None, _. split; [done|]. split; [|by left]. split_and!; try done. split; try done. apply Hl'.
Qed.

Lemma validate_and_publish_run r h c flows flows' routes routes' : coherent r flows routes -> later (memory r) h ->
  shows_in c h flows' routes' -> rules_fit flows' routes' ->
  exists err r', validate_and_publish publishRules growth c (set_memory h r) = Some (err, r') /\
    outcome r flows flows' routes routes' err r' /\
    (forall e, err = Some (Invalid e) <-> validate_elements flows' routes' = Some e) /\
    err <> Some DuplicateKey /\ err <> Some KeyNotFound.
Proof.
  intros Hco Hl Hc Hfit. unfold validate_and_publish.
  erewrite M_bind_step by by apply validateRules_run. cbv beta. destruct (validate_elements flows' routes') as [e|] eqn:Hval.
  - eexists _, _. split; [done|]. split; [by apply refused|]. split_and!; try done.
    intros e'. by split; intros [= ->].
  - destruct (publish_locked_run r h c flows flows' routes routes' Hco Hl) as (err & r' & Hrun & Hout & Hcase); [done..|].
    exists err, r'. split; [done|]. split; [done|].
    destruct Hcase as [->|[->|[e ->]]]; by split_and!.
Qed.
End Manager.
