(* ===== verification/ControlRefine.v ===== *)
(** * The manager refines a rule table

    Abstractly the control plane keeps two finite maps, from flow keys and from
    route keys to actions, and every operation inserts, deletes or replaces, or
    is refused.  The manager implements this on its slices and keeps the native
    generation in step. *)
From Stdlib Require Import ZArith Lia.
From stdpp Require Import base list numbers option gmap strings.
From S2P Require Import Prelude Packet Api Tables Snapshot SnapshotSpec Binding BindingSpec GoSlice Control ControlSpec.

(** ** Keyed lists as maps *)
Section Keyed.
Context {A K V : Type} `{Countable K} (key : A -> K) (val : A -> V).

Definition keyed_map (l : list A) : gmap K V := list_to_map ((fun x => (key x, val x)) <$> l).

Lemma keyed_fst l : ((fun x => (key x, val x)) <$> l).*1 = key <$> l.
Proof. by rewrite <- list_fmap_compose. Qed.

Lemma keyed_None l k : keyed_map l !! k = None <-> k ∉ key <$> l.
Proof. unfold keyed_map. by rewrite <- not_elem_of_list_to_map, keyed_fst. Qed.

Lemma keyed_snoc l x : key x ∉ key <$> l -> keyed_map (l ++ [x]) = <[key x := val x]> (keyed_map l).
Proof. intros Hx. unfold keyed_map. rewrite fmap_app. cbn. by rewrite list_to_map_snoc by by rewrite keyed_fst. Qed.

Lemma keyed_delete l i x : l !! i = Some x -> NoDup (key <$> l) ->
  keyed_map (delete i l) = delete (key x) (keyed_map l).
Proof.
  intros Hx Hnd. pose proof (delete_Permutation l i x Hx) as Hp.
  assert (keyed_map l = <[key x := val x]> (keyed_map (delete i l))) as ->.
  { unfold keyed_map. rewrite <- list_to_map_cons. apply list_to_map_proper; [by rewrite keyed_fst|].
    by rewrite Hp at 1. }
  rewrite delete_insert_id; [done|]. apply keyed_None. rewrite Hp, fmap_cons in Hnd. by apply NoDup_cons in Hnd as [? _].
Qed.
End Keyed.

(** ** The abstract table *)
Definition rule_table : Type := gmap (Z * Z * Z * Z * Z) RuleAction * gmap (Z * Z) RuleAction.

Definition table (flows : list FlowRule) (routes : list RouteRule) : rule_table :=
  (keyed_map flow_map_key FAction flows, keyed_map route_map_key RAction routes).

Definition flow_tuple (k : FlowKey) : Z * Z * Z * Z * Z := (KSrcIPv4 k, KDstIPv4 k, KSrcPort k, KDstPort k, KL4Proto k).
Definition route_tuple (k : RouteKey) : Z * Z := (KPrefix k, KDepth k).

Inductive rule_op :=
  | Replace (snapshot : RuleSnapshot)
  | Add_flow (rule : FlowRule)
  | Delete_flow (key : FlowKey)
  | Add_route (rule : RouteRule)
  | Delete_route (key : RouteKey).

(** What an operation means, where [h] is the memory its argument lives in. *)
Definition op_spec (h : go_heap) (op : rule_op) (t : rule_table) : option rule_table :=
  match op with
  | Replace s => flows ← elements_of (Flows s) (flow_mem h); routes ← elements_of (Routes s) (route_mem h);
                 Some (table flows routes)
  | Add_flow rule => match t.1 !! flow_map_key rule with
                     | Some _ => None | None => Some (<[flow_map_key rule := FAction rule]> t.1, t.2) end
  | Delete_flow key => match t.1 !! flow_tuple key with
                       | Some _ => Some (delete (flow_tuple key) t.1, t.2) | None => None end
  | Add_route rule => match t.2 !! route_map_key rule with
                      | Some _ => None | None => Some (t.1, <[route_map_key rule := RAction rule]> t.2) end
  | Delete_route key => match t.2 !! route_tuple key with
                        | Some _ => Some (t.1, delete (route_tuple key) t.2) | None => None end
  end.

(** The arguments have the widths of their types. *)
Definition op_ok (h : go_heap) (op : rule_op) : Prop :=
  match op with
  | Replace s => exists flows routes, shows_in s h flows routes /\ rules_fit flows routes
  | Add_flow rule => rules_fit [rule] []
  | Add_route rule => rules_fit [] [rule]
  | _ => True
  end.

(** ** Helper facts on valid rules *)
Lemma valid_distinct flows routes : rules_fit flows routes -> validate_elements flows routes = None ->
  NoDup (flow_map_key <$> flows) /\ NoDup (route_map_key <$> routes).
Proof.
  intros Hfit [_ [_ Hf _ Hr]]%validate_elements_spec; [|done]. unfold native_flows in Hf. unfold native_routes in Hr.
  rewrite <- list_fmap_compose in Hf. rewrite <- list_fmap_compose in Hr. split; [|exact Hr].
  apply (NoDup_fmap_same flow_map_key (flow_rule_key ∘ (c_flow ∘ native_flow))); [|done].
  intros x y. split; intros [= ? ? ? ? ?]; unfold flow_rule_key, flow_map_key; cbn; congruence.
Qed.

Lemma rules_ok_delete_flow i flows routes : rules_ok flows routes -> rules_ok (delete i flows) routes.
Proof.
  intros [H1 H2 H3 H4]. split; [by apply Forall_delete| |done..].
  rewrite list_fmap_delete. eapply sublist_NoDup; [exact H2|apply sublist_delete].
Qed.

Lemma rules_ok_delete_route i flows routes : rules_ok flows routes -> rules_ok flows (delete i routes).
Proof.
  intros [H1 H2 H3 H4]. split; [done..|by apply Forall_delete|].
  rewrite list_fmap_delete. eapply sublist_NoDup; [exact H4|apply sublist_delete].
Qed.

Lemma length_delete_le {A} (l : list A) i : (length (delete i l) <= length l)%nat.
Proof. apply sublist_length, sublist_delete. Qed.

Lemma valid_delete_flow i flows routes : rules_fit flows routes -> validate_elements flows routes = None ->
  rules_fit (delete i flows) routes /\ validate_elements (delete i flows) routes = None.
Proof.
  intros Hfit Hval. assert (rules_fit (delete i flows) routes) as Hfit'.
  { destruct Hfit. split; [|done]. unfold native_flows. rewrite list_fmap_delete. by apply Forall_delete. }
  split; [done|]. apply validate_elements_spec in Hval as [[Hl Hl'] Hok]; [|done]. apply validate_elements_spec; [done|].
  unfold native_flows. rewrite list_fmap_delete. split; [|by apply rules_ok_delete_flow]. split; [|done].
  pose proof (length_delete_le (native_flows flows) i). unfold native_flows in *. lia.
Qed.

Lemma valid_delete_route i flows routes : rules_fit flows routes -> validate_elements flows routes = None ->
  rules_fit flows (delete i routes) /\ validate_elements flows (delete i routes) = None.
Proof.
  intros Hfit Hval. assert (rules_fit flows (delete i routes)) as Hfit'.
  { destruct Hfit. split; [done|]. unfold native_routes. rewrite list_fmap_delete. by apply Forall_delete. }
  split; [done|]. apply validate_elements_spec in Hval as [[Hl Hl'] Hok]; [|done]. apply validate_elements_spec; [done|].
  unfold native_routes. rewrite list_fmap_delete. split; [|by apply rules_ok_delete_route]. split; [done|].
  pose proof (length_delete_le (native_routes routes) i). unfold native_routes in *. lia.
Qed.

Lemma rules_fit_app flows flows' routes routes' : rules_fit flows routes -> rules_fit flows' routes' ->
  rules_fit (flows ++ flows') (routes ++ routes').
Proof.
  intros [Hf Hr] [Hf' Hr']. unfold rules_fit, native_flows, native_routes. rewrite !fmap_app.
  split; by apply Forall_app.
Qed.

(** The scan for a key is a lookup in the table. *)
Lemma index_flow_None flows k : index_of flowRuleKey flows k = None <->
  keyed_map flow_map_key FAction flows !! flow_tuple k = None.
Proof.
  rewrite index_of_None, keyed_None, !list_elem_of_fmap. destruct k.
  split; intros Hn (r & E & Hr); apply Hn; exists r; (split; [|done]); destruct r; cbn in *;
    unfold flowRuleKey, flow_tuple, flow_map_key in *; cbn in *; congruence.
Qed.

Lemma index_route_None routes k : index_of routeRuleKey routes k = None <->
  keyed_map route_map_key RAction routes !! route_tuple k = None.
Proof.
  rewrite index_of_None, keyed_None, !list_elem_of_fmap. destruct k.
  split; intros Hn (r & E & Hr); apply Hn; exists r; (split; [|done]); destruct r; cbn in *;
    unfold routeRuleKey, route_tuple, route_map_key in *; cbn in *; congruence.
Qed.

Section Refinement.
Context {N : Type} (publishRules : Binding.RuleSnapshot -> M N (native_error + Z)) (growth : nat -> nat -> nat).
Context (shows : N -> Z -> list dp_flow_rule -> list dp_route_rule -> Prop) {HN : NativeOk publishRules shows}.
Abbreviation runtime := (runtime N).
Abbreviation coherent := (coherent shows).

Definition run_op (op : rule_op) : M runtime (option control_error) :=
  match op with
  | Replace snapshot => ReplaceRules publishRules growth snapshot
  | Add_flow rule => AddFlow publishRules growth rule
  | Delete_flow key => DeleteFlow publishRules growth key
  | Add_route rule => AddRoute publishRules growth rule
  | Delete_route key => DeleteRoute publishRules growth key
  end.

Definition is_lookup_error (e : control_error) : Prop := e = DuplicateKey \/ e = KeyNotFound.

(** The contract of an operation that turns the rules into [flows'] and
    [routes'] when its key is free, or there. *)
Definition refines (r : runtime) (flows : list FlowRule) (routes : list RouteRule) (t' : option rule_table)
    (err : option control_error) (r' : runtime) : Prop :=
  later (memory r) (memory r') /\ rulesOpen r' = rulesOpen r /\
  match err with
  | None => exists flows' routes', t' = Some (table flows' routes') /\ coherent r' flows' routes' /\
      rt_generation r' = u64 (rt_generation r + 1) /\ private_since (memory r) (currentRules r') /\ rulesOpen r = true
  | Some e => coherent r' flows routes /\ rt_generation r' = rt_generation r /\ currentRules r' = currentRules r /\
      (is_lookup_error e <-> t' = None)
  end.

Lemma outcome_refines r flows flows' routes routes' err r' t' : outcome shows r flows flows' routes routes' err r' ->
  t' = Some (table flows' routes') -> err <> Some DuplicateKey -> err <> Some KeyNotFound ->
  refines r flows routes t' err r'.
Proof.
  intros (Hl & Ho & Hcase) -> Hd Hk. split; [done|]. split; [done|]. destruct err as [e|].
  - destruct Hcase as (? & ? & ?). split_and!; try done. split; [|done]. by intros [-> | ->].
  - destruct Hcase as (? & ? & ? & ?). by exists flows', routes'.
Qed.

Lemma refused_refines r flows routes e h : coherent r flows routes -> later (memory r) h -> is_lookup_error e ->
  refines r flows routes None (Some e) (set_memory h r).
Proof.
  intros Hco Hl He. destruct (refused shows r flows flows routes routes e h Hco Hl) as (? & ? & ? & ? & ?).
  by split_and!.
Qed.

(** The manager's side of [coherent]. *)
Abbreviation kept := (ControlSpec.coherent (fun (_ : N) _ _ _ => True)).

Lemma coherent_kept r flows routes : coherent r flows routes -> kept r flows routes.
Proof. by intros [? ? ? ? ?]. Qed.

(** The copy an operation works on. *)
Lemma working_copy_run r flows routes : kept r flows routes ->
  exists c h, cloneRules growth (currentRules r) r = Some (c, set_memory h r) /\ later (memory r) h /\
    shows_in c h flows routes /\ private_since (memory r) c.
Proof. intros [Hh Hc _ _ _]. apply cloneRules_run; [by apply later_refl|done]. Qed.

(** One of the two slices is replaced by a private one. *)
Lemma later_flows h0 h s l m' routes : later h0 h ->
  owns (next_array (flow_mem h0)) (flow_mem h) l (Flows s) m' -> elements_of (Routes s) (route_mem h) = Some routes ->
  later h0 {| flow_mem := m'; route_mem := route_mem h |} /\
  shows_in s {| flow_mem := m'; route_mem := route_mem h |} l routes.
Proof.
  intros (Hf & Hr & Hm & Hm') (Hk & Hok & _ & He) Hro. split; [|by split].
  split; [by etrans|]. by split.
Qed.

Lemma later_routes h0 h s l m' flows : later h0 h ->
  owns (next_array (route_mem h0)) (route_mem h) l (Routes s) m' -> elements_of (Flows s) (flow_mem h) = Some flows ->
  later h0 {| flow_mem := flow_mem h; route_mem := m' |} /\
  shows_in s {| flow_mem := flow_mem h; route_mem := m' |} flows l.
Proof.
  intros (Hf & Hr & Hm & Hm') (Hk & Hok & _ & He) Hfl. split; [|by split].
  split; [done|]. split; [by etrans|by split].
Qed.

(** ** An operation in two parts

    What comes before the publication touches only Go memory. *)
Definition checked (c : RuleSnapshot) : M runtime (control_error + RuleSnapshot) :=
  err ← validateRules c;
  mret (match err with Some err => inl (Invalid err) | None => inr c end).

Definition prepare (op : rule_op) : M runtime (control_error + RuleSnapshot) :=
  match op with
  | Replace snapshot => candidate ← cloneRules growth snapshot; checked candidate
  | Add_flow rule =>
    r ← get;
    candidate ← cloneRules growth (currentRules r);
    existing ← on_flows (range_over (Flows candidate));
    if is_set (index_of flowRuleKey existing (flowRuleKey rule)) then mret (inl DuplicateKey) else
    flows ← on_flows (append_values growth flow_default (Flows candidate) [rule]);
    checked {| Flows := flows; Routes := Routes candidate |}
  | Delete_flow key =>
    r ← get;
    candidate ← cloneRules growth (currentRules r);
    existing ← on_flows (range_over (Flows candidate));
    match index_of flowRuleKey existing key with
    | None => mret (inl KeyNotFound)
    | Some index =>
      flows ← on_flows (remove_at growth flow_default (Flows candidate) index);
      mret (inr {| Flows := flows; Routes := Routes candidate |})
    end
  | Add_route rule =>
    r ← get;
    candidate ← cloneRules growth (currentRules r);
    existing ← on_routes (range_over (Routes candidate));
    if is_set (index_of routeRuleKey existing (routeRuleKey rule)) then mret (inl DuplicateKey) else
    routes ← on_routes (append_values growth route_default (Routes candidate) [rule]);
    checked {| Flows := Flows candidate; Routes := routes |}
  | Delete_route key =>
    r ← get;
    candidate ← cloneRules growth (currentRules r);
    existing ← on_routes (range_over (Routes candidate));
    match index_of routeRuleKey existing key with
    | None => mret (inl KeyNotFound)
    | Some index =>
      routes ← on_routes (remove_at growth route_default (Routes candidate) index);
      mret (inr {| Flows := Flows candidate; Routes := routes |})
    end
  end.

Definition publish_prepared (x : control_error + RuleSnapshot) : M runtime (option control_error) :=
  match x with inl err => mret (Some err) | inr c => publishSnapshotLocked publishRules growth c end.

Lemma checked_publish c r : (x ← checked c; publish_prepared x) r = validate_and_publish publishRules growth c r.
Proof. unfold checked. rewrite M_bind_assoc. apply M_bind_ext. by intros [e|] r'. Qed.

Lemma run_op_prepare op r : run_op op r = (x ← prepare op; publish_prepared x) r.
Proof.
  destruct op; cbn [run_op prepare]; unfold ReplaceRules, AddFlow, DeleteFlow, AddRoute, DeleteRoute;
    repeat (rewrite M_bind_assoc; apply M_bind_ext; intros; cbv beta zeta); rewrite ?checked_publish; try done.
  all: case_match; [|]; try done.
  all: rewrite M_bind_assoc; apply M_bind_ext; intros; by rewrite ?checked_publish.
Qed.

(** The outcome of the first part: a refusal, or the rules to publish. *)
Definition prepared (op : rule_op) (h0 h : go_heap) (flows : list FlowRule) (routes : list RouteRule)
    (x : control_error + RuleSnapshot) : Prop :=
  match x with
  | inl e => e <> NotAvailable /\ (forall n, e <> PublishFailed n) /\ (is_lookup_error e <-> op_spec h0 op (table flows routes) = None)
  | inr c => exists flows' routes', shows_in c h flows' routes' /\ rules_fit flows' routes' /\
      validate_elements flows' routes' = None /\ op_spec h0 op (table flows routes) = Some (table flows' routes')
  end.

Lemma checked_prepared op r h c flows routes flows' routes' : later (memory r) h -> shows_in c h flows' routes' ->
  rules_fit flows' routes' -> op_spec (memory r) op (table flows routes) = Some (table flows' routes') ->
  exists x h', checked c (set_memory h r) = Some (x, set_memory h' r) /\ later (memory r) h' /\ prepared op (memory r) h' flows routes x.
Proof.
  intros Hl Hc Hfit Hop. unfold checked. erewrite M_bind_step by by apply validateRules_run. cbv beta.
  eexists _, h. split; [done|]. split; [done|]. destruct (validate_elements flows' routes') as [e|] eqn:Hval; cbn [prepared].
  - split_and!; [done|done|]. rewrite Hop. split; [by intros [?|?]|done].
  - by exists flows', routes'.
Qed.

Lemma prepared_refused op r h flows routes e : later (memory r) h -> is_lookup_error e -> op_spec (memory r) op (table flows routes) = None ->
  exists x h', (mret (inl e) : M runtime (control_error + RuleSnapshot)) (set_memory h r) = Some (x, set_memory h' r) /\ later (memory r) h' /\ prepared op (memory r) h' flows routes x.
Proof.
  intros Hl He Hop. eexists _, h. split; [done|]. split; [done|].
  split; [by destruct He as [-> | ->]|]. split; [by destruct He as [-> | ->]|by split].
Qed.

(** What [prepare] promises. *)
Definition prepares (op : rule_op) (r : runtime) (flows : list FlowRule) (routes : list RouteRule) : Prop :=
  exists x h, prepare op r = Some (x, set_memory h r) /\ later (memory r) h /\ prepared op (memory r) h flows routes x.

Lemma prepare_replace r flows routes s : kept r flows routes -> op_ok (memory r) (Replace s) -> prepares (Replace s) r flows routes.
Proof.
  intros Hco Hop. unfold prepares. cbn [prepare].
  destruct Hop as (flows' & routes' & Hs & Hfit).
  destruct (cloneRules_run growth (memory r) r s flows' routes') as (c & h & Hrun & Hl & Hc & _);
    [by apply later_refl, Hco|done|].
  erewrite M_bind_step by exact Hrun. cbv beta. apply (checked_prepared _ _ _ _ _ _ flows' routes'); [done..|].
  cbn [op_spec]. destruct Hs as [-> ->]. done.
Qed.

Lemma prepare_add_flow r flows routes rule : kept r flows routes -> op_ok (memory r) (Add_flow rule) -> prepares (Add_flow rule) r flows routes.
Proof.
  intros Hco Hop. unfold prepares. cbn [prepare]. erewrite M_bind_step by done. cbv beta.
  destruct (working_copy_run r flows routes Hco) as (c & h & Hrun & Hl & [Ef Er] & Hnf & _).
  erewrite M_bind_step by exact Hrun. cbv beta. erewrite M_bind_step by by apply on_flows_elements. cbv beta.
  pose proof (index_flow_None flows (flowRuleKey rule)) as Hkey.
  change (flow_tuple (flowRuleKey rule)) with (flow_map_key rule) in Hkey.
  destruct (index_of flowRuleKey flows (flowRuleKey rule)) eqn:Hi; cbn [is_set].
  { apply prepared_refused; [done|by left|]. cbn. destruct (keyed_map _ _ flows !! _); [done|by pose proof (proj2 Hkey eq_refl)]. }
  destruct (append_run growth _ flow_default (Flows c) [rule] (flow_mem h) flows (proj1 (proj2 (proj2 Hl))) (proj2 (proj1 Hl)) Hnf Ef)
    as (s' & m' & Happ & Hown).
  erewrite M_bind_step by (unfold on_flows; cbn [memory set_memory flow_mem]; rewrite Happ; done). cbv beta.
  destruct (later_flows (memory r) h {| Flows := s'; Routes := Routes c |} (flows ++ [rule]) m' routes Hl Hown Er) as [Hl' Hc'].
  apply (checked_prepared _ _ _ _ _ _ (flows ++ [rule]) routes Hl' Hc').
  + rewrite <- (app_nil_r routes). apply rules_fit_app; [apply Hco|done].
  + cbn. rewrite (proj1 Hkey eq_refl). unfold table. rewrite (keyed_snoc flow_map_key); [done|].
    by apply (keyed_None flow_map_key FAction), Hkey.
Qed.

Lemma prepare_delete_flow r flows routes key : kept r flows routes -> prepares (Delete_flow key) r flows routes.
Proof.
  intros Hco. unfold prepares. cbn [prepare]. erewrite M_bind_step by done. cbv beta.
  destruct (working_copy_run r flows routes Hco) as (c & h & Hrun & Hl & [Ef Er] & Hnf & _).
  erewrite M_bind_step by exact Hrun. cbv beta. erewrite M_bind_step by by apply on_flows_elements. cbv beta.
  pose proof (index_flow_None flows key) as Hkey.
  destruct (index_of flowRuleKey flows key) as [i|] eqn:Hi.
  2: { apply prepared_refused; [done|by right|]. cbn. by rewrite (proj1 Hkey eq_refl). }
  destruct (index_of_Some _ _ _ _ Hi) as (rule & Hrule & Ek). pose proof (index_of_lt _ _ _ _ Hi) as Hlt.
  destruct (remove_run growth _ flow_default (Flows c) i (flow_mem h) flows (proj1 (proj2 (proj2 Hl)))
    (proj2 (proj1 Hl)) Hnf Ef Hlt) as (s' & m' & Hrem & Hown).
  erewrite M_bind_step by (unfold on_flows; cbn [memory set_memory flow_mem]; rewrite Hrem; done). cbv beta.
  destruct (later_flows (memory r) h {| Flows := s'; Routes := Routes c |} (delete i flows) m' routes Hl Hown Er) as [Hl' Hc'].
  destruct (valid_delete_flow i flows routes) as [Hfit Hval]; [apply Hco..|].
  eexists _, _. split; [done|]. split; [exact Hl'|]. exists (delete i flows), routes. split_and!; [exact Hc'..|done|done|].
  destruct (valid_distinct _ _ (co_fit _ _ _ _ Hco) (co_valid _ _ _ _ Hco)) as [Hnd _].
  cbn. destruct (keyed_map _ _ flows !! _) eqn:E; [|by pose proof (proj2 Hkey eq_refl)].
  unfold table. rewrite (keyed_delete flow_map_key FAction flows i rule Hrule Hnd). by rewrite <- Ek.
Qed.

Lemma prepare_add_route r flows routes rule : kept r flows routes -> op_ok (memory r) (Add_route rule) -> prepares (Add_route rule) r flows routes.
Proof.
  intros Hco Hop. unfold prepares. cbn [prepare]. erewrite M_bind_step by done. cbv beta.
  destruct (working_copy_run r flows routes Hco) as (c & h & Hrun & Hl & [Ef Er] & _ & Hnr).
  erewrite M_bind_step by exact Hrun. cbv beta. erewrite M_bind_step by by apply on_routes_elements. cbv beta.
  pose proof (index_route_None routes (routeRuleKey rule)) as Hkey.
  change (route_tuple (routeRuleKey rule)) with (route_map_key rule) in Hkey.
  destruct (index_of routeRuleKey routes (routeRuleKey rule)) eqn:Hi; cbn [is_set].
  { apply prepared_refused; [done|by left|]. cbn. destruct (keyed_map _ _ routes !! _); [done|by pose proof (proj2 Hkey eq_refl)]. }
  destruct (append_run growth _ route_default (Routes c) [rule] (route_mem h) routes (proj2 (proj2 (proj2 Hl))) (proj2 (proj1 (proj2 Hl))) Hnr Er)
    as (s' & m' & Happ & Hown).
  erewrite M_bind_step by (unfold on_routes; cbn [memory set_memory route_mem]; rewrite Happ; done). cbv beta.
  destruct (later_routes (memory r) h {| Flows := Flows c; Routes := s' |} (routes ++ [rule]) m' flows Hl Hown Ef) as [Hl' Hc'].
  apply (checked_prepared _ _ _ _ _ _ flows (routes ++ [rule]) Hl' Hc').
  + rewrite <- (app_nil_r flows). apply rules_fit_app; [apply Hco|done].
  + cbn. rewrite (proj1 Hkey eq_refl). unfold table. rewrite (keyed_snoc route_map_key); [done|].
    by apply (keyed_None route_map_key RAction), Hkey.
Qed.

Lemma prepare_delete_route r flows routes key : kept r flows routes -> prepares (Delete_route key) r flows routes.
Proof.
  intros Hco. unfold prepares. cbn [prepare]. erewrite M_bind_step by done. cbv beta.
  destruct (working_copy_run r flows routes Hco) as (c & h & Hrun & Hl & [Ef Er] & _ & Hnr).
  erewrite M_bind_step by exact Hrun. cbv beta. erewrite M_bind_step by by apply on_routes_elements. cbv beta.
  pose proof (index_route_None routes key) as Hkey.
  destruct (index_of routeRuleKey routes key) as [i|] eqn:Hi.
  2: { apply prepared_refused; [done|by right|]. cbn. by rewrite (proj1 Hkey eq_refl). }
  destruct (index_of_Some _ _ _ _ Hi) as (rule & Hrule & Ek). pose proof (index_of_lt _ _ _ _ Hi) as Hlt.
  destruct (remove_run growth _ route_default (Routes c) i (route_mem h) routes (proj2 (proj2 (proj2 Hl)))
    (proj2 (proj1 (proj2 Hl))) Hnr Er Hlt) as (s' & m' & Hrem & Hown).
  erewrite M_bind_step by (unfold on_routes; cbn [memory set_memory route_mem]; rewrite Hrem; done). cbv beta.
  destruct (later_routes (memory r) h {| Flows := Flows c; Routes := s' |} (delete i routes) m' flows Hl Hown Ef) as [Hl' Hc'].
  destruct (valid_delete_route i flows routes) as [Hfit Hval]; [apply Hco..|].
  eexists _, _. split; [done|]. split; [exact Hl'|]. exists flows, (delete i routes). split_and!; [exact Hc'..|done|done|].
  destruct (valid_distinct _ _ (co_fit _ _ _ _ Hco) (co_valid _ _ _ _ Hco)) as [_ Hnd].
  cbn. destruct (keyed_map _ _ routes !! _) eqn:E; [|by pose proof (proj2 Hkey eq_refl)].
  unfold table. rewrite (keyed_delete route_map_key RAction routes i rule Hrule Hnd). by rewrite <- Ek.
Qed.

Lemma prepare_run op r flows routes : kept r flows routes -> op_ok (memory r) op -> prepares op r flows routes.
Proof.
  intros Hco Hop. destruct op; [by apply prepare_replace|by apply prepare_add_flow|by apply prepare_delete_flow|by apply prepare_add_route|by apply prepare_delete_route].
Qed.

Lemma publish_locked_refines r h c flows flows' routes routes' t' : coherent r flows routes -> later (memory r) h ->
  shows_in c h flows' routes' -> rules_fit flows' routes' -> validate_elements flows' routes' = None ->
  t' = Some (table flows' routes') ->
  exists err r', publishSnapshotLocked publishRules growth c (set_memory h r) = Some (err, r') /\
    refines r flows routes t' err r'.
Proof.
  intros Hco Hl Hc Hfit Hval Ht.
  destruct (publish_locked_run publishRules growth shows r h c flows flows' routes routes' Hco Hl Hc Hfit Hval)
    as (err & r' & Hrun & Hout & Herr). exists err, r'. split; [exact Hrun|].
  by apply (outcome_refines _ _ _ _ _ _ _ _ Hout); [|destruct Herr as [->|[->|[e ->]]]..].
Qed.

Lemma run_op_refines r flows routes op : coherent r flows routes -> op_ok (memory r) op ->
  exists err r', run_op op r = Some (err, r') /\
    refines r flows routes (op_spec (memory r) op (table flows routes)) err r'.
Proof.
  intros Hco Hop. rewrite run_op_prepare.
  destruct (prepare_run op r flows routes (coherent_kept _ _ _ Hco) Hop) as (x & h & Hrun & Hl & Hx).
  erewrite M_bind_step by exact Hrun. cbv beta. destruct x as [e|c]; cbn [publish_prepared prepared] in *.
  - destruct Hx as (_ & _ & He). eexists _, _. split; [done|]. split; [exact Hl|]. split; [done|].
    split_and!; [by apply (coherent_later shows)|done|done|exact He].
  - destruct Hx as (flows' & routes' & Hc & Hfit & Hval & Ht). by apply (publish_locked_refines r h c flows flows' routes routes').
Qed.

(** C20: the control plane refines a rule table, and its two copies of the rules
    never part.  In a coherent state every operation is defined; it succeeds only
    as the insertion, deletion or replacement of the abstract table, on the Go
    side and on the native side at once, with the generation counting up; it
    refuses a duplicate or an unknown key exactly when the table does; and
    whatever else goes wrong (invalid rules, a closed manager, a native failure)
    the rules, the generation and the native side stay as they were. *)
Theorem control_refines r flows routes op : coherent r flows routes -> op_ok (memory r) op ->
  exists err r', run_op op r = Some (err, r') /\
    refines r flows routes (op_spec (memory r) op (table flows routes)) err r'.
Proof. apply run_op_refines. Qed.

(** C29: nothing is shared with the caller.  After an operation that succeeded,
    the caller may overwrite every array that existed when it called, the rule
    slices it passed included: the manager still has the rules of the abstract
    table, and still agrees with the native side. *)
Theorem control_private r flows routes op r' h : coherent r flows routes -> op_ok (memory r) op ->
  run_op op r = Some (None, r') -> heap_ok h ->
  (forall a, (next_array (flow_mem (memory r)) <= a)%nat -> arrays (flow_mem h) !! a = arrays (flow_mem (memory r')) !! a) ->
  (forall a, (next_array (route_mem (memory r)) <= a)%nat -> arrays (route_mem h) !! a = arrays (route_mem (memory r')) !! a) ->
  exists flows' routes', op_spec (memory r) op (table flows routes) = Some (table flows' routes') /\
    coherent (set_memory h r') flows' routes'.
Proof.
  intros Hco Hop Hrun Hh Hf Hr. destruct (run_op_refines r flows routes op Hco Hop) as (err & r1 & Hrun1 & _ & _ & Hres).
  rewrite Hrun in Hrun1. injection Hrun1 as <- <-.
  destruct Hres as (flows' & routes' & Ht & [_ [Ef Er] ? ? ?] & _ & [Hnf Hnr] & _).
  exists flows', routes'. split; [done|]. split; try done.
  split; [by rewrite (elements_newer _ _ _ _ Hf)|by rewrite (elements_newer _ _ _ _ Hr)].
Qed.

(** ** Histories *)
Fixpoint run_ops (ops : list rule_op) : M runtime (list (option control_error)) :=
  match ops with
  | [] => mret []
  | op :: ops => err ← run_op op; errs ← run_ops ops; mret (err :: errs)
  end.

(** The operations that succeeded, in order, on the abstract table. *)
Fixpoint replay (h : go_heap) (ops : list rule_op) (errs : list (option control_error)) (t : rule_table) : option rule_table :=
  match ops, errs with
  | [], [] => Some t
  | op :: ops, None :: errs => t ← op_spec h op t; replay h ops errs t
  | _ :: ops, Some _ :: errs => replay h ops errs t
  | _, _ => None
  end.

Definition successes (errs : list (option control_error)) : Z := Z.of_nat (length (filter (fun e => e = None) errs)).

Lemma op_ok_later h h' op : heap_ok h -> later h h' -> op_ok h op -> op_ok h' op.
Proof.
  intros Hh Hl. destruct op; cbn; try done. intros (flows & routes & Hs & Hf). exists flows, routes.
  split; [by eapply shows_in_later|done].
Qed.

Lemma op_spec_later h h' op t : heap_ok h -> later h h' -> op_ok h op -> op_spec h' op t = op_spec h op t.
Proof.
  intros Hh Hl. destruct op; cbn; try done. intros (flows & routes & Hs & _).
  destruct (shows_in_later _ _ _ _ _ Hh Hl Hs) as [-> ->]. by destruct Hs as [-> ->].
Qed.

Lemma replay_later h h' ops : heap_ok h -> later h h' -> Forall (op_ok h) ops ->
  forall errs t, replay h' ops errs t = replay h ops errs t.
Proof.
  intros Hh Hl. induction 1 as [|op ops Hop _ IH]; intros errs t; [done|]. destruct errs as [|[e|] errs]; cbn; [done|by apply IH|].
  rewrite (op_spec_later h h') by done. destruct (op_spec h op t); bind_cbn; [by apply IH|done].
Qed.

Lemma u64_succ_add g n : u64 (u64 (g + 1) + n) = u64 (g + (1 + n)).
Proof. rewrite wrap_add_l. f_equal. lia. Qed.

Lemma run_ops_coherent ops : forall r flows routes, coherent r flows routes -> fits 64 (rt_generation r) ->
  Forall (op_ok (memory r)) ops ->
  exists errs r' flows' routes', run_ops ops r = Some (errs, r') /\ coherent r' flows' routes' /\
    replay (memory r) ops errs (table flows routes) = Some (table flows' routes') /\
    rt_generation r' = u64 (rt_generation r + successes errs).
Proof.
  induction ops as [|op ops IH]; intros r flows routes Hco Hg Hops.
  { exists [], r, flows, routes. split_and!; try done. unfold successes. cbn. by rewrite Z.add_0_r, wrap_id. }
  apply Forall_cons_1 in Hops as [Hop Hops].
  destruct (run_op_refines r flows routes op Hco Hop) as (err & r1 & Hrun & Hl & _ & Hres).
  pose proof (co_heap _ _ _ _ Hco) as Hh.
  assert (Forall (op_ok (memory r1)) ops) as Hops1 by (eapply Forall_impl; [exact Hops|]; intros; by eapply op_ok_later).
  cbn [run_ops]. erewrite M_bind_step by exact Hrun. cbv beta. destruct err as [e|].
  - destruct Hres as (Hco1 & Hg1 & _ & _).
    destruct (IH r1 flows routes Hco1) as (errs & r' & flows' & routes' & Hrun' & Hco' & Hrep & Hg'); [by rewrite Hg1|done|].
    erewrite M_bind_step by exact Hrun'. cbv beta. exists (Some e :: errs), r', flows', routes'.
    split_and!; [done|done| |].
    + cbn. by rewrite <- (replay_later (memory r) (memory r1)).
    + rewrite Hg', Hg1. done.
  - destruct Hres as (flows1 & routes1 & Ht & Hco1 & Hg1 & _ & _).
    destruct (IH r1 flows1 routes1 Hco1) as (errs & r' & flows' & routes' & Hrun' & Hco' & Hrep & Hg');
      [rewrite Hg1; by apply wrap_fits|done|].
    erewrite M_bind_step by exact Hrun'. cbv beta. exists (None :: errs), r', flows', routes'.
    split_and!; [done|done| |].
    + cbn. rewrite Ht. bind_cbn. by rewrite <- (replay_later (memory r) (memory r1)).
    + rewrite Hg', Hg1, u64_succ_add. unfold successes. rewrite filter_cons_True by done. cbn [length]. do 2 f_equal. lia.
Qed.

(** The control plane over its whole history.  From a coherent state any
    sequence of operations is defined; afterwards the manager and the native side
    agree, their rules are those of the abstract table after exactly the
    operations that reported success, and the generation has counted them. *)
Theorem control_history r flows routes ops : coherent r flows routes -> fits 64 (rt_generation r) ->
  Forall (op_ok (memory r)) ops ->
  exists errs r' flows' routes', run_ops ops r = Some (errs, r') /\ coherent r' flows' routes' /\
    replay (memory r) ops errs (table flows routes) = Some (table flows' routes') /\
    rt_generation r' = u64 (rt_generation r + successes errs).
Proof. apply run_ops_coherent. Qed.
End Refinement.
