(* ===== verification/ControlNative.v ===== *)
(** * The control plane on the native layer

    [PublishRules] of the cgo boundary discharges what the manager relies on, so
    that the manager's rule table is what decides packets. *)
From Stdlib Require Import ZArith Lia.
From stdpp Require Import base list numbers option gmap strings relations.
From S2P Require Import Prelude Packet Api Tables Heap Snapshot SnapshotSpec LookupSpec Rcu State Rules Binding Publish PublishSpec BindingSpec GoSlice Control ControlSpec ControlRefine.

(** ** The abstract table decides packets *)
Definition table_decision (t : rule_table) (meta : dp_packet_meta) : dp_lookup_result * option dp_rule_action :=
  match t.1 !! (src_ipv4 meta, dst_ipv4 meta, src_port meta, dst_port meta, l4_proto meta) with
  | Some a => (DP_LOOKUP_FLOW_HIT, Some (c_action (native_action a)))
  | None =>
    match longest_match (fun k => t.2 !! k) (dst_ipv4 meta) with
    | Some a => (DP_LOOKUP_ROUTE_HIT, Some (c_action (native_action a)))
    | None => (DP_LOOKUP_MISS, None)
    end
  end.

Lemma keyed_entry {A K V} `{Countable K} (key : A -> K) (val : A -> V) l k :
  keyed_map key val l !! k = val <$> entry_of key l k.
Proof.
  unfold keyed_map, entry_of. induction l as [|x l IH]; cbn; [by rewrite lookup_empty|].
  destruct (decide (key x = k)) as [<-|Hne]; [by rewrite lookup_insert_eq|]. rewrite lookup_insert_ne, IH by done.
  by destruct (index_of key l k).
Qed.

Lemma entry_of_map {A B K K'} `{EqDecision K} `{EqDecision K'} (f : A -> B) (key : A -> K) (key' : B -> K') l k k' :
  (forall x, key' (f x) = k' <-> key x = k) -> entry_of key' (f <$> l) k' = f <$> entry_of key l k.
Proof.
  intros Hk. unfold entry_of. induction l as [|x l IH]; cbn; [done|].
  destruct (decide (key' (f x) = k')) as [E|E], (decide (key x = k)) as [E'|E']; [done|by apply Hk in E|by apply Hk in E'|].
  destruct (index_of key' (f <$> l) k'), (index_of key l k); cbn in *; done.
Qed.

Lemma table_decision_spec flows routes meta :
  lookup_spec (native_flows flows) (native_routes routes) meta = table_decision (table flows routes) meta.
Proof.
  unfold lookup_spec, table_decision, native_flows, native_routes. cbn [table fst snd].
  rewrite (entry_of_map (c_flow ∘ native_flow) flow_map_key _ _
    (src_ipv4 meta, dst_ipv4 meta, src_port meta, dst_port meta, l4_proto meta)), keyed_entry.
  2: { intros x. unfold flow_rule_key, dp_flow_key_from_meta, flow_map_key. cbn.
       split; [intros [= ? ? ? ? ?]|intros [= ? ? ? ? ?]]; congruence. }
  destruct (entry_of flow_map_key flows _) as [r|]; cbn [fmap option_fmap option_map]; [done|].
  rewrite (longest_match_ext (entry_of route_key _) (fun k => (c_route ∘ native_route) <$> entry_of route_map_key routes k))
    by (intros k; by apply entry_of_map).
  rewrite (longest_match_ext (fun k => keyed_map route_map_key RAction routes !! k) (fun k => RAction <$> entry_of route_map_key routes k))
    by (intros k; by apply keyed_entry).
  rewrite !longest_match_fmap. by destruct (longest_match _ _).
Qed.

(** ** The native call *)
Section Native.
Context {T : DpdkTables} {TO : DpdkTablesOk T} {Q : Qsbr} {QO : QsbrOk Q}.
Context (calloc : callocator) (allocate : gmap Z hobj -> allocator).
Context (concurrent : M world unit) (wait : Z -> M world unit).

(** [native.PublishRules] as the manager calls it; the allocator may depend on
    the heap it allocates in. *)
Definition native_publish (snapshot : Binding.RuleSnapshot) : M (world * c_heap) (native_error + Z) :=
  fun '(w, h) =>
    '(r, n) ← PublishRules calloc (allocate (rules_heap w)) concurrent wait snapshot w h;
    Some (match r with
          | inl e => inl (ArraysError e)
          | inr (ret, generation) => if ret =? 0 then inr generation else inl (Status ret)
          end, n).

(** The world is one of the publication protocol, with these rules active. *)
Definition native_shows (n : world * c_heap) (g : Z) (flows : list dp_flow_rule) (routes : list dp_route_rule) : Prop :=
  exists rest c, sys c = n.1 /\ inv rest c /\ writer c = Idle /\ now_active flows routes g (sys c).

Context (Hcalloc : callocator_ok calloc) (Halloc : forall h, allocator_ok (allocate h) h).
Context (Hothers : forall rest c, inv rest c -> writer c = Idle -> others_ok concurrent wait c).

#[export] Instance native_publish_ok : NativeOk native_publish native_shows.
Proof.
  split. intros [w h] g flows routes flows' routes' (rest & c & Ew & Hinv & Hidle & Hact) [Hf Hr]. cbn in Ew. subst w.
  unfold native_publish.
  destruct (PublishRules_run calloc (allocate (rules_heap (sys c))) concurrent wait (native_snapshot flows' routes')
    rest c h Hcalloc Hinv Hidle (Halloc _)) as (r & c' & Hrun & Hidle' & Hsteps & Hcase).
  { unfold snapshot_fits. by rewrite c_flows_native, c_routes_native. }
  { by eapply Hothers. }
  rewrite Hrun. bind_cbn. eexists _, _. split; [done|].
  assert (inv rest c') as Hinv' by by apply (steps_inv rest c).
  destruct r as [e|[ret g']].
  { subst c'. by exists rest, c. }
  destruct Hact as (sa & hs & Ha & Hg & Hp & Hs). unfold publish_outcome in Hcase. rewrite Hg in Hcase.
  destruct Hcase as [(Hneg & _ & _ & Eh & Ea & Eg)|(-> & [= ->] & Hact')].
  - rewrite (proj2 (Z.eqb_neq ret 0)) by lia. exists rest, c'. split_and!; try done. exists sa, hs.
    by rewrite Ea, Eg, Eh.
  - split; [done|]. exists rest, c'. split_and!; try done. cbn [native_rules rs_flows rs_routes] in Hact'.
    by rewrite c_flows_native, c_routes_native in Hact'.
Qed.

(** From rule operations to packets.  Start from a running router whose
    manager agrees with the native side, and let control-plane operations happen
    in any number and order, each publication interleaved with the readers:
    every operation is defined, and afterwards every packet a worker looks up in
    the active snapshot gets the decision of the abstract rule table (exact flow
    first, then longest prefix) after exactly the operations that reported
    success, with an action it can dereference. *)
Theorem control_decides_packets growth r flows routes ops :
  coherent native_shows r flows routes -> fits 64 (rt_generation r) -> Forall (op_ok (memory r)) ops ->
  exists errs r' t', run_ops native_publish growth ops r = Some (errs, r') /\
    replay (memory r) ops errs (table flows routes) = Some t' /\
    forall meta, fits 32 (dst_ipv4 meta) ->
      let w := (native r').1 in
      exists answer, dp_lookup_packet (rules_heap w) meta (active_rules (dp w)) = Some answer /\
        decides (rules_heap w) answer (table_decision t' meta).
Proof.
  intros Hco Hg Hops.
  destruct (run_ops_coherent native_publish growth native_shows ops r flows routes Hco Hg Hops) as
    (errs & r' & flows' & routes' & Hrun & Hco' & Hrep & _).
  exists errs, r', (table flows' routes'). split_and!; [exact Hrun|done|]. intros meta Hm. cbv zeta.
  destruct (co_native _ _ _ _ Hco') as (rest & c & <- & _ & _ & sa & hs & -> & _ & Hp & Hs).
  rewrite <- table_decision_spec. by eapply piece_lookup.
Qed.
End Native.

(** ** Readers that let a publication finish

    The assumption on the other threads can be met: every reader that is online
    when the token is drawn reports once. *)
Section Drain.
Context {T : DpdkTables} {TO : DpdkTablesOk T} {Q : Qsbr} {QO : QsbrOk Q}.

Fixpoint report_all (readers : list Z) : M world unit :=
  match readers with
  | [] => mret tt
  | r :: readers => dp_rules_reader_quiescent r;; report_all readers
  end.

Definition drain (token : Z) : M world unit :=
  w ← get; q ← lift (rules_qsbr (dp w)); report_all (elements (pending q token)).

Lemma report_all_run rest pub token : forall readers c q, inv rest c -> writer c = Waiting pub token ->
  rules_qsbr (dp (sys c)) = Some q -> pending q token ⊆ list_to_set readers -> Forall (fun r => r ∈ online q) readers ->
  exists c', report_all readers (sys c) = Some (tt, sys c') /\ rtc reader_step c c' /\ publish_ready token (sys c') = true.
Proof.
  induction readers as [|r readers IH]; intros c q Hinv Hw Hq Hsub Hon.
  - exists c. split_and!; [done|apply rtc_refl|]. unfold publish_ready. rewrite Hq.
    pose proof Hinv as [_ (q0 & sa & hs & fl & rt & Hq0 & _ & _ & _ & Hcase)]. rewrite Hq in Hq0. injection Hq0 as <-.
    rewrite Hw in Hcase. destruct Hcase as (? & ? & _ & Hiss & _). apply check_spec; [done|].
    apply set_eq. intros y. split; [by intros ?%Hsub|]. by intros ?%not_elem_of_empty.
  - apply Forall_cons_1 in Hon as [Hr Hon].
    destruct (reports_pending rest r c pub token q Hinv Hw Hq Hr) as (c1 & q1 & Hrep & Hw1 & Hq1 & Hon1 & Hpend1).
    pose proof (reports_step _ _ _ Hrep) as Hs1.
    destruct (IH c1 q1) as (c' & Hrun & Hsteps & Hready); [by eapply step_inv|done|done| |by rewrite Hon1|].
    { rewrite Hpend1. intros x [Hx Hne]%elem_of_difference. apply Hsub in Hx. cbn in Hx.
      apply elem_of_union in Hx as [?|?]; done. }
    exists c'. split_and!; [|by eapply rtc_l; [split; [exact Hs1|by rewrite Hw1]|]|done].
    destruct Hrep as (p & w' & _ & Hq' & ->). cbn [report_all]. by erewrite M_bind_step by exact Hq'.
Qed.

Lemma drain_others_ok rest c : inv rest c -> writer c = Idle -> others_ok (mret tt) drain c.
Proof.
  intros Hinv _ c1 pub Hs1 Hw1. exists c1. split; [by split; [|apply rtc_refl]|]. intros c3 token Hs3 Hw3.
  assert (inv rest c3) as Hinv3 by (eapply step_inv; [by eapply step_inv|done]).
  pose proof Hinv3 as [_ (q & sa & hs & fl & rt & Hq & _ & _ & _ & Hcase)]. rewrite Hw3 in Hcase.
  destruct Hcase as (? & ? & _ & Hiss & _).
  destruct (report_all_run rest pub token (elements (pending q token)) c3 q Hinv3 Hw3 Hq) as (c4 & Hrun & Hsteps & Hready).
  - by rewrite list_to_set_elements_L.
  - apply Forall_forall. intros r Hr%elem_of_elements. by eapply pending_online.
  - exists c4. split; [|done]. split; [|done]. unfold drain. erewrite M_bind_step by done. cbv beta.
    rewrite Hq. by erewrite M_bind_step by done.
Qed.
End Drain.
