(* ===== verification/Documents.v ===== *)
(** * Rule documents: the front half of [control/dataplane/rules.go]

    [ParseRules] decodes a JSON document with the standard library and hands it to
    [normalizeRules], which turns text into numbers and refuses what is not a rule
    set.  The documents are the decoded structs; [net.ParseIP] and [net.ParseCIDR]
    are parameters, whose documented behaviour is [NetOk]. *)
From Stdlib Require Import ZArith Lia.
From stdpp Require Import base list numbers option gmap strings.
From S2P Require Import Prelude Api Binding GoSlice Control.

(** ** Decoded documents; a JSON field that is missing is a nil pointer. *)
Record actionDocument := {
  ActionType : string;
  ASrcIPv4 : option string; ADstIPv4 : option string;
  ASrcPort : option Z; ADstPort : option Z;
}.
Record flowDocument := {
  DSrcIPv4 : string; DDstIPv4 : string; DSrcPort : Z; DDstPort : Z; Protocol : string; DAction : actionDocument }.
Record routeDocument := { CIDR : string; RouteAction : actionDocument }.
Record rulesDocument := { DFlows : list flowDocument; DRoutes : list routeDocument }.

(** ** Results: [None] panics *)
Inductive doc_error :=
  | NotIPv4 (text : string)
  | UnsupportedAction (type : string)
  | RewriteFields (type : string)
  | EmptyRewrite
  | UnknownProtocol (protocol : string)
  | TooManyFlows | TooManyRoutes
  | RepeatedFlow (index : nat)
  | RepeatedRoute (index : nat)
  | InvalidPrefix (index : nat).

Definition result (A : Type) : Type := option (doc_error + A).
Definition ok {A} (a : A) : result A := Some (inr a).
Definition err {A} (e : doc_error) : result A := Some (inl e).
Definition or_panic {A} (o : option A) : result A := match o with Some a => ok a | None => None end.
Definition try {A B} (m : result A) (k : A -> result B) : result B :=
  match m with None => None | Some (inl e) => Some (inl e) | Some (inr a) => k a end.

Declare Scope doc_scope.
Notation "x ←? m ; k" := (try m (fun x => k)) (at level 20, m at level 100, k at level 200, right associativity) : doc_scope.
Notation "' x ←? m ; k" := (try m (fun y => match y with x => k end))
  (at level 20, x pattern, m at level 100, k at level 200, only parsing) : doc_scope.
Open Scope doc_scope.

(** ** [net.IP] and [net.IPMask] as byte slices *)
Class Net := {
  ParseIP : string -> option (list Z);
  (** the address, and the network as address and mask *)
  ParseCIDR : string -> option (list Z * (list Z * list Z));
}.

Definition To4 (ip : option (list Z)) : option (list Z) :=
  match ip with
  | None => None
  | Some ip =>
    if Nat.eqb (length ip) 4 then Some ip
    else if Nat.eqb (length ip) 16 && forallb (Z.eqb 0) (take 10 ip) &&
            bool_decide (ip !! 10%nat = Some 255) && bool_decide (ip !! 11%nat = Some 255)
    then Some (drop 12 ip) else None
  end.

(** [binary.BigEndian.Uint32] panics on fewer than four bytes. *)
Definition big_endian_uint32 (b : list Z) : option Z :=
  match b with
  | b0 :: b1 :: b2 :: b3 :: _ => Some (Z.lor (Z.lor (Z.lor b3 (Z.shiftl b2 8)) (Z.shiftl b1 16)) (Z.shiftl b0 24))
  | _ => None
  end.

(** [for v&0x80 != 0 { n++; v <<= 1 }] on a byte *)
Fixpoint leading_ones (fuel : nat) (v : Z) : Z * Z :=
  match fuel with
  | O => (0, v)
  | S fuel => if negb (Z.land v 128 =? 0)
              then let '(n, v) := leading_ones fuel (u8 (Z.shiftl v 1)) in (n + 1, v) else (0, v)
  end.

(** [None] for -1: not a run of ones followed by zeros. *)
Fixpoint simpleMaskLength (mask : list Z) : option Z :=
  match mask with
  | [] => Some 0
  | v :: mask =>
    if v =? 255 then Z.add 8 <$> simpleMaskLength mask else
    let '(n, v) := leading_ones 8 v in
    if negb (v =? 0) then None else
    if forallb (Z.eqb 0) mask then Some n else None
  end.

Definition Size (mask : list Z) : Z * Z :=
  match simpleMaskLength mask with
  | Some ones => (ones, Z.of_nat (length mask) * 8)
  | None => (0, 0)
  end.

Section Documents.
Context {NET : Net}.

Definition ipv4Number (text : string) : result Z :=
  match To4 (ParseIP text) with
  | None => err (NotIPv4 text)
  | Some ipv4 => or_panic (big_endian_uint32 ipv4)
  end.

(** A rewrite field: parsed if there, with its bit in the mask. *)
Definition rewrite_ip (text : option string) (bit mask : Z) : result (Z * Z) :=
  match text with
  | None => ok (0, mask)
  | Some text => n ←? ipv4Number text; ok (n, Z.lor mask bit)
  end.
Definition rewrite_port (port : option Z) (bit mask : Z) : Z * Z :=
  match port with None => (0, mask) | Some p => (p, Z.lor mask bit) end.

Definition is_rewrite_free (d : actionDocument) : bool :=
  negb (is_set (ASrcIPv4 d) || is_set (ADstIPv4 d) || is_set (ASrcPort d) || is_set (ADstPort d)).

(** The fields of a rewrite, in source order. *)
Definition parse_rewrite (document : actionDocument) : result RuleAction :=
  '(src_ip, mask) ←? rewrite_ip (ASrcIPv4 document) DP_REWRITE_SRC_IPV4 0;
  '(dst_ip, mask) ←? rewrite_ip (ADstIPv4 document) DP_REWRITE_DST_IPV4 mask;
  let '(sport, mask) := rewrite_port (ASrcPort document) DP_REWRITE_SRC_PORT mask in
  let '(dport, mask) := rewrite_port (ADstPort document) DP_REWRITE_DST_PORT mask in
  if mask =? 0 then err EmptyRewrite else
  ok {| Type_ := DP_ACTION_REWRITE; RewriteMask := mask; SrcIPv4 := src_ip; DstIPv4 := dst_ip;
        SrcPort := sport; DstPort := dport |}.

Definition parseAction (document : actionDocument) : result RuleAction :=
  type ←? (if String.eqb (ActionType document) "drop" then ok DP_ACTION_DROP
           else if String.eqb (ActionType document) "forward" then ok DP_ACTION_FORWARD
           else if String.eqb (ActionType document) "rewrite" then ok DP_ACTION_REWRITE
           else err (UnsupportedAction (ActionType document)));
  if negb (type =? DP_ACTION_REWRITE) then
    if negb (is_rewrite_free document) then err (RewriteFields (ActionType document)) else
    ok {| Type_ := type; RewriteMask := 0; SrcIPv4 := 0; DstIPv4 := 0; SrcPort := 0; DstPort := 0 |}
  else parse_rewrite document.

Definition parseProtocol (protocol : string) : result Z :=
  if String.eqb protocol "tcp" then ok 6 else if String.eqb protocol "udp" then ok 17 else err (UnknownProtocol protocol).

Fixpoint normalize_flows (index : nat) (flowKeys : gset (Z * Z * Z * Z * Z)) (items : list flowDocument) : result (list FlowRule) :=
  match items with
  | [] => ok []
  | item :: items =>
    src ←? ipv4Number (DSrcIPv4 item);
    dst ←? ipv4Number (DDstIPv4 item);
    protocol ←? parseProtocol (Protocol item);
    action ←? parseAction (DAction item);
    let key := (src, dst, DSrcPort item, DDstPort item, protocol) in
    if decide (key ∈ flowKeys) then err (RepeatedFlow index) else
    rules ←? normalize_flows (S index) ({[key]} ∪ flowKeys) items;
    ok ({| FSrcIPv4 := src; FDstIPv4 := dst; FSrcPort := DSrcPort item; FDstPort := DDstPort item;
           L4Proto := protocol; FAction := action |} :: rules)
  end.

Fixpoint normalize_routes (index : nat) (routeKeys : gset (Z * Z)) (items : list routeDocument) : result (list RouteRule) :=
  match items with
  | [] => ok []
  | item :: items =>
    match ParseCIDR (CIDR item) with
    | None => err (InvalidPrefix index)
    | Some (address, (network, mask)) =>
      if negb (is_set (To4 (Some address))) then err (InvalidPrefix index) else
      let '(depth, bits) := Size mask in
      if negb (bits =? 32) || (depth =? 0) then err (InvalidPrefix index) else
      prefixNumber ←? or_panic (match To4 (Some network) with Some b => big_endian_uint32 b | None => None end);
      action ←? parseAction (RouteAction item);
      let key := (prefixNumber, depth) in
      if decide (key ∈ routeKeys) then err (RepeatedRoute index) else
      rules ←? normalize_routes (S index) ({[key]} ∪ routeKeys) items;
      ok ({| Prefix := prefixNumber; Depth := u8 depth; RAction := action |} :: rules)
    end
  end.

Definition normalizeRules (document : rulesDocument) : result (list FlowRule * list RouteRule) :=
  if DP_MAX_FLOW_RULES <? Z.of_nat (length (DFlows document)) then err TooManyFlows else
  if DP_MAX_ROUTE_RULES <? Z.of_nat (length (DRoutes document)) then err TooManyRoutes else
  flows ←? normalize_flows 0 ∅ (DFlows document);
  routes ←? normalize_routes 0 ∅ (DRoutes document);
  ok (flows, routes).
End Documents.
