(* ===== verification/DocumentsSpec.v ===== *)
(** * Rule documents, specified

    Whatever a document says, normalising it does not panic; what it accepts is a
    rule set that the manager's check, and with it the native builder, accepts. *)
From Stdlib Require Import ZArith Lia.
From stdpp Require Import base list numbers option gmap strings.
From S2P Require Import Prelude Packet Api Tables Snapshot SnapshotSpec Binding BindingSpec GoSlice Control ControlSpec Documents.

(** ** Numbers and their bytes *)
Lemma fits_testbit k y n : 0 <= k <= n -> fits k y -> Z.testbit y n = false.
Proof.
  intros Hk Hy. rewrite <- (Z.mod_small y (2 ^ k)) by exact Hy. apply Z.mod_pow2_bits_high. lia.
Qed.

Lemma lor_shiftl k y x : 0 <= k -> fits k y -> Z.lor y (Z.shiftl x k) = x * 2 ^ k + y.
Proof.
  intros Hk Hy. rewrite <- Z.shiftl_mul_pow2 by done. rewrite Z.add_comm, <- Z.add_lor_land.
  assert (Z.land y (Z.shiftl x k) = 0) as ->; [|lia].
  apply Z.bits_inj'. intros n Hn. rewrite Z.land_spec, Z.shiftl_spec, Z.bits_0 by done.
  destruct (Z.lt_ge_cases n k); [by rewrite (Z.testbit_neg_r x), andb_false_r by lia|].
  by rewrite (fits_testbit k) by done.
Qed.

Lemma fits_land k y y' : 0 <= k -> fits k y -> fits k y' -> fits k (Z.land y y').
Proof.
  intros Hk Hy Hy'. split; [apply Z.land_nonneg; left; apply Hy|].
  assert (Z.land y y' = Z.land y y' mod 2 ^ k) as ->; [|apply Z.mod_pos_bound; lia].
  rewrite <- Z.land_ones, <- Z.land_assoc by done. f_equal. by rewrite Z.land_ones, Z.mod_small by done.
Qed.

Lemma land_concat k x y x' y' : 0 <= k -> fits k y -> fits k y' ->
  Z.land (x * 2 ^ k + y) (x' * 2 ^ k + y') = Z.land x x' * 2 ^ k + Z.land y y'.
Proof.
  intros Hk Hy Hy'. pose proof (fits_land k y y' Hk Hy Hy') as Hland.
  rewrite <- !lor_shiftl by done. apply Z.bits_inj'. intros n Hn.
  rewrite !Z.land_spec, !Z.lor_spec, !Z.shiftl_spec, Z.land_spec by done.
  destruct (Z.lt_ge_cases n k).
  - rewrite !(Z.testbit_neg_r _ (n - k)) by lia. by rewrite !orb_false_r.
  - rewrite (fits_testbit k y n), (fits_testbit k y' n) by (done || lia). cbn [orb andb]. by rewrite Z.land_spec.
Qed.

Lemma big_endian_be32 b0 b1 b2 b3 : bytes [b0; b1; b2; b3] -> big_endian_uint32 [b0; b1; b2; b3] = Some (be32 b0 b1 b2 b3).
Proof.
  rewrite !Forall_cons. intros (H0 & H1 & H2 & H3 & _). unfold big_endian_uint32, be32. f_equal.
  rewrite (lor_shiftl 8), (lor_shiftl 16), (lor_shiftl 24) by fits_lia. lia.
Qed.

Lemma be32_land a0 a1 a2 a3 m0 m1 m2 m3 : bytes [a0; a1; a2; a3] -> bytes [m0; m1; m2; m3] ->
  Z.land (be32 a0 a1 a2 a3) (be32 m0 m1 m2 m3) = be32 (Z.land a0 m0) (Z.land a1 m1) (Z.land a2 m2) (Z.land a3 m3).
Proof.
  rewrite !Forall_cons. intros (H0 & H1 & H2 & H3 & _) (M0 & M1 & M2 & M3 & _).
  unfold be32. change 256 with (2 ^ 8). by rewrite !land_concat.
Qed.

(** ** The documented behaviour of package net *)

(** [net.CIDRMask(n, 8*len)] *)
Definition CIDRMask (n : Z) (len : nat) : list Z :=
  (fun i => 255 - (2 ^ Z.min 8 (Z.max 0 (8 * (Z.of_nat i + 1) - n)) - 1)) <$> seq 0 len.

Class NetOk (NET : Net) : Prop := {
  ParseIP_bytes text ip : ParseIP text = Some ip -> length ip = 16%nat /\ bytes ip;
  (** the network is the address under the mask, 4 bytes for IPv4 *)
  ParseCIDR_network text address network mask : ParseCIDR text = Some (address, (network, mask)) ->
    exists n len ip, (len = 4 \/ len = 16)%nat /\ 0 <= n <= 8 * Z.of_nat len /\ mask = CIDRMask n len /\
      length ip = len /\ bytes ip /\ network = zip_with Z.land ip mask;
}.

Lemma CIDRMask_4 n : 0 <= n <= 32 ->
  Size (CIDRMask n 4) = (n, 32) /\ bytes (CIDRMask n 4) /\
  (1 <= n -> big_endian_uint32 (CIDRMask n 4) = Some (depth_mask n)).
Proof.
  intros Hn. apply (proj1 (Forall_seqZ (fun n => Size (CIDRMask n 4) = (n, 32) /\ bytes (CIDRMask n 4) /\
    (1 <= n -> big_endian_uint32 (CIDRMask n 4) = Some (depth_mask n))) 0 33)); [|lia].
  let l := eval vm_compute in (seqZ 0 33) in change (seqZ 0 33) with l.
  repeat (apply Forall_cons; split; [split_and!; [by vm_compute|repeat constructor; by vm_compute|intros; by vm_compute]|]).
  constructor.
Qed.

Lemma Size_bits n len : (Size (CIDRMask n len)).2 = 32 -> len = 4%nat.
Proof.
  unfold Size, CIDRMask. destruct (simpleMaskLength _); cbn [snd]; [|done]. rewrite length_fmap, length_seq. lia.
Qed.

(** ** Results *)
Definition result_ok {A} (m : result A) (P : A -> Prop) : Prop :=
  match m with None => False | Some (inl _) => True | Some (inr a) => P a end.

Lemma result_try {A B} (m : result A) (k : A -> result B) (P : B -> Prop) :
  result_ok m (fun a => m = ok a -> result_ok (k a) P) -> result_ok (try m k) P.
Proof. destruct m as [[e|a]|]; cbn; auto. Qed.

Lemma result_mono {A} (m : result A) (P Q : A -> Prop) : result_ok m P -> (forall a, P a -> Q a) -> result_ok m Q.
Proof. destruct m as [[e|a]|]; cbn; auto. Qed.

Section Spec.
Context {NET : Net} {NO : NetOk NET}.

Lemma To4_bytes ip b : bytes ip -> To4 (Some ip) = Some b -> length b = 4%nat /\ bytes b.
Proof.
  intros Hip. unfold To4. destruct (Nat.eqb_spec (length ip) 4); [by intros [= <-]|].
  destruct (Nat.eqb_spec (length ip) 16); cbn [andb]; [|done].
  destruct (_ && _ && _); [|done]. intros [= <-]. rewrite length_drop. split; [lia|by apply Forall_drop].
Qed.

Lemma four_bytes b : length b = 4%nat -> bytes b -> exists n, big_endian_uint32 b = Some n /\ fits 32 n.
Proof.
  intros Hl Hb. destruct b as [|b0 [|b1 [|b2 [|b3 [|]]]]]; try done. exists (be32 b0 b1 b2 b3).
  split; [by apply big_endian_be32|]. rewrite !Forall_cons in Hb. destruct Hb as (? & ? & ? & ? & _). by apply be32_fits.
Qed.

Lemma ipv4Number_ok text : result_ok (ipv4Number text) (fits 32).
Proof.
  unfold ipv4Number. destruct (ParseIP text) as [ip|] eqn:E; [|done]. destruct (ParseIP_bytes _ _ E) as [_ Hb].
  destruct (To4 (Some ip)) as [b|] eqn:E4; [|done]. destruct (To4_bytes _ _ Hb E4) as [Hl Hb4].
  by destruct (four_bytes b Hl Hb4) as (n & -> & Hn).
Qed.

Lemma rewrite_ip_ok text bit mask : result_ok (rewrite_ip text bit mask)
  (fun '(n, m) => fits 32 n /\ (m = mask \/ m = Z.lor mask bit)).
Proof.
  destruct text as [t|]; cbn [rewrite_ip]; [|by split; [by vm_compute|left]]. apply result_try. eapply result_mono; [apply ipv4Number_ok|].
  intros n Hn _. cbn. auto.
Qed.

(** Ports are 16-bit numbers in the decoded struct. *)
Definition action_doc_fits (d : actionDocument) : Prop :=
  (forall p, ASrcPort d = Some p -> fits 16 p) /\ (forall p, ADstPort d = Some p -> fits 16 p).

Lemma rewrite_port_ok port bit mask n m : (forall p, port = Some p -> fits 16 p) -> rewrite_port port bit mask = (n, m) ->
  fits 16 n /\ (m = mask \/ m = Z.lor mask bit).
Proof. intros Hp. destruct port; cbn; intros [= <- <-]; (split; [|by auto]); [auto|by vm_compute]. Qed.

Definition action_ok (a : RuleAction) : Prop :=
  action_fits (c_action (native_action a)) /\ validateRuleAction a = None.

Lemma plain_action_ok t : t = DP_ACTION_DROP \/ t = DP_ACTION_FORWARD ->
  action_ok {| Type_ := t; RewriteMask := 0; SrcIPv4 := 0; DstIPv4 := 0; SrcPort := 0; DstPort := 0 |}.
Proof. intros [-> | ->]; split; [|done| |done]; repeat split; by vm_compute. Qed.

Lemma rewrite_action_ok mask si di sp dp : fits 32 si -> fits 32 di -> fits 16 sp -> fits 16 dp -> 1 <= mask <= 15 ->
  action_ok {| Type_ := DP_ACTION_REWRITE; RewriteMask := mask; SrcIPv4 := si; DstIPv4 := di; SrcPort := sp; DstPort := dp |}.
Proof.
  intros. assert (fits 8 mask) by fits_lia. split.
  - split_and!; cbn; try done.
  - apply validateRuleAction_spec; [done|]. split; [done|]. right. done.
Qed.

Lemma parse_rewrite_ok d : action_doc_fits d -> result_ok (parse_rewrite d) action_ok.
Proof.
  intros [Hs Hd]. unfold parse_rewrite.
  apply result_try. eapply result_mono; [apply rewrite_ip_ok|]. intros [si m1] [Hsi Hm1] _.
  apply result_try. eapply result_mono; [apply rewrite_ip_ok|]. intros [di m2] [Hdi Hm2] _.
  destruct (rewrite_port (ASrcPort d) _ m2) as [sp m3] eqn:E3. apply rewrite_port_ok in E3 as [Hsp Hm3]; [|done].
  destruct (rewrite_port (ADstPort d) _ m3) as [dp m4] eqn:E4. apply rewrite_port_ok in E4 as [Hdp Hm4]; [|done].
  destruct (Z.eqb_spec m4 0); [done|]. apply rewrite_action_ok; [done..|].
  destruct Hm1 as [-> | ->], Hm2 as [-> | ->], Hm3 as [-> | ->], Hm4 as [-> | ->]; try done; by vm_compute.
Qed.

Lemma parseAction_ok d : action_doc_fits d -> result_ok (parseAction d) action_ok.
Proof.
  intros Hd. unfold parseAction.
  destruct (String.eqb _ "drop"); [|destruct (String.eqb _ "forward"); [|destruct (String.eqb _ "rewrite")]].
  - cbn. case_if; [done|]. apply plain_action_ok. by left.
  - cbn. case_if; [done|]. apply plain_action_ok. by right.
  - by apply parse_rewrite_ok.
  - done.
Qed.

(** ** Rules *)
Definition flow_doc_fits (d : flowDocument) : Prop :=
  fits 16 (DSrcPort d) /\ fits 16 (DDstPort d) /\ action_doc_fits (DAction d).

(** The rule a document stands for. *)
Definition flow_means (d : flowDocument) (r : FlowRule) : Prop :=
  ipv4Number (DSrcIPv4 d) = ok (FSrcIPv4 r) /\ ipv4Number (DDstIPv4 d) = ok (FDstIPv4 r) /\
  FSrcPort r = DSrcPort d /\ FDstPort r = DDstPort d /\ parseProtocol (Protocol d) = ok (L4Proto r) /\
  parseAction (DAction d) = ok (FAction r).

Definition route_means (d : routeDocument) (r : RouteRule) : Prop :=
  exists address network, ParseCIDR (CIDR d) = Some (address, (network, CIDRMask (Depth r) 4)) /\
    big_endian_uint32 network = Some (Prefix r) /\ parseAction (RouteAction d) = ok (RAction r).

Lemma parseProtocol_ok p : result_ok (parseProtocol p) (fun n => n = 6 \/ n = 17).
Proof. unfold parseProtocol. destruct (String.eqb p "tcp"); [by left|]. destruct (String.eqb p "udp"); [by right|done]. Qed.

Lemma flow_rule_good src dst sport dport proto a : fits 32 src -> fits 32 dst -> fits 16 sport -> fits 16 dport ->
  proto = 6 \/ proto = 17 -> action_ok a ->
  let r := {| FSrcIPv4 := src; FDstIPv4 := dst; FSrcPort := sport; FDstPort := dport; L4Proto := proto; FAction := a |} in
  flow_fits (c_flow (native_flow r)) /\ flow_ok r.
Proof.
  intros Hs Hd Hsp Hdp Hp [Hf Hv] r. assert (fits 8 proto) by (destruct Hp as [-> | ->]; by vm_compute). split.
  - by split_and!.
  - split; [exact Hp|]. split; [done|]. apply validateRuleAction_spec; [apply Hf|done].
Qed.

Lemma normalize_flows_ok items : forall index seen, Forall flow_doc_fits items ->
  result_ok (normalize_flows index seen items) (fun rules =>
    Forall flow_fits (native_flows rules) /\ scan_ok flow_map_key flow_ok seen rules /\ Forall2 flow_means items rules).
Proof.
  induction items as [|item items IH]; intros index seen Hfit.
  { cbn. split_and!; [constructor|apply scan_ok_nil|constructor]. }
  apply Forall_cons_1 in Hfit as [(Hsp & Hdp & Ha) Hfit]. cbn [normalize_flows].
  apply result_try. eapply result_mono; [apply ipv4Number_ok|]. intros src Hsrc Esrc.
  apply result_try. eapply result_mono; [apply ipv4Number_ok|]. intros dst Hdst Edst.
  apply result_try. eapply result_mono; [apply parseProtocol_ok|]. intros proto Hproto Eproto.
  apply result_try. eapply result_mono; [by apply parseAction_ok|]. intros a Hact Ea. cbv zeta.
  case_decide as Hnew; [done|].
  apply result_try. eapply result_mono; [by apply IH|]. intros rules (Hff & Hscan & Hmeans) _.
  destruct (flow_rule_good src dst (DSrcPort item) (DDstPort item) proto a) as [Hgf Hgo]; [done..|].
  split_and!; [by constructor| |by constructor]. by apply scan_ok_cons.
Qed.

(** The network of an accepted prefix is a number with only the top bits set. *)
Lemma network_prefix address network mask text : ParseCIDR text = Some (address, (network, mask)) ->
  forall depth, Size mask = (depth, 32) -> depth <> 0 ->
  1 <= depth <= 32 /\ mask = CIDRMask depth 4 /\
  exists n, To4 (Some network) = Some network /\ big_endian_uint32 network = Some n /\ fits 32 n /\ prefix_of n depth = n.
Proof.
  intros (n & len & ip & _ & Hn & -> & Hl & Hip & ->)%ParseCIDR_network depth Hsize Hne.
  assert (len = 4%nat) as -> by (apply (Size_bits n); by rewrite Hsize).
  destruct (CIDRMask_4 n Hn) as (Hs & Hmb & Hm). rewrite Hsize in Hs. injection Hs as ->.
  assert (1 <= n) as Hn1 by lia. specialize (Hm Hn1). split; [lia|]. split; [done|].
  assert (length (CIDRMask n 4) = 4%nat) as Hml by done.
  destruct ip as [|b0 [|b1 [|b2 [|b3 [|]]]]], (CIDRMask n 4) as [|m0 [|m1 [|m2 [|m3 [|]]]]]; try done.
  rewrite big_endian_be32 in Hm by done. injection Hm as Hm. cbn [zip_with].
  exists (Z.land (be32 b0 b1 b2 b3) (depth_mask n)). rewrite <- Hm, be32_land by done.
  rewrite !Forall_cons in Hip, Hmb. destruct Hip as (? & ? & ? & ? & _), Hmb as (? & ? & ? & ? & _).
  assert (bytes [Z.land b0 m0; Z.land b1 m1; Z.land b2 m2; Z.land b3 m3]) as Hb
    by (repeat (apply Forall_cons; split; [by apply fits_land|]); constructor).
  split; [done|]. rewrite big_endian_be32 by done. split; [done|].
  rewrite !Forall_cons in Hb. destruct Hb as (? & ? & ? & ? & _). split; [by apply be32_fits|].
  unfold prefix_of. rewrite <- Hm, be32_land by by repeat (apply Forall_cons; split).
  by rewrite <- !Z.land_assoc, !Z.land_diag.
Qed.

Lemma route_rule_good n depth a : fits 32 n -> 1 <= depth <= 32 -> prefix_of n depth = n -> action_ok a ->
  let r := {| Prefix := n; Depth := depth; RAction := a |} in
  route_fits (c_route (native_route r)) /\ route_ok r.
Proof.
  intros Hn Hd Hp [Hf Hv] r. assert (fits 8 depth) by fits_lia. split.
  - by split_and!.
  - split; [exact Hd|]. split; [done|]. split; [exact Hp|]. apply validateRuleAction_spec; [apply Hf|done].
Qed.

Lemma Size_pair mask : Size mask = ((Size mask).1, (Size mask).2).
Proof. by destruct (Size mask). Qed.

Lemma normalize_routes_ok items : forall index seen, Forall (fun d => action_doc_fits (RouteAction d)) items ->
  result_ok (normalize_routes index seen items) (fun rules =>
    Forall route_fits (native_routes rules) /\ scan_ok route_map_key route_ok seen rules /\ Forall2 route_means items rules).
Proof.
  induction items as [|item items IH]; intros index seen Hfit.
  { cbn. split_and!; [constructor|apply scan_ok_nil|constructor]. }
  apply Forall_cons_1 in Hfit as [Ha Hfit]. cbn [normalize_routes].
  destruct (ParseCIDR (CIDR item)) as [[address [network mask]]|] eqn:Hcidr; [|done].
  destruct (is_set (To4 (Some address))); cbn [negb]; [|done].
  destruct (Size mask) as [depth bits] eqn:Hsize. destruct (Z.eqb_spec bits 32) as [->|]; cbn [negb orb]; [|done].
  destruct (Z.eqb_spec depth 0) as [|Hne]; [done|].
  destruct (network_prefix _ _ _ _ Hcidr depth Hsize) as (Hd & -> & n & -> & Hn & Hfn & Hpre); [done|].
  rewrite Hn. cbn [or_panic try ok].
  apply result_try. eapply result_mono; [by apply parseAction_ok|]. intros a Hact Ea. cbv zeta.
  case_decide as Hnew; [done|].
  apply result_try. eapply result_mono; [by apply IH|]. intros rules (Hff & Hscan & Hmeans) _.
  assert (u8 depth = depth) as Hu by (apply wrap_id; fits_lia). rewrite Hu.
  destruct (route_rule_good n depth a Hfn Hd Hpre Hact) as [Hgf Hgo].
  split_and!; [by constructor|by apply scan_ok_cons|]. constructor; [|done]. by exists address, network.
Qed.

Definition document_fits (d : rulesDocument) : Prop :=
  Forall flow_doc_fits (DFlows d) /\ Forall (fun r => action_doc_fits (RouteAction r)) (DRoutes d).

Lemma normalizeRules_ok document : document_fits document ->
  result_ok (normalizeRules document) (fun '(flows, routes) =>
    rules_fit flows routes /\ validate_elements flows routes = None /\
    Forall2 flow_means (DFlows document) flows /\ Forall2 route_means (DRoutes document) routes).
Proof.
  intros [Hf Hr]. unfold normalizeRules.
  destruct (Z.ltb_spec DP_MAX_FLOW_RULES (Z.of_nat (length (DFlows document)))); [done|].
  destruct (Z.ltb_spec DP_MAX_ROUTE_RULES (Z.of_nat (length (DRoutes document)))); [done|].
  apply result_try. eapply result_mono; [by apply normalize_flows_ok|]. intros flows (Hff & Hfs & Hfm) _.
  apply result_try. eapply result_mono; [by apply normalize_routes_ok|]. intros routes (Hrf & Hrs & Hrm) _.
  split_and!; [by split| |done|done].
  pose proof (Forall2_length _ _ _ Hfm). pose proof (Forall2_length _ _ _ Hrm).
  unfold validate_elements. rewrite !(proj2 (Z.ltb_ge _ _)) by lia. cbn [orb].
  rewrite (proj2 (validate_flows_spec flows 0 ∅ Hff) Hfs). by apply validate_routes_spec.
Qed.

(** C40: a rules file that loads is a rule set that can be published.  Normalising
    never panics, whatever the texts in the document; when it accepts, the rules
    stand one for one, in order, for the entries of the document, and they pass
    [validateRules], which is the native contract; so what the manager is started
    with cannot be refused by the builder as invalid or duplicate. *)
Theorem normalizeRules_valid document : document_fits document ->
  result_ok (normalizeRules document) (fun '(flows, routes) =>
    rules_fit flows routes /\ validate_elements flows routes = None /\
    Forall2 flow_means (DFlows document) flows /\ Forall2 route_means (DRoutes document) routes).
Proof. apply normalizeRules_ok. Qed.
End Spec.
