(* ===== verification/RuleFiles.v ===== *)
(** * Rule files: [ParseRules] and [LoadRulesFile] of [control/dataplane/rules.go]

    A rules file is opened, decoded as one JSON value and nothing after it,
    normalised into fresh slices, and closed.  What [encoding/json] makes of a
    reader, and what the disk holds, are parameters. *)
From Stdlib Require Import ZArith Lia.
From stdpp Require Import base list numbers option gmap strings.
From S2P Require Import Prelude Api Binding GoSlice Control Documents.

(** What one call of [Decode] reports. *)
Inductive decoded (E A : Type) :=
  | Decoded (value : A)
  | EndOfInput                     (** [io.EOF] *)
  | Undecodable (e : E).
Arguments Decoded {E A}.
Arguments EndOfInput {E A}.
Arguments Undecodable {E A}.

(** [encoding/json] on readers, with a decoder that refuses unknown fields. *)
Class Json := {
  reader : Type;
  json_error : Type;
  decoder : Type;
  NewDecoder : reader -> decoder;
  (** into a [*rulesDocument], which [null] leaves nil *)
  Decode_document : decoder -> decoded json_error (option rulesDocument) * decoder;
  (** into an [interface{}] *)
  Decode_value : decoder -> decoded json_error unit * decoder;
}.

(** ** The disk, and the files the process has open *)
Record files {J : Json} {E : Type} := {
  on_disk : string -> E + reader;
  handles : gset nat;
}.
Arguments files {J} E.

Section Files.
Context {J : Json} {open_error : Type}.
Abbreviation files := (files open_error).

Definition set_handles (hs : gset nat) (d : files) : files := {| on_disk := on_disk d; handles := hs |}.

Definition Open (path : string) : M files (open_error + nat * reader) := fun d =>
  match on_disk d path with
  | inl e => Some (inl e, d)
  | inr contents => let fd := fresh (handles d) in Some (inr (fd, contents), set_handles ({[fd]} ∪ handles d) d)
  end.

(** Closing a handle that is not open would be an error, which the code ignores. *)
Definition Close (fd : nat) : M files unit := fun d => Some (tt, set_handles (handles d ∖ {[fd]}) d).
End Files.

(** ** Slices for the rules of a document *)
Definition in_flows {A} (m : M (go_mem FlowRule) A) : M go_heap A := fun h =>
  '(a, fm) ← m (flow_mem h); Some (a, {| flow_mem := fm; route_mem := route_mem h |}).
Definition in_routes {A} (m : M (go_mem RouteRule) A) : M go_heap A := fun h =>
  '(a, rm) ← m (route_mem h); Some (a, {| flow_mem := flow_mem h; route_mem := rm |}).

(** [make([]T, 0, cap)] *)
Definition make_slice {A} (zero : A) (cap : nat) : M (go_mem A) slice := new_array (replicate cap zero) 0.

(** [s = append(s, x)] for each of [xs]. *)
Fixpoint append_each {A} (growth : nat -> nat -> nat) (zero : A) (s : slice) (xs : list A) : M (go_mem A) slice :=
  match xs with
  | [] => mret s
  | x :: xs => s ← append_values growth zero s [x]; append_each growth zero s xs
  end.

(** ** Loading *)
Section Loading.
Context {NET : Net} {J : Json} {open_error : Type} (growth : nat -> nat -> nat).

Inductive parse_error :=
  | DecodeRules (e : option json_error)        (** [None]: the input is empty *)
  | NotAnObject
  | SecondValue
  | DecodeTrailing (e : json_error)
  | BadRules (e : doc_error).

(** [normalizeRules] with its slices; a document within the limits gets them
    before its rules are looked at. *)
Definition normalize_into (document : rulesDocument) : M go_heap (parse_error + RuleSnapshot) :=
  match normalizeRules document with
  | Some (inl TooManyFlows) => mret (inl (BadRules TooManyFlows))
  | Some (inl TooManyRoutes) => mret (inl (BadRules TooManyRoutes))
  | normalized =>
    flows ← in_flows (make_slice flow_default (length (DFlows document)));
    routes ← in_routes (make_slice route_default (length (DRoutes document)));
    match normalized with
    | None => ub
    | Some (inl e) => mret (inl (BadRules e))
    | Some (inr (flow_rules, route_rules)) =>
      flows ← in_flows (append_each growth flow_default flows flow_rules);
      routes ← in_routes (append_each growth route_default routes route_rules);
      mret (inr {| Flows := flows; Routes := routes |})
    end
  end.

Definition ParseRules (input : reader) : M go_heap (parse_error + RuleSnapshot) :=
  let '(first, d) := Decode_document (NewDecoder input) in
  match first with
  | Undecodable e => mret (inl (DecodeRules (Some e)))
  | EndOfInput => mret (inl (DecodeRules None))
  | Decoded None => mret (inl NotAnObject)
  | Decoded (Some document) =>
    match (Decode_value d).1 with
    | EndOfInput => normalize_into document
    | Decoded _ => mret (inl SecondValue)
    | Undecodable e => mret (inl (DecodeTrailing e))
    end
  end.

Inductive load_error :=
  | OpenFailed (e : open_error)
  | BadFile (path : string) (e : parse_error).

Definition on_heap {A} (m : M go_heap A) : M (go_heap * files open_error) A :=
  fun '(h, d) => '(a, h) ← m h; Some (a, (h, d)).
Definition on_files {A} (m : M (files open_error) A) : M (go_heap * files open_error) A :=
  fun '(h, d) => '(a, d) ← m d; Some (a, (h, d)).

(** The deferred [Close] runs after the parse, whatever it returns. *)
Definition LoadRulesFile (path : string) : M (go_heap * files open_error) (load_error + RuleSnapshot) :=
  opened ← on_files (Open path);
  match opened with
  | inl e => mret (inl (OpenFailed e))
  | inr (fd, contents) =>
    snapshot ← on_heap (ParseRules contents);
    on_files (Close fd);;
    mret (match snapshot with inl e => inl (BadFile path e) | inr s => inr s end)
  end.
End Loading.
#[global] Arguments parse_error {J}.
#[global] Arguments load_error {J} open_error.
