(* ===== verification/RuleFilesSpec.v ===== *)
(** * Rule files, specified

    A file that loads holds exactly one document, whose rules the new snapshot
    shows in arrays of its own; every other file is refused; nothing that existed
    before changes and no handle stays open. *)
From Stdlib Require Import ZArith Lia.
From stdpp Require Import base list numbers option gmap strings.
From S2P Require Import Prelude Packet Api Tables Snapshot SnapshotSpec Binding BindingSpec GoSlice Control ControlSpec Documents DocumentsSpec RuleFiles.

(** Ports are decoded into [uint16]. *)
Class JsonOk (J : Json) : Prop :=
  Decode_document_fits d document d' : Decode_document d = (Decoded (Some document), d') -> document_fits document.

(** ** Slices of one's own *)
Section Slices.
Context {A : Type} (growth : nat -> nat -> nat) (zero : A).

Lemma make_run cap (m : go_mem A) : mem_ok m -> exists s m', make_slice zero cap m = Some (s, m') /\ owns (next_array m) m [] s m'.
Proof. intros Hm. by apply (new_array_run _ (replicate cap zero) 0 m Hm (le_n _)), Nat.le_0_l. Qed.

Lemma append_each_run n xs : forall s (m0 m : go_mem A) l, owns n m0 l s m -> (n <= next_array m)%nat ->
  exists s' m', append_each growth zero s xs m = Some (s', m') /\ owns n m0 (l ++ xs) s' m'.
Proof.
  induction xs as [|x xs IH]; intros s m0 m l Hown Hn; [exists s, m; by rewrite app_nil_r|].
  destruct Hown as (Hk & Hm & Hnew & Hl). cbn [append_each].
  destruct (append_run growth n zero s [x] m l Hm Hn Hnew Hl) as (s1 & m1 & Hrun & Hk1 & Hm1 & Hnew1 & Hl1).
  erewrite M_bind_step by exact Hrun. cbv beta. rewrite cons_middle, app_assoc.
  apply IH; [|etrans; [exact Hn|apply Hk1]]. split_and!; [by etrans|done..].
Qed.
End Slices.

Section Spec.
Context {NET : Net} {NO : NetOk NET} {J : Json} {JO : JsonOk J} {open_error : Type} (growth : nat -> nat -> nat).
Abbreviation files := (files open_error).
Abbreviation normalize_into := (normalize_into growth).
Abbreviation ParseRules := (ParseRules growth).
Abbreviation LoadRulesFile := (LoadRulesFile (open_error := open_error) growth).

(** The input is one document with these rules, and nothing after it. *)
Definition written (input : reader) (flows : list FlowRule) (routes : list RouteRule) : Prop :=
  exists document d, Decode_document (NewDecoder input) = (Decoded (Some document), d) /\
    (Decode_value d).1 = EndOfInput /\ normalizeRules document = ok (flows, routes).

(** A snapshot with these rules, valid and in arrays made since [h]. *)
Record loaded (h h' : go_heap) (s : RuleSnapshot) (flows : list FlowRule) (routes : list RouteRule) : Prop := {
  ld_shows : shows_in s h' flows routes;
  ld_private : private_since h s;
  ld_fit : rules_fit flows routes;
  ld_valid : validate_elements flows routes = None;
}.

(** What loading [input] makes of the memory [h]. *)
Definition parsed {E} (input : reader) (h : go_heap) (res : E + RuleSnapshot) (h' : go_heap) : Prop :=
  later h h' /\
  match res with
  | inr s => exists flows routes, written input flows routes /\ loaded h h' s flows routes
  | inl _ => forall flows routes, ~ written input flows routes
  end.

Lemma in_flows_run {A} (m : M (go_mem FlowRule) A) h a fm : m (flow_mem h) = Some (a, fm) ->
  in_flows m h = Some (a, {| flow_mem := fm; route_mem := route_mem h |}).
Proof. intros E. unfold in_flows. by rewrite E. Qed.

Lemma in_routes_run {A} (m : M (go_mem RouteRule) A) h a rm : m (route_mem h) = Some (a, rm) ->
  in_routes m h = Some (a, {| flow_mem := flow_mem h; route_mem := rm |}).
Proof. intros E. unfold in_routes. by rewrite E. Qed.

(** Two empty slices, and what is appended to them. *)
Lemma slices_run {A} nf nr (k : slice -> slice -> M go_heap A) h : heap_ok h ->
  exists sf sr h', (flows ← in_flows (make_slice flow_default nf); routes ← in_routes (make_slice route_default nr); k flows routes) h =
      k sf sr h' /\
    owns (next_array (flow_mem h)) (flow_mem h) [] sf (flow_mem h') /\
    owns (next_array (route_mem h)) (route_mem h) [] sr (route_mem h').
Proof.
  intros [Hf Hr]. destruct (make_run flow_default nf _ Hf) as (sf & mf & Hrunf & Hof), (make_run route_default nr _ Hr) as (sr & mr & Hrunr & Hor).
  exists sf, sr, {| flow_mem := mf; route_mem := mr |}. split; [|done].
  erewrite M_bind_step by by apply in_flows_run. cbv beta. by erewrite M_bind_step by by apply in_routes_run.
Qed.

Lemma owns_next {A} n (m m' : go_mem A) l s : owns n m l s m' -> (n <= next_array m)%nat -> (n <= next_array m')%nat.
Proof. intros ([_ ?] & _) ?. lia. Qed.

Lemma normalize_into_run document h : heap_ok h -> document_fits document ->
  exists res h', normalize_into document h = Some (res, h') /\ later h h' /\
    match res with
    | inr s => exists flows routes, normalizeRules document = ok (flows, routes) /\ loaded h h' s flows routes
    | inl _ => forall x, normalizeRules document <> ok x
    end.
Proof.
  intros Hh Hfit. pose proof (normalizeRules_ok document Hfit) as Hval. unfold RuleFiles.normalize_into.
  assert (forall e, exists h', (flows ← in_flows (make_slice flow_default (length (DFlows document)));
      routes ← in_routes (make_slice route_default (length (DRoutes document)));
      mret (inl (BadRules e) : parse_error + RuleSnapshot)) h = Some (inl (BadRules e), h') /\ later h h') as Hbad.
  { intros e. edestruct (slices_run (A := parse_error + RuleSnapshot) (length (DFlows document)) (length (DRoutes document))) as (sf & sr & h' & Hrun & (Hkf & Hmf & _) & (Hkr & Hmr & _));
      [exact Hh|]. exists h'. split; [exact Hrun|by split_and!]. }
  destruct (normalizeRules document) as [[e|[flows routes]]|] eqn:En; [..|done].
  - assert (forall x, (Some (inl e) : result (list FlowRule * list RouteRule)) <> ok x) as Hno by done.
    destruct (Hbad e) as (h' & Hrun & Hl).
    destruct e; try (eexists _, h; split; [done|split; [by apply later_refl|exact Hno]]);
      (eexists _, h'; split; [exact Hrun|split; [exact Hl|exact Hno]]).
  - destruct Hval as (Hf & Hv & _).
    edestruct (slices_run (A := parse_error + RuleSnapshot) (length (DFlows document)) (length (DRoutes document))) as (sf & sr & h1 & Hrun & Hof & Hor); [exact Hh|].
    rewrite Hrun. clear Hrun.
    destruct (append_each_run growth flow_default _ flows _ _ _ _ Hof (owns_next _ _ _ _ _ Hof (le_n _))) as (sf' & mf & Hrunf & Hkf & Hmf & Hnf & Ef).
    destruct (append_each_run growth route_default _ routes _ _ _ _ Hor (owns_next _ _ _ _ _ Hor (le_n _))) as (sr' & mr & Hrunr & Hkr & Hmr & Hnr & Er).
    erewrite M_bind_step by by apply in_flows_run. cbv beta. erewrite M_bind_step by by apply in_routes_run. cbv beta.
    eexists _, _. split; [done|]. split; [by split_and!|]. exists flows, routes. split; [done|]. by split.
Qed.

Lemma ParseRules_run input h : heap_ok h -> exists res h', ParseRules input h = Some (res, h') /\ parsed input h res h'.
Proof.
  intros Hh. unfold RuleFiles.ParseRules. destruct (Decode_document (NewDecoder input)) as [first d] eqn:E1.
  assert (forall e, (forall document, first <> Decoded (Some document) \/ (Decode_value d).1 <> EndOfInput) ->
    exists res h', (mret (inl e) : M go_heap (parse_error + RuleSnapshot)) h = Some (res, h') /\ parsed input h res h') as Hrefuse.
  { intros e Hno. exists (inl e), h. split; [done|]. split; [by apply later_refl|].
    intros flows routes (document & d' & E & E2 & _). rewrite E1 in E. injection E as -> ->. by destruct (Hno document). }
  destruct first as [[document|]| |e]; try (apply Hrefuse; intros ?; by left).
  destruct (Decode_value d).1 eqn:E2; try (apply Hrefuse; intros ?; by right).
  destruct (normalize_into_run document h Hh (Decode_document_fits _ _ _ E1)) as (res & h' & Hrun & Hl & Hres).
  exists res, h'. split; [exact Hrun|]. split; [exact Hl|]. destruct res as [e|s].
  - intros flows routes (document' & d' & E & _ & En). rewrite E1 in E. injection E as -> ->. by apply Hres in En.
  - destruct Hres as (flows & routes & En & Hld). exists flows, routes. split; [by exists document, d|done].
Qed.

Lemma LoadRulesFile_run path h (d : files) : heap_ok h ->
  exists res h', LoadRulesFile path (h, d) = Some (res, (h', d)) /\
    match on_disk d path with
    | inl e => res = inl (OpenFailed e) /\ h' = h
    | inr input => parsed input h res h' /\ forall e, res = inl e -> exists e', e = BadFile path e'
    end.
Proof.
  intros Hh. unfold RuleFiles.LoadRulesFile, Open, on_files. destruct (on_disk d path) as [e|input] eqn:Ed.
  { exists (inl (OpenFailed e)), h. split; [|done]. unfold mbind, M_bind. cbn. by rewrite Ed. }
  destruct (ParseRules_run input h Hh) as (res & h' & Hrun & Hl & Hp).
  exists (match res with inl e => inl (BadFile path e) | inr s => inr s end), h'. split.
  - unfold mbind, M_bind. cbn [mbind option_bind]. rewrite Ed. cbn. rewrite Hrun. cbn.
    assert (({[fresh (handles d)]} ∪ handles d) ∖ {[fresh (handles d)]} = handles d) as -> by (pose proof (is_fresh (handles d)); set_solver).
    by destruct d.
  - destruct res as [e|s]; (split; [by split|]); intros e' Ee; [|done]. injection Ee as <-. by exists e.
Qed.

(** C34: loading a rules file is exact and leaves nothing behind.  It is defined
    whatever the disk and the decoder answer.  It succeeds exactly when the file can be
    opened and holds one document, no second value after it, whose rules normalise;
    the snapshot then shows those rules, which the manager's check and the native
    builder accept, in arrays nobody else has.  In every case the arrays that existed
    are as they were, the disk is untouched, and the handle is closed again. *)
Theorem LoadRulesFile_exact path h (d : files) : heap_ok h ->
  exists res h', LoadRulesFile path (h, d) = Some (res, (h', d)) /\
    match on_disk d path with
    | inl e => res = inl (OpenFailed e) /\ h' = h
    | inr input => parsed input h res h' /\ forall e, res = inl e -> exists e', e = BadFile path e'
    end.
Proof. apply LoadRulesFile_run. Qed.
End Spec.
