(* ===== verification/Port.v ===== *)
(** * Ports, queues and workers: [dp_port.c]

    What the driver answers is the record [eth_env] (one answer per call and
    argument); the functions follow the source step by step, early returns
    included: a failed setup leaves the fields it has already assigned. *)
From Stdlib Require Import ZArith Lia.
From stdpp Require Import base list numbers option gmap strings.
From S2P Require Import Prelude Packet Api Tables Heap Snapshot Rcu State Rules Runtime.

Definition validate_queue_capacity (max_rx max_tx workers : Z) : Z :=
  if (workers <=? max_rx) && (workers <=? max_tx) then 0 else - ENOSPC.

Definition validate_worker_socket (baseline_socket worker_socket : Z) : Z :=
  if baseline_socket =? worker_socket then 0 else - EXDEV.

Record dev_info := { driver_name : option string; max_rx_queues : Z; max_tx_queues : Z }.

Record eth_env := {
  rte_eth_dev_configure : Z -> Z -> Z -> Z;
  (** the descriptor counts after adjustment *)
  rte_eth_dev_adjust_nb_rx_tx_desc : Z -> Z * Z -> Z * (Z * Z);
  (** port, queue, descriptors, socket, and for RX the pool *)
  rte_eth_rx_queue_setup : Z -> Z -> Z -> Z -> option Z -> Z;
  rte_eth_tx_queue_setup : Z -> Z -> Z -> Z -> Z;
  rte_eth_dev_start : Z -> Z;
  rte_eth_dev_stop : Z -> Z;
  rte_eth_dev_close : Z -> Z;
  rte_eth_dev_get_port_by_name : string -> Z + Z;   (** error or port *)
  rte_eth_dev_info_get : Z -> Z + dev_info;
  (** name, size, cache size, private size, buffer size, socket; [rte_errno] or pool *)
  rte_pktmbuf_pool_create : string -> Z -> Z -> Z -> Z -> Z -> Z + Z;
  RTE_MBUF_DEFAULT_BUF_SIZE : Z;
  rte_mempool_in_use_count : Z -> Z;
  enabled_lcores : list Z;                          (** [RTE_LCORE_FOREACH] *)
  rte_lcore_to_socket_id : Z -> Z;
}.

Definition nth_pair {A} (index : Z) (p : A * A) : A := if index =? 0 then fst p else snd p.
Definition set_nth_pair {A} (index : Z) (x : A) (p : A * A) : A * A :=
  if index =? 0 then (x, snd p) else (fst p, x).

Section Port.
Context {T : DpdkTables} {Q : Qsbr}.
Context (env : eth_env).

(** Early returns are the [inl] of [E]. *)
Definition check_ret (ret : Z) : E world unit := if ret <? 0 then efail ret else eret tt.

(** ** [setup_port] *)
Definition setup_queue (failure_queue index port rxd txd : Z) (queue : Z) : E world unit :=
  w ←! elift get;
  check_ret (rte_eth_rx_queue_setup env port queue rxd (socket_id (info (dp w))) (pool (dp w))) ;!
  if (index =? 0) && (failure_queue =? queue) then efail (- EIO) else
  check_ret (rte_eth_tx_queue_setup env port queue txd (socket_id (info (dp w)))).

Definition setup_port (failure_queue index : Z) : E world unit :=
  w ←! elift get;
  let port := nth_pair index (ports (dp w)) in
  check_ret (rte_eth_dev_configure env port (worker_count (dp w)) (worker_count (dp w))) ;!
  let '(ret, (rxd, txd)) := rte_eth_dev_adjust_nb_rx_tx_desc env port (256, 256) in
  check_ret ret ;!
  efor (Z.to_nat (worker_count (dp w))) 0 (setup_queue failure_queue index port rxd txd) ;!
  check_ret (rte_eth_dev_start env port) ;!
  elift (on_dp (fun d => set_started (set_nth_pair index true (started d)) d)) ;!
  if index =? 0 then elift (on_dp (set_info_with (set_rx_desc rxd)))
  else elift (on_dp (set_info_with (set_tx_desc txd))).

(** ** [setup_workers] *)

(** [dp.workers[i].info.field = ...] *)
Definition on_worker (i : Z) (f : dp_worker_ctx -> dp_worker_ctx) : M world unit :=
  fun w => if (0 <=? i) && (i <? Z.of_nat (length (workers (dp w))))
           then Some (tt, set_dp (set_workers (alter f (Z.to_nat i) (workers (dp w))) (dp w)) w)
           else None.
Definition with_ids (wid lcore : Z) (c : dp_worker_ctx) : dp_worker_ctx :=
  set_ctx_info {| worker_id := wid; lcore_id := lcore; rx_queue_id := rx_queue_id (ctx_info c);
                  tx_queue_id := tx_queue_id (ctx_info c) |} c.
Definition with_queues (queue : Z) (c : dp_worker_ctx) : dp_worker_ctx :=
  set_ctx_info {| worker_id := worker_id (ctx_info c); lcore_id := lcore_id (ctx_info c);
                  rx_queue_id := queue; tx_queue_id := queue |} c.

(** The loop over the enabled lcores; the result is [next]. *)
Fixpoint map_lcores (main count : Z) (lcores : list Z) (next : Z) : E world Z :=
  match lcores with
  | [] => eret next
  | l :: lcores =>
    if l =? main then map_lcores main count lcores next else
    if count <=? next then efail (- EINVAL) else
    elift (on_worker next (with_ids next l)) ;!
    map_lcores main count lcores (next + 1)
  end.

Definition init_worker (i : Z) : E world unit :=
  w ←! elift get;
  ctx ←! elift (lift (if 0 <=? i then workers (dp w) !! Z.to_nat i else None));
  let socket := rte_lcore_to_socket_id env (lcore_id (ctx_info ctx)) in
  if validate_worker_socket (socket_id (info (dp w))) socket <? 0 then efail (- EXDEV) else
  elift (on_worker i (with_queues (u16 i))) ;!
  elift (on_dp (fun d => set_info_with
    (fun inf => set_info_workers (<[Z.to_nat i := ctx_info (with_queues (u16 i) ctx)]> (info_workers inf)) inf) d)) ;!
  elift (on_worker i (fun c => set_reader_registered false (set_launched false (set_result 0 c)))).

Definition setup_workers (count : Z) : E world unit :=
  w ←! elift get;
  if (count =? 0) || (DP_MAX_WORKERS <? count) || negb (lcore_count (info (dp w)) =? count)
  then efail (- EINVAL) else
  elift (on_dp (set_workers (replicate (Z.to_nat DP_MAX_WORKERS) ctx_zero))) ;!
  elift (on_dp (set_worker_count count)) ;!
  elift (on_dp (set_info_with (set_info_worker_count count))) ;!
  elift (on_worker 0 (with_ids 0 (main_lcore (info (dp w))))) ;!
  next ←! map_lcores (main_lcore (info (dp w))) count (enabled_lcores env) 1;
  if negb (next =? count) then efail (- EINVAL) else
  efor (Z.to_nat count) 0 init_worker.

(** ** [dp_dataplane_setup] *)
Definition get_port (name : string) : E world Z :=
  match rte_eth_dev_get_port_by_name env name with
  | inl ret => efail ret
  | inr port => eret port
  end.

Definition check_device (count port : Z) : E world unit :=
  match rte_eth_dev_info_get env port with
  | inl ret => efail ret
  | inr i =>
    if negb (bool_decide (driver_name i = Some "net_tap"%string)) then efail (- ENOTSUP) else
    if validate_queue_capacity (max_rx_queues i) (max_tx_queues i) count <? 0 then efail (- ENOSPC) else
    eret tt
  end.

(** The part of [dp_dataplane_setup] from the pool on. *)
Definition open_dataplane (failure_queue : Z) : E world unit :=
  w ←! elift get;
  match rte_pktmbuf_pool_create env "flow_router_pool" DP_NB_MBUF DP_CACHE_SIZE 0
          (RTE_MBUF_DEFAULT_BUF_SIZE env) (socket_id (info (dp w))) with
  | inl rte_errno => elift (on_dp (set_pool None)) ;! efail (neg_errno rte_errno ENOMEM)
  | inr p => elift (on_dp (set_pool (Some p)))
  end ;!
  setup_port failure_queue 0 ;!
  setup_port failure_queue 1 ;!
  elift (on_dp (set_ready true)).

(** From the workers to the end. *)
Definition setup_body (failure_queue : Z) (rx_device tx_device : string) (count : Z) : E world unit :=
  setup_workers count ;!
  rx_port ←! get_port rx_device;
  elift (on_dp (fun d => set_ports (rx_port, snd (ports d)) d)) ;!
  tx_port ←! get_port tx_device;
  elift (on_dp (fun d => set_ports (fst (ports d), tx_port) d)) ;!
  if rx_port =? tx_port then efail (- EINVAL) else
  check_device count rx_port ;!
  check_device count tx_port ;!
  elift (on_dp (set_owned (true, true))) ;!
  elift (on_dp (set_info_with (fun i => set_cache_size DP_CACHE_SIZE (set_nb_mbuf DP_NB_MBUF
                                          (set_tx_port tx_port (set_rx_port rx_port i)))))) ;!
  open_dataplane failure_queue.

Definition dp_dataplane_setup (failure_queue : Z) (rx_device tx_device : option string) (count : Z)
    : M world Z :=
  w ← get;
  if negb (initialized (dp w)) then mret (- ENODEV) else
  if is_set (pool (dp w)) || ready (dp w) then mret (- EALREADY) else
  if negb (rules_configured (dp w)) then mret (- EINVAL) else
  match rx_device, tx_device with
  | Some rx_device, Some tx_device =>
    r ← (setup_body failure_queue rx_device tx_device count : M world _);
    mret (match r with inl ret => ret | inr _ => 0 end)
  | _, _ => mret (- EINVAL)
  end.

(** ** [dp_dataplane_teardown] *)
Definition first_of (first_error ret : Z) : Z :=
  if (ret <? 0) && (first_error =? 0) then ret else first_error.

Definition close_port (index first_error : Z) : M world Z :=
  w ← get;
  if negb (nth_pair index (owned (dp w))) then mret first_error else
  let port := nth_pair index (ports (dp w)) in
  first_error ← (if nth_pair index (started (dp w)) then
                   let ret := rte_eth_dev_stop env port in
                   (if ret =? 0 then on_dp (fun d => set_started (set_nth_pair index false (started d)) d)
                    else mret tt);;
                   mret (first_of first_error ret)
                 else mret first_error);
  let ret := rte_eth_dev_close env port in
  (if ret =? 0 then
     on_dp (fun d => set_owned (set_nth_pair index false (owned d)) d);;
     on_stats (fun c => set_ports_closed (u32 (ports_closed c + 1)) c)
   else mret tt);;
  mret (first_of first_error ret).

(** The pool goes only when no port can still hold its buffers. *)
Definition release_pool (first_error : Z) : M world Z :=
  w ← get;
  match pool (dp w), owned (dp w) with
  | Some p, (false, false) =>
    let in_use := u32 (rte_mempool_in_use_count env p) in
    on_stats (set_pool_in_use in_use);;
    if negb (in_use =? 0) then mret (if negb (first_error =? 0) then first_error else - EBUSY) else
    on_dp (set_pool None);;
    on_stats (set_pool_freed 1);;
    mret first_error
  | _, _ => mret first_error
  end.

Definition dp_dataplane_teardown : M world Z :=
  w ← get;
  stopped ← (if running (dp w) then mret false else lift (dp_workers_stopped (dp w)));
  if running (dp w) || negb stopped then mret (- EBUSY) else
  on_dp (set_ready false);;
  dp_rules_teardown;;
  first_error ← close_port 0 0;
  first_error ← close_port 1 first_error;
  release_pool first_error.
End Port.
