(* ===== verification/PortSpec.v ===== *)
(** * Correctness of port setup and teardown

    Workers are mapped to lcores and queues one to one; a setup that fails at
    any point leaves a state from which teardown and cleanup succeed; the packet
    pool is never freed under an open port. *)
From Stdlib Require Import ZArith Lia.
From stdpp Require Import base list numbers option gmap strings.
From S2P Require Import Prelude Wire Packet Api Tables Heap Snapshot SnapshotSpec Rcu State Rules Publish PublishSpec Runtime RuntimeSpec Port.

Section PortSpec.
Context {T : DpdkTables} {TO : DpdkTablesOk T} {Q : Qsbr} {QO : QsbrOk Q}.
Context (env : eth_env).

Lemma ewp_on_dp f F (P : unit -> world -> Prop) w : P tt (set_dp (f (dp w)) w) -> ewp (elift (on_dp f)) F P w.
Proof. done. Qed.

Lemma ewp_check_ret ret F (P : unit -> world -> Prop) w :
  (ret < 0 -> F ret w) -> (0 <= ret -> P tt w) -> ewp (check_ret ret) F P w.
Proof. unfold check_ret. intros HF HP. destruct (Z.ltb_spec ret 0); [by apply HF|by apply HP]. Qed.

Lemma ewp_on_worker i f F (P : unit -> world -> Prop) w :
  0 <= i < len (workers (dp w)) ->
  P tt (set_dp (set_workers (alter f (Z.to_nat i) (workers (dp w))) (dp w)) w) ->
  ewp (elift (on_worker i f)) F P w.
Proof.
  intros Hi HP. apply ewp_lift. unfold wp, on_worker.
  by rewrite (proj2 (Z.leb_le _ _)), (proj2 (Z.ltb_lt _ _)) by lia.
Qed.

(** ** The mapping of workers to lcores and queues *)
Definition identified (i : nat) (lcore : Z) : dp_worker_ctx := with_ids (Z.of_nat i) lcore ctx_zero.
Definition placed (i : nat) (lcore : Z) : dp_worker_ctx := with_queues (Z.of_nat i) (identified i lcore).

(** The array once the lcores [ls] have been assigned by [f]. *)
Definition table (f : nat -> Z -> dp_worker_ctx) (ls : list Z) : list dp_worker_ctx :=
  imap f ls ++ replicate (Z.to_nat DP_MAX_WORKERS - length ls) ctx_zero.

Lemma table_length f ls : len ls <= DP_MAX_WORKERS -> len (table f ls) = DP_MAX_WORKERS.
Proof. intros Hl. unfold table. rewrite length_app, length_imap, length_replicate. lia. Qed.

Lemma table_lookup f ls k : (k < length ls)%nat -> table f ls !! k = f k <$> ls !! k.
Proof. intros Hk. unfold table. by rewrite lookup_app_l, list_lookup_imap by by rewrite length_imap. Qed.

Lemma table_snoc ls l : len ls < DP_MAX_WORKERS ->
  alter (with_ids (len ls) l) (length ls) (table identified ls) = table identified (ls ++ [l]).
Proof.
  intros Hl. unfold table. rewrite imap_app, <- app_assoc.
  rewrite alter_app_r_alt, length_imap, Nat.sub_diag by (rewrite length_imap; lia). f_equal.
  replace (Z.to_nat DP_MAX_WORKERS - length ls)%nat with (S (Z.to_nat DP_MAX_WORKERS - length (ls ++ [l])))
    by (rewrite length_app; cbn [length]; lia).
  cbn. by rewrite Nat.add_0_r.
Qed.

Lemma table_alter f ls k g : (k < length ls)%nat ->
  alter g k (table f ls) = table (fun i l => if decide (i = k) then g (f i l) else f i l) ls.
Proof.
  intros Hk. unfold table. rewrite alter_app_l by by rewrite length_imap. f_equal. apply list_eq. intros i.
  rewrite list_lookup_alter, !list_lookup_imap. destruct (ls !! i) eqn:El; repeat case_decide; subst; by rewrite ?El.
Qed.

Lemma table_ext f g ls : (forall i l, ls !! i = Some l -> f i l = g i l) -> table f ls = table g ls.
Proof. intros Hfg. unfold table. f_equal. by apply imap_ext. Qed.

Definition idle (ctx : dp_worker_ctx) : Prop := launched ctx = false /\ reader_registered ctx = false.

Lemma table_idle f ls : (forall i l, idle (f i l)) -> Forall idle (table f ls).
Proof.
  intros Hf. apply Forall_app. split; [|by apply Forall_replicate].
  apply Forall_lookup_2. intros i x. rewrite list_lookup_imap. destruct (ls !! i); [|done]. by intros [= <-].
Qed.

(** Only the worker array has changed. *)
Definition with_workers (ws : list dp_worker_ctx) (w : world) : world := set_dp (set_workers ws (dp w)) w.

Lemma map_lcores_spec main count : count <= DP_MAX_WORKERS ->
  forall lcores done w, len done <= count -> workers (dp w) = table identified done ->
  let ls := done ++ filter (.≠ main) lcores in
  exists r ws, map_lcores main count lcores (len done) w = Some (r, with_workers ws w) /\
    len ws = DP_MAX_WORKERS /\ Forall idle ws /\
    match r with
    | inr next => next = len ls /\ len ls <= count /\ ws = table identified ls
    | inl ret => ret = - EINVAL /\ count < len ls
    end.
Proof.
  intros Hc. induction lcores as [|l lcores IH]; intros done w Hd Hw ls; subst ls; cbn [map_lcores].
  { exists (inr (len done)), (table identified done). rewrite filter_nil, app_nil_r. split_and!; try done.
    - unfold with_workers. rewrite <- Hw. by destruct w as [[]].
    - apply table_length. lia.
    - by apply table_idle. }
  destruct (Z.eqb_spec l main) as [->|Hne].
  { rewrite filter_cons_False by (intros ?; done). by apply IH. }
  rewrite filter_cons_True by done. destruct (Z.leb_spec count (len done)) as [Hfull|Hroom].
  { exists (inl (- EINVAL)), (table identified done). split_and!; try done.
    - unfold with_workers. rewrite <- Hw. by destruct w as [[]].
    - apply table_length. lia.
    - by apply table_idle.
    - rewrite length_app. cbn [length]. lia. }
  specialize (IH (done ++ [l]) (with_workers (table identified (done ++ [l])) w)).
  rewrite <- app_assoc in IH. cbn [app] in IH.
  destruct IH as (r & ws & Hrun & Hrest); [rewrite length_app; cbn [length]; lia|done|].
  exists r, ws. split; [|done].
  assert (len (done ++ [l]) = len done + 1) as El by (rewrite length_app; cbn [length]; lia). rewrite El in Hrun.
  unfold ebind. erewrite M_bind_step.
  2: { unfold elift, on_worker, mbind, M_bind. rewrite Hw, table_length by lia.
       rewrite (proj2 (Z.leb_le _ _)), (proj2 (Z.ltb_lt _ _)) by lia. cbn [andb].
       rewrite Nat2Z.id, table_snoc by lia. done. }
  cbv beta iota. exact Hrun.
Qed.

(** ** The second loop: sockets, queues and the public table *)
Definition stage (k i : nat) (l : Z) : dp_worker_ctx := if decide (i < k)%nat then placed i l else identified i l.

Lemma stage_idle k i l : idle (stage k i l).
Proof. unfold stage. by case_decide. Qed.

Definition infos (ls : list Z) : list dp_worker_info := ctx_info <$> imap placed ls.

(** The world after [k] iterations. *)
Definition mapped (ls : list Z) (inf : dp_runtime_info) (k : nat) (w : world) : world :=
  set_dp (set_info (set_info_workers (take k (infos ls) ++ drop k (info_workers inf)) inf)
           (set_workers (table (stage k) ls) (dp w))) w.

Lemma insert_mid {A} (l old : list A) k x : l !! k = Some x -> (k < length old)%nat ->
  <[k := x]> (take k l ++ drop k old) = take (S k) l ++ drop (S k) old.
Proof.
  intros Hx Hk. pose proof (lookup_lt_Some _ _ _ Hx). rewrite (take_S_r _ _ x) by done.
  destruct (lookup_lt_is_Some_2 old k Hk) as [y Hy]. rewrite (drop_S _ _ _ Hy).
  rewrite insert_app_r_alt by (rewrite length_take; lia). rewrite length_take, Nat.min_l, Nat.sub_diag by lia.
  by rewrite <- app_assoc.
Qed.

Lemma init_worker_step ls inf k w l : len ls <= DP_MAX_WORKERS -> len (info_workers inf) = DP_MAX_WORKERS ->
  ls !! k = Some l ->
  ewp (init_worker env (Z.of_nat k))
    (fun ret w' => ret = - EXDEV /\ rte_lcore_to_socket_id env l <> socket_id inf /\ w' = mapped ls inf k w)
    (fun _ w' => rte_lcore_to_socket_id env l = socket_id inf /\ w' = mapped ls inf (S k) w) (mapped ls inf k w).
Proof.
  intros Hl Hi Hk. pose proof (lookup_lt_Some _ _ _ Hk) as Hlt. unfold init_worker.
  assert (workers (dp (mapped ls inf k w)) !! k = Some (identified k l)) as Hctx.
  { cbn. rewrite table_lookup, Hk by done. cbn. unfold stage. by rewrite decide_False by lia. }
  assert (len (table (stage k) ls) = DP_MAX_WORKERS) as HT by by apply table_length.
  apply ewp_bind, ewp_lift. unfold wp, get. apply ewp_bind, ewp_lift. unfold wp, lift.
  rewrite (proj2 (Z.leb_le _ _)), Nat2Z.id, Hctx by lia. cbn [mbind option_bind].
  unfold validate_worker_socket.
  change (socket_id (info (dp (mapped ls inf k w)))) with (socket_id inf).
  change (lcore_id (ctx_info (identified k l))) with l.
  destruct (Z.eqb_spec (socket_id inf) (rte_lcore_to_socket_id env l)) as [E|E]; cbn [Z.ltb Z.compare];
    [|apply ewp_fail; by split_and!].
  unfold DP_MAX_WORKERS in *. rewrite wrap_id by fits_lia.
  apply ewp_bind, ewp_on_worker; [cbn [mapped workers dp set_dp set_info set_workers]; lia|].
  apply ewp_bind, ewp_on_dp.
  apply ewp_on_worker; [cbn [mapped workers dp set_dp set_info set_workers set_info_with];
                        rewrite length_alter; lia|].
  split; [done|]. rewrite !Nat2Z.id.
  trans (set_dp (set_info (set_info_workers
      (<[k := ctx_info (placed k l)]> (take k (infos ls) ++ drop k (info_workers inf))) inf)
    (set_workers (alter (fun c => set_reader_registered false (set_launched false (set_result 0 c))) k
      (alter (with_queues (Z.of_nat k)) k (table (stage k) ls))) (dp w))) w); [done|].
  unfold mapped. rewrite insert_mid, !table_alter by
    (try done; try lia; unfold infos; by rewrite list_lookup_fmap, list_lookup_imap, Hk).
  rewrite (table_ext _ (stage (S k))); [done|].
  intros i x Hx. unfold stage. repeat case_decide; subst; done || lia.
Qed.

Lemma init_workers_run ls inf w : len ls <= DP_MAX_WORKERS -> len (info_workers inf) = DP_MAX_WORKERS ->
  let agree l := rte_lcore_to_socket_id env l = socket_id inf in
  ewp (efor (length ls) 0 (init_worker env))
    (fun ret w' => ret = - EXDEV /\ ~ Forall agree ls /\ exists k, (k <= length ls)%nat /\ w' = mapped ls inf k w)
    (fun _ w' => Forall agree ls /\ w' = mapped ls inf (length ls) w) (mapped ls inf 0 w).
Proof.
  intros Hl Hi agree.
  pose proof (ewp_for (fun j w' => exists k, j = Z.of_nat k /\ w' = mapped ls inf k w /\ Forall agree (take k ls))
    (fun ret w' => ret = - EXDEV /\ ~ Forall agree ls /\ exists k, (k <= length ls)%nat /\ w' = mapped ls inf k w)
    (init_worker env) (length ls) 0 (mapped ls inf 0 w)) as Hfor.
  eapply ewp_mono; [apply Hfor|done|].
  - exists 0%nat. by rewrite take_0.
  - intros j s Hj (k & -> & -> & Hall). destruct (lookup_lt_is_Some_2 ls k) as [l Hk]; [lia|].
    eapply ewp_mono; [by apply (init_worker_step ls inf k w l)|..].
    + intros ret s' (-> & Hsock & ->). split_and!; [done| |by exists k; split; [lia|]].
      intros Hag. apply Hsock. by apply (proj1 (Forall_lookup _ _) Hag k).
    + intros _ s' (Hsock & ->). exists (S k). split_and!; [lia|done|].
      rewrite (take_S_r _ _ _ Hk). apply Forall_app. split; [done|]. by apply Forall_singleton.
  - intros _ s' (k & Ek & -> & Hall). assert (k = length ls) as -> by lia. by rewrite take_ge in Hall by lia.
Qed.

(** The used part of the worker array. *)
Definition idle_upto (c : Z) (ws : list dp_worker_ctx) : Prop :=
  c <= DP_MAX_WORKERS /\ (Z.to_nat c <= length ws)%nat /\ forall k ctx, (k < Z.to_nat c)%nat -> ws !! k = Some ctx -> idle ctx.

Lemma idle_upto_all c ws : c <= DP_MAX_WORKERS -> c <= len ws -> Forall idle ws -> idle_upto c ws.
Proof.
  intros Hm Hc Hi. split; [done|]. split; [lia|]. intros k ctx _ Hk. by eapply Forall_lookup_1.
Qed.

(** What setting up the workers may change. *)
Definition workers_set (w w' : world) : Prop := exists ws c i,
  w' = set_dp (set_info i (set_worker_count c (set_workers ws (dp w)))) w /\
  idle_upto c ws /\ len (info_workers i) = DP_MAX_WORKERS.

(** The lcores in the order of the workers: the main one runs worker 0. *)
Definition lcores_of (w : world) : list Z :=
  main_lcore (info (dp w)) :: filter (.≠ main_lcore (info (dp w))) (enabled_lcores env).

Definition sockets_agree (w : world) : Prop :=
  Forall (fun l => rte_lcore_to_socket_id env l = socket_id (info (dp w))) (lcores_of w).

Lemma setup_workers_spec count w : 0 <= count ->
  len (info_workers (info (dp w))) = DP_MAX_WORKERS -> idle_upto (worker_count (dp w)) (workers (dp w)) ->
  ewp (setup_workers env count)
    (fun ret w' => workers_set w w' /\
       (ret = - EINVAL /\ ~ (1 <= count <= DP_MAX_WORKERS /\ lcore_count (info (dp w)) = count /\ len (lcores_of w) = count) \/
        ret = - EXDEV /\ ~ sockets_agree w))
    (fun _ w' => 1 <= count <= DP_MAX_WORKERS /\ lcore_count (info (dp w)) = count /\ len (lcores_of w) = count /\
       sockets_agree w /\ workers_set w w' /\
       w' = set_dp (set_info (set_info_workers (infos (lcores_of w) ++ drop (length (lcores_of w)) (info_workers (info (dp w))))
                                (set_info_worker_count count (info (dp w))))
                      (set_worker_count count (set_workers (table placed (lcores_of w)) (dp w)))) w) w.
Proof.
  intros Hpos Hinf Hidle. unfold setup_workers. apply ewp_bind, ewp_lift. unfold wp, get.
  destruct ((count =? 0) || (DP_MAX_WORKERS <? count) || negb (lcore_count (info (dp w)) =? count)) eqn:Hbad.
  { apply ewp_fail. split.
    - exists (workers (dp w)), (worker_count (dp w)), (info (dp w)). split; [by destruct w as [[]]|done].
    - left. split; [done|]. rewrite !orb_true_iff, negb_true_iff in Hbad. bool_to_prop. lia. }
  rewrite !orb_false_iff, negb_false_iff in Hbad. destruct Hbad as [[H0 H4] Hlc]. bool_to_prop.
  set (inf := set_info_worker_count count (info (dp w))).
  set (main := main_lcore (info (dp w))) in *.
  do 3 (apply ewp_bind, ewp_on_dp). apply ewp_bind.
  apply ewp_on_worker; [change (0 <= 0 < 4); lia|].
  set (w1 := set_dp (set_info inf (set_worker_count count (set_workers (table identified [main]) (dp w)))) w).
  match goal with |- ewp _ _ _ ?x => replace x with w1 by done end.
  apply ewp_bind.
  destruct (map_lcores_spec main count ltac:(lia) (enabled_lcores env) [main] w1) as (r & ws & Hrun & Hws & Hid & Hr);
    [cbn; lia|done|].
  change ([main] ++ filter (.≠ main) (enabled_lcores env)) with (lcores_of w) in Hr.
  assert (workers_set w (with_workers ws w1)) as Hset.
  { exists ws, count, inf. split; [done|]. split; [|done]. apply idle_upto_all; [lia..|done]. }
  unfold ewp, wp. change (map_lcores main count (enabled_lcores env) 1) with
    (map_lcores main count (enabled_lcores env) (len [main])). rewrite Hrun. destruct r as [ret|next].
  { split; [done|]. left. destruct Hr as [-> ?]. split; [done|]. lia. }
  destruct Hr as (-> & Hle & ->). destruct (Z.eqb_spec (len (lcores_of w)) count) as [Hlen|Hlen]; cbn [negb].
  2: { split; [done|]. left. split; [done|]. lia. }
  set (ls := lcores_of w) in *. set (w0 := set_dp (set_worker_count count (dp w)) w).
  assert (forall k, (k <= length ls)%nat -> workers_set w (mapped ls inf k w0)) as Hk.
  { intros k Hk. exists (table (stage k) ls), count, (set_info_workers (take k (infos ls) ++ drop k (info_workers inf)) inf).
    split; [done|]. split.
    - apply idle_upto_all; [lia|rewrite table_length; lia|apply table_idle, stage_idle].
    - cbn [set_info_workers info_workers]. rewrite length_app, length_take, length_drop. unfold infos.
      rewrite length_fmap, length_imap. change (info_workers inf) with (info_workers (info (dp w))). lia. }
  replace (Z.to_nat count) with (length ls) by lia.
  change (with_workers (table identified ls) w1) with (mapped ls inf 0 w0).
  eapply ewp_mono; [apply (init_workers_run ls inf w0); [lia|done]|..].
  - intros ret s' (-> & Hag & k & Hlk & ->). split; [by apply Hk|]. by right.
  - intros _ s' (Hall & ->). split_and!; [lia|lia|done|done|done|by apply Hk|]. unfold mapped.
    rewrite take_ge by (unfold infos; rewrite length_fmap, length_imap; lia).
    rewrite (table_ext _ placed); [done|]. intros i l Hi%lookup_lt_Some. unfold stage. by rewrite decide_True.
Qed.

(** ** Setup *)

(** Failing driver calls return negative codes, and [rte_errno] is not negative. *)
Record driver_ok : Prop := {
  port_error name e : rte_eth_dev_get_port_by_name env name = inl e -> e < 0;
  info_error port e : rte_eth_dev_info_get env port = inl e -> e < 0;
  pool_error name n cache priv size socket e :
    rte_pktmbuf_pool_create env name n cache priv size socket = inl e -> 0 <= e;
}.

(** The fields a setup may change; all others are those of [w]. *)
Definition configured (w : world) (rd : bool) (pl : option Z) (ps : Z * Z) (o st : bool * bool) (c : Z)
    (ws : list dp_worker_ctx) (i : dp_runtime_info) : world :=
  set_dp (set_info i (set_workers ws (set_worker_count c (set_started st (set_owned o (set_ports ps
    (set_pool pl (set_ready rd (dp w))))))))) w.

(** Publication does not depend on them. *)
Lemma inv_configured rest w rd pl ps o st c ws i : inv rest {| sys := w; held := ∅; writer := Idle |} ->
  inv rest {| sys := configured w rd pl ps o st c ws i; held := ∅; writer := Idle |}.
Proof. by intros []. Qed.

Lemma dismantles_configured rest w rd pl ps o st c ws i : dismantles rest w ->
  dismantles rest (configured w rd pl ps o st c ws i).
Proof. intros [?|?]; [left; by apply inv_configured|by right]. Qed.

(** A started port is owned. *)
Definition ports_consistent (o st : bool * bool) : Prop :=
  (fst st = true -> fst o = true) /\ (snd st = true -> snd o = true).

(** A setup in progress, or one that was given up. *)
Definition setting_up (w w' : world) : Prop := exists pl ps o st c ws i,
  w' = configured w false pl ps o st c ws i /\ idle_upto c ws /\ len (info_workers i) = DP_MAX_WORKERS /\
  ports_consistent o st.

(** The public table of workers. *)
Definition same_listing (i i' : dp_runtime_info) : Prop :=
  info_worker_count i' = info_worker_count i /\ lcore_count i' = lcore_count i /\ info_workers i' = info_workers i.

(** It lists the workers as they were placed. *)
Definition listed (w : world) (count : Z) (i : dp_runtime_info) : Prop :=
  info_worker_count i = count /\ lcore_count i = count /\
  info_workers i = infos (lcores_of w) ++ drop (length (lcores_of w)) (info_workers (info (dp w))).

Lemma same_listed w count i i' : same_listing i i' -> listed w count i -> listed w count i'.
Proof. unfold listed. by intros (-> & -> & ->). Qed.

Lemma listed_workers w count i : listed w count i -> len (lcores_of w) = count ->
  take (Z.to_nat count) (info_workers i) = ctx_info <$> take (Z.to_nat count) (table placed (lcores_of w)).
Proof.
  intros (_ & _ & ->) Hlen. unfold table, infos. assert (Z.to_nat count = length (lcores_of w)) as -> by lia.
  by rewrite !take_app_length' by by rewrite ?length_fmap, length_imap.
Qed.

Lemma listed_length w count i : listed w count i -> len (lcores_of w) = count -> count <= DP_MAX_WORKERS ->
  len (info_workers (info (dp w))) = DP_MAX_WORKERS -> len (info_workers i) = DP_MAX_WORKERS.
Proof.
  intros (_ & _ & ->) Hlen Hmax Hw. rewrite length_app, length_drop. unfold infos. rewrite length_fmap, length_imap. lia.
Qed.

Lemma setup_port_spec failure_queue index w :
  ewp (setup_port env failure_queue index) (fun ret w' => ret < 0 /\ w' = w)
    (fun _ w' => exists i, same_listing (info (dp w)) i /\
       w' = set_dp (set_info i (set_started (set_nth_pair index true (started (dp w))) (dp w))) w) w.
Proof.
  unfold setup_port. apply ewp_bind, ewp_lift. unfold wp, get. apply ewp_bind, ewp_check_ret; [by split|intros _].
  destruct (rte_eth_dev_adjust_nb_rx_tx_desc env _ _) as [ret [rxd txd]].
  apply ewp_bind, ewp_check_ret; [by split|intros _]. apply ewp_bind.
  eapply ewp_mono; [apply (ewp_for (fun _ w' => w' = w) (fun ret w' => ret < 0 /\ w' = w))|done|].
  - done.
  - intros j s _ ->. unfold setup_queue. apply ewp_bind, ewp_lift. unfold wp, get.
    apply ewp_bind, ewp_check_ret; [by split|intros _].
    case_if; [by apply ewp_fail|]. apply ewp_check_ret; [by split|done].
  - intros _ s ->. apply ewp_bind, ewp_check_ret; [by split|intros _]. apply ewp_bind, ewp_on_dp.
    case_if; apply ewp_on_dp; (eexists; split; [|reflexivity]; done).
Qed.

Lemma check_device_spec count port F (P : unit -> world -> Prop) x : driver_ok ->
  (forall ret, ret < 0 -> F ret x) -> P tt x -> ewp (check_device env count port) F P x.
Proof.
  intros [_ Hdev _] HF HP. unfold check_device. destruct (rte_eth_dev_info_get env port) as [e|d] eqn:Ei.
  { apply ewp_fail, HF. by eapply Hdev. }
  case_match; [by apply ewp_fail, HF|]. case_match; [by apply ewp_fail, HF|]. by apply ewp_ret.
Qed.

(** Show the state as [configured]. *)
Ltac at_state w count tb pl ps o st i :=
  match goal with |- ewp _ _ _ ?x => change x with (configured w false pl ps o st count tb i) end.

(** Once the ports are owned: the pool, the queues, and the end. *)
Lemma open_dataplane_spec failure_queue w count tb pl ps st i : driver_ok -> idle_upto count tb ->
  len (info_workers i) = DP_MAX_WORKERS -> 
  ewp (open_dataplane env failure_queue) (fun ret w' => ret < 0 /\ setting_up w w')
    (fun _ w' => exists p i', same_listing i i' /\ w' = configured w true (Some p) ps (true, true) (true, true) count tb i')
    (configured w false pl ps (true, true) st count tb i).
Proof.
  intros Hdrv Htb Hi. pose proof Hdrv as [_ _ Hpool].
  assert (forall pl st i, len (info_workers i) = DP_MAX_WORKERS ->
    setting_up w (configured w false pl ps (true, true) st count tb i)) as Hup by (intros; by eexists _, _, _, _, _, _, _).
  unfold open_dataplane. apply ewp_bind, ewp_lift. unfold wp, get. apply ewp_bind.
  destruct (rte_pktmbuf_pool_create env _ _ _ _ _ _) as [e|p] eqn:Epool.
  { apply ewp_bind, ewp_on_dp. at_state w count tb (@None Z) ps (true, true) st i.
    apply ewp_fail. split; [|by apply Hup]. apply neg_errno_neg; [by eapply Hpool|done]. }
  apply ewp_on_dp. at_state w count tb (Some p) ps (true, true) st i. apply ewp_bind.
  eapply ewp_mono; [apply setup_port_spec|intros ret x [? ->]; split; [done|by apply Hup]|].
  intros _ x (i3 & Hi3 & ->). at_state w count tb (Some p) ps (true, true) (true, snd st) i3.
  assert (len (info_workers i3) = DP_MAX_WORKERS) as Hl3 by (destruct Hi3 as (_ & _ & ->); exact Hi). apply ewp_bind.
  eapply ewp_mono; [apply setup_port_spec|intros ret x [? ->]; split; [done|by apply Hup]|].
  intros _ x (i4 & Hi4 & ->). apply ewp_on_dp. exists p, i4. split; [|reflexivity].
  destruct Hi3 as (E1 & E2 & E3), Hi4 as (F1 & F2 & F3). cbn in *. by split_and!; etrans.
Qed.

Lemma setup_body_spec failure_queue rx_device tx_device count w : driver_ok -> 0 <= count ->
  ready (dp w) = false -> ports_consistent (owned (dp w)) (started (dp w)) ->
  len (info_workers (info (dp w))) = DP_MAX_WORKERS -> idle_upto (worker_count (dp w)) (workers (dp w)) ->
  ewp (setup_body env failure_queue rx_device tx_device count)
    (fun ret w' => ret < 0 /\ setting_up w w')
    (fun _ w' => exists p rxp txp i, rxp <> txp /\ listed w count i /\
       w' = configured w true (Some p) (rxp, txp) (true, true) (true, true) count (table placed (lcores_of w)) i /\
       len (lcores_of w) = count /\ count <= DP_MAX_WORKERS) w.
Proof.
  intros Hdrv Hpos Hready Hcons Hinf Hidle. pose proof Hdrv as [Hport _ _]. unfold setup_body. apply ewp_bind.
  assert (forall x, workers_set w x -> exists c ws i,
    x = configured w false (pool (dp w)) (ports (dp w)) (owned (dp w)) (started (dp w)) c ws i /\
    idle_upto c ws /\ len (info_workers i) = DP_MAX_WORKERS) as Hset.
  { intros x (ws & c & i & -> & Hi & Hl). exists c, ws, i. split; [|done].
    unfold configured. rewrite <- Hready. by destruct w as [[]]. }
  eapply ewp_mono; [by apply setup_workers_spec|..].
  { intros ret w' [Hws Hret]. split; [unfold EINVAL, EXDEV in Hret; lia|].
    destruct (Hset w' Hws) as (c & ws & i & -> & ? & ?). by eexists _, _, _, _, c, ws, i. }
  intros _ w' (Hc & Hlc & Hlen & _ & Hws & Ew').
  assert (exists i, w' = configured w false (pool (dp w)) (ports (dp w)) (owned (dp w)) (started (dp w)) count
    (table placed (lcores_of w)) i /\ len (info_workers i) = DP_MAX_WORKERS /\ listed w count i) as (i & -> & Hi & Hli).
  { eexists. split; [rewrite Ew'; unfold configured; rewrite <- Hready; by destruct w as [[]]|]. split; [|done].
    cbn [set_info_workers info_workers]. rewrite length_app, length_drop. unfold infos.
    rewrite length_fmap, length_imap. lia. }
  clear Hset Hws Ew'. set (tb := table placed (lcores_of w)).
  assert (idle_upto count tb) as Htb by
    (apply idle_upto_all; [lia|unfold tb; rewrite table_length by lia; lia|by apply table_idle]).
  clear Hidle. assert (forall pl ps o st i, len (info_workers i) = DP_MAX_WORKERS -> ports_consistent o st ->
    setting_up w (configured w false pl ps o st count tb i)) as Hup by (intros; by eexists _, _, _, _, _, _, _).
  apply ewp_bind. unfold get_port at 1. destruct (rte_eth_dev_get_port_by_name env rx_device) as [e|rxp] eqn:Erx.
  { apply ewp_fail. split; [by eapply Hport|by apply Hup]. }
  apply ewp_ret, ewp_bind, ewp_on_dp.
  at_state w count tb (pool (dp w)) (rxp, snd (ports (dp w))) (owned (dp w)) (started (dp w)) i.
  apply ewp_bind. unfold get_port.
  destruct (rte_eth_dev_get_port_by_name env tx_device) as [e|txp] eqn:Etx.
  { apply ewp_fail. split; [by eapply Hport|by apply Hup]. }
  apply ewp_ret, ewp_bind, ewp_on_dp.
  at_state w count tb (pool (dp w)) (rxp, txp) (owned (dp w)) (started (dp w)) i.
  destruct (Z.eqb_spec rxp txp) as [|Hne]; [apply ewp_fail; split; [done|by apply Hup]|].
  apply ewp_bind, check_device_spec; [done|intros ret ?; split; [done|by apply Hup]|].
  apply ewp_bind, check_device_spec; [done|intros ret ?; split; [done|by apply Hup]|].
  apply ewp_bind, ewp_on_dp.
  at_state w count tb (pool (dp w)) (rxp, txp) (true, true) (started (dp w)) i.
  apply ewp_bind, ewp_on_dp.
  set (i2 := set_cache_size DP_CACHE_SIZE (set_nb_mbuf DP_NB_MBUF (set_tx_port txp (set_rx_port rxp i)))).
  at_state w count tb (pool (dp w)) (rxp, txp) (true, true) (started (dp w)) i2.
  eapply ewp_mono; [by apply open_dataplane_spec|done|]. intros _ x (p & i' & Hsl & ->). exists p, rxp, txp, i'.
  split; [done|]. split; [by eapply same_listed|]. split; [reflexivity|]. split; [done|lia].
Qed.

Lemma setup_run failure_queue rx_device tx_device count w : driver_ok -> 0 <= count ->
  ready (dp w) = false -> ports_consistent (owned (dp w)) (started (dp w)) ->
  len (info_workers (info (dp w))) = DP_MAX_WORKERS -> idle_upto (worker_count (dp w)) (workers (dp w)) ->
  exists ret w', dp_dataplane_setup env failure_queue rx_device tx_device count w = Some (ret, w') /\
    (ret < 0 /\ setting_up w w' \/
     ret = 0 /\ initialized (dp w) = true /\ pool (dp w) = None /\ rules_configured (dp w) = true /\
       len (lcores_of w) = count /\ count <= DP_MAX_WORKERS /\
       exists p rxp txp i, rxp <> txp /\ listed w count i /\
         w' = configured w true (Some p) (rxp, txp) (true, true) (true, true) count (table placed (lcores_of w)) i).
Proof.
  intros Hdrv Hc Hready Hcons Hinf Hidle.
  assert (setting_up w w) as Hw.
  { exists (pool (dp w)), (ports (dp w)), (owned (dp w)), (started (dp w)), (worker_count (dp w)), (workers (dp w)), (info (dp w)).
    split_and!; try done. unfold configured. rewrite <- Hready. by destruct w as [[]]. }
  unfold dp_dataplane_setup. erewrite M_bind_step by done. cbv beta. rewrite Hready.
  destruct (initialized (dp w)) eqn:Hinit; cbn [negb]; [|eexists _, w; split; [done|left; by split]].
  destruct (pool (dp w)) eqn:Hpool; cbn [is_set orb]; [eexists _, w; split; [done|left; by split]|].
  destruct (rules_configured (dp w)) eqn:Hrules; cbn [negb]; [|eexists _, w; split; [done|left; by split]].
  destruct rx_device as [rxd|], tx_device as [txd|]; try (eexists _, w; split; [done|left; by split]).
  pose proof (setup_body_spec failure_queue rxd txd count w Hdrv Hc Hready Hcons Hinf Hidle) as Hbody.
  unfold ewp, wp in Hbody. destruct (setup_body env failure_queue rxd txd count w) as [[[ret|u] w']|] eqn:Hrun; [..|done].
  - erewrite M_bind_step by exact Hrun. cbv beta iota. exists ret, w'. split; [done|]. left. exact Hbody.
  - erewrite M_bind_step by exact Hrun. cbv beta iota. exists 0, w'. split; [done|]. right.
    destruct Hbody as (p & rxp & txp & i & Hne & Hli & -> & Hlen & Hmax). split_and!; try done. by exists p, rxp, txp, i.
Qed.

(** The mapping of workers.  [setup_workers] either accepts the
    configuration, exactly when the requested number of workers is between 1 and
    the limit and equals the number of lcores, all of them on the socket of the
    process, and then worker [i] runs on the [i]-th lcore (the main one first,
    the others in enumeration order) with queues [i], in the private and in the
    public table; or it refuses with -EINVAL or -EXDEV. *)
Theorem setup_workers_maps count w : 0 <= count ->
  len (info_workers (info (dp w))) = DP_MAX_WORKERS -> idle_upto (worker_count (dp w)) (workers (dp w)) ->
  let acceptable := 1 <= count <= DP_MAX_WORKERS /\ lcore_count (info (dp w)) = count /\ len (lcores_of w) = count in
  exists r w', setup_workers env count w = Some (r, w') /\
    match r with
    | inr _ => acceptable /\ sockets_agree w /\ worker_count (dp w') = count /\
        (NoDup (enabled_lcores env) -> NoDup (lcores_of w)) /\
        forall i l, lcores_of w !! i = Some l ->
          let me := {| worker_id := Z.of_nat i; lcore_id := l; rx_queue_id := Z.of_nat i; tx_queue_id := Z.of_nat i |} in
          workers (dp w') !! i = Some (set_ctx_info me ctx_zero) /\ info_workers (info (dp w')) !! i = Some me
    | inl ret => ret = - EINVAL /\ ~ acceptable \/ ret = - EXDEV /\ ~ sockets_agree w
    end.
Proof.
  intros Hc Hinf Hidle acceptable. pose proof (setup_workers_spec count w Hc Hinf Hidle) as Hrun.
  unfold ewp, wp in Hrun. destruct (setup_workers env count w) as [[r w']|]; [|done]. exists r, w'. split; [done|].
  destruct r as [ret|u]; [by destruct Hrun|].
  destruct Hrun as (Hcount & Hlc & Hlen & Hag & _ & ->). split; [done|]. split; [done|]. split; [done|]. split.
  { intros Hnd. apply NoDup_cons. split; [|by apply NoDup_filter].
    intros [? _]%list_elem_of_filter. done. }
  intros i l Hl me. pose proof (lookup_lt_Some _ _ _ Hl). split.
  - cbn [dp set_dp workers set_info set_worker_count set_workers]. by rewrite table_lookup, Hl.
  - cbn [dp set_dp info set_info info_workers set_info_workers].
    rewrite lookup_app_l by (unfold infos; by rewrite length_fmap, length_imap).
    unfold infos. by rewrite list_lookup_fmap, list_lookup_imap, Hl.
Qed.

(** C37: setup is all or nothing as far as the rest of the program can tell.
    From an idle router, whatever the drivers answer and wherever it stops, it
    returns a negative code with the dataplane not ready, no worker launched
    and only owned ports started; or it returns 0, ready, with two distinct
    ports owned and started, a pool and one worker for each lcore. *)
Theorem dp_dataplane_setup_outcome failure_queue rx_device tx_device count w : driver_ok -> 0 <= count ->
  ready (dp w) = false -> ports_consistent (owned (dp w)) (started (dp w)) ->
  len (info_workers (info (dp w))) = DP_MAX_WORKERS -> idle_upto (worker_count (dp w)) (workers (dp w)) ->
  exists ret w', dp_dataplane_setup env failure_queue rx_device tx_device count w = Some (ret, w') /\
    idle_upto (worker_count (dp w')) (workers (dp w')) /\ ports_consistent (owned (dp w')) (started (dp w')) /\
    rules_heap w' = rules_heap w /\ active_rules (dp w') = active_rules (dp w) /\
    (ret < 0 /\ ready (dp w') = false \/
     ret = 0 /\ ready (dp w') = true /\ owned (dp w') = (true, true) /\ started (dp w') = (true, true) /\
       is_Some (pool (dp w')) /\ fst (ports (dp w')) <> snd (ports (dp w')) /\ worker_count (dp w') = count /\
       len (lcores_of w) = count).
Proof.
  intros Hdrv Hc Hready Hcons Hinf Hidle.
  destruct (setup_run failure_queue rx_device tx_device count w Hdrv Hc Hready Hcons Hinf Hidle) as
    (ret & w' & Hrun & [(Hneg & pl & ps & o & st & c & ws & i & -> & Hi & _ & Hco)|
                        (-> & _ & _ & _ & Hlen & Hmax & p & rxp & txp & i & Hne & _ & ->)]).
  - exists ret. eexists. split; [done|]. split_and!; try done; try apply Hi; try apply Hco. by left.
  - exists 0. eexists. split; [done|]. split; [apply idle_upto_all; [done|..]|].
    + change (count <= len (table placed (lcores_of w))). rewrite table_length; lia.
    + by apply table_idle.
    + split; [done|]. split; [done|]. split; [done|]. right. by split_and!.
Qed.

(** ** Teardown *)

(** Stopping and closing a port returns 0 or a negative code. *)
Definition closing_ok : Prop :=
  (forall port, rte_eth_dev_stop env port <= 0) /\ (forall port, rte_eth_dev_close env port <= 0).

(** The driver does what it is asked. *)
Definition cooperative : Prop :=
  (forall port, rte_eth_dev_stop env port = 0) /\ (forall port, rte_eth_dev_close env port = 0) /\
  (forall p, u32 (rte_mempool_in_use_count env p) = 0).

Lemma cooperative_closing : cooperative -> closing_ok.
Proof. intros (Hs & Hcl & _). split; intros port; [by rewrite Hs|by rewrite Hcl]. Qed.

(** The fields a teardown changes once the rules are gone. *)
Definition closed (w : world) (o st : bool * bool) (c : dp_ctl_stats) : world :=
  set_dp (set_dstats c (set_owned o (set_started st (dp w)))) w.

Lemma close_port_spec index fe w : index = 0 \/ index = 1 -> closing_ok -> fe <= 0 ->
  exists fe' o st c, close_port env index fe w = Some (fe', closed w o st c) /\ fe' <= 0 /\
    nth_pair (1 - index) o = nth_pair (1 - index) (owned (dp w)) /\
    nth_pair (1 - index) st = nth_pair (1 - index) (started (dp w)) /\
    (fe' = 0 -> fe = 0 /\ nth_pair index o = false /\
       ((nth_pair index (started (dp w)) = true -> nth_pair index (owned (dp w)) = true) -> nth_pair index st = false)) /\
    (cooperative -> fe' = fe).
Proof.
  intros Hindex [Hstop Hclose] Hfe. unfold close_port. erewrite M_bind_step by done. cbv beta.
  set (port := nth_pair index (ports (dp w))).
  assert (closed w (owned (dp w)) (started (dp w)) (dstats (dp w)) = w) as Hid by by destruct w as [[]].
  destruct (nth_pair index (owned (dp w))) eqn:Hown; cbn [negb].
  2: { exists fe, (owned (dp w)), (started (dp w)), (dstats (dp w)). rewrite Hid. split_and!; try done.
       intros ->. split_and!; try done. intros Hs. destruct (nth_pair index (started (dp w))); [by specialize (Hs eq_refl)|done]. }
  specialize (Hstop port). specialize (Hclose port).
  assert (exists fe1 st, (if nth_pair index (started (dp w)) then
      (if rte_eth_dev_stop env port =? 0
       then on_dp (fun d => set_started (set_nth_pair index false (started d)) d) else mret tt);;
      mret (first_of fe (rte_eth_dev_stop env port))
    else mret fe) w = Some (fe1, closed w (owned (dp w)) st (dstats (dp w))) /\ fe1 <= 0 /\
    nth_pair (1 - index) st = nth_pair (1 - index) (started (dp w)) /\
    (fe1 = 0 -> fe = 0 /\ nth_pair index st = false) /\ (rte_eth_dev_stop env port = 0 -> fe1 = fe))
    as (fe1 & st & Hrun & Hfe1 & Hst & Hz1 & Hc1).
  { unfold first_of. destruct (nth_pair index (started (dp w))) eqn:Hstarted.
    - destruct (Z.eqb_spec (rte_eth_dev_stop env port) 0) as [E0|Hne].
      + exists fe, (set_nth_pair index false (started (dp w))). rewrite E0. split_and!; try done.
        * by destruct Hindex as [->| ->].
        * intros ->. by destruct Hindex as [->| ->].
      + exists (if (rte_eth_dev_stop env port <? 0) && (fe =? 0) then rte_eth_dev_stop env port else fe), (started (dp w)).
        split; [by destruct w as [[]]|]. rewrite (proj2 (Z.ltb_lt _ _)) by lia. cbn [andb].
        destruct (Z.eqb_spec fe 0); split_and!; try done; lia.
    - exists fe, (started (dp w)). by rewrite Hid. }
  erewrite M_bind_step by exact Hrun. cbv beta. unfold first_of.
  destruct (Z.eqb_spec (rte_eth_dev_close env port) 0) as [E0|Hne].
  - erewrite M_bind_step by done. cbv beta. rewrite E0. cbn [Z.ltb Z.compare andb].
    eexists fe1, (set_nth_pair index false (owned (dp w))), st, _. split; [reflexivity|].
    split_and!; try done; try by destruct Hindex as [->| ->].
    + intros Hz. destruct (Hz1 Hz). split_and!; try done. by destruct Hindex as [->| ->].
    + intros (Hs & _). by apply Hc1.
  - rewrite (proj2 (Z.ltb_lt _ _)) by lia. cbn [andb]. erewrite M_bind_step by done. cbv beta.
    eexists (if fe1 =? 0 then rte_eth_dev_close env port else fe1), (owned (dp w)), st, (dstats (dp w)). split; [done|].
    destruct (Z.eqb_spec fe1 0); split_and!; try done; try lia.
    all: intros (_ & Hcl & _); by rewrite Hcl in Hne.
Qed.

Lemma release_pool_spec fe w : fe <= 0 -> exists ret c pl,
  release_pool env fe w = Some (ret, set_dp (set_dstats c (set_pool pl (dp w))) w) /\ ret <= 0 /\
  (ret = 0 -> fe = 0 /\ (owned (dp w) = (false, false) -> pl = None)) /\
  (forall p, pool (dp w) = Some p -> pl = None ->
     owned (dp w) = (false, false) /\ u32 (rte_mempool_in_use_count env p) = 0) /\
  (cooperative -> ret = fe).
Proof.
  intros Hfe. assert (w = set_dp (set_dstats (dstats (dp w)) (set_pool (pool (dp w)) (dp w))) w) as Hid by by destruct w as [[]].
  unfold release_pool. erewrite M_bind_step by done. cbv beta.
  destruct (pool (dp w)) as [p|] eqn:Hp.
  2: { exists fe, (dstats (dp w)), None. by rewrite <- Hid. }
  assert (owned (dp w) <> (false, false) -> exists ret c pl,
    Some (fe, w) = Some (ret, set_dp (set_dstats c (set_pool pl (dp w))) w) /\ ret <= 0 /\
    (ret = 0 -> fe = 0 /\ (owned (dp w) = (false, false) -> pl = None)) /\
    (forall q, Some p = Some q -> pl = None -> owned (dp w) = (false, false) /\ u32 (rte_mempool_in_use_count env q) = 0) /\
    (cooperative -> ret = fe)) as Hkeep.
  { intros Hne. exists fe, (dstats (dp w)), (Some p). rewrite <- Hid. by split_and!. }
  destruct (owned (dp w)) as [[] []]; try by apply Hkeep. clear Hkeep.
  erewrite M_bind_step by done. cbv beta. destruct (Z.eqb_spec (u32 (rte_mempool_in_use_count env p)) 0) as [E|E]; cbn [negb].
  - do 2 (erewrite M_bind_step by done; cbv beta). eexists fe, _, None. split; [reflexivity|].
    split_and!; try done. intros q [= <-] _. by split.
  - assert (set_pool (Some p) (dp w) = dp w) as Hsp by (rewrite <- Hp; by destruct (dp w)).
    eexists _, _, (Some p). split; [rewrite Hsp; reflexivity|]. unfold EBUSY.
    destruct (Z.eqb_spec fe 0); cbn [negb]; split_and!; try done; try lia.
    all: intros (_ & _ & Hu); by rewrite Hu in E.
Qed.

(** [teardown] once the router is idle. *)
Record torn (w w' : world) (rest : gmap Z hobj) (ret : Z) : Prop := {
  torn_ret : ret <= 0;
  torn_heap : rules_heap w' = rest;
  torn_ready : ready (dp w') = false;
  torn_init : initialized (dp w') = initialized (dp w);
  torn_table : within_array (dp w') /\ workers_idle (dp w');
  torn_running : running (dp w') = false;
  torn_rules : active_rules (dp w') = None /\ rules_qsbr (dp w') = None /\ rules_configured (dp w') = false;
  torn_released : ret = 0 -> ports_consistent (owned (dp w)) (started (dp w)) -> released (dp w');
  torn_pool p : pool (dp w) = Some p -> pool (dp w') = None ->
    owned (dp w') = (false, false) /\ u32 (rte_mempool_in_use_count env p) = 0;
}.

Lemma teardown_spec rest w : closing_ok -> running (dp w) = false -> within_array (dp w) -> workers_idle (dp w) ->
  dismantles rest w ->
  exists ret w', dp_dataplane_teardown env w = Some (ret, w') /\ torn w w' rest ret /\ (cooperative -> ret = 0).
Proof.
  intros Hcl Hrun Hwa Hidle Hinv. unfold dp_dataplane_teardown. erewrite M_bind_step by done. cbv beta. rewrite Hrun.
  destruct (dp_workers_stopped_spec _ Hwa) as (b & Hb & Hbi). rewrite Hb. apply Hbi in Hidle as ->.
  erewrite M_bind_step by done. cbv beta. cbn [orb negb]. erewrite M_bind_step by done. cbv beta.
  set (w1 := set_dp (set_ready false (dp w)) w).
  assert (dismantles rest w1) as Hinv1 by (destruct Hinv as [[]|]; [by left|by right]).
  destruct (dismantles_run rest _ Hinv1) as (c1 & Htd).
  erewrite M_bind_step by exact Htd. cbv beta. clear Htd Hinv1 Hinv.
  set (w2 := set_rules_heap rest (set_dp (torn_down c1 (dp w1)) w1)).
  destruct (close_port_spec 0 0 w2) as (e1 & o1 & s1 & c2 & Hc1 & He1 & Ho1 & Hs1 & Hz1 & Hco1); [by left|done|done|].
  erewrite M_bind_step by exact Hc1. cbv beta. clear Hc1.
  destruct (close_port_spec 1 e1 (closed w2 o1 s1 c2)) as (e2 & o2 & s2 & c3 & Hc2 & He2 & Ho2 & Hs2 & Hz2 & Hco2); [by right|done|done|].
  erewrite M_bind_step by exact Hc2. cbv beta. clear Hc2.
  set (w4 := closed (closed w2 o1 s1 c2) o2 s2 c3).
  destruct (release_pool_spec e2 w4 He2) as (ret & c4 & pl & Hrel & Hret & Hz3 & Hpl & Hco3).
  assert (pool (dp w4) = pool (dp w) /\ owned (dp w4) = o2) as [Epool Eowned] by (unfold w4, w2, w1; cbn; by split).
  rewrite Epool, Eowned in Hpl. rewrite Eowned in Hz3.
  exists ret. eexists. split; [exact Hrel|].
  split; [|intros Hc; by rewrite (Hco3 Hc), (Hco2 Hc), (Hco1 Hc)].
  split; [done|done|done|done|split; [done|exact (proj1 Hbi eq_refl)]|done|done| |exact Hpl].
  intros -> Hcons. destruct (Hz3 eq_refl) as [-> Hpool]. destruct (Hz2 eq_refl) as (-> & Ho2' & Hs2').
  destruct (Hz1 eq_refl) as (_ & Ho1' & Hs1'). cbn in Ho1, Ho2, Hs1, Hs2, Ho1', Ho2', Hs1', Hs2'.
  change (snd o1 = snd (owned (dp w))) in Ho1. change (snd s1 = snd (started (dp w))) in Hs1.
  change (fst o2 = fst o1) in Ho2. change (fst s2 = fst s1) in Hs2.
  assert (o2 = (false, false)) as Eo by (destruct o2; cbn in *; congruence).
  assert (s2 = (false, false)) as Es.
  { destruct Hcons as [Hc0 Hc1]. destruct s2 as [a b]. cbn in Hs2, Hs2'.
    rewrite Hs2, Hs1', Hs2'; [done| |done]. by rewrite Hs1, Ho1. }
  split; [exact (proj1 Hbi eq_refl)|exact Hrun|exact (Hpool Eo)|split; [exact Eo|exact Es]|done|done].
Qed.

(** C28: teardown of an idle router, configured or not, is always defined and never pulls the pool
    from under a port.  Whatever stopping and closing answer, afterwards the
    rules are gone and their memory is given back; the pool has been freed only
    if both ports were closed and no buffer was in use; and if teardown reports
    success, nothing of the dataplane is left. *)
Theorem dp_dataplane_teardown_pool_safe rest w : closing_ok ->
  running (dp w) = false -> within_array (dp w) -> workers_idle (dp w) -> dismantles rest w ->
  exists ret w', dp_dataplane_teardown env w = Some (ret, w') /\ ret <= 0 /\
    rules_heap w' = rest /\ ready (dp w') = false /\
    active_rules (dp w') = None /\ rules_qsbr (dp w') = None /\ rules_configured (dp w') = false /\
    (forall p, pool (dp w) = Some p -> pool (dp w') = None ->
       owned (dp w') = (false, false) /\ u32 (rte_mempool_in_use_count env p) = 0) /\
    (ret = 0 -> ports_consistent (owned (dp w)) (started (dp w)) -> released (dp w')).
Proof.
  intros Hcl Hrun Hwa Hidle Hinv. destruct (teardown_spec rest w Hcl Hrun Hwa Hidle Hinv) as
    (ret & w' & -> & [Hret Hheap Hready _ _ _ (Ha & Hq & Hc) Hrel Hpool] & _).
  exists ret, w'. by split_and!.
Qed.

(** Teardown and cleanup refuse to run under live workers.  While the run
    is not over, or a worker is active, launched or registered, teardown reports
    -EBUSY and changes nothing. *)
Theorem dp_dataplane_teardown_refuses w : within_array (dp w) ->
  running (dp w) = true \/ ~ workers_idle (dp w) -> dp_dataplane_teardown env w = Some (- EBUSY, w).
Proof.
  intros Hwa Hbusy. unfold dp_dataplane_teardown. erewrite M_bind_step by done. cbv beta.
  destruct (running (dp w)); [by erewrite M_bind_step by done|].
  destruct (dp_workers_stopped_spec _ Hwa) as (b & -> & Hb). erewrite M_bind_step by done. cbv beta.
  destruct b; [|done]. destruct Hbusy as [?|Hn]; [done|]. destruct Hn. by apply Hb.
Qed.
End PortSpec.

(** ** From setup to the end of the process *)
Section Lifecycle.
Context {T : DpdkTables} {TO : DpdkTablesOk T} {Q : Qsbr} {QO : QsbrOk Q}.

(** C27: no error path of the setup leaks.  From an idle router, configured or not, let
    setup stop wherever it stops; then teardown with drivers that stop and close
    their ports succeeds, gives back the memory of the rules, and the EAL can be
    cleaned up. *)
Theorem setup_teardown_cleanup env eal failure_queue rx_device tx_device count rest w :
  driver_ok env -> cooperative env -> 0 <= count ->
  initialized (dp w) = true -> running (dp w) = false -> ready (dp w) = false ->
  ports_consistent (owned (dp w)) (started (dp w)) ->
  len (info_workers (info (dp w))) = DP_MAX_WORKERS -> within_array (dp w) -> workers_idle (dp w) ->
  dismantles rest w ->
  exists ret w1 w2 w3,
    dp_dataplane_setup env failure_queue rx_device tx_device count w = Some (ret, w1) /\
    dp_dataplane_teardown env w1 = Some (0, w2) /\ rules_heap w2 = rest /\ released (dp w2) /\
    dp_runtime_cleanup eal w2 = Some (rte_eal_cleanup eal, w3) /\ initialized (dp w3) = false.
Proof.
  intros Hdrv Hcoop Hc Hinit Hrun Hready Hcons Hinf Hwa [Ha [Hreg Hidle]] Hinv.
  destruct (setup_run env failure_queue rx_device tx_device count w Hdrv Hc Hready Hcons Hinf) as (ret & w1 & Hset & Hcase).
  { split; [apply Hwa|split; [apply Hwa|exact Hidle]]. }
  assert (exists rd pl ps o st c ws i, w1 = configured w rd pl ps o st c ws i /\ idle_upto c ws /\ ports_consistent o st)
    as (rd & pl & ps & o & st & c & ws & i & -> & Hup & Hco).
  { destruct Hcase as [(_ & pl & ps & o & st & c & ws & i & -> & ? & _ & ?)|
                       (_ & _ & _ & _ & Hlen & Hmax & p & rxp & txp & i & _ & _ & ->)].
    - by exists false, pl, ps, o, st, c, ws, i.
    - eexists true, (Some p), (rxp, txp), (true, true), (true, true), count, _, i. split; [done|]. split; [|done].
      apply idle_upto_all; [lia|rewrite table_length by lia; lia|by apply table_idle]. }
  destruct (teardown_spec env rest (configured w rd pl ps o st c ws i) (cooperative_closing env Hcoop)) as
    (r & w2 & Htd & [_ Hheap _ Hi2 [Hwa2 _] _ _ Hrel _] & Hzero); 
    [done|split; apply Hup|split; [done|split; [done|apply Hup]]|by apply dismantles_configured|].
  rewrite (Hzero Hcoop) in Htd. specialize (Hrel (Hzero Hcoop) Hco).
  destruct (dp_runtime_cleanup_run eal w2 Hwa2) as [[_ Hclean]|[Hno _]]; [by rewrite Hi2| |done].
  exists ret, (configured w rd pl ps o st c ws i), w2. eexists. by split_and!.
Qed.
End Lifecycle.
