(* ===== verification/Lifecycle.v ===== *)
(** * The process lifecycle: [control/dataplane/dataplane.go]

    [Start] checks a configuration and takes private copies of its rules; the
    owner goroutine brings the EAL, the rules and the ports up, runs the
    dataplane, and takes everything down again.  The native calls are those of the
    cgo boundary.  An error value is the list of the errors it combines. *)
From Stdlib Require Import ZArith Lia.
From stdpp Require Import base list numbers option gmap strings.
From S2P Require Import Prelude Packet Api Tables Heap Snapshot Rcu State Rules Binding Runtime GoStats GoSlice Control ControlNative Port.

(** ** Configuration *)
Record Config := {
  EALArgs : list string;
  RXDevice : string; TXDevice : string;
  Workers : Z;
  Probe : bool;
  CfgRules : RuleSnapshot;
}.

Inductive config_error :=
  | WorkersOutOfRange
  | ArgumentWithNul
  | MissingNoPci
  | BadDeviceNames
  | DeviceWithNul
  | StaticRules (e : rules_error).

(** [strings.IndexByte(s, 0) >= 0] *)
Fixpoint has_nul (s : string) : bool :=
  match s with
  | EmptyString => false
  | String c s => Ascii.eqb c Ascii.zero || has_nul s
  end.

(** The loop over the arguments: [Some noPCI], or [None] for an argument with a NUL. *)
Fixpoint scan_arguments (noPCI : bool) (args : list string) : option bool :=
  match args with
  | [] => Some noPCI
  | arg :: args => if has_nul arg then None else scan_arguments (noPCI || String.eqb arg "--no-pci") args
  end.

Definition validate (cfg : Config) (flows : list FlowRule) (routes : list RouteRule) : option config_error :=
  if (Workers cfg <? 1) || (4 <? Workers cfg) then Some WorkersOutOfRange else
  match scan_arguments false (EALArgs cfg) with
  | None => Some ArgumentWithNul
  | Some noPCI =>
    if negb noPCI then Some MissingNoPci else
    if negb (Probe cfg) && (String.eqb (RXDevice cfg) "" || String.eqb (TXDevice cfg) "" ||
                            String.eqb (RXDevice cfg) (TXDevice cfg)) then Some BadDeviceNames else
    if has_nul (RXDevice cfg) || has_nul (TXDevice cfg) then Some DeviceWithNul else
    match validate_elements flows routes with
    | Some err => Some (StaticRules err)
    | None => None
    end
  end.

Definition with_workers_rules (n : Z) (rules : RuleSnapshot) (cfg : Config) : Config := {|
  EALArgs := EALArgs cfg; RXDevice := RXDevice cfg; TXDevice := TXDevice cfg; Workers := n; Probe := Probe cfg;
  CfgRules := rules |}.

Inductive start_error := BadConfig (e : config_error) | OnlyOneAttempt.

Inductive lifecycle_error :=
  | ArgvOutOfMemory
  | EInit (rc : Z)
  | EInfo (rc : Z)
  | ELcores (count : Z)
  | EConfigure (e : native_error)
  | ESetup (rc : Z)
  | ERun (rc : Z)
  | ETeardown (rc : Z)
  | EStats (rc : Z)
  | ECleanup (rc : Z).

Abbreviation errors := (list lifecycle_error).

Definition is_nil (e : errors) : bool := match e with [] => true | _ => false end.

(** [status(operation, rc)] and [combine] *)
Definition status (operation : Z -> lifecycle_error) (rc : Z) : errors := if rc =? 0 then [] else [operation rc].
Definition combine (first next : errors) : errors := first ++ next.

(** ** The platform *)
Section Lifecycle.
Context {T : DpdkTables} {Q : Qsbr}.

Record platform := {
  p_calloc : callocator;
  p_strings : list string -> list Z;        (** the addresses of [C.CString] *)
  p_eal : eal_env;
  p_qsbr : qsbr_env;
  p_allocate : gmap Z hobj -> allocator;
  p_eth : eth_env;
  p_failure_queue : Z;                      (** injection switch, off: -1 *)
}.

Context (pf : platform) (growth : nat -> nat -> nat).
Abbreviation N := (world * c_heap)%type.
Abbreviation runtime := (runtime N).

Definition on_world {A} (m : M world A) : M N A := fun '(w, h) => '(a, w) ← m w; Some (a, (w, h)).
Definition on_c {A} (m : M c_heap A) : M N A := fun '(w, h) => '(a, h) ← m h; Some (a, (w, h)).

(** ** Wrappers of the native calls *)

(** The array stays allocated until [Cleanup], whatever the EAL does with it. *)
Definition Init (args : list string) : M N (errors * option Z) :=
  let argv := "flow-router"%string :: args in
  array ← on_c (build_argv (p_calloc pf) (p_strings pf argv));
  match array with
  | None => mret ([ArgvOutOfMemory], None)
  | Some a =>
    rc ← on_world (dp_runtime_init (p_eal pf) (Z.of_nat (length args) + 1) (Some argv));
    mret (status EInit rc, Some a)
  end.

Definition GetInfo : M N (errors * Go.Info) :=
  n ← get;
  let '(rc, info) := dp_runtime_get_info (dp n.1) (Some info_zero) in
  if rc =? 0 then
    info ← lift info;
    result ← lift (go_info info);
    mret ([], result)
  else mret (status EInfo rc, Go.no_info).

Definition Configure (snapshot : Binding.RuleSnapshot) : M N errors := fun '(w, h) =>
  '(r, n) ← ConfigureRules (p_calloc pf) (p_qsbr pf) (p_allocate pf (rules_heap w)) snapshot w h;
  Some (match r with
        | inl e => [EConfigure (ArraysError e)]
        | inr rc => status (fun rc => EConfigure (Status rc)) rc
        end, n).

Definition Setup (rxDevice txDevice : string) (workerCount : Z) : M N errors :=
  rc ← on_world (dp_dataplane_setup (p_eth pf) (p_failure_queue pf) (Some rxDevice) (Some txDevice) workerCount);
  mret (status ESetup rc).

Definition Teardown : M N errors := rc ← on_world (dp_dataplane_teardown (p_eth pf)); mret (status ETeardown rc).

(** [dp.stats.workers], which nothing writes. *)
Definition static_workers : list dp_worker_stats :=
  replicate (Z.to_nat DP_MAX_WORKERS) {| ws_info := worker_info_zero; ws_packets := stats_zero |}.

Definition GetStats : M N (errors * Go.Stats) :=
  n ← get;
  '(rc, out) ← lift (dp_dataplane_get_stats (dp n.1) static_workers
     (Some {| st_packets := stats_zero; st_worker_count := 0; st_workers := static_workers; st_rules := ctl_zero |}));
  if rc =? 0 then
    s ← lift out;
    result ← lift (go_stats s);
    mret ([], result)
  else mret (status EStats rc, Go.no_stats).

Definition Cleanup (argv : option Z) : M N errors :=
  rc ← on_world (dp_runtime_cleanup (p_eal pf));
  (if rc =? 0 then on_c (dp_argv_free_array argv) else mret tt);;
  mret (status ECleanup rc).

(** ** [Start] *)

(** [attempted] is the package's [lifecycle.attempted]; the runtime under
    construction has no rules yet. *)
Definition Start (cfg : Config) (attempted : bool) : M runtime (bool * (start_error + Config)) :=
  let n := if Workers cfg =? 0 then 1 else Workers cfg in
  flows ← on_flows (range_over (Flows (CfgRules cfg)));
  routes ← on_routes (range_over (Routes (CfgRules cfg)));
  match validate (with_workers_rules n (CfgRules cfg) cfg) flows routes with
  | Some err => mret (attempted, inl (BadConfig err))
  | None =>
    if attempted then mret (attempted, inl OnlyOneAttempt) else
    rules ← cloneRules growth (CfgRules cfg);
    current ← cloneRules growth rules;
    modify (set_currentRules current);;
    mret (true, inr (with_workers_rules n rules cfg))
  end.

(** ** The owner *)

(** Up to the moment [ready] is closed: errors, whether the EAL is initialised,
    and the argument array. *)
Definition bring_up (cfg : Config) : M runtime (errors * bool * option Z) :=
  '(err, argv) ← on_native (Init (EALArgs cfg));
  let initialized := is_nil err in
  err ← (if is_nil err then
           '(err, info) ← on_native GetInfo;
           modify (set_rt_info info);;
           mret (if is_nil err && negb (Go.LcoreCount info =? Workers cfg) then [ELcores (Go.LcoreCount info)] else err)
         else mret err);
  err ← (if is_nil err && negb (Probe cfg) then
           rules ← toNativeRules (CfgRules cfg);
           on_native (Configure rules)
         else mret err);
  err ← (if is_nil err && negb (Probe cfg) then
           err ← on_native (Setup (RXDevice cfg) (TXDevice cfg) (Workers cfg));
           if is_nil err then '(err, info) ← on_native GetInfo; modify (set_rt_info info);; mret err else mret err
         else mret err);
  (if is_nil err && negb (Probe cfg) then
     modify (set_rt_generation 1);; modify (set_rulesOpen true)
   else mret tt);;
  mret (err, initialized, argv).

(** [finishLifecycle]: the EAL is cleaned up only after a teardown that left
    nothing behind. *)
Definition finishLifecycle (argv : option Z) (runErr : errors) : M runtime errors :=
  teardownErr ← on_native Teardown;
  '(statsErr, stats) ← on_native GetStats;
  modify (set_rt_stats stats);;
  let err := combine (combine runErr teardownErr) statsErr in
  if negb (is_nil teardownErr) then mret err else
  cleanupErr ← on_native (Cleanup argv);
  mret (combine err cleanupErr).

(** After [Run]: publication is closed first, then the process is taken down. *)
Definition wind_down (argv : option Z) (runErr : errors) : M runtime errors :=
  modify (set_rulesOpen false);;
  finishLifecycle argv runErr.

(** [run] is what happens from [native.Run] to its return: the workers, and
    whatever other goroutines do with the manager meanwhile.  The results are those
    of [Ready] and of [Wait]. *)
Definition owner (cfg : Config) (run : M runtime Z) : M runtime (errors * errors) :=
  '(startErr, initialized, argv) ← bring_up cfg;
  err ← (if is_nil startErr && negb (Probe cfg) then rc ← run; mret (status ERun rc) else mret startErr);
  if (initialized : bool) then
    err ← wind_down argv err;
    mret (startErr, err)
  else mret (startErr, err).
End Lifecycle.
