(* ===== verification/LifecycleSpec.v ===== *)
(** * The lifecycle, specified

    A process that starts, serves and stops gives back everything it took,
    whatever fails on the way; what is ready is a configured dataplane whose
    manager agrees with it. *)
From Stdlib Require Import ZArith Lia.
From stdpp Require Import base list numbers option gmap strings.
From S2P Require Import Prelude Wire Packet Api Tables Heap Snapshot SnapshotSpec Rcu State StatsSpec Rules Binding Publish PublishSpec BindingSpec Runtime RuntimeSpec GoStats GoSlice Control ControlSpec ControlRefine ControlNative Port PortSpec Lifecycle.

Section LifecycleSpec.
Context {T : DpdkTables} {TO : DpdkTablesOk T} {Q : Qsbr} {QO : QsbrOk Q}.
Abbreviation N := (world * c_heap)%type.
Abbreviation runtime := (runtime N).
Context (pf : platform) (growth : nat -> nat -> nat).

Record platform_ok : Prop := {
  pf_calloc : callocator_ok (p_calloc pf);
  pf_qsbr : qsbr_env_ok (p_qsbr pf);
  pf_allocate h : allocator_ok (p_allocate pf h) h;
  pf_eth : driver_ok (p_eth pf);
  pf_errno e : rte_eal_init (p_eal pf) = Some e -> 0 <= e;
}.
Context (PF : platform_ok).

(** ** States *)

(** An initialised process in which no worker lives: it can be taken down, and
    then its rule heap is [rest]. *)
Record settled (rest : gmap Z hobj) (w : world) : Prop := {
  se_init : initialized (dp w) = true;
  se_running : running (dp w) = false;
  se_array : within_array (dp w);
  se_idle : workers_idle (dp w);
  se_ports : ports_consistent (owned (dp w)) (started (dp w));
  se_rules : dismantles rest w;
}.

(** A process before [dp_runtime_init]. *)
Definition pristine (w : world) : Prop := dp w = dp_initial.

(** The world of a process whose EAL is up and nothing else. *)
Definition started_world (w : world) : world := set_dp (started_state (p_eal pf) (dp w)) w.

Lemma started_settled w : pristine w ->
  settled (rules_heap w) (started_world w) /\ no_readers (started_world w) /\ unconfigured (dp (started_world w)) = true /\
  (ready (dp (started_world w)) = false /\ ran (dp (started_world w)) = false) /\ len (info_workers (info (dp (started_world w)))) = DP_MAX_WORKERS.
Proof.
  intros Hw. unfold started_world, no_readers. rewrite Hw. split; [|by split_and!]. split; cbn; try done.
  - unfold within_array. cbn. unfold DP_MAX_WORKERS; lia.
  - split_and!; try done. intros i ctx Hi. cbn in Hi. lia.
  - by right.
Qed.

(** ** The native calls *)
Lemma on_world_run {A} (m : M world A) w h a w' : m w = Some (a, w') -> on_world m (w, h) = Some (a, (w', h)).
Proof. intros E. unfold on_world. by rewrite E. Qed.

Lemma on_c_run {A} (m : M c_heap A) (w : world) h a h' : m h = Some (a, h') -> on_c m (w, h) = Some (a, (w, h')).
Proof. intros E. unfold on_c. by rewrite E. Qed.

Lemma on_native_run {A} (m : M N A) (r : runtime) a n : m (native r) = Some (a, n) -> on_native m r = Some (a, set_native n r).
Proof. intros E. unfold on_native. by rewrite E. Qed.

Lemma is_nil_spec e : is_nil e = true <-> e = [].
Proof. by destruct e. Qed.

Lemma status_nil op rc : status op rc = [] <-> rc = 0.
Proof. unfold status. by destruct (Z.eqb_spec rc 0). Qed.

(** The C heap holds the argument array and is otherwise [h]. *)
Definition argv_held (argv : option Z) (h h' : c_heap) : Prop :=
  match argv with
  | None => h' = h
  | Some a => exists l, h !! a = None /\ h' = <[a := Argv l]> h
  end.

Lemma Init_run args w h : pristine w ->
  exists err argv w' h', Init pf args (w, h) = Some ((err, argv), (w', h')) /\ argv_held argv h h' /\
    (err = [] /\ eal_starts (p_eal pf) /\ w' = started_world w \/
     err <> [] /\ rules_heap w' = rules_heap w /\ initialized (dp w') = false).
Proof.
  intros Hw. unfold Init.
  destruct (build_argv_run (p_calloc pf) (p_strings pf ("flow-router"%string :: args)) h (pf_calloc PF)) as (argv & h' & Hrun & Ha).
  erewrite M_bind_step by by apply on_c_run. cbv beta. destruct argv as [a|].
  2: { exists [ArgvOutOfMemory], None, w, h'. split; [done|]. split; [by rewrite Ha|]. right. rewrite Hw. done. }
  destruct Ha as [Ha ->].
  destruct (init_run (p_eal pf) (Z.of_nat (length args) + 1) ("flow-router"%string :: args) w) as (ret & w' & Hinit & Hcase);
    [by rewrite Hw|lia|apply PF|].
  erewrite M_bind_step by by apply on_world_run. cbv beta.
  exists (status EInit ret), (Some a), w'. eexists. split; [done|]. split; [by eexists|].
  destruct Hcase as [(-> & Hs & ->)|(Hneg & _ & ->)]; [by left|right].
  split; [rewrite status_nil; lia|]. split; [done|]. cbn. by rewrite Hw.
Qed.

Lemma GetInfo_run w h : initialized (dp w) = true ->
  (Z.to_nat (info_worker_count (info (dp w))) <= length (info_workers (info (dp w))))%nat ->
  exists out, GetInfo (w, h) = Some (([], out), (w, h)) /\ go_info (info (dp w)) = Some out.
Proof.
  intros Hi Hn. destruct (info_lists _ Hn) as (out & E & _). exists out. split; [|done].
  unfold GetInfo. erewrite M_bind_step by done. cbv beta. unfold dp_runtime_get_info. cbn [fst]. rewrite Hi.
  cbn [negb Z.eqb]. unfold lift. do 2 (erewrite M_bind_step by (rewrite ?E; reflexivity); cbv beta). done.
Qed.

Lemma settled_same rest w w' : settled rest w -> same_dataplane (dp w) (dp w') -> dismantles rest w' -> settled rest w'.
Proof.
  intros [Hi Hr Ha Hid Hp Hd] [(Ei & _ & Er & _) (Ew & Ec & Eaw & Err) (_ & Eo & Es & _) _] Hd'. split; [congruence..| | | |done].
  - unfold within_array in *. by rewrite Ew, Ec.
  - unfold workers_idle in *. by rewrite Ew, Ec, Eaw, Err.
  - by rewrite Eo, Es.
Qed.

Lemma Configure_run w h flows routes : settled (rules_heap w) w -> active_rules (dp w) = None ->
  no_readers w -> unconfigured (dp w) = true -> rules_fit flows routes ->
  exists err w', Configure pf (native_snapshot flows routes) (w, h) = Some (err, (w', h)) /\
    settled (rules_heap w) w' /\ same_dataplane (dp w) (dp w') /\
    (err = [] -> native_shows (w', h) 1 (native_flows flows) (native_routes routes)).
Proof.
  intros Hset Ha Hno Hun Hfit. unfold Configure.
  destruct (ConfigureRules_run (p_calloc pf) (p_qsbr pf) (p_allocate pf (rules_heap w)) (native_snapshot flows routes) w h)
    as (r & w' & Hrun & Hr); [apply PF|apply PF|apply PF| |done|].
  { unfold snapshot_fits. by rewrite c_flows_native, c_routes_native. }
  rewrite Hrun. bind_cbn. eexists _, w'. split; [done|]. destruct r as [e|ret].
  { subst w'. split; [done|]. split; [by split|done]. }
  destruct Hr as [Hsame Hr]. rewrite Hun in Hr. split; [|split; [done|]].
  - apply (settled_same _ w); [done|done|].
    destruct Hr as [(_ & _ & _ & Hinv)|(_ & Eh & Ea & _)]; [by left|right]. by rewrite Ea, Eh.
  - intros E%status_nil. destruct Hr as [(_ & _ & Hact & Hinv)|(? & _)]; [|lia].
    rewrite c_flows_native, c_routes_native in Hact.
    by exists (rules_heap w), {| sys := w'; held := ∅; writer := Idle |}.
Qed.

Lemma native_shows_configured w h g flows routes rd pl ps o st c ws i : native_shows (w, h) g flows routes ->
  native_shows (configured w rd pl ps o st c ws i, h) g flows routes.
Proof.
  intros (rest & c0 & E & Hinv & Hw & Hact). cbn in E. subst w.
  exists rest, {| sys := configured (sys c0) rd pl ps o st c ws i; held := held c0; writer := writer c0 |}.
  split_and!; [done| |done|done]. by destruct Hinv.
Qed.

Lemma settled_configured rest w rd pl ps o st c ws i : settled rest w -> idle_upto c ws -> ports_consistent o st ->
  settled rest (configured w rd pl ps o st c ws i).
Proof.
  intros [Hi Hr Ha (Ha1 & Ha2 & _) Hp Hd] (Hm & Hc & Hidle) Hco. split; try done. by apply dismantles_configured.
Qed.

(** A dataplane that can run. *)
Record serving (count : Z) (w : world) : Prop := {
  sv_ready : ready (dp w) = true /\ ran (dp w) = false;
  sv_ports : owned (dp w) = (true, true) /\ started (dp w) = (true, true) /\ is_Some (pool (dp w));
  sv_count : worker_count (dp w) = count /\ 1 <= count;
  sv_info : lcore_count (info (dp w)) = count /\ info_worker_count (info (dp w)) = count /\
    len (info_workers (info (dp w))) = DP_MAX_WORKERS /\
    take (Z.to_nat count) (info_workers (info (dp w))) = ctx_info <$> take (Z.to_nat count) (workers (dp w));
  sv_placed i : Z.of_nat i < count -> exists ctx, workers (dp w) !! i = Some ctx /\
    worker_id (ctx_info ctx) = Z.of_nat i /\ balanced (ctx_stats ctx);
}.

Lemma configured_serving count w p ps i : ran (dp w) = false -> len (lcores_of (p_eth pf) w) = count -> count <= DP_MAX_WORKERS ->
  listed (p_eth pf) w count i -> len (info_workers (info (dp w))) = DP_MAX_WORKERS ->
  serving count (configured w true (Some p) ps (true, true) (true, true) count (table placed (lcores_of (p_eth pf) w)) i).
Proof.
  intros Hran Hlen Hmax Hli Hinf. pose proof (listed_workers _ _ _ _ Hli Hlen) as Et.
  pose proof (listed_length _ _ _ _ Hli Hlen Hmax Hinf) as El. destruct Hli as (Hwc & Hlc & _).
  split; [by split|by split_and!|split; [done|unfold lcores_of in Hlen; cbn [length] in Hlen; lia]|by split_and!|].
  intros k Hk. assert (k < length (lcores_of (p_eth pf) w))%nat as Hk' by lia.
  destruct (lookup_lt_is_Some_2 _ _ Hk') as [l Hl]. exists (placed k l). split; [|split; [done|apply balanced_zero]].
  change (table placed (lcores_of (p_eth pf) w) !! k = Some (placed k l)). by rewrite table_lookup, Hl.
Qed.

Lemma Setup_run rest rxd txd count w h : settled rest w -> 0 <= count -> ready (dp w) = false /\ ran (dp w) = false ->
  len (info_workers (info (dp w))) = DP_MAX_WORKERS ->
  exists err w', Setup pf rxd txd count (w, h) = Some (err, (w', h)) /\ settled rest w' /\
    (forall g flows routes, native_shows (w, h) g flows routes -> native_shows (w', h) g flows routes) /\
    (err = [] -> serving count w' /\ count <= DP_MAX_WORKERS).
Proof.
  intros Hset Hc [Hready Hran] Hinf. unfold Setup.
  destruct (setup_run (p_eth pf) (p_failure_queue pf) (Some rxd) (Some txd) count w (pf_eth PF) Hc Hready (se_ports _ _ Hset) Hinf)
    as (ret & w' & Hrun & Hcase); [split; [|split]; apply Hset|].
  erewrite M_bind_step by by apply on_world_run. cbv beta. exists (status ESetup ret), w'. split; [done|].
  destruct Hcase as [(Hneg & pl & ps & o & st & c & ws & i & -> & Hup & _ & Hco)|
                     (-> & _ & _ & _ & Hlen & Hmax & p & rxp & txp & i & _ & (Hwc & Hlc & Hiw) & ->)].
  - split; [by apply settled_configured|]. split; [intros; by apply native_shows_configured|].
    intros E%status_nil. lia.
  - assert (idle_upto count (table placed (lcores_of (p_eth pf) w))) as Hidle.
    { apply idle_upto_all; [lia|rewrite table_length by lia; lia|by apply table_idle]. }
    split; [by apply settled_configured|]. split; [intros; by apply native_shows_configured|].
    intros _. split; [|done]. apply configured_serving; [done|done|done|by split_and!|done].
Qed.

(** ** Bringing up *)

(** The manager as [Start] leaves it: closed, over a process without an EAL, its
    rules and the owner's copy of them valid. *)
Record launched_with (cfg : Config) (flows : list FlowRule) (routes : list RouteRule) (r : runtime) : Prop := {
  lw_pristine : pristine (native r).1;
  lw_closed : rulesOpen r = false;
  lw_heap : heap_ok (memory r);
  lw_current : shows_in (currentRules r) (memory r) flows routes;
  lw_config : shows_in (CfgRules cfg) (memory r) flows routes;
  lw_fit : rules_fit flows routes;
  lw_valid : validate_elements flows routes = None;
  lw_workers : 0 <= Workers cfg;
}.

(** What [Ready] shows of the workers. *)
Definition info_shows (count : Z) (i : Go.Info) (ws : list dp_worker_ctx) : Prop :=
  Go.LcoreCount i = count /\ Go.InfoWorkers i = (fun ctx => worker_info (ctx_info ctx)) <$> take (Z.to_nat count) ws.

Lemma serving_info count w h : initialized (dp w) = true -> serving count w -> count <= DP_MAX_WORKERS ->
  exists out, GetInfo (w, h) = Some (([], out), (w, h)) /\ info_shows count out (workers (dp w)).
Proof.
  intros Hi [_ _ _ (Elc & Ewc & Elen & Et) _] Hmax. destruct (GetInfo_run w h Hi) as (out & Hrun & Hout); [rewrite Ewc; lia|].
  exists out. split; [done|]. destruct (info_lists (info (dp w))) as (out' & Hout' & E1 & E2); [rewrite Ewc; lia|].
  rewrite Hout in Hout'. injection Hout' as <-. split; [congruence|]. by rewrite E2, Ewc, Et, <- list_fmap_compose.
Qed.

(** What holds when [ready] is closed: an initialised process can be taken down
    to the heap it started from; without an error it serves, and the manager
    agrees with it on generation 1 of the configured rules. *)
Record brought_up (cfg : Config) (flows : list FlowRule) (routes : list RouteRule) (r r' : runtime) (err : errors)
    (initialized_ : bool) (argv : option Z) : Prop := {
  bu_argv : argv_held argv (native r).2 (native r').2;
  bu_heap : if initialized_ then settled (rules_heap (native r).1) (native r').1
            else rules_heap (native r').1 = rules_heap (native r).1 /\ initialized (dp (native r').1) = false /\ err <> [];
  bu_ready : err = [] -> Probe cfg = false ->
    serving (Workers cfg) (native r').1 /\ coherent native_shows r' flows routes /\
    rulesOpen r' = true /\ rt_generation r' = 1 /\ info_shows (Workers cfg) (rt_info r') (workers (dp (native r').1));
  bu_closed : err <> [] \/ Probe cfg = true -> rulesOpen r' = false;
}.

(** A bring-up that stopped short leaves the manager closed. *)
Lemma stopped_short cfg flows routes r r' err i argv : launched_with cfg flows routes r -> rulesOpen r' = rulesOpen r ->
  argv_held argv (native r).2 (native r').2 ->
  (if i : bool then settled (rules_heap (native r).1) (native r').1
   else rules_heap (native r').1 = rules_heap (native r).1 /\ initialized (dp (native r').1) = false /\ err <> []) ->
  err <> [] \/ Probe cfg = true -> brought_up cfg flows routes r r' err i argv.
Proof.
  intros Hl Ho Ha Hi Hs. split; [done|done| |intros; rewrite Ho; apply Hl]. intros E1 E2. destruct Hs as [?|?]; congruence.
Qed.

(** The last steps: the ports, then the manager opens. *)
Lemma open_run cfg flows routes r w h : launched_with cfg flows routes r ->
  Probe cfg = false -> settled (rules_heap (native r).1) w -> ready (dp w) = false /\ ran (dp w) = false ->
  len (info_workers (info (dp w))) = DP_MAX_WORKERS ->
  native_shows (w, h) 1 (native_flows flows) (native_routes routes) ->
  exists err r', (err ← on_native (Setup pf (RXDevice cfg) (TXDevice cfg) (Workers cfg));
      if is_nil err then '(err, info) ← on_native GetInfo; modify (set_rt_info info);; mret err else mret err) (set_native (w, h) r) =
        Some (err, r') /\
    rulesOpen r' = rulesOpen r /\ (native r').2 = h /\ settled (rules_heap (native r).1) (native r').1 /\
    (err = [] -> serving (Workers cfg) (native r').1 /\ coherent native_shows (set_rt_generation 1 r') flows routes /\
       info_shows (Workers cfg) (rt_info r') (workers (dp (native r').1))).
Proof.
  intros Hl Hp Hset Hready Hinf Hshow.
  destruct (Setup_run _ (RXDevice cfg) (TXDevice cfg) (Workers cfg) w h Hset (lw_workers _ _ _ _ Hl) Hready Hinf)
    as (err & w' & Hrun & Hset' & Hkeep & Hok).
  erewrite M_bind_step by (apply on_native_run; exact Hrun). cbv beta. destruct err as [|x err]; cbn [is_nil].
  2: { eexists _, _. split; [done|]. by split_and!. }
  destruct (Hok eq_refl) as [Hserv Hmax]. destruct (serving_info _ w' h (se_init _ _ Hset') Hserv Hmax) as (inf & Hinfo & Hshows).
  erewrite M_bind_step by (apply on_native_run; exact Hinfo). cbv beta iota. erewrite M_bind_step by done.
  eexists _, _. split; [done|]. split; [done|]. split; [done|]. split; [done|]. intros _. split; [done|]. split; [|done].
  destruct Hl as [? ? ? ? ? ? ? ?]. split; try done. by apply Hkeep.
Qed.

(** From the EAL to the rules. *)
Lemma configure_and_open cfg flows routes r w h : launched_with cfg flows routes r -> Probe cfg = false ->
  settled (rules_heap w) w -> rules_heap (native r).1 = rules_heap w -> active_rules (dp w) = None -> no_readers w ->
  unconfigured (dp w) = true -> ready (dp w) = false /\ ran (dp w) = false -> len (info_workers (info (dp w))) = DP_MAX_WORKERS ->
  exists err r', (err ← (rules ← toNativeRules (CfgRules cfg); on_native (Configure pf rules));
      if is_nil err && negb (Probe cfg) then
        err ← on_native (Setup pf (RXDevice cfg) (TXDevice cfg) (Workers cfg));
        if is_nil err then '(err, info) ← on_native GetInfo; modify (set_rt_info info);; mret err else mret err
      else mret err) (set_native (w, h) r) = Some (err, r') /\
    rulesOpen r' = rulesOpen r /\ (native r').2 = h /\ settled (rules_heap (native r).1) (native r').1 /\
    (err = [] -> serving (Workers cfg) (native r').1 /\ coherent native_shows (set_rt_generation 1 r') flows routes /\
       info_shows (Workers cfg) (rt_info r') (workers (dp (native r').1))).
Proof.
  intros Hl Hp Hset Eheap Hact Hno Hun Hready Hinf.
  destruct (Configure_run w h flows routes Hset Hact Hno Hun (lw_fit _ _ _ _ Hl)) as (e3 & w3 & Hconf & Hset3 & Hsame & Hshow).
  erewrite M_bind_step.
  2: { erewrite M_bind_step by (apply (toNativeRules_run _ _ flows routes); apply Hl). cbv beta.
       apply on_native_run. exact Hconf. }
  cbv beta. rewrite Hp. destruct e3 as [|x e3]; cbn [is_nil andb negb].
  2: { eexists _, _. split; [done|]. split; [done|]. split; [done|]. split; [cbn; by rewrite Eheap|done]. }
  destruct Hsame as [(_ & Erd & _ & Ern) _ _ Einf].
  apply (open_run cfg flows routes r w3 h Hl Hp); [by rewrite Eheap|by rewrite Erd, Ern|by rewrite Einf|by apply Hshow].
Qed.

Lemma bring_up_run cfg flows routes r : launched_with cfg flows routes r ->
  exists err i argv r', bring_up pf cfg r = Some ((err, i, argv), r') /\ brought_up cfg flows routes r r' err i argv.
Proof.
  intros Hl. destruct (native r) as [w h] eqn:En. pose proof (lw_pristine _ _ _ _ Hl) as Hw. rewrite En in Hw. change (pristine w) in Hw.
  unfold bring_up. destruct (Init_run (EALArgs cfg) w h Hw) as (e1 & argv & w1 & h1 & Hinit & Ha & Hcase).
  erewrite M_bind_step by (apply on_native_run; rewrite En; exact Hinit). cbv beta iota.
  destruct Hcase as [(-> & _ & ->)|(Hne & Eh & Ei)].
  2: { destruct e1 as [|x e1]; [done|]. bind_cbn. eexists _, _, _, _. split; [done|].
       apply stopped_short; rewrite ?En; [done|done|done|by split_and!|by left]. }
  destruct (started_settled w Hw) as (Hset & Hno & Hun & Hready & Hinf).
  destruct (GetInfo_run (started_world w) h1 (se_init _ _ Hset)) as (inf & Hinfo & _); [unfold started_world; rewrite Hw; cbn; lia|].
  cbn [is_nil]. erewrite M_bind_step.
  2: { erewrite M_bind_step by (apply on_native_run; exact Hinfo). cbv beta iota. by erewrite M_bind_step by done. }
  cbv beta iota. cbn [is_nil andb]. clear Hinit. change (set_rt_info inf _) with (set_native (started_world w, h1) (set_rt_info inf r)).
  assert (launched_with cfg flows routes (set_rt_info inf r)) as Hl' by by destruct Hl.
  destruct (is_nil _ && negb (Probe cfg)) eqn:Hgo; swap 1 2.
  { match type of Hgo with context [is_nil ?e] => set (e2 := e) in * end.
    do 2 (erewrite M_bind_step by done; cbv beta; rewrite Hgo).
    erewrite M_bind_step by done. eexists _, _, _, _. split; [done|].
    apply stopped_short; [done|done|by rewrite En|by rewrite En|].
    apply andb_false_iff in Hgo as [H|H%negb_false_iff]; [left; by intros E; rewrite E in H|by right]. }
  apply andb_true_iff in Hgo as [_ Hp%negb_true_iff].
  destruct (configure_and_open cfg flows routes (set_rt_info inf r) (started_world w) h1 Hl' Hp Hset) as (e4 & r4 & Hrun & Ho & Eh & Hset4 & Hok);
    [by cbn; rewrite En|by cbn; rewrite Hw|done..|].
  rewrite <- M_bind_assoc. erewrite M_bind_step by exact Hrun. cbv beta. rewrite Hp. destruct e4 as [|x e4]; cbn [is_nil andb negb].
  - eexists [], true, argv, _. split; [reflexivity|]. cbn in Hset4. split; [by cbn; rewrite Eh, En|done| |by intros [?|?]; congruence].
    intros _ _. destruct (Hok eq_refl) as [? [[? ? ? ? ?] ?]]. by split_and!.
  - eexists _, _, _, _. split; [done|]. apply stopped_short; [done|by rewrite Ho|by rewrite Eh, En|done|by left].
Qed.

(** ** Taking down *)
Lemma GetStats_run w h : running (dp w) = false -> within_array (dp w) ->
  exists stats, GetStats (w, h) = Some (([], stats), (w, h)) /\ reports (dp w) stats.
Proof.
  intros Hr [Hm Hwa]. unfold GetStats. erewrite M_bind_step by done. cbv beta.
  destruct (stats_report (dp w) static_workers {| st_packets := stats_zero; st_worker_count := 0; st_workers := static_workers; st_rules := ctl_zero |})
    as (s & out & Hrun & Hout & Hrep); [done|lia|unfold static_workers; rewrite length_replicate; lia|].
  exists out. split; [|done]. cbn [fst]. erewrite M_bind_step by (unfold lift; rewrite Hrun; reflexivity). cbv beta iota. cbn [Z.eqb].
  erewrite M_bind_step by done. cbv beta. erewrite M_bind_step by (unfold lift; rewrite Hout; reflexivity). done.
Qed.

Lemma argv_release argv h h' : argv_held argv h h' -> dp_argv_free_array argv h' = Some (tt, h).
Proof.
  destruct argv as [a|]; [|by intros ->]. intros (l & Ha & ->). by apply c_free_live.
Qed.

Lemma Cleanup_run argv w h h' : within_array (dp w) -> released (dp w) -> initialized (dp w) = true -> argv_held argv h h' ->
  Cleanup pf argv (w, h') = Some (status ECleanup (rte_eal_cleanup (p_eal pf)),
    (set_dp (set_initialized false (dp w)) w, if rte_eal_cleanup (p_eal pf) =? 0 then h else h')).
Proof.
  intros Hwa Hrel Hi Ha. unfold Cleanup.
  destruct (dp_runtime_cleanup_run (p_eal pf) w Hwa Hi) as [[_ Hrun]|[Hno _]]; [|done].
  erewrite M_bind_step by by apply on_world_run. cbv beta. destruct (rte_eal_cleanup (p_eal pf) =? 0); [|done].
  by erewrite M_bind_step by (apply on_c_run; by apply argv_release).
Qed.

(** How far taking a settled process down came. *)
Record taken_down (rest : gmap Z hobj) (h h' : c_heap) (runErr err : errors) (n : N) : Prop := {
  td_heap : rules_heap n.1 = rest;
  td_errors : exists more, err = runErr ++ more;
  td_cleaned : initialized (dp n.1) = false -> released (dp n.1) /\ (err = [] -> n.2 = h);
  td_kept : initialized (dp n.1) = true -> n.2 = h' /\ exists rc, ETeardown rc ∈ err;
}.

Lemma finishLifecycle_run rest argv runErr r h : settled rest (native r).1 -> argv_held argv h (native r).2 -> closing_ok (p_eth pf) ->
  exists err stats n, finishLifecycle pf argv runErr r = Some (err, set_native n (set_rt_stats stats r)) /\
    taken_down rest h (native r).2 runErr err n /\ reports (dp n.1) stats /\
    (cooperative (p_eth pf) -> initialized (dp n.1) = false).
Proof.
  intros [Hi Hr Ha Hid Hp Hd] Hargv Hcl. destruct (native r) as [w h'] eqn:En. cbn [fst snd] in *. unfold finishLifecycle, Teardown.
  destruct (teardown_spec (p_eth pf) rest w Hcl Hr Ha Hid Hd) as (ret & w' & Hrun & [_ Hheap _ Hi' [Hwa' _] Hr' _ Hrel _] & Hcoop).
  erewrite M_bind_step.
  2: { apply on_native_run. rewrite En. erewrite M_bind_step by (apply on_world_run; exact Hrun). reflexivity. }
  cbv beta. destruct (GetStats_run w' h' Hr' Hwa') as (stats & Hstats & Hrep).
  erewrite M_bind_step by (apply on_native_run; exact Hstats). cbv beta iota. erewrite M_bind_step by done. cbv beta.
  unfold combine. rewrite app_nil_r. unfold status at 1. destruct (Z.eqb_spec ret 0) as [->|Hne]; cbn [is_nil negb].
  - erewrite M_bind_step by (apply on_native_run; apply (Cleanup_run argv w' h h'); [done|by apply Hrel|by rewrite Hi'|done]). cbv beta.
    eexists _, stats, _. split; [done|]. split; [|split; [by destruct Hrep; split|done]]. split; cbn [fst snd]; [done| | |done].
    + rewrite <- app_assoc. by eexists.
    + intros _. split; [specialize (Hrel eq_refl Hp); by destruct Hrel|].
      intros [_ E%status_nil]%app_eq_nil. by rewrite E.
  - eexists _, stats, (w', h'). split; [done|]. split; [split; cbn [fst snd]|split; [done|by intros E%Hcoop]]; [done| |by rewrite Hi', Hi|].
    + by eexists.
    + intros _. split; [done|]. exists ret. unfold status. destruct (Z.eqb_spec ret 0); [done|].
      rewrite elem_of_app. right. by left.
Qed.

(** The order of the shutdown.  From any settled process, with drivers that
    may fail to stop or to close their ports, finishing the lifecycle is defined
    and takes the rules down; the EAL is cleaned up only once nothing of the
    dataplane is left, and the argument array is freed only after that; when the
    teardown failed, the EAL stays up, the array stays allocated, and the error
    says so.  Every earlier error is kept, and with drivers that do as they are
    told the EAL is always reached.  The statistics that [Wait] returns are those of
    the process after the teardown: sums over the workers, each worker's own
    counters, and what has been released. *)
Theorem finishLifecycle_order rest argv runErr r h : settled rest (native r).1 -> argv_held argv h (native r).2 -> closing_ok (p_eth pf) ->
  exists err stats n, finishLifecycle pf argv runErr r = Some (err, set_native n (set_rt_stats stats r)) /\
    taken_down rest h (native r).2 runErr err n /\ reports (dp n.1) stats /\
    (cooperative (p_eth pf) -> initialized (dp n.1) = false).
Proof. apply finishLifecycle_run. Qed.

(** C21: what [Ready] promises.  However bringing up fares, an error or a probe
    leaves the manager closed and the process able to be taken down to the heap
    it started from; without an error the dataplane can run with the configured
    number of workers, generation 1 of the configured rules is the active one,
    the manager is open and in step with it, and the info lists the workers with
    their lcores and queues. *)
Theorem bring_up_ready cfg flows routes r : launched_with cfg flows routes r ->
  exists err i argv r', bring_up pf cfg r = Some ((err, i, argv), r') /\ brought_up cfg flows routes r r' err i argv.
Proof. apply bring_up_run. Qed.

(** What the owner relies on while the workers run: from the state that was
    brought up, [Run] comes back with a process that can be taken down, the C heap
    as it was. *)
Definition comes_back (cfg : Config) (run : M runtime Z) (r : runtime) : Prop := forall i argv r1,
  Probe cfg = false -> bring_up pf cfg r = Some (([], i, argv), r1) ->
  exists rc r2, run r1 = Some (rc, r2) /\ settled (rules_heap (native r).1) (native r2).1 /\ (native r2).2 = (native r1).2.

Lemma wind_down_run rest argv runErr r h : settled rest (native r).1 -> argv_held argv h (native r).2 ->
  closing_ok (p_eth pf) ->
  exists err stats n, wind_down pf argv runErr r = Some (err, set_native n (set_rt_stats stats (set_rulesOpen false r))) /\
    taken_down rest h (native r).2 runErr err n /\ reports (dp n.1) stats /\
    (cooperative (p_eth pf) -> initialized (dp n.1) = false).
Proof.
  intros Hset Ha Hcl. unfold wind_down. erewrite M_bind_step by done. cbv beta.
  exact (finishLifecycle_run rest argv runErr (set_rulesOpen false r) h Hset Ha Hcl).
Qed.

(** The whole life of the process leaks nothing.  Wherever bringing up fails,
    whatever the run returns, whether or not the ports can be stopped and closed:
    the owner returns, the manager is closed, the rule heap is what it was before,
    a failed start is reported again at the end, and if no error is reported
    everything is released and the C heap is back as well.  The EAL stays
    initialised only after a teardown that failed, which the error says; with
    drivers that do as they are told it never does. *)
Theorem owner_gives_back cfg flows routes run r : launched_with cfg flows routes r -> comes_back cfg run r ->
  closing_ok (p_eth pf) ->
  exists startErr err r', owner pf cfg run r = Some ((startErr, err), r') /\
    rulesOpen r' = false /\ rules_heap (native r').1 = rules_heap (native r).1 /\
    (initialized (dp (native r').1) = true -> exists rc, ETeardown rc ∈ err) /\
    (cooperative (p_eth pf) -> initialized (dp (native r').1) = false) /\ (exists more, err = startErr ++ more) /\
    (err = [] -> released (dp (native r').1) /\ (native r').2 = (native r).2).
Proof.
  intros Hl Hback Hcl. unfold owner.
  destruct (bring_up_run cfg flows routes r Hl) as (e & i & argv & r1 & Hrun & [Ha Hheap Hready Hclosed]).
  erewrite M_bind_step by exact Hrun. cbv beta iota.
  assert (exists err r2, (if is_nil e && negb (Probe cfg) then rc ← run; mret (status ERun rc) else mret e) r1 = Some (err, r2) /\
    (exists more, err = e ++ more) /\ (i = false -> r2 = r1) /\ (native r2).2 = (native r1).2 /\
    (i = true -> settled (rules_heap (native r).1) (native r2).1)) as (err & r2 & Hmid & Hmore & Hsame & Eh & Hset).
  { destruct (is_nil e && negb (Probe cfg)) eqn:Hgo.
    - apply andb_true_iff in Hgo as [->%is_nil_spec Hp%negb_true_iff].
      destruct (Hback _ _ _ Hp Hrun) as (rc & r2 & Hrun2 & Hset2 & Eh2). destruct i; [|by destruct Hheap as (_ & _ & ?)].
      erewrite M_bind_step by exact Hrun2. eexists _, r2. split; [done|]. split; [by eexists|]. done.
    - exists e, r1. split; [done|]. split; [exists []; by rewrite app_nil_r|]. split_and!; [done|done|by intros ->]. }
  erewrite M_bind_step by exact Hmid. cbv beta. destruct i.
  - destruct (wind_down_run (rules_heap (native r).1) argv err r2 (native r).2) as
      (err' & stats & n3 & Hdown & [Eheap [more' ->] Hclean Hkept] & _ & Hi); [by apply Hset|by rewrite Eh|done|].
    erewrite M_bind_step by exact Hdown. eexists e, _, _. split; [done|]. cbn [rulesOpen native set_native set_rt_stats set_rulesOpen].
    split; [done|]. split; [done|]. split; [by intros [_ ?]%Hkept|]. split; [done|]. split.
    + destruct Hmore as [more ->]. rewrite <- app_assoc. by eexists.
    + intros Enil. destruct (initialized (dp n3.1)) eqn:Ei.
      * destruct (Hkept eq_refl) as (_ & rc & Hin). rewrite Enil in Hin. by apply elem_of_nil in Hin.
      * destruct (Hclean eq_refl) as [Hrel Hback']. auto.
  - rewrite (Hsame eq_refl) in *. destruct Hheap as (E & Ei & Hne).
    eexists e, err, r1. split; [done|]. split_and!; try done; [by apply Hclosed; left|congruence|].
    intros ->. destruct Hmore as [more Hm]. by destruct e.
Qed.

(** ** [Start] *)
Lemma has_nul_spec s : has_nul s = false <-> Ascii.zero ∉ String.list_ascii_of_string s.
Proof.
  induction s as [|c s IH]; cbn; [split; [intros _; apply not_elem_of_nil|done]|].
  rewrite orb_false_iff, IH, not_elem_of_cons, Ascii.eqb_neq. split; intros [? ?]; split; congruence.
Qed.

Lemma scan_arguments_spec args : forall found,
  scan_arguments found args = Some true <->
    Forall (fun arg => has_nul arg = false) args /\ (found = true \/ "--no-pci"%string ∈ args).
Proof.
  induction args as [|arg args IH]; intros found; cbn.
  { split; [intros [= ->]; split; [done|by left]|]. by intros [_ [->|?%elem_of_nil]]. }
  rewrite Forall_cons, elem_of_cons. destruct (has_nul arg); [split; [done|by intros [[? _] _]]|].
  rewrite IH, orb_true_iff, String.eqb_eq. split.
  - intros [? [[?|?]|?]]; split; auto.
  - intros [[_ ?] [?|[?|?]]]; split; auto.
Qed.

(** A configuration the lifecycle can start from. *)
Record config_ok (cfg : Config) (flows : list FlowRule) (routes : list RouteRule) : Prop := {
  cfg_workers : 1 <= Workers cfg <= 4;
  cfg_arguments : Forall (fun arg => Ascii.zero ∉ String.list_ascii_of_string arg) (EALArgs cfg);
  cfg_no_pci : "--no-pci"%string ∈ EALArgs cfg;
  cfg_devices : Probe cfg = false -> RXDevice cfg <> ""%string /\ TXDevice cfg <> ""%string /\ RXDevice cfg <> TXDevice cfg;
  cfg_names : (Ascii.zero ∉ String.list_ascii_of_string (RXDevice cfg)) /\ Ascii.zero ∉ String.list_ascii_of_string (TXDevice cfg);
  cfg_limits : within_limits (native_flows flows) (native_routes routes);
  cfg_rules : rules_ok (native_flows flows) (native_routes routes);
}.

Lemma validate_spec cfg flows routes : rules_fit flows routes ->
  validate cfg flows routes = None <-> config_ok cfg flows routes.
Proof.
  intros Hfit. unfold validate.
  destruct ((Workers cfg <? 1) || (4 <? Workers cfg)) eqn:Hw; [split; [done|intros [? _ _ _ _ _ _]; lia]|].
  pose proof (scan_arguments_spec (EALArgs cfg) false) as Hscan.
  assert (Forall (fun arg => has_nul arg = false) (EALArgs cfg) <->
    Forall (fun arg => Ascii.zero ∉ String.list_ascii_of_string arg) (EALArgs cfg)) as Hnul
    by (split; intros H; eapply Forall_impl; [exact H|intros ? ?%has_nul_spec|exact H|intros ? ?%has_nul_spec]; done).
  destruct (scan_arguments false (EALArgs cfg)) as [[]|]; cbn [negb];
    [|split; [done|intros [_ ?%Hnul ? _ _ _ _]; by assert (Some false = Some true) by (apply Hscan; auto)]
     |split; [done|intros [_ ?%Hnul ? _ _ _ _]; by assert (@None bool = Some true) by (apply Hscan; auto)]].
  destruct (proj1 Hscan eq_refl) as [Hargs [?|Hpci]]; [done|]. apply Hnul in Hargs.
  destruct (negb (Probe cfg) && _) eqn:Hdev.
  { split; [done|]. intros [_ _ _ Hd _ _ _]. apply andb_true_iff in Hdev as [Hp%negb_true_iff Hdev].
    destruct (Hd Hp) as (? & ? & ?). rewrite !orb_true_iff, !String.eqb_eq in Hdev. by destruct Hdev as [[?|?]|?]. }
  destruct (has_nul (RXDevice cfg) || has_nul (TXDevice cfg)) eqn:Hnames.
  { split; [done|]. intros [_ _ _ _ [H1%has_nul_spec H2%has_nul_spec] _ _]. by rewrite H1, H2 in Hnames. }
  apply orb_false_iff in Hnames as [Hn1%has_nul_spec Hn2%has_nul_spec].
  pose proof (validate_elements_spec flows routes Hfit) as Hve.
  destruct (validate_elements flows routes).
  - split; [done|]. intros [_ _ _ _ _ ? ?]. by assert (Some r = None) by by apply Hve.
  - split; [intros _|done]. destruct (proj1 Hve eq_refl). split; try done; [lia|].
    intros Hp. rewrite Hp in Hdev. cbn in Hdev. rewrite !orb_false_iff, !String.eqb_neq in Hdev. by destruct Hdev as [[? ?] ?].
Qed.

(** The configuration check is exact.  [validate] accepts a configuration
    exactly when the native side can take it: one to four workers, EAL arguments
    without a NUL and with [--no-pci], distinct and non-empty device names unless
    probing, and rules that satisfy the native contract. *)
Theorem validate_exact cfg flows routes : rules_fit flows routes ->
  validate cfg flows routes = None <-> config_ok cfg flows routes.
Proof. apply validate_spec. Qed.

(** The configuration [Start] checks: no workers means one. *)
Definition defaulted (cfg : Config) : Config :=
  with_workers_rules (if Workers cfg =? 0 then 1 else Workers cfg) (CfgRules cfg) cfg.

(** [Start] decides once and shares nothing.  It is defined for every
    configuration; it refuses a bad one and a second attempt without touching
    anything, so a bad configuration does not use up the attempt; otherwise the
    attempt is used up, and both the owner's and the manager's copy of the rules
    live in arrays the caller has never seen, ready to be brought up. *)
Theorem Start_launches cfg attempted r flows routes :
  pristine (native r).1 -> rulesOpen r = false -> heap_ok (memory r) ->
  shows_in (CfgRules cfg) (memory r) flows routes -> rules_fit flows routes ->
  exists attempted' res r', Start growth cfg attempted r = Some ((attempted', res), r') /\ native r' = native r /\
    match res with
    | inl (BadConfig e) => validate (defaulted cfg) flows routes = Some e /\ ~ config_ok (defaulted cfg) flows routes /\
        attempted' = attempted /\ r' = r
    | inl OnlyOneAttempt => attempted = true /\ attempted' = true /\ r' = r
    | inr cfg' => config_ok (defaulted cfg) flows routes /\ attempted = false /\ attempted' = true /\
        launched_with cfg' flows routes r' /\ cfg' = with_workers_rules (Workers (defaulted cfg)) (CfgRules cfg') cfg /\
        private_since (memory r) (CfgRules cfg') /\ private_since (memory r) (currentRules r')
    end.
Proof.
  intros Hpr Hop Hheap Hshow Hfit. unfold Start. cbv zeta. fold (defaulted cfg).
  erewrite M_bind_step by (apply on_flows_elements; apply Hshow). cbv beta.
  erewrite M_bind_step by (apply on_routes_elements; apply Hshow). cbv beta.
  pose proof (validate_spec (defaulted cfg) flows routes Hfit) as Hval.
  destruct (validate (defaulted cfg) flows routes) as [e|].
  { eexists _, _, r. split; [done|]. split_and!; try done. by intros ?%Hval. }
  destruct (proj1 Hval eq_refl). destruct attempted; [by eexists _, _, r|].
  destruct (cloneRules_run growth (memory r) r (CfgRules cfg) flows routes) as (c1 & h1 & Hrun1 & Hl1 & Hs1 & Hp1);
    [by apply later_refl|done|].
  erewrite M_bind_step by exact Hrun1. cbv beta.
  destruct (cloneRules_run growth h1 (set_memory h1 r) c1 flows routes) as (c2 & h2 & Hrun2 & Hl2 & Hs2 & Hp2);
    [apply later_refl, Hl1|done|].
  erewrite M_bind_step by exact Hrun2. cbv beta.
  erewrite M_bind_step by done. eexists _, _, _. split; [done|]. split; [done|]. split_and!; try done; [|by eapply private_earlier].
  split; try done; [apply Hl2|by eapply shows_in_later; [apply Hl1| |]|by apply validate_elements_spec|cbn in *; lia].
Qed.

End LifecycleSpec.
