(* ===== verification/Hooks.v ===== *)
(** * The native self tests kept in the implementation files

    [dp_test_worker_stats_layout] ([dp_runtime.c]), [dp_test_tx_partial_ownership]
    ([dp_tx.c]) and the validation hooks of [dp_port.c]: production functions run
    on fixed inputs, with the expected numbers checked by the hook itself. *)
From Stdlib Require Import ZArith Lia.
From stdpp Require Import base list numbers option gmap strings.
From S2P Require Import Prelude Packet Api Tables Heap Rcu State Worker Runtime Port.

(** ** Boundary validation *)
Definition dp_test_queue_capacity (max_rx max_tx workers : Z) : Z :=
  validate_queue_capacity max_rx max_tx workers.
Definition dp_test_worker_socket (baseline_socket worker_socket : Z) : Z :=
  validate_worker_socket baseline_socket worker_socket.

(** ** Failure injection

    The three test switches, -1 when off; [setup_port], [dp_worker_run] and
    [dp_dataplane_run] take their values as arguments. *)
Record test_switches := {
  test_launch_failure_worker : Z;
  test_worker_failure_worker : Z;
  test_queue_setup_failure : Z;
}.

Definition test_switches_off : test_switches := {|
  test_launch_failure_worker := -1; test_worker_failure_worker := -1; test_queue_setup_failure := -1 |}.

Definition dp_test_inject_remote_launch_failure (worker_id : Z) (t : test_switches) : test_switches := {|
  test_launch_failure_worker := worker_id; test_worker_failure_worker := test_worker_failure_worker t;
  test_queue_setup_failure := test_queue_setup_failure t |}.
Definition dp_test_inject_worker_failure (worker_id : Z) (t : test_switches) : test_switches := {|
  test_launch_failure_worker := test_launch_failure_worker t; test_worker_failure_worker := worker_id;
  test_queue_setup_failure := test_queue_setup_failure t |}.
Definition dp_test_inject_queue_setup_failure (queue_id : Z) (t : test_switches) : test_switches := {|
  test_launch_failure_worker := test_launch_failure_worker t;
  test_worker_failure_worker := test_worker_failure_worker t; test_queue_setup_failure := queue_id |}.

(** ** The accounting identities, as the hooks test them *)

(** The five balance conditions that both hooks repeat. *)
Definition unbalanced (s : dp_packet_stats) : bool :=
  negb (rx s =? u64 (u64 (parse_ok s + parse_unsupported s) + parse_malformed s)) ||
  negb (parse_ok s =? u64 (u64 (flow_hit s + route_hit s) + lookup_miss s)) ||
  negb (parse_ok s =? u64 (u64 (action_drop s + action_forward s) + action_rewrite s)) ||
  negb (u64 (action_forward s + action_rewrite s) =? u64 (tx_accepted s + tx_unsent s)) ||
  negb (drop_ s =? u64 (u64 (u64 (parse_unsupported s + parse_malformed s) + action_drop s) + tx_unsent s)).

(** ** [dp_test_worker_stats_layout] *)

(** The counters the hook writes into its two zeroed contexts. *)
Definition layout_stats_0 : dp_packet_stats := {|
  rx := 4; parse_ok := 4; parse_unsupported := 0; parse_malformed := 0; flow_hit := 4;
  route_hit := 0; lookup_miss := 0; action_drop := 0; action_forward := 4; action_rewrite := 0;
  tx_accepted := 4; tx_unsent := 0; drop_ := 0; rx_bursts := 10; rx_empty_polls := 8; tx_bursts := 4 |}.
Definition layout_stats_1 : dp_packet_stats := {|
  rx := 6; parse_ok := 4; parse_unsupported := 1; parse_malformed := 1; flow_hit := 0;
  route_hit := 2; lookup_miss := 2; action_drop := 2; action_forward := 1; action_rewrite := 1;
  tx_accepted := 1; tx_unsent := 1; drop_ := 5; rx_bursts := 20; rx_empty_polls := 15; tx_bursts := 2 |}.

(** The totals it expects. *)
Definition layout_total : dp_packet_stats := {|
  rx := 10; parse_ok := 8; parse_unsupported := 1; parse_malformed := 1; flow_hit := 4;
  route_hit := 2; lookup_miss := 2; action_drop := 2; action_forward := 5; action_rewrite := 1;
  tx_accepted := 5; tx_unsent := 1; drop_ := 5; rx_bursts := 30; rx_empty_polls := 23; tx_bursts := 6 |}.

(** [addr0] and [addr1]: the addresses of [contexts[0]] and [contexts[1]]. *)
Definition dp_test_worker_stats_layout (RTE_CACHE_LINE_SIZE addr0 addr1 : Z) : Z :=
  if negb (addr0 mod RTE_CACHE_LINE_SIZE =? 0) || (u64 (addr1 - addr0) <? RTE_CACHE_LINE_SIZE)
  then - EIO else
  let total := dp_packet_stats_add stats_zero layout_stats_0 in
  let total := dp_packet_stats_add total layout_stats_1 in
  if negb (bool_decide (total = layout_total)) || unbalanced total then - EIO else 0.

(** ** [dp_test_tx_partial_ownership] *)

(** What DPDK answers: a private pool, and the four mbufs taken from it. *)
Record tx_test_env := {
  tx_pool_create : string -> Z -> Z -> Z -> Z -> Z -> option Z;   (** [None]: NULL *)
  tx_buf_size : Z;                                              (** [RTE_MBUF_DEFAULT_BUF_SIZE] *)
  tx_socket_id : Z;                                             (** [rte_socket_id()] *)
  tx_alloc_bulk : Z -> Z -> option (list (Z * rte_mbuf));         (** [None]: non-zero *)
}.

Definition tx_test_stats : dp_packet_stats := {|
  rx := 4; parse_ok := 4; parse_unsupported := 0; parse_malformed := 0; flow_hit := 4;
  route_hit := 0; lookup_miss := 0; action_drop := 0; action_forward := 4; action_rewrite := 0;
  tx_accepted := 0; tx_unsent := 0; drop_ := 0; rx_bursts := 0; rx_empty_polls := 0; tx_bursts := 0 |}.

(** The mbufs of the private pool that are not free: those the program owns. *)
Definition in_use_count : M packet_world Z :=
  w ← get; mret (Z.of_nat (size (pk_mbufs w))).

(** Between the allocation of the mbufs and the release of the pool. *)
Definition tx_partial_body (pkts : list Z) : M packet_world Z :=
  dp_complete_tx pkts 4 2;;
  w ← get;
  in_use ← in_use_count;
  let stats := pk_stats w in
  let ret :=
    if negb (rx stats =? 4) || negb (parse_ok stats =? 4) || negb (flow_hit stats =? 4) ||
       negb (action_forward stats =? 4) || negb (tx_accepted stats =? 2) ||
       negb (tx_unsent stats =? 2) || negb (drop_ stats =? 2) ||
       unbalanced stats || negb (in_use =? 2)
    then - EIO else 0 in
  id0 ← lift (pkts !! 0%nat);
  rte_pktmbuf_free (Some id0);;
  id1 ← lift (pkts !! 1%nat);
  rte_pktmbuf_free (Some id1);;
  in_use ← in_use_count;
  mret (if negb (in_use =? 0) then - EIO else ret).

Section TxTest.
Context {T : DpdkTables} {Q : Qsbr}.

Definition dp_test_tx_partial_ownership (env : tx_test_env) (d : dp_state) : option Z :=
  if negb (initialized d) || running d || is_set (pool d) then Some (- EBUSY) else
  match tx_pool_create env "dp_partial_tx_test" 63 0 0 (tx_buf_size env) (tx_socket_id env) with
  | None => Some (- ENOMEM)
  | Some p =>
    match tx_alloc_bulk env p 4 with
    | None => Some (- ENOMEM)
    | Some bulk =>
      fst <$> tx_partial_body (bulk.*1)
        {| pk_mbufs := list_to_map bulk; pk_stats := tx_test_stats; pk_wire := [] |}
    end
  end.
End TxTest.
