(* ===== verification/HooksSpec.v ===== *)
(** * What the native self tests establish *)
From Stdlib Require Import ZArith Lia.
From stdpp Require Import base list numbers option gmap strings.
From S2P Require Import Prelude Packet Api Tables Heap Rcu State StatsSpec Worker WorkerSpec Runtime RuntimeSpec Port Hooks.

(** Additions of [uint64_t] values, wrapped once. *)
Lemma u64_sum4 a b c d : u64 (u64 (u64 (a + b) + c) + d) = u64 (a + b + c + d).
Proof. by rewrite (wrap_add_l 64 (u64 (a + b) + c)), <- Z.add_assoc, (wrap_add_l 64 (a + b)), !Z.add_assoc. Qed.

(** The hooks' test is the invariant [balanced], on counters that fit. *)
Lemma unbalanced_spec s : stats_fit s -> unbalanced s = false <-> balanced s.
Proof.
  intros Hs. assert (forall c, u64 (get_counter s c) = get_counter s c) as Hid by (intros c; apply wrap_id, Hs).
  pose proof (Hid Rx) as E1. pose proof (Hid Parse_ok) as E2. pose proof (Hid Drop) as E3. cbn in E1, E2, E3.
  unfold unbalanced. rewrite u64_sum4, !wrap_add_l, !orb_false_iff, !negb_false_iff, !Z.eqb_eq. split.
  - intros [[[[H1 H2] H3] H4] H5]. split; rewrite ?E1, ?E2, ?E3; done.
  - intros [H1 H2 H3 H4 H5]. rewrite E1 in H1. rewrite E2 in H2, H3. rewrite E3 in H5. by split_and!.
Qed.

(** The layout test decides the layout.  Its arithmetic always succeeds
    (the aggregation of the two contexts gives the expected totals, which satisfy
    the accounting identities), so it returns 0 exactly when the first context is
    aligned to a cache line and the second starts at least one line later, and
    -EIO otherwise. *)
Theorem dp_test_worker_stats_layout_decides line addr0 addr1 :
  dp_test_worker_stats_layout line addr0 addr1 =
    if bool_decide (addr0 mod line = 0 /\ line <= u64 (addr1 - addr0)) then 0 else - EIO.
Proof.
  unfold dp_test_worker_stats_layout.
  assert (negb (bool_decide (dp_packet_stats_add (dp_packet_stats_add stats_zero layout_stats_0) layout_stats_1 =
    layout_total)) || unbalanced (dp_packet_stats_add (dp_packet_stats_add stats_zero layout_stats_0) layout_stats_1) = false)
    as -> by by vm_compute.
  case_bool_decide as Hb.
  - destruct Hb as [-> ?]. cbn. by rewrite (proj2 (Z.ltb_ge _ _)).
  - destruct (Z.eqb_spec (addr0 mod line) 0); [|done]. cbn.
    destruct (Z.ltb_spec (u64 (addr1 - addr0)) line); [done|]. by destruct Hb.
Qed.

(** ** Partial transmission *)

(** [rte_pktmbuf_alloc_bulk] fills the array with that many distinct mbufs. *)
Definition bulk_ok (env : tx_test_env) : Prop :=
  forall p n bulk, tx_alloc_bulk env p n = Some bulk -> Z.of_nat (length bulk) = n /\ NoDup (bulk.*1).

(** The pool holds the two mbufs the driver has, and the two that come back. *)
Lemma bulk_split (x0 x1 x2 x3 : Z * rte_mbuf) : NoDup ([x0; x1; x2; x3].*1) ->
  list_to_map [x0; x1; x2; x3] = mbuf_map [x2; x3] (list_to_map [x0; x1]).
Proof.
  intros Hnd. unfold mbuf_map. rewrite <- list_to_map_app. apply list_to_map_proper; [done|].
  apply (Permutation_app_comm [x0; x1] [x2; x3]).
Qed.

Lemma bulk_distinct (x0 x1 x2 x3 : Z * rte_mbuf) : NoDup ([x0; x1; x2; x3].*1) ->
  distinct_from [x2; x3] (list_to_map [x0; x1]).
Proof.
  intros Hnd. split; [cbn in *; by do 2 apply NoDup_cons in Hnd as [_ Hnd]|].
  intros id Hid. apply not_elem_of_list_to_map_1. cbn in *. rewrite !NoDup_cons in Hnd.
  destruct Hnd as (H0 & H1 & _). apply elem_of_cons in Hid as [->|[->|[]%elem_of_nil]%elem_of_cons]; set_solver.
Qed.

Lemma tx_partial_body_run bulk : length bulk = 4%nat -> NoDup (bulk.*1) ->
  exists w, tx_partial_body (bulk.*1)
    {| pk_mbufs := list_to_map bulk; pk_stats := tx_test_stats; pk_wire := [] |} = Some (0, w) /\ pk_mbufs w = ∅.
Proof.
  intros Hl Hnd. destruct bulk as [|x0 [|x1 [|x2 [|x3 [|]]]]]; try done. clear Hl.
  rewrite bulk_split by done. set (B := list_to_map [x0; x1]).
  pose proof (dp_complete_tx_spec B [x0; x1] [x2; x3] ([x0; x1; x2; x3].*1)
    {| pk_mbufs := mbuf_map [x2; x3] B; pk_stats := tx_test_stats; pk_wire := [] |} (bulk_distinct _ _ _ _ Hnd)
    eq_refl eq_refl) as Hrun.
  assert (x0.1 <> x1.1) as Hne by (cbn in Hnd; apply NoDup_cons in Hnd as [Hnd _]; set_solver).
  assert (B = <[x0.1 := x0.2]> {[x1.1 := x1.2]}) as EB by by destruct x0, x1.
  assert (delete (x0.1) B = {[x1.1 := x1.2]}) as E0
    by (rewrite EB; apply delete_insert_id; by rewrite lookup_singleton_ne).
  assert (size B = 2%nat) as Hsize
    by (rewrite EB, map_size_insert_None; [by rewrite map_size_singleton|by rewrite lookup_singleton_ne]).
  unfold tx_partial_body. erewrite M_bind_step by exact Hrun. cbv beta.
  unfold in_use_count. do 2 (erewrite M_bind_step by done; cbv beta). cbn [pk_mbufs pk_stats]. rewrite Hsize.
  erewrite M_bind_step by done. cbv beta.
  erewrite M_bind_step by (unfold rte_pktmbuf_free; cbn [pk_mbufs]; rewrite EB, lookup_insert_eq; done). cbv beta.
  erewrite M_bind_step by done. cbv beta.
  erewrite M_bind_step by (unfold rte_pktmbuf_free, with_mbufs; cbn [pk_mbufs]; rewrite <- EB, E0, lookup_singleton_eq; done).
  cbv beta. erewrite M_bind_step by done. cbv beta.
  unfold with_mbufs. cbn [pk_mbufs pk_stats pk_wire]. rewrite delete_singleton_eq, map_size_empty.
  eexists. split; [vm_compute; reflexivity|reflexivity].
Qed.

Section TxTest.
Context {T : DpdkTables} {Q : Qsbr}.

(** A partial transmission neither leaks nor frees twice.  On a router that
    is initialised, idle and without a pool, whatever four mbufs the private pool
    hands out, the test runs to its end (every free is of a live mbuf), finds the
    counters and the number of outstanding mbufs as expected, and returns 0; the
    only other results are -EBUSY in any other state and -ENOMEM when the pool or
    the mbufs cannot be had. *)
Theorem dp_test_tx_partial_ownership_passes env (d : dp_state) : bulk_ok env ->
  dp_test_tx_partial_ownership env d = Some
    (if initialized d && negb (running d || is_set (pool d)) then
       match tx_pool_create env "dp_partial_tx_test" 63 0 0 (tx_buf_size env) (tx_socket_id env) with
       | Some p => if is_set (tx_alloc_bulk env p 4) then 0 else - ENOMEM
       | None => - ENOMEM
       end
     else - EBUSY).
Proof.
  intros Hbulk. unfold dp_test_tx_partial_ownership.
  destruct (initialized d), (running d), (is_set (pool d)); cbn [negb orb andb]; try done.
  destruct (tx_pool_create env _ _ _ _ _ _) as [p|]; [|done].
  destruct (tx_alloc_bulk env p 4) as [bulk|] eqn:Eb; [|done]. cbn [is_set].
  destruct (Hbulk p 4 bulk Eb) as [Hl Hnd].
  destruct (tx_partial_body_run bulk) as (w & Hrun & _); [lia|done|]. by rewrite Hrun.
Qed.
End TxTest.
