(* ===== verification/Dataplane.v ===== *)
(** * Running the dataplane: [dp_dataplane_run] of [dp_worker.c]

    Launching and joining remote lcores are calls into the EAL; each one is a
    step of the world, in which the other threads may act too.  Worker 0 runs on
    the calling thread. *)
From Stdlib Require Import ZArith Lia.
From stdpp Require Import base list numbers option gmap strings.
From S2P Require Import Prelude Packet Api Tables Heap Rcu State Worker.

Section Dataplane.
Context {T : DpdkTables} {Q : Qsbr}.

Definition dp_dataplane_request_stop : M world unit := on_dp (set_stop true).

Record launch_env := {
  rte_eal_remote_launch : Z -> M world Z;   (** of [dp_worker_run] on that lcore *)
  rte_eal_wait_lcore : Z -> M world Z;
  test_launch_failure : Z;                  (** the injection hook *)
  run_worker0 : M world Z;                  (** [dp_worker_run(&dp.workers[0])] *)
}.

Context (env : launch_env).

(** [for (i = from; i < from + n; i++)]: the error that stopped it, or 0, and
    how many workers were launched. *)
Fixpoint launch_loop (from n : nat) (launched_count : Z) : M world (Z * Z) :=
  match n with
  | O => mret (0, launched_count)
  | S n =>
    w ← get;
    ctx ← lift (workers (dp w) !! from);
    ret ← (if test_launch_failure env =? Z.of_nat from then mret (- EIO)
           else rte_eal_remote_launch env (lcore_id (ctx_info ctx)));
    if negb (ret =? 0) then
      on_dp (set_stop true);;
      mret ((if ret <? 0 then ret else - EIO), launched_count)
    else
      on_ctx from (set_launched true);;
      launch_loop (S from) n (launched_count + 1)
  end.

Definition run_main_worker : M world Z :=
  on_ctx 0 (set_launched true);;
  ret ← run_worker0 env;
  on_ctx 0 (set_launched false);;
  mret (if ret <? 0 then ret else 0).

Fixpoint join_loop (from n : nat) (first_error : Z) : M world Z :=
  match n with
  | O => mret first_error
  | S n =>
    w ← get;
    ctx ← lift (workers (dp w) !! from);
    ret ← rte_eal_wait_lcore env (lcore_id (ctx_info ctx));
    on_ctx from (set_launched false);;
    join_loop (S from) n (if (ret <? 0) && (first_error =? 0) then ret else first_error)
  end.

Definition dp_dataplane_run : M world Z :=
  w ← get;
  if negb (ready (dp w)) then mret (- ENODEV) else
  if ran (dp w) then mret (- EALREADY) else
  on_dp (set_ran true);;
  on_dp (set_running true);;
  w ← get;
  '(first_error, launched_count) ← launch_loop 1 (Z.to_nat (worker_count (dp w)) - 1) 0;
  first_error ← (if first_error =? 0 then run_main_worker else mret first_error);
  first_error ← join_loop 1 (Z.to_nat launched_count) first_error;
  on_dp (set_running false);;
  mret first_error.
End Dataplane.
