(* ===== verification/DataplaneSpec.v ===== *)
(** * Every launched worker is joined *)
From Stdlib Require Import ZArith Lia.
From stdpp Require Import base list numbers option gmap strings.
From S2P Require Import Prelude Packet Api Tables Heap Rcu State Worker Dataplane.

Section DataplaneSpec.
Context {T : DpdkTables} {Q : Qsbr}.

(** Worker [j] is marked as launched. *)
Definition up (w : world) (j : nat) : Prop :=
  exists ctx, workers (dp w) !! j = Some ctx /\ launched ctx = true.

(** A step of the environment leaves the marks and the flags of the run alone. *)
Definition quiet (w w' : world) : Prop :=
  length (workers (dp w')) = length (workers (dp w)) /\ (forall j, up w' j <-> up w j) /\
  running (dp w') = running (dp w) /\ ran (dp w') = ran (dp w) /\
  (stop (dp w) = true -> stop (dp w') = true).

Definition quiet_call (m : M world Z) : Prop :=
  forall w, exists ret w', m w = Some (ret, w') /\ quiet w w'.

Record launch_ok (env : launch_env) : Prop := {
  launch_quiet lcore : quiet_call (rte_eal_remote_launch env lcore);
  wait_quiet lcore : quiet_call (rte_eal_wait_lcore env lcore);
  worker0_quiet : quiet_call (run_worker0 env);
}.

Lemma up_on_ctx i b w : (i < length (workers (dp w)))%nat ->
  exists w', on_ctx i (set_launched b) w = Some (tt, w') /\
    length (workers (dp w')) = length (workers (dp w)) /\
    (forall j, up w' j <-> (j = i /\ b = true) \/ (j <> i /\ up w j)) /\
    running (dp w') = running (dp w) /\ ran (dp w') = ran (dp w) /\ stop (dp w') = stop (dp w).
Proof.
  intros [ctx Hctx]%lookup_lt_is_Some_2. eexists. split; [done|].
  cbn [dp set_dp workers set_workers running ran stop]. rewrite length_alter. split_and!; try done.
  intros j. unfold up. cbn [dp set_dp workers set_workers]. destruct (decide (j = i)) as [->|Hne].
  - rewrite list_lookup_alter_eq, Hctx. cbn. split.
    + intros (c & [= <-] & Hb). by left.
    + intros [[_ ->]|[? _]]; [|done]. by eexists.
  - rewrite list_lookup_alter_ne by done. split; [by right|]. by intros [[? _]|[_ ?]].
Qed.

Section Loops.
Context (env : launch_env) (Henv : launch_ok env).

Lemma worker_ctx w i : (i < length (workers (dp w)))%nat -> exists ctx, workers (dp w) !! i = Some ctx.
Proof. apply lookup_lt_is_Some_2. Qed.

(** The loop marks a prefix of the workers; it marks all of them unless it
    reports an error, and then [stop] is set. *)
Lemma launch_loop_spec : forall n from k w, (from + n <= length (workers (dp w)))%nat ->
  exists e m w', launch_loop env from n k w = Some ((e, k + Z.of_nat m), w') /\ (m <= n)%nat /\ e <= 0 /\
    (e = 0 -> m = n) /\ (e < 0 -> stop (dp w') = true) /\
    (Z.of_nat from <= test_launch_failure env < Z.of_nat from + Z.of_nat n -> e < 0) /\
    length (workers (dp w')) = length (workers (dp w)) /\
    (forall j, up w' j <-> (from <= j < from + m)%nat \/ up w j) /\
    running (dp w') = running (dp w) /\ ran (dp w') = ran (dp w).
Proof.
  induction n as [|n IH]; intros from k w HL.
  { exists 0, 0%nat, w. cbn. rewrite Z.add_0_r. split_and!; try done; try lia. intros j. split; [by right|].
    intros [?|?]; [lia|done]. }
  destruct (worker_ctx w from) as [ctx Hctx]; [lia|]. cbn [launch_loop].
  erewrite M_bind_step by done. cbv beta. rewrite Hctx. erewrite M_bind_step by done. cbv beta.
  assert (exists ret w1, (if test_launch_failure env =? Z.of_nat from then mret (- EIO)
    else rte_eal_remote_launch env (lcore_id (ctx_info ctx))) w = Some (ret, w1) /\ quiet w w1) as (ret & w1 & Hrun & Hq).
  { case_if; [by exists (- EIO), w|]. apply Henv. }
  assert (test_launch_failure env = Z.of_nat from -> ret = - EIO) as Hinj.
  { intros Hf. rewrite Hf, Z.eqb_refl in Hrun. by injection Hrun. }
  erewrite M_bind_step by exact Hrun. cbv beta. destruct Hq as (HL1 & Hup1 & Hr1 & Hran1 & _).
  destruct (Z.eqb_spec ret 0) as [->|Hne]; cbn [negb].
  - destruct (up_on_ctx from true w1) as (w2 & Hset & HL2 & Hup2 & Hr2 & Hran2 & _); [lia|].
    erewrite M_bind_step by exact Hset. cbv beta.
    destruct (IH (S from) (k + 1) w2) as (e & m & w' & Hloop & Hm & He & He0 & Hst & Hinj' & HL' & Hup' & Hr' & Hran'); [lia|].
    exists e, (S m), w'. rewrite Hloop. split_and!; try congruence; try lia.
    + do 3 f_equal. lia.
    + done.
    + intros ?. apply Hinj'. destruct (decide (test_launch_failure env = Z.of_nat from)) as [Hf|]; [|lia].
      by apply Hinj in Hf.
    + intros j. rewrite Hup', Hup2, Hup1. split; [intros [?|[[-> _]|[_ ?]]]; auto with lia|].
      intros [?|?]; [|destruct (decide (j = from)); auto with lia].
      destruct (decide (j = from)); [right; left; done|left; lia].
  - erewrite M_bind_step by done. cbv beta. exists (if ret <? 0 then ret else - EIO), 0%nat.
    eexists. rewrite Z.add_0_r. split; [done|]. unfold EIO.
    split_and!; try done; try lia; try (destruct (Z.ltb_spec ret 0); lia).
    intros j. split; [intros Hj; right; by apply Hup1|]. intros [?|?]; [lia|by apply Hup1].
Qed.

Lemma join_loop_spec : forall n from e w, (from + n <= length (workers (dp w)))%nat -> e <= 0 ->
  exists e' w', join_loop env from n e w = Some (e', w') /\ e' <= 0 /\ (e <> 0 -> e' = e) /\
    length (workers (dp w')) = length (workers (dp w)) /\
    (forall j, up w' j <-> up w j /\ ~ (from <= j < from + n)%nat) /\
    running (dp w') = running (dp w) /\ ran (dp w') = ran (dp w) /\ (stop (dp w) = true -> stop (dp w') = true).
Proof.
  induction n as [|n IH]; intros from e w HL He.
  { exists e, w. cbn. split_and!; try done. intros j. split; [|by intros [? _]]. intros ?. split; [done|lia]. }
  destruct (worker_ctx w from) as [ctx Hctx]; [lia|]. cbn [join_loop].
  erewrite M_bind_step by done. cbv beta. rewrite Hctx. erewrite M_bind_step by done. cbv beta.
  destruct (wait_quiet _ Henv (lcore_id (ctx_info ctx)) w) as (ret & w1 & Hrun & HL1 & Hup1 & Hr1 & Hran1 & Hs1).
  erewrite M_bind_step by exact Hrun. cbv beta.
  destruct (up_on_ctx from false w1) as (w2 & Hset & HL2 & Hup2 & Hr2 & Hran2 & Hs2); [lia|].
  erewrite M_bind_step by exact Hset. cbv beta.
  set (e1 := if (ret <? 0) && (e =? 0) then ret else e).
  assert (e1 <= 0 /\ (e <> 0 -> e1 = e)) as [He1 Hk].
  { unfold e1. destruct (Z.ltb_spec ret 0), (Z.eqb_spec e 0); cbn; lia. }
  destruct (IH (S from) e1 w2) as (e' & w' & Hloop & He' & Hk' & HL' & Hup' & Hr' & Hran' & Hs'); [lia|done|].
  exists e', w'. rewrite Hloop. split_and!; try congruence; try done.
  - intros Hne. rewrite Hk'; rewrite Hk; done.
  - intros j. rewrite Hup', Hup2, Hup1. split.
    + intros [[[_ ?]|[? ?]] ?]; [done|]. split; [done|lia].
    + intros [? ?]. split; [right; split; [lia|done]|lia].
  - intros Hs. apply Hs'. rewrite Hs2. auto.
Qed.

(** Worker 0 runs only when every launch succeeded; either way it is not left marked. *)
Lemma main_step e w : e <= 0 -> (0 < length (workers (dp w)))%nat ->
  exists e' w', (if e =? 0 then run_main_worker env else mret e) w = Some (e', w') /\ e' <= 0 /\
    (e <> 0 -> e' = e) /\ length (workers (dp w')) = length (workers (dp w)) /\
    (forall j, up w' j -> (j = 0%nat /\ e <> 0 /\ up w j) \/ (j <> 0%nat /\ up w j)) /\
    ran (dp w') = ran (dp w) /\ (stop (dp w) = true -> stop (dp w') = true).
Proof.
  intros He HL. destruct (Z.eqb_spec e 0) as [->|Hne].
  2:{ exists e, w. split_and!; try done. intros j Hj. destruct (decide (j = 0%nat)); auto. }
  unfold run_main_worker.
  destruct (up_on_ctx 0 true w) as (w1 & Hset & HL1 & Hup1 & _ & Hran1 & Hst1); [lia|].
  erewrite M_bind_step by exact Hset. cbv beta.
  destruct (worker0_quiet _ Henv w1) as (ret & w2 & Hrun & HL2 & Hup2 & _ & Hran2 & Hst2).
  erewrite M_bind_step by exact Hrun. cbv beta.
  destruct (up_on_ctx 0 false w2) as (w3 & Hset3 & HL3 & Hup3 & _ & Hran3 & Hst3); [lia|].
  erewrite M_bind_step by exact Hset3. cbv beta.
  eexists _, w3. split; [done|]. split_and!; try done; try congruence.
  - destruct (Z.ltb_spec ret 0); lia.
  - intros j [[_ ?]|[Hj [[? _]|[_ ?]]%Hup2%Hup1]]%Hup3; [done|done|by right].
  - intros Hs. rewrite Hst3. apply Hst2. by rewrite Hst1.
Qed.

(** A run joins every worker it launched, on every path: it is defined and
    returns 0 or a negative code, and afterwards no worker is marked as
    launched, the run is over and cannot be repeated; if launching fails half
    way, [stop] is set before the workers already running are joined. *)
Theorem dp_dataplane_run_joins w :
  ready (dp w) = true -> ran (dp w) = false -> 1 <= worker_count (dp w) ->
  (Z.to_nat (worker_count (dp w)) <= length (workers (dp w)))%nat -> (forall j, ~ up w j) ->
  exists ret w', dp_dataplane_run env w = Some (ret, w') /\ ret <= 0 /\
    (forall j, ~ up w' j) /\ running (dp w') = false /\ ran (dp w') = true /\
    (1 <= test_launch_failure env < worker_count (dp w) -> ret < 0 /\ stop (dp w') = true).
Proof.
  intros Hready Hran Hc HL Hup. unfold dp_dataplane_run.
  erewrite M_bind_step by done. cbv beta. rewrite Hready, Hran. cbn [negb].
  do 3 (erewrite M_bind_step by done; cbv beta).
  set (w1 := set_dp (set_running true _) _).
  assert (worker_count (dp w1) = worker_count (dp w) /\ workers (dp w1) = workers (dp w) /\
    running (dp w1) = true /\ ran (dp w1) = true) as (Hc1 & Hw1 & Hr1 & Hran1) by done.
  assert (forall j, up w1 j <-> up w j) as Hup1 by done. clearbody w1. rewrite Hc1.
  destruct (launch_loop_spec (Z.to_nat (worker_count (dp w)) - 1) 1 0 w1) as
    (e & m & w2 & Hloop & Hm & He & He0 & Hst & Hinj & HL2 & Hup2 & Hr2 & Hran2); [rewrite Hw1; lia|].
  erewrite M_bind_step by exact Hloop. cbv beta iota.
  destruct (main_step e w2) as (e3 & w3 & Hmain & He3 & Hk3 & HL3 & Hup3 & Hran3 & Hst3); [lia|rewrite HL2, Hw1; lia|].
  erewrite M_bind_step by exact Hmain. cbv beta. rewrite Z.add_0_l, Nat2Z.id.
  destruct (join_loop_spec m 1 e3 w3) as (e4 & w4 & Hjoin & He4 & Hk4 & HL4 & Hup4 & Hr4 & Hran4 & Hst4);
    [rewrite HL3, HL2, Hw1; lia|done|].
  erewrite M_bind_step by exact Hjoin. cbv beta. erewrite M_bind_step by done. cbv beta.
  eexists e4, _. split; [done|]. split_and!; try done.
  - intros j [[(-> & Hne & Hu)|[Hj Hu]]%Hup3 Hn]%Hup4; apply Hup2 in Hu as [?|Hu];
      first [lia|by apply Hup1, Hup in Hu].
  - cbn. congruence.
  - intros Hf. assert (e < 0) as Hneg by (apply Hinj; lia). cbn. rewrite Hk4 by (rewrite Hk3; lia).
    rewrite Hk3 by lia. auto.
Qed.
End Loops.
End DataplaneSpec.
