(* ===== verification/ServeSpec.v ===== *)
(** * A run that comes back

    [LifecycleSpec] takes the run of the dataplane as a parameter that leaves a
    process which can be taken down.  This file discharges that for a process with
    one worker: [dp_dataplane_run] with [dp_worker_run] on the calling thread,
    while other threads publish. *)
From Stdlib Require Import ZArith Lia.
From stdpp Require Import base list numbers option gmap strings relations.
From S2P Require Import Prelude Host Packet Api Tables Heap Snapshot Action Rcu State StatsSpec Rules Worker WorkerSpec RunSpec Publish PublishSpec ReaderSpec Binding Runtime RuntimeSpec Port PortSpec Control Lifecycle LifecycleSpec Dataplane.

Section Serve.
Context {H : Host} {HO : HostOk H} {C : Checksums} {CO : ChecksumsOk C}.
Context {T : DpdkTables} {TO : DpdkTablesOk T} {Q : Qsbr} {QO : QsbrOk Q}.

(** What the other threads leave alone while the only worker runs. *)
Record undisturbed (w w' : world) : Prop := {
  ud_run : running (dp w') = running (dp w) /\ active_workers (dp w') = active_workers (dp w);
  ud_workers : worker_count (dp w') = worker_count (dp w) /\ length (workers (dp w')) = length (workers (dp w));
  ud_ports : owned (dp w') = owned (dp w) /\ started (dp w') = started (dp w);
}.

#[export] Instance undisturbed_preorder : PreOrder undisturbed.
Proof.
  split; [intros w; by split; split_and!|].
  intros w1 w2 w3 [[? ?] [? ?] [? ?]] [[? ?] [? ?] [? ?]]. split; split; congruence.
Qed.

Lemma undisturbed_outside w w' : outside w w' -> undisturbed w w'.
Proof. intros [_ (Ew & ? & ?) (_ & ? & _ & _) (_ & ? & ? & _) _]. split; split; try done. by rewrite Ew. Qed.

Lemma undisturbed_packets i w (ctx ctx' : dp_worker_ctx) ms ws : workers (dp w) !! i = Some ctx -> ctx_info ctx' = ctx_info ctx ->
  undisturbed w (set_wire ws (set_mbufs ms (set_dp (set_workers (<[i := ctx']> (workers (dp w))) (dp w)) w))).
Proof. intros _ _. split; split; try done. cbn. by rewrite length_insert. Qed.

Context (stack_meta : dp_packet_meta) (injected : Z) (ts : list turn) (pkts : list Z).

(** Worker 0 runs on the calling thread; there is no other lcore to launch on. *)
Definition alone : launch_env := {|
  rte_eal_remote_launch _ := mret 0; rte_eal_wait_lcore _ := mret 0; test_launch_failure := -1;
  run_worker0 := dp_worker_run stack_meta injected 0 ts pkts |}.

(** The world when worker 0 starts. *)
Definition running_world (w : world) : world :=
  set_dp (set_workers (alter (set_launched true) 0%nat (workers (dp w))) (set_running true (set_ran true (dp w)))) w.

Definition running_system (w : world) : system := {| sys := running_world w; held := ∅; writer := Idle |}.

Lemma running_sound rest w : settled rest w -> active_rules (dp w) <> None -> sound rest (running_system w).
Proof.
  intros [_ _ _ (_ & Hr & _) _ [Hinv|[? _]]] Ha; [|done]. split; [by destruct Hinv|]. unfold counted. cbn. by rewrite Hr.
Qed.

(** After the run only publications may be in progress. *)
Record over (rest : gmap Z hobj) (c : system) : Prop := {
  ov_sound : sound rest c;
  ov_running : running (dp (sys c)) = false;
  ov_array : within_array (dp (sys c));
  ov_active : active_workers (dp (sys c)) = 0;
  ov_idle : forall i ctx, (i < Z.to_nat (worker_count (dp (sys c))))%nat -> workers (dp (sys c)) !! i = Some ctx ->
    launched ctx = false /\ reader_registered ctx = false;
  ov_ports : ports_consistent (owned (dp (sys c))) (started (dp (sys c)));
}.

Lemma over_steps rest c c' : rtc step c c' -> over rest c -> over rest c'.
Proof.
  induction 1 as [c|c c1 c2 Hs _ IH]; [done|]. intros [Hso Hr Hw Ha Hi Hp]. apply IH.
  pose proof (step_outside _ _ Hs) as [_ (Ew & Ec & Ea) (_ & Er & _ & _) (_ & Eo & Es & _) _].
  split; [by eapply step_sound|by rewrite Er|unfold within_array in *; by rewrite Ew, Ec|by rewrite Ea|by rewrite Ew, Ec|by rewrite Eo, Es].
Qed.

(** Once the publications are finished and no reader is left, it can be taken down. *)
Lemma over_settled rest c : over rest c -> writer c = Idle -> held c = ∅ -> settled rest (sys c).
Proof.
  intros [[Hinv Hn] Hr Hw Ha Hi Hp] Hid Hh. unfold counted in Hn. rewrite Hh in Hn.
  split; [apply Hinv|done|done|by split_and!|done|left]. destruct c as [w h wr]. cbn in *. by subst.
Qed.

(** The world when [dp_dataplane_run] returns. *)
Definition finished (w : world) : world :=
  set_dp (set_running false (set_workers (alter (set_launched false) 0%nat (workers (dp w))) (dp w))) w.

Lemma finished_over rest id q c w0 : sound rest c -> rules_qsbr (dp (sys c)) = Some q -> held c !! id = Some None ->
  undisturbed w0 (sys c) -> worker_count (dp w0) = 1 -> active_workers (dp w0) = 1 -> (0 < length (workers (dp w0)))%nat ->
  ports_consistent (owned (dp w0)) (started (dp w0)) ->
  over rest {| sys := finished (departed 0 id q (sys c)); held := delete id (held c); writer := writer c |}.
Proof.
  intros Hs Hq Hh [[_ Ea] [Ec El] [Eo Est]] Hc Hact HL Hp. rewrite Hc in Ec. rewrite Hact in Ea.
  split; cbn [sys]; unfold finished, departed; cbn -[alter]; try done.
  - by apply (sound_work rest _ _ (departed_sound 0 id rest c q Hs Hq Hh)).
  - split; cbn -[alter]; rewrite ?length_alter, Ec; [done|]. rewrite El. lia.
  - by rewrite Ea.
  - rewrite Ec. intros i ctx Hi. assert (i = 0%nat) as -> by lia. rewrite !list_lookup_alter_eq.
    destruct (workers (dp (sys c)) !! 0%nat); cbn; [|done]. by intros [= <-].
  - by rewrite Eo, Est.
Qed.

Lemma alone_run rest w ctx q left : settled rest w -> active_rules (dp w) <> None ->
  ready (dp w) = true -> ran (dp w) = false -> worker_count (dp w) = 1 ->
  workers (dp w) !! 0%nat = Some ctx -> rules_qsbr (dp w) = Some q -> can_register (worker_id (ctx_info ctx)) q ->
  injected <> worker_id (ctx_info ctx) -> balanced (ctx_stats ctx) -> Z.of_nat (length pkts) = DP_BURST_SIZE ->
  turns_in stack_meta 0 (worker_id (ctx_info ctx)) undisturbed left ts
    (entered 0 (worker_id (ctx_info ctx)) q (running_system w)) ->
  exists c', dp_dataplane_run alone w = Some (0, sys c') /\ sound rest c' /\ mbufs (sys c') = mbufs w /\
    (exists ctx', workers (dp (sys c')) !! 0%nat = Some ctx' /\ balanced (ctx_stats ctx')) /\
    (exists c1, left c1 /\ held c' = delete (worker_id (ctx_info ctx)) (held c1) /\ writer c' = writer c1) /\
    forall c2, rtc step c' c2 -> writer c2 = Idle -> held c2 = ∅ -> settled rest (sys c2).
Proof.
  intros Hset Ha Hready Hran Hcount Hctx Hq Hreg Hinj Hbal HL Hts.
  pose proof (running_sound rest w Hset Ha) as Hsound. set (id := worker_id (ctx_info ctx)) in *.
  destruct (worker_life stack_meta 0 id undisturbed undisturbed_outside (undisturbed_packets 0) rest (running_system w)
    (set_launched true ctx) q (mbufs w) injected left ts pkts Hsound) as (c1 & q1 & Hrun & Hleft & Hs1 & Hq1 & Hh1 & Hat1 & HK);
    [done|done|done|cbn; by rewrite list_lookup_alter_eq, Hctx|done..|].
  destruct Hat1 as [(ctx1 & Hc1 & _ & Hb1) _ Hm1].
  exists {| sys := finished (departed 0 id q1 (sys c1)); held := delete id (held c1); writer := writer c1 |}.
  assert (0 < length (workers (dp w)))%nat as HLw by by eapply lookup_lt_Some.
  assert (over rest {| sys := finished (departed 0 id q1 (sys c1)); held := delete id (held c1); writer := writer c1 |}) as Hover.
  { eapply finished_over; [done..|exact HK|exact Hcount| |cbn; by rewrite !length_alter|apply Hset]. cbn.
    by rewrite (proj1 (se_idle _ _ Hset)). }
  split; [|split; [apply Hover|split; [done|split; [|split; [by exists c1|]]]]].
  - unfold dp_dataplane_run. erewrite M_bind_step by done. cbv beta. rewrite Hready, Hran. cbn [negb].
    do 3 (erewrite M_bind_step by done; cbv beta). cbn [dp set_dp worker_count set_running set_ran]. rewrite Hcount.
    erewrite M_bind_step by done. cbv beta iota. cbn [Z.eqb].
    erewrite M_bind_step; swap 1 2.
    { unfold run_main_worker. erewrite M_bind_step by done. cbv beta. erewrite M_bind_step by exact Hrun. cbv beta.
      erewrite M_bind_step by done. reflexivity. }
    cbv beta. erewrite M_bind_step by done. cbv beta. by erewrite M_bind_step by done.
  - exists (set_launched false (set_result 0 (set_reader_registered false ctx1))). split; [|done].
    cbn -[alter]. by rewrite !list_lookup_alter_eq, Hc1.
  - intros c2 Hst Hid Hh. apply over_settled; [by eapply over_steps|done|done].
Qed.

(** A process with one worker comes back.  From a settled, ready dataplane that
    has not run, [dp_dataplane_run] with the worker on the calling thread returns 0
    for any schedule of turns among publications that ends with a stop; no mbuf is gained or lost, the
    worker's counters balance, the publication system is sound, and as soon as the
    publications still in progress have finished, the process is settled again:
    it can be taken down to the heap it started from. *)
Theorem single_worker_run_settles rest w ctx q left : settled rest w -> active_rules (dp w) <> None ->
  ready (dp w) = true -> ran (dp w) = false -> worker_count (dp w) = 1 ->
  workers (dp w) !! 0%nat = Some ctx -> rules_qsbr (dp w) = Some q -> can_register (worker_id (ctx_info ctx)) q ->
  injected <> worker_id (ctx_info ctx) -> balanced (ctx_stats ctx) -> Z.of_nat (length pkts) = DP_BURST_SIZE ->
  turns_in stack_meta 0 (worker_id (ctx_info ctx)) undisturbed left ts
    (entered 0 (worker_id (ctx_info ctx)) q (running_system w)) ->
  exists c', dp_dataplane_run alone w = Some (0, sys c') /\ sound rest c' /\ mbufs (sys c') = mbufs w /\
    (exists ctx', workers (dp (sys c')) !! 0%nat = Some ctx' /\ balanced (ctx_stats ctx')) /\
    (exists c1, left c1 /\ held c' = delete (worker_id (ctx_info ctx)) (held c1) /\ writer c' = writer c1) /\
    forall c2, rtc step c' c2 -> writer c2 = Idle -> held c2 = ∅ -> settled rest (sys c2).
Proof. apply alone_run. Qed.
End Serve.
