(* ===== verification/CrewRun.v ===== *)
(** * [dp_dataplane_run] with a whole crew

    The main thread launches workers, runs worker 0 and joins the others while the
    crew goes on.  What the EAL calls return and what the other threads have done
    when they return is a schedule; a schedule is faithful if between any two calls
    the crew has only taken steps of its own.  The crew may be part of something
    larger, such as the goroutines that change the rules meanwhile: [Scene] is what
    the main thread needs of it. *)
From Stdlib Require Import ZArith Lia.
From stdpp Require Import base list numbers option gmap strings relations.
From S2P Require Import Prelude Host Packet Api Tables Heap Snapshot Action Rcu State StatsSpec Rules Worker WorkerSpec RunSpec Publish PublishSpec ReaderSpec Runtime RuntimeSpec Port PortSpec Control Lifecycle LifecycleSpec Dataplane ServeSpec Crew CrewSpec.

Section CrewRun.
Context {H : Host} {HO : HostOk H} {C : Checksums} {CO : ChecksumsOk C}.
Context {T : DpdkTables} {TO : DpdkTablesOk T} {Q : Qsbr} {QO : QsbrOk Q}.
Context (stack_meta : dp_packet_meta) (injected : Z).
Abbreviation crew_run := (rtc (crew_step stack_meta injected)).

(** ** Crews and what they are part of *)
Class Scene (X : Type) := {
  view : X -> crew;                  (** the crew in it *)
  goes_on : X -> X -> Prop;          (** what happens while the main thread is in a call *)
  (** what the main thread does: to the world, to the set of workers *)
  direct : (world -> world) -> (gmap Z stage -> gmap Z stage) -> X -> X;
}.

Class SceneOk (X : Type) {S : Scene X} (n : nat) (rest : gmap Z hobj) (B : gmap Z rte_mbuf) := {
  scene_ok : X -> Prop;
  scene_crew x : scene_ok x -> crew_ok n rest B (view x);
  view_direct f g x : view (direct f g x) = {| state := f (state (view x)); stages := g (stages (view x)); publisher := publisher (view x) |};
  scene_direct f g x : scene_ok x -> same_rules (state (view x)) (f (state (view x))) ->
    crew_ok n rest B (view (direct f g x)) -> scene_ok (direct f g x);
  scene_goes_on x y : goes_on x y -> scene_ok x -> scene_ok y /\ crew_run (view x) (view y);
}.

(** A crew by itself. *)
#[export] Instance crew_scene : Scene crew := {
  view c := c;
  goes_on := crew_run;
  direct f g c := {| state := f (state c); stages := g (stages c); publisher := publisher c |};
}.

#[export] Instance crew_scene_ok n rest B : SceneOk crew n rest B.
Proof.
  refine {| scene_ok := crew_ok n rest B |}; [done|done|intros f g x _ _ Hc; exact Hc|]. intros x y Hr Hok.
  split; [exact (crew_run_ok stack_meta injected n rest B _ _ Hr Hok)|exact Hr].
Defined.

(** [rte_eal_remote_launch] succeeded: worker [i] is about to enter. *)
Definition enlist (i : nat) (pkts : list Z) (c : crew) : crew :=
  {| state := state c; stages := <[Z.of_nat i := Launched pkts]> (stages c); publisher := publisher c |}.

(** The main thread stores [dp.workers[i].launched]. *)
Definition flag_world (i : nat) (b : bool) (w : world) : world :=
  set_dp (set_workers (alter (set_launched b) i (workers (dp w))) (dp w)) w.
Definition flag (i : nat) (b : bool) : crew -> crew := on_state (flag_world i b).

Definition is_returned (c : crew) (i : nat) (ret : Z) : Prop := stages c !! Z.of_nat i = Some (Returned ret).

(** ** Schedules *)
Section Schedule.
Context {X : Type} {SX : Scene X}.

Definition enlisting (i : nat) (pkts : list Z) : X -> X := direct id (<[Z.of_nat i := Launched pkts]>).
Definition flagging (i : nat) (b : bool) : X -> X := direct (flag_world i b) id.
Definition halting : X -> X := direct halt id.

(** By lcore: the results of the EAL calls, and the scene when they return. *)
Record schedule := {
  launch_result : Z -> Z;
  after_launch : Z -> X;
  worker0_result : Z;
  after_main : X;
  wait_result : Z -> Z;
  after_wait : Z -> X;
}.

Context (failure : Z) (sc : schedule).

Definition scheduled : launch_env := {|
  rte_eal_remote_launch l := fun _ => Some (launch_result sc l, state (view (after_launch sc l)));
  rte_eal_wait_lcore l := fun _ => Some (wait_result sc l, state (view (after_wait sc l)));
  test_launch_failure := failure;
  run_worker0 := fun _ => Some (worker0_result sc, state (view (after_main sc))) |}.

(** The launch loop from worker [from] on; [k] speaks about its error, the number
    of launched workers and the scene. *)
Fixpoint launching (from n : nat) (count : Z) (x : X) (k : Z -> Z -> X -> Prop) : Prop :=
  match n with
  | O => k 0 count x
  | S n =>
    exists ctx, workers (dp (state (view x))) !! from = Some ctx /\
      let l := lcore_id (ctx_info ctx) in
      let ret := launch_result sc l in
      if failure =? Z.of_nat from then k (- EIO) count (halting x)
      else if ret =? 0 then
        exists pkts, Z.of_nat (length pkts) = DP_BURST_SIZE /\ goes_on (enlisting from pkts x) (after_launch sc l) /\
          launching (S from) n (count + 1) (flagging from true (after_launch sc l)) k
      else goes_on x (after_launch sc l) /\ k (if ret <? 0 then ret else - EIO) count (halting (after_launch sc l))
  end.

(** Worker 0 on the main lcore, until it has returned. *)
Definition main_worker (x : X) (k : X -> Prop) : Prop :=
  exists pkts, Z.of_nat (length pkts) = DP_BURST_SIZE /\ goes_on (enlisting 0 pkts (flagging 0 true x)) (after_main sc) /\
    is_returned (view (after_main sc)) 0 (worker0_result sc) /\ k (flagging 0 false (after_main sc)).

(** The join loop: [rte_eal_wait_lcore] waits for the worker and returns its result. *)
Fixpoint joining (from n : nat) (x : X) (k : X -> Prop) : Prop :=
  match n with
  | O => k x
  | S n =>
    exists ctx, workers (dp (state (view x))) !! from = Some ctx /\
      let l := lcore_id (ctx_info ctx) in
      goes_on x (after_wait sc l) /\ is_returned (view (after_wait sc l)) from (wait_result sc l) /\
      joining (S from) n (flagging from false (after_wait sc l)) k
  end.

(** The whole of [dp_dataplane_run]. *)
Definition directed (x : X) (k : X -> Prop) : Prop :=
  launching 1 (Z.to_nat (worker_count (dp (state (view x)))) - 1) 0 x (fun err count x =>
    if err =? 0 then main_worker x (fun x => joining 1 (Z.to_nat count) x k)
    else joining 1 (Z.to_nat count) x k).

Lemma joining_mono n (k k' : X -> Prop) : (forall y, k y -> k' y) -> forall from x, joining from n x k -> joining from n x k'.
Proof. intros Hk. induction n as [|n IH]; intros from x; cbn [joining]; [apply Hk|]. intros (ctx & Hctx & Hgo & Hret & Hj). exists ctx. auto. Qed.

Lemma launching_mono n (k k' : Z -> Z -> X -> Prop) : (forall err count y, k err count y -> k' err count y) ->
  forall from count x, launching from n count x k -> launching from n count x k'.
Proof.
  intros Hk. induction n as [|n IH]; intros from count x; cbn [launching]; [apply Hk|]. intros (ctx & Hctx & Hl). exists ctx. split; [done|].
  cbv zeta in *. destruct (failure =? _); [by apply Hk|]. destruct (launch_result sc _ =? 0).
  - destruct Hl as (pkts & HL & Hgo & Hl). exists pkts. auto.
  - destruct Hl as [Hgo Hl]. auto.
Qed.

Lemma directed_mono x (k k' : X -> Prop) : (forall y, k y -> k' y) -> directed x k -> directed x k'.
Proof.
  intros Hk. apply launching_mono. intros err count y. case_match; [|by apply joining_mono].
  intros (pkts & HL & Hgo & Hret & Hj). exists pkts. do 3 (split; [done|]). by eapply joining_mono.
Qed.
End Schedule.

(** ** What the main thread does to the crew *)
Section Directed.
Context (n : nat) (rest : gmap Z hobj) (B : gmap Z rte_mbuf).
Abbreviation crew_ok := (crew_ok n rest B).

Lemma enlist_ok i pkts c : crew_ok c -> (i < n)%nat -> stages c !! Z.of_nat i = None -> Z.of_nat (length pkts) = DP_BURST_SIZE ->
  crew_ok (enlist i pkts c).
Proof.
  intros [Hs Ha Hm Hst Hc] Hi Hno HL.
  assert (forall A (f : stage -> option A), f (Launched pkts) = None -> omap f (<[Z.of_nat i := Launched pkts]> (stages c)) = omap f (stages c)) as E.
  { intros A f Hf. rewrite omap_insert, Hf. apply delete_id. by rewrite lookup_omap, Hno. }
  split; cbn [enlist state stages]; [|by rewrite E|done|..].
  - unfold readers_of. cbn [enlist state stages publisher]. by rewrite E.
  - intros r s. rewrite lookup_insert_Some. intros [[<- <-]|[_ Hr]]; [|by eapply Hst]. split; [done|by exists i].
  - intros j Hj. destruct (Hc j Hj) as (ctx & Hctx & Hcok). exists ctx. split; [done|].
    destruct (decide (j = i)) as [->|]; [|by rewrite lookup_insert_ne by lia].
    rewrite lookup_insert_eq. rewrite Hno in Hcok. by destruct Hcok; split.
Qed.

Lemma flag_ok i b c : crew_ok c -> crew_ok (flag i b c).
Proof.
  intros [Hs Ha Hm Hst Hc]. split; [by apply (sound_work rest (readers_of c))|done..|].
  intros j Hj. destruct (Hc j Hj) as (ctx & Hctx & Hcok). cbn -[alter].
  destruct (decide (j = i)) as [->|]; [|rewrite list_lookup_alter_ne by done; by exists ctx].
  exists (set_launched b ctx). rewrite list_lookup_alter_eq, Hctx. split; [done|]. by destruct Hcok; split.
Qed.

Lemma halt_ok c : crew_ok c -> crew_ok (on_state halt c).
Proof. apply (crew_step_ok stack_meta injected), crew_stops. Qed.

(** ** Who is launched, who may be running *)

(** What the main thread changes nothing of either. *)
Record site (w w' : world) : Prop := {
  si_table : worker_count (dp w') = worker_count (dp w) /\ length (workers (dp w')) = length (workers (dp w));
  si_ports : owned (dp w') = owned (dp w) /\ started (dp w') = started (dp w);
}.

#[export] Instance site_preorder : PreOrder site.
Proof. split; [intros w; by split|]. intros w1 w2 w3 [[? ?] [? ?]] [[? ?] [? ?]]. split; split; congruence. Qed.

Lemma site_workplace w w' : workplace w w' -> site w w'.
Proof.
  intros [_ Hc Hp Ho _]. split; [split; [done|]|done]. apply (f_equal length) in Hp. by rewrite !length_fmap in Hp.
Qed.

(** A stage comes from a stage, and a worker that has returned stays so. *)
Lemma stage_comes_from c c' r s' : crew_run c c' -> stages c' !! r = Some s' ->
  exists s, stages c !! r = Some s /\ forall ret, s = Returned ret -> s' = s.
Proof.
  induction 1 as [c|c c1 c2 Hs _ IH]; [by exists s'|]. intros Hr. destruct (IH Hr) as (s1 & Hs1 & Hsame). clear IH Hr.
  assert (exists s, stages c !! r = Some s /\ forall ret, s = Returned ret -> s1 = s) as (s & Hr & E).
  { destruct Hs as [i p s s2 w' c Hi _ Hrun| |]; [|by exists s1..]. cbn [advance stages] in Hs1.
    rewrite lookup_insert_Some in Hs1. destruct Hs1 as [[<- ->]|[_ ?]]; [|by exists s1].
    exists s. split; [done|]. by intros ret ->. }
  exists s. split; [done|]. intros ret ->. rewrite (E ret eq_refl) in Hsame. by eapply Hsame.
Qed.

(** [up]: the launched flags; a worker outside [known] has no stage, one in [gone]
    has returned. *)
Context {X : Type} {SX : Scene X} {SXO : SceneOk X n rest B}.
Context (failure : Z) (sc : schedule (X := X)).

Record staffed (w0 : world) (up : nat -> bool) (gone known : nat -> Prop) (x : X) : Prop := {
  st_ok : scene_ok x;
  st_site : site w0 (state (view x));
  st_flags j ctx : workers (dp (state (view x))) !! j = Some ctx -> (j < n)%nat -> launched ctx = up j;
  st_stages j s : stages (view x) !! Z.of_nat j = Some s -> known j /\ (gone j -> exists ret, s = Returned ret);
}.

Lemma staffed_weaken w0 up gone known up' gone' known' x : staffed w0 up gone known x -> (forall j, up' j = up j) ->
  (forall j, known j -> known' j) -> (forall j, known j -> gone' j -> gone j) -> staffed w0 up' gone' known' x.
Proof.
  intros [? ? Hf Hs] Hu Hk Hg. split; [done|done|intros j ctx; rewrite Hu; by apply Hf|].
  intros j s Hj. destruct (Hs j s Hj). auto.
Qed.

Lemma staffed_run w0 up gone known x y : goes_on x y -> staffed w0 up gone known x -> staffed w0 up gone known y.
Proof.
  intros Hgo [Hok Hsite Hf Hs]. destruct (scene_goes_on _ _ Hgo Hok) as [Hok' Hr].
  pose proof (crew_run_workplace _ _ _ _ Hr) as Hw. split.
  - done.
  - etrans; [done|]. by apply site_workplace.
  - intros j ctx Hj Hn. pose proof (f_equal (fun l => l !! j) (wp_places _ _ Hw)) as Ep. cbv beta in Ep. rewrite !list_lookup_fmap, Hj in Ep.
    destruct (workers (dp (state (view x))) !! j) as [ctx0|] eqn:E; [|done]. cbn in Ep. injection Ep as _ ->. by eapply Hf.
  - intros j s' Hj. destruct (stage_comes_from _ _ _ _ Hr Hj) as (s & Hs0 & Hsame). destruct (Hs _ _ Hs0) as [Hk Hg].
    split; [done|]. intros Hgone. destruct (Hg Hgone) as (ret & ->). exists ret. by eapply Hsame.
Qed.

Lemma view_enlisting i pkts (x : X) : view (enlisting i pkts x) = enlist i pkts (view x).
Proof. unfold enlisting. by rewrite view_direct. Qed.

Lemma view_flagging i b (x : X) : view (flagging i b x) = flag i b (view x).
Proof. unfold flagging. by rewrite view_direct. Qed.

Lemma view_halting (x : X) : view (halting x) = on_state halt (view x).
Proof. unfold halting. by rewrite view_direct. Qed.

Lemma staffed_halt w0 up gone known x : staffed w0 up gone known x -> staffed w0 up gone known (halting x).
Proof.
  intros [Hok Hsite Hf Hs]. split; rewrite ?view_halting; [|by etrans; [exact Hsite|]|exact Hf|exact Hs].
  apply scene_direct; [done|by split_and!|]. rewrite view_direct. by apply (halt_ok (view x)), scene_crew.
Qed.

Lemma staffed_enlist w0 up gone known x i pkts : staffed w0 up gone known x -> (i < n)%nat -> ~ known i ->
  Z.of_nat (length pkts) = DP_BURST_SIZE ->
  staffed w0 up (fun j => j <> i /\ gone j) (fun j => j = i \/ known j) (enlisting i pkts x).
Proof.
  intros [Hok Hsite Hf Hs] Hi Hk HL. split; rewrite ?view_enlisting; [|done|done|].
  - apply scene_direct; [done|by split_and!|]. rewrite view_direct.
    apply (enlist_ok i pkts (view x)); [by apply scene_crew|done| |done].
    destruct (stages (view x) !! Z.of_nat i) as [s|] eqn:E; [|done]. by destruct (Hs i s E).
  - intros j s. cbn [enlist stages]. rewrite lookup_insert_Some. intros [[E _]|[_ Hj]].
    + assert (j = i) as -> by lia. split; [by left|]. by intros [? _].
    + destruct (Hs j s Hj) as [? Hg]. split; [by right|]. intros [_ ?]. auto.
Qed.

Lemma staffed_flag w0 up gone known x i b : staffed w0 up gone known x ->
  staffed w0 (fun j => if decide (j = i) then b else up j) gone known (flagging i b x).
Proof.
  intros [Hok Hsite Hf Hs]. split; rewrite ?view_flagging; [| | |done].
  - apply scene_direct; [done|by split_and!|]. rewrite view_direct. by apply (flag_ok i b (view x)), scene_crew.
  - etrans; [done|]. split; [|done]. cbn -[alter]. by rewrite length_alter.
  - intros j ctx. cbn -[alter]. destruct (decide (j = i)) as [->|].
    + rewrite list_lookup_alter_eq. destruct (workers (dp (state (view x))) !! i); [|done]. by intros [= <-].
    + rewrite list_lookup_alter_ne by done. apply Hf.
Qed.

(** ** The main thread along a schedule *)
Definition between (lo hi j : nat) : bool := bool_decide (lo <= j < hi)%nat.

Lemma between_S lo hi j : (lo <= hi)%nat -> (if decide (j = hi) then true else between lo hi j) = between lo (S hi) j.
Proof. intros. unfold between. repeat case_decide; repeat case_bool_decide; lia || done. Qed.

Lemma between_drop lo hi j : (if decide (j = lo) then false else between lo hi j) = between (S lo) hi j.
Proof. unfold between. repeat case_decide; repeat case_bool_decide; lia || done. Qed.

(** Workers 1 up to [hi] are launched, worker 0 is not. *)
Abbreviation manned w0 hi := (staffed w0 (between 1 hi) (fun _ => False) (fun j => (1 <= j < hi)%nat)).

(** Workers 0 up to [hi] have been launched, those before [from] have returned. *)
Abbreviation waited w0 from hi := (staffed w0 (between from hi) (fun j => (j < from)%nat) (fun j => (j < hi)%nat)).

Ltac main_step := erewrite M_bind_step by done; cbv beta.

Lemma launching_run w0 k : forall m from c, (1 <= from)%nat -> (from + m <= n)%nat -> manned w0 from c ->
  launching failure sc from m (Z.of_nat from - 1) c k ->
  exists err hi c', launch_loop (scheduled failure sc) from m (Z.of_nat from - 1) (state (view c)) = Some ((err, Z.of_nat hi - 1), state (view c')) /\
    k err (Z.of_nat hi - 1) c' /\ (1 <= hi <= n)%nat /\ manned w0 hi c'.
Proof.
  induction m as [|m IH]; intros from c Hfrom Hn Hst Hl; [exists 0, from, c; split_and!; done || lia|].
  destruct Hl as (ctx & Hctx & Hl). cbv zeta in Hl. cbn [launch_loop]. main_step. erewrite M_bind_step by (unfold lift; rewrite Hctx; done). cbv beta.
  cbn [scheduled test_launch_failure rte_eal_remote_launch]. destruct (failure =? Z.of_nat from).
  { exists (- EIO), from, (halting c). main_step. rewrite view_halting. split_and!; [done|done|lia|lia|by apply staffed_halt]. }
  main_step. destruct (Z.eqb_spec (launch_result sc (lcore_id (ctx_info ctx))) 0) as [E|E]; cbn [negb].
  - destruct Hl as (pkts & HL & Hrun & Hl). main_step.
    replace (Z.of_nat from - 1 + 1) with (Z.of_nat (S from) - 1) in * by lia.
    specialize (IH (S from) (flagging from true (after_launch sc (lcore_id (ctx_info ctx))))). rewrite view_flagging in IH.
    apply IH; [lia|lia| |exact Hl].
    eapply staffed_weaken; [eapply staffed_flag, staffed_run; [exact Hrun|]; eapply staffed_enlist; [done|lia|cbv beta; lia|done]|..]; cbv beta.
    + intros j. symmetry. by apply between_S.
    + lia.
    + done.
  - destruct Hl as [Hrun Hk]. eexists _, from, (halting (after_launch sc (lcore_id (ctx_info ctx)))). main_step.
    rewrite view_halting. split_and!; [done|exact Hk|lia|lia|]. apply staffed_halt. by eapply staffed_run.
Qed.

Lemma main_worker_run w0 hi c k : (1 <= hi <= n)%nat -> manned w0 hi c -> main_worker sc c k ->
  exists ret c', run_main_worker (scheduled failure sc) (state (view c)) = Some (ret, state (view c')) /\ k c' /\ waited w0 1 hi c'.
Proof.
  intros Hhi Hst (pkts & HL & Hrun & Hret & Hk). unfold run_main_worker. eexists _, (flagging 0 false (after_main sc)).
  rewrite view_flagging. split; [by do 3 main_step|]. split; [done|].
  assert (staffed w0 (fun j => if decide (j = 0%nat) then true else between 1 hi j) (fun j => (j < 1)%nat) (fun j => (j < hi)%nat) (after_main sc)) as Hm.
  { assert (staffed w0 (fun j => if decide (j = 0%nat) then true else between 1 hi j) (fun j => j <> 0%nat /\ False)
      (fun j => j = 0%nat \/ (1 <= j < hi)%nat) (after_main sc)) as [Hok Hsi Hf Hs].
    { eapply staffed_run; [exact Hrun|]. apply staffed_enlist; [by apply staffed_flag|lia|cbv beta; lia|done]. }
    split; [done|done|done|]. intros j s Hj. destruct (Hs j s Hj) as [? _]. split; [lia|]. intros Hlt.
    assert (j = 0%nat) as -> by lia. exists (worker0_result sc). rewrite Hret in Hj. by injection Hj as <-. }
  eapply staffed_weaken; [by apply staffed_flag|..]; cbv beta; [|done|done].
  intros j. unfold between. repeat case_decide; repeat case_bool_decide; lia || done.
Qed.

Lemma joining_run w0 hi k : (hi <= n)%nat -> forall m from c err, (1 <= from)%nat -> (from + m = hi)%nat -> waited w0 from hi c ->
  joining sc from m c k ->
  exists err' c', join_loop (scheduled failure sc) from m err (state (view c)) = Some (err', state (view c')) /\ k c' /\ waited w0 hi hi c'.
Proof.
  intros Hhi. induction m as [|m IH]; intros from c err Hfrom Hm Hst Hj.
  { assert (from = hi) as -> by lia. by exists err, c. }
  destruct Hj as (ctx & Hctx & Hj). cbv zeta in Hj. destruct Hj as (Hrun & Hret & Hj). cbn [join_loop]. main_step.
  erewrite M_bind_step by (unfold lift; rewrite Hctx; done). cbv beta. do 2 main_step.
  specialize (IH (S from) (flagging from false (after_wait sc (lcore_id (ctx_info ctx))))). rewrite view_flagging in IH.
  apply IH; [lia|lia| |exact Hj].
  assert (staffed w0 (between from hi) (fun j => (j < S from)%nat) (fun j => (j < hi)%nat) (after_wait sc (lcore_id (ctx_info ctx)))) as Hw.
  { pose proof (staffed_run _ _ _ _ _ _ Hrun Hst) as [Hok Hsi Hf Hs]. split; [done|done|done|].
    intros j s Hs0. destruct (Hs j s Hs0) as [? Hg]. split; [done|]. intros Hlt.
    destruct (decide (j = from)) as [->|]; [|apply Hg; lia]. unfold is_returned in Hret. rewrite Hret in Hs0. injection Hs0 as <-. by eexists. }
  eapply staffed_weaken; [by apply staffed_flag|..]; cbv beta; [|done|done].
  intros j. symmetry. apply between_drop.
Qed.

(** The world when [dp_dataplane_run] has stored [dp.running = false]. *)
Definition closed (c : crew) : crew := on_state (fun w => set_dp (set_running false (dp w)) w) c.
Definition closing : X -> X := direct (fun w => set_dp (set_running false (dp w)) w) id.

Lemma view_closing (x : X) : view (closing x) = closed (view x).
Proof. unfold closing. by rewrite view_direct. Qed.

Lemma closed_ok c : crew_ok c -> crew_ok (closed c).
Proof. intros [Hs Ha Hm Hst Hc]. split; try done. by apply (sound_work rest (readers_of c)). Qed.

(** What is left when everyone is home: only publications may be in progress. *)
Lemma waited_over w0 hi x : (hi <= n)%nat -> waited w0 hi hi x -> worker_count (dp w0) = Z.of_nat n ->
  within_array (dp w0) -> ports_consistent (owned (dp w0)) (started (dp w0)) ->
  over rest (readers_of (closed (view x))) /\ held (readers_of (closed (view x))) = ∅ /\ all_home (view x).
Proof.
  intros Hhi [Hx [[Hc HL] [Ho Hs]] Hf Hst] Hn [Hw1 Hw2] Hp. apply scene_crew in Hx as [Hso Ha Hm Hsg Hcx].
  set (c := view x) in *. assert (all_home c) as Hhome.
  { intros r s Hr. destruct (Hsg r s Hr) as (_ & i & _ & ->). destruct (Hst i s Hr) as [? Hg]. auto. }
  assert (forall A (f : stage -> option A), (forall ret, f (Returned ret) = None) -> omap f (stages c) = ∅) as Hnone.
  { intros A f Hret. apply map_eq. intros r. rewrite lookup_omap, lookup_empty. destruct (stages c !! r) as [s|] eqn:E; [|done].
    destruct (Hhome r s E) as (ret & ->). apply Hret. }
  split; [|split; [by apply Hnone|done]]. split; cbn [readers_of closed on_state state sys].
  - by apply (sound_work rest (readers_of c)).
  - done.
  - split; cbn; [congruence|]. rewrite Hc, HL. done.
  - cbn. by rewrite Ha, Hnone.
  - cbn. rewrite Hc, Hn, Nat2Z.id. intros i ctx Hi Hctx. split.
    + rewrite (Hf i ctx Hctx Hi). unfold between. case_bool_decide; [lia|done].
    + destruct (Hcx i Hi) as (ctx' & Hctx' & [_ _ Hreg _]). rewrite Hctx in Hctx'. injection Hctx' as <-. rewrite Hreg.
      destruct (stages c !! Z.of_nat i) as [s|] eqn:E; [|done]. by destruct (Hhome _ _ E) as (ret & ->).
  - cbn. by rewrite Ho, Hs.
Qed.

(** ** The whole run *)

(** The crew before anybody is launched. *)
Definition nobody (w : world) : crew := {| state := w; stages := ∅; publisher := Idle |}.

(** [dp.ran] and [dp.running] are set first. *)
Definition opened (w : world) : world := set_dp (set_running true (set_ran true (dp w))) w.

(** A settled process with its [n] workers placed. *)
Record crew_ready (w : world) : Prop := {
  cr_settled : settled rest w;
  cr_rules : active_rules (dp w) <> None;
  cr_ready : ready (dp w) = true /\ ran (dp w) = false;
  cr_count : worker_count (dp w) = Z.of_nat n /\ (1 <= n)%nat;
  cr_placed i : (i < n)%nat -> exists ctx, workers (dp w) !! i = Some ctx /\ worker_id (ctx_info ctx) = Z.of_nat i /\ balanced (ctx_stats ctx);
}.

(** What the main thread relies on, whoever is publishing. *)
Record standby (w : world) : Prop := {
  sb_array : within_array (dp w);
  sb_idle i ctx : (i < n)%nat -> workers (dp w) !! i = Some ctx -> launched ctx = false;
  sb_ports : ports_consistent (owned (dp w)) (started (dp w));
  sb_ready : ready (dp w) = true /\ ran (dp w) = false;
  sb_count : worker_count (dp w) = Z.of_nat n /\ (1 <= n)%nat;
}.

Lemma crew_ready_standby w : crew_ready w -> standby w.
Proof.
  intros [[_ _ Hw (_ & _ & Hidle) Hp _] _ Hr Hc _]. split; [done| |done..]. intros i ctx Hi Hctx.
  destruct (Hidle i ctx) as [-> _]; [lia|done|done].
Qed.

(** The scene before anybody is launched. *)
Record ready_scene (w : world) (x : X) : Prop := {
  rs_ok : scene_ok x;
  rs_state : state (view x) = opened w;
  rs_stages : stages (view x) = ∅;
}.

Lemma scene_manned w x : standby w -> ready_scene w x -> manned (opened w) 1 x.
Proof.
  intros [_ Hidle _ _ _] [Hx Hv Hs]. split; [done|by rewrite Hv| |].
  - rewrite Hv. intros j ctx Hctx Hj. rewrite (Hidle j ctx Hj Hctx). unfold between. case_bool_decide; [lia|done].
  - rewrite Hs. intros j s Hj. by rewrite lookup_empty in Hj.
Qed.

Lemma opened_ok c : crew_ok c -> crew_ok (on_state opened c).
Proof. intros [Hs Ha Hm Hst Hc]. split; try done. by apply (sound_work rest (readers_of c)). Qed.

Lemma nobody_ok w : crew_ready w -> mbufs w = B -> crew_ok (nobody w).
Proof.
  intros [[Hin Hrun Hw (Ha & Hr & Hidle) Hp Hdis] Hact _ [Hc _] Hpl] HB. split; cbn;
    [|by rewrite omap_empty|done|intros r s Hr'; by rewrite lookup_empty in Hr'|].
  - destruct Hdis as [Hinv|[? _]]; [|done]. unfold readers_of, nobody. cbn [state stages publisher]. rewrite omap_empty.
    split; [by destruct Hinv|]. unfold counted. cbn. by rewrite Hr.
  - intros i Hi. destruct (Hpl i Hi) as (ctx & Hctx & Hid & Hb). exists ctx. split; [done|].
    split; [done|done| |done]. rewrite lookup_empty. cbn. eapply (Hidle i ctx); [lia|done].
Qed.

(** How a run ends. *)
Record run_over (x : X) : Prop := {
  ro_ok : scene_ok (closing x);
  ro_home : all_home (view x);
  ro_over : over rest (readers_of (closed (view x)));
  ro_count : worker_count (dp (state (closed (view x)))) = Z.of_nat n;
}.

Lemma scene_runs w x k : standby w -> ready_scene w x -> directed failure sc x k ->
  exists ret y, dp_dataplane_run (scheduled failure sc) w = Some (ret, state (view (closing y))) /\ k y /\ run_over y.
Proof.
  intros Hcr Hx Hd. pose proof (scene_manned w x Hcr Hx) as Hman. destruct Hx as [_ Hv _].
  destruct Hcr as [Hw _ Hp [Hready Hran] [Hc H1]].
  unfold directed in Hd. rewrite Hv in Hd. change (worker_count (dp (opened w))) with (worker_count (dp w)) in Hd.
  rewrite Hc, Nat2Z.id in Hd. change 0 with (Z.of_nat 1 - 1) in Hd at 1.
  destruct (launching_run (opened w) _ (n - 1) 1 x ltac:(lia) ltac:(lia) Hman Hd) as (err & hi & x1 & Hlaunch & Hk & Hhi & Hst1).
  replace (Z.to_nat (Z.of_nat hi - 1)) with (hi - 1)%nat in Hk by lia.
  assert (exists ret x2, (if err =? 0 then run_main_worker (scheduled failure sc) else mret err) (state (view x1)) = Some (ret, state (view x2)) /\
    joining sc 1 (hi - 1) x2 k /\ waited (opened w) 1 hi x2) as (ret & x2 & Hmain & Hj & Hst2).
  { destruct (err =? 0); [by eapply main_worker_run|]. exists err, x1. split; [done|]. split; [done|].
    eapply staffed_weaken; [exact Hst1|done|cbv beta; lia|cbv beta; lia]. }
  destruct (joining_run (opened w) hi k ltac:(lia) (hi - 1) 1 x2 ret ltac:(lia) ltac:(lia) Hst2 Hj) as (ret' & x3 & Hjoin & Hk3 & Hst3).
  destruct (waited_over (opened w) hi x3 ltac:(lia) Hst3 Hc Hw Hp) as (Hover & _ & Hhome).
  exists ret', x3. split; [|split; [done|split; [|done|done|rewrite <- Hc; apply (st_site _ _ _ _ _ Hst3)]]].
  - rewrite view_closing. unfold dp_dataplane_run. main_step. rewrite Hready, Hran. cbn [negb]. do 3 main_step.
    cbn [dp set_dp worker_count set_running set_ran]. rewrite Hc, Nat2Z.id. rewrite Hv in Hlaunch.
    erewrite M_bind_step by exact Hlaunch. cbv beta iota. erewrite M_bind_step by exact Hmain. cbv beta.
    replace (Z.to_nat (Z.of_nat hi - 1)) with (hi - 1)%nat by lia.
    erewrite M_bind_step by exact Hjoin. cbv beta. by main_step.
  - apply scene_direct; [apply Hst3|by split_and!|]. rewrite view_direct. apply (closed_ok (view x3)), scene_crew, Hst3.
Qed.
End Directed.
End CrewRun.

Section Whole.
Context {H : Host} {HO : HostOk H} {C : Checksums} {CO : ChecksumsOk C}.
Context {T : DpdkTables} {TO : DpdkTablesOk T} {Q : Qsbr} {QO : QsbrOk Q}.

(** A process with any number of workers comes back.  Let [dp_dataplane_run]
    start from a settled dataplane that is ready, and let the EAL calls return along
    any faithful schedule: launches that succeed or fail, workers that start at any
    moment, run, fail or stop, publications and stop requests in between.  The call
    returns; every worker it launched has returned and is joined; no mbuf is gained
    or lost; and as soon as the publications still in progress have finished, the
    process is settled again, so that it can be taken down to the heap it started
    from. *)
Theorem dp_dataplane_run_crew stack_meta injected failure sc n rest w k : crew_ready n rest w ->
  directed (SX := crew_scene stack_meta injected) failure sc (nobody (opened w)) k ->
  exists ret c, dp_dataplane_run (scheduled (SX := crew_scene stack_meta injected) failure sc) w = Some (ret, state (closed c)) /\ k c /\
    (forall i s, stages c !! i = Some s -> exists r, s = Returned r) /\
    mbufs (state (closed c)) = mbufs w /\
    (forall i, (i < n)%nat -> exists ctx, workers (dp (state (closed c))) !! i = Some ctx /\
       launched ctx = false /\ reader_registered ctx = false /\ balanced (ctx_stats ctx)) /\
    forall s, rtc step (readers_of (closed c)) s -> writer s = Idle -> held s = ∅ -> settled rest (sys s).
Proof.
  intros Hcr Hd. pose proof (opened_ok _ _ _ _ (nobody_ok n rest (mbufs w) w Hcr eq_refl)) as Hok0.
  destruct (scene_runs stack_meta injected n rest (mbufs w) (SX := crew_scene stack_meta injected)
    (SXO := crew_scene_ok stack_meta injected n rest (mbufs w)) failure sc w (nobody (opened w)) k (crew_ready_standby _ _ _ Hcr)) as (ret & c & Hrun & Hk & [Hok Hhome Hover Hcount]);
    [by split|done|].
  exists ret, c. split; [exact Hrun|]. split; [done|]. split; [done|]. split; [apply Hok|]. split.
  - intros i Hi. destruct (ck_ctx _ _ _ _ Hok i Hi) as (ctx & Hctx & Hcx). exists ctx. split; [done|].
    destruct (ov_idle _ _ Hover i ctx) as [? ?]; [|done|].
    { cbn [readers_of sys]. rewrite Hcount. lia. }
    split_and!; [done|done|apply Hcx].
  - intros s Hs Hi Hh. apply over_settled; [by eapply over_steps|done|done].
Qed.
End Whole.
