(* ===== verification/Calls.v ===== *)
(** * Goroutines that change the rules

    [AddFlow], [ReplaceRules] and the others are called from any number of
    goroutines while the workers run; [rulesMu] serialises them.  A call is cut
    where it touches what others touch: the lock, the Go memory, the C heap, and
    the three moments of [dp_publish_rules].  An office is the runtime with every
    call in progress, every worker, and the holder of the lock; [office_step]
    interleaves them all.  [run_op_calls] relates the stages to the operations of
    Control. *)
From Stdlib Require Import ZArith Lia.
From stdpp Require Import base list numbers option gmap strings relations.
From S2P Require Import Prelude Host Packet Api Tables Heap Snapshot Action Rcu State Rules Binding Worker WorkerSpec Publish GoSlice Control ControlSpec ControlRefine ControlNative Lifecycle Crew.

(** ** The stages of a call *)
Inductive call :=
  | Called (op : rule_op)                                           (** on entry *)
  | Locking (op : rule_op) (candidate : option RuleSnapshot)        (** ready is closed; about to lock *)
  | Locked (op : rule_op) (candidate : option RuleSnapshot)         (** holds [rulesMu] *)
  | Publishing (op : rule_op) (candidate : RuleSnapshot)            (** enters [publishSnapshotLocked] *)
  | Sending (op : rule_op) (candidate : RuleSnapshot) (n : Binding.RuleSnapshot) (arrays : ruleArrays)
                                                                    (** the arrays are filled *)
  | Swapped (op : rule_op) (candidate : RuleSnapshot) (arrays : ruleArrays) (p : publication)
  | Draining (op : rule_op) (candidate : RuleSnapshot) (arrays : ruleArrays) (p : publication) (token : Z)
                                                                    (** in the blocking check *)
  | Collecting (op : rule_op) (candidate : RuleSnapshot) (arrays : ruleArrays) (ret generation : Z)
                                                                    (** [dp_publish_rules] has returned *)
  | Unlocking (op : rule_op) (err : option control_error)           (** the deferred unlock *)
  | Replied (op : rule_op) (err : option control_error).

Section Calls.
Context {T : DpdkTables} {Q : Qsbr}.
Context (calloc : callocator) (allocate : gmap Z hobj -> allocator) (growth : nat -> nat -> nat).
Abbreviation N := (world * c_heap)%type.
Abbreviation runtime := (Control.runtime N).
Abbreviation prepare := (ControlRefine.prepare growth).

(** [PublishRules] returns, and the rest of [publishSnapshotLocked]. *)
Definition collect (candidate : RuleSnapshot) (arrays : ruleArrays) (ret generation : Z) : M runtime (option control_error) :=
  on_native (on_c (release arrays));;
  if negb (ret =? 0) then mret (Some (PublishFailed (Status ret))) else
  copy ← cloneRules growth candidate;
  modify (set_currentRules copy);;
  modify (set_rt_generation generation);;
  mret None.

(** The call of [dp_publish_rules] up to the exchange. *)
Definition send (n : Binding.RuleSnapshot) (arrays : ruleArrays) : M runtime (Z + publication) :=
  r ← get;
  flows ← lift (flows_arg (arr_flows arrays) (native r).2);
  routes ← lift (routes_arg (arr_routes arrays) (native r).2);
  on_native (on_world (publish_swap (allocate (rules_heap (native r).1))
    flows (Z.of_nat (length (Binding.Flows n))) routes (Z.of_nat (length (Binding.Routes n))))).

Definition call_step (s : call) : M runtime call :=
  match s with
  | Called op =>
    match op with
    | Replace _ =>
      x ← prepare op;
      mret (match x with inl err => Replied op (Some err) | inr c => Locking op (Some c) end)
    | _ => mret (Locking op None)
    end
  | Locking op c => mret (Locked op c)
  | Locked op (Some c) => mret (Publishing op c)
  | Locked op None =>
    x ← prepare op;
    mret (match x with inl err => Unlocking op (Some err) | inr c => Publishing op c end)
  | Publishing op c =>
    r ← get;
    if negb (rulesOpen r) then mret (Unlocking op (Some NotAvailable)) else
    n ← toNativeRules c;
    x ← on_native (on_c (newRuleArrays calloc n));
    mret (match x with
          | inl err => Unlocking op (Some (PublishFailed (ArraysError err)))
          | inr arrays => Sending op c n arrays
          end)
  | Sending op c n arrays =>
    x ← send n arrays;
    mret (match x with inl ret => Collecting op c arrays ret 0 | inr p => Swapped op c arrays p end)
  | Swapped op c arrays p => token ← on_native (on_world publish_start); mret (Draining op c arrays p token)
  | Draining op c arrays p _ =>
    '(ret, g) ← on_native (on_world (publish_finish p));
    mret (Collecting op c arrays ret g)
  | Collecting op c arrays ret g => err ← collect c arrays ret g; mret (Unlocking op err)
  | Unlocking op err => mret (Replied op err)
  | Replied _ _ => ub
  end.

(** ** The stages make up the operations *)
Context (concurrent : M world unit) (wait : Z -> M world unit).

(** What the other threads do before a call goes on. *)
Definition meanwhile (s : call) : M runtime unit :=
  match s with
  | Swapped _ _ _ _ => on_native (on_world concurrent)
  | Draining _ _ _ _ token => on_native (on_world (wait token))
  | _ => mret tt
  end.

Definition solo_call : call * runtime -> call * runtime -> Prop := fun '(s, r) '(s', r') =>
  (meanwhile s;; call_step s) r = Some (s', r').

(** What a call at a stage still has to do. *)
Definition call_remaining (s : call) : M runtime (option control_error) :=
  let publish c := publishSnapshotLocked (native_publish calloc allocate concurrent wait) growth c in
  let prepare_and_publish op := x ← prepare op; match x with inl err => mret (Some err) | inr c => publish c end in
  let finish c arrays p := '(ret, g) ← on_native (on_world (publish_finish p)); collect c arrays ret g in
  let drain c arrays p token := on_native (on_world (wait token));; finish c arrays p in
  let start c arrays p :=
    on_native (on_world concurrent);; token ← on_native (on_world publish_start); drain c arrays p token in
  match s with
  | Called op => run_op (native_publish calloc allocate concurrent wait) growth op
  | Locking op None | Locked op None => prepare_and_publish op
  | Locking _ (Some c) | Locked _ (Some c) | Publishing _ c => publish c
  | Sending _ c n arrays =>
    x ← send n arrays;
    match x with inl ret => collect c arrays ret 0 | inr p => start c arrays p end
  | Swapped _ c arrays p => start c arrays p
  | Draining _ c arrays p token => drain c arrays p token
  | Collecting _ c arrays ret g => collect c arrays ret g
  | Unlocking _ err | Replied _ err => mret err
  end.

(** Run the first action of a hypothesis, in the goal too. *)
Ltac run_first E := apply M_bind_Some in E as (? & ? & ?E & E); erewrite M_bind_step by eassumption; cbv beta.

(** The native call, cut at the exchange. *)
Lemma publish_cut op c r : call_remaining (Publishing op c) r =
  (r ← get;
   if negb (rulesOpen r) then mret (Some NotAvailable) else
   n ← toNativeRules c;
   x ← on_native (on_c (newRuleArrays calloc n));
   match x with
   | inl err => mret (Some (PublishFailed (ArraysError err)))
   | inr arrays => call_remaining (Sending op c n arrays)
   end) r.
Proof.
  cbn [call_remaining]. unfold publishSnapshotLocked. apply M_bind_ext. intros r0 r1. destruct (rulesOpen r0); cbn [negb]; [|done].
  apply M_bind_ext. clear. intros n [h cur g open inf sts [w ch]].
  unfold native_publish, PublishRules, send, collect, dp_publish_rules.
  unfold on_native, on_c, on_world, get, lift, mbind, M_bind, mret, M_ret.
  cbn [native set_native fst snd].
  destruct (newRuleArrays calloc n ch) as [[[e|arrays] ch1]|]; cbn [mbind option_bind]; [done| |done].
  cbn [native set_native fst snd].
  destruct (flows_arg (arr_flows arrays) ch1) as [fl|]; cbn [mbind option_bind]; [|done].
  destruct (routes_arg (arr_routes arrays) ch1) as [ro|]; cbn [mbind option_bind]; [|done].
  cbn [native set_native fst snd].
  destruct (publish_swap _ _ _ _ _ w) as [[[ret|pub] w1]|]; cbn [mbind option_bind]; [| |done].
  - cbn [native set_native fst snd]. destruct (release arrays ch1) as [[[] ch2]|]; cbn [mbind option_bind]; [|done].
    by destruct (ret =? 0).
  - cbn [native set_native fst snd]. destruct (concurrent w1) as [[[] w2]|]; cbn [mbind option_bind]; [|done].
    cbn [native set_native fst snd]. destruct (publish_start w2) as [[token w3]|]; cbn [mbind option_bind]; [|done].
    cbn [native set_native fst snd]. destruct (wait token w3) as [[[] w4]|]; cbn [mbind option_bind]; [|done].
    cbn [native set_native fst snd]. destruct (publish_finish pub w4) as [[[ret g'] w5]|]; cbn [mbind option_bind]; [|done].
    cbn [native set_native fst snd]. destruct (release arrays ch1) as [[[] ch2]|]; cbn [mbind option_bind]; [|done].
    by destruct (ret =? 0).
Qed.

Lemma solo_call_remaining s r s' r' : solo_call (s, r) (s', r') -> call_remaining s r = call_remaining s' r'.
Proof.
  cbn [solo_call]. intros E.
  destruct s as [op|op c|op [c|]|op c|op c n arrays|op c arrays p|op c arrays p token|op c arrays ret g|op err|op err];
    cbn [meanwhile call_step] in E; apply M_bind_Some in E as ([] & r0 & Em & E);
    try (injection Em as <-); try done.
  - cbn [call_remaining]. rewrite run_op_prepare. destruct op; try by injection E as <- <-.
    run_first E. injection E as <- <-. by case_match.
  - by injection E as <- <-; destruct c.
  - by injection E as <- <-.
  - cbn [call_remaining]. run_first E. injection E as <- <-. by case_match.
  - rewrite publish_cut. run_first E. destruct (negb _); [by injection E as <- <-|].
    do 2 run_first E. injection E as <- <-. by case_match.
  - cbn [call_remaining]. run_first E. injection E as <- <-. by case_match.
  - cbn [call_remaining]. erewrite M_bind_step by exact Em. cbv beta. run_first E. by injection E as <- <-.
  - cbn [call_remaining]. erewrite M_bind_step by exact Em. cbv beta. apply M_bind_Some in E as ([ret g] & ? & E0 & [= <- <-]).
    by erewrite M_bind_step by exact E0.
  - cbn [call_remaining]. apply M_bind_Some in E as (? & ? & E0 & [= <- <-]). exact E0.
  - by injection E as <- <-.
Qed.

(** How far a stage is from the reply. *)
Definition call_distance (s : call) : nat :=
  match s with
  | Called _ => 9 | Locking _ _ => 8 | Locked _ _ => 7 | Publishing _ _ => 6 | Sending _ _ _ _ => 5 | Swapped _ _ _ _ => 4
  | Draining _ _ _ _ _ => 3 | Collecting _ _ _ _ _ => 2 | Unlocking _ _ => 1 | Replied _ _ => 0
  end.

Lemma call_step_closer s r s' r' : call_step s r = Some (s', r') -> (call_distance s' < call_distance s)%nat.
Proof.
  intros E. destruct s as [op|op c|op [c|]|op c|op c n arrays|op c arrays p|op c arrays p token|op c arrays ret g|op err|op err];
    cbn [call_step] in E; try done; try (injection E as <- <-; cbn; lia).
  - destruct op; try (injection E as <- <-; cbn; lia).
    apply M_bind_Some in E as ([?|?] & ? & _ & [= <- <-]); cbn; lia.
  - apply M_bind_Some in E as ([?|?] & ? & _ & [= <- <-]); cbn; lia.
  - apply M_bind_Some in E as (r0 & ? & _ & E). destruct (negb _); [injection E as <- <-; cbn; lia|].
    apply M_bind_Some in E as (n & ? & _ & E). apply M_bind_Some in E as ([?|?] & ? & _ & [= <- <-]); cbn; lia.
  - apply M_bind_Some in E as ([?|?] & ? & _ & [= <- <-]); cbn; lia.
  - apply M_bind_Some in E as (? & ? & _ & [= <- <-]); cbn; lia.
  - apply M_bind_Some in E as ([? ?] & ? & _ & [= <- <-]); cbn; lia.
  - apply M_bind_Some in E as (? & ? & _ & [= <- <-]); cbn; lia.
Qed.

(** The operation that was called. *)
Definition call_op (s : call) : rule_op :=
  match s with
  | Called op | Locking op _ | Locked op _ | Publishing op _ | Sending op _ _ _ | Swapped op _ _ _ | Draining op _ _ _ _
  | Collecting op _ _ _ _ | Unlocking op _ | Replied op _ => op
  end.

Lemma call_step_op s r s' r' : call_step s r = Some (s', r') -> call_op s' = call_op s.
Proof.
  intros E. destruct s as [op|op c|op [c|]|op c|op c n arrays|op c arrays p|op c arrays p token|op c arrays ret g|op err|op err];
    cbn [call_step] in E; try done; try by injection E as <- <-.
  - destruct op; try by injection E as <- <-. by apply M_bind_Some in E as ([?|?] & ? & _ & [= <- <-]).
  - by apply M_bind_Some in E as ([?|?] & ? & _ & [= <- <-]).
  - apply M_bind_Some in E as (r0 & ? & _ & E). destruct (negb _); [by injection E as <- <-|].
    apply M_bind_Some in E as (n & ? & _ & E). by apply M_bind_Some in E as ([?|?] & ? & _ & [= <- <-]).
  - by apply M_bind_Some in E as ([?|?] & ? & _ & [= <- <-]).
  - by apply M_bind_Some in E as (? & ? & _ & [= <- <-]).
  - by apply M_bind_Some in E as ([? ?] & ? & _ & [= <- <-]).
  - by apply M_bind_Some in E as (? & ? & _ & [= <- <-]).
Qed.

Lemma solo_op x y : rtc solo_call x y -> call_op x.1 = call_op y.1.
Proof.
  induction 1 as [|[s r] [s1 r1] y Hs _ IH]; [done|]. rewrite <- IH.
  apply M_bind_Some in Hs as (? & ? & _ & E). symmetry. by eapply call_step_op.
Qed.

(** The only action that may be undefined is defined in [E]. *)
Ltac goes E :=
  apply M_bind_Some in E as (? & ? & E & _); eexists _, _; erewrite M_bind_step by done; cbv beta;
  by erewrite M_bind_step by exact E.

(** What is defined as a whole can take its first step. *)
Lemma remaining_goes s r err r' : call_remaining s r = Some (err, r') ->
  (exists op, s = Replied op err /\ r' = r) \/ exists s1 r1, solo_call (s, r) (s1, r1).
Proof.
  intros E. unfold solo_call.
  destruct s as [op|op c|op [c|]|op c|op c n arrays|op c arrays p|op c arrays p token|op c arrays ret g|op e|op e];
    cbn [meanwhile call_step].
  - right. destruct op; try by eexists _, _. cbn [call_remaining] in E. rewrite run_op_prepare in E. goes E.
  - right. by eexists _, _.
  - right. by eexists _, _.
  - right. cbn [call_remaining] in E. goes E.
  - right. rewrite publish_cut in E. apply M_bind_Some in E as (r0 & r1 & E1 & E). destruct (negb (rulesOpen r0)) eqn:Ho.
    { eexists _, _. do 2 (erewrite M_bind_step by done; cbv beta). injection E1 as <- <-. by rewrite Ho. }
    apply M_bind_Some in E as (n & r2 & E2 & E). apply M_bind_Some in E as (x & r3 & E3 & _).
    eexists _, _. erewrite M_bind_step by done. cbv beta. erewrite M_bind_step by exact E1. cbv beta. rewrite Ho.
    erewrite M_bind_step by exact E2. cbv beta. by erewrite M_bind_step by exact E3.
  - right. cbn [call_remaining] in E. goes E.
  - right. cbn [call_remaining] in E. apply M_bind_Some in E as ([] & r1 & E1 & E). apply M_bind_Some in E as (token & r2 & E2 & _).
    eexists _, _. erewrite M_bind_step by exact E1. cbv beta. by erewrite M_bind_step by exact E2.
  - right. cbn [call_remaining] in E. apply M_bind_Some in E as ([] & r1 & E1 & E). apply M_bind_Some in E as ([ret g] & r2 & E2 & _).
    eexists _, _. erewrite M_bind_step by exact E1. cbv beta. by erewrite M_bind_step by exact E2.
  - right. cbn [call_remaining] in E. eexists _, _. erewrite M_bind_step by done. cbv beta. by erewrite M_bind_step by exact E.
  - right. by eexists _, _.
  - left. exists op. by injection E as -> ->.
Qed.

(** The stages are the operations.  A call of an operation of the manager, its
    publication interleaved with what others do between the exchange and the token
    and until the check returns, replies [err] in the state [r'] exactly when
    running its stages one after the other does. *)
Lemma run_op_calls op r err r' :
  run_op (native_publish calloc allocate concurrent wait) growth op r = Some (err, r') <->
  rtc solo_call (Called op, r) (Replied op err, r').
Proof.
  refine (iff_trans (unrolled solo_call (fun '(s, r) => call_remaining s r)
    (fun '(err, r') '(s, r) => (exists op, s = Replied op err) /\ r = r') (fun '(s, _) => call_distance s)
    _ _ _ _ (Called op, r) (err, r')) _).
  - intros [? ?] [? ?]. apply solo_call_remaining.
  - intros [? ?] [? ?] Hs. apply M_bind_Some in Hs as (? & ? & _ & E). by eapply call_step_closer.
  - by intros [? ?] [? ?] [[? ->] ->].
  - intros [? ?] [? ?] E. destruct (remaining_goes _ _ _ _ E) as [(? & -> & ->)|(? & ? & Hs)]; [left|by right; eexists].
    split; [by eexists|done].
  - split; [intros ([s1 r1] & Hr & (op' & ->) & ->)|].
    + assert (op' = op) as ->; [|done]. symmetry. exact (solo_op _ _ Hr).
    + intros Hr. eexists. split; [exact Hr|]. split; [by eexists|done].
Qed.
End Calls.

(** ** The office *)
Section Office.
Context {H : Host} {C : Checksums} {T : DpdkTables} {Q : Qsbr}.
Context (calloc : callocator) (allocate : gmap Z hobj -> allocator) (growth : nat -> nat -> nat).
Context (stack_meta : dp_packet_meta) (injected : Z).
Abbreviation N := (world * c_heap)%type.
Abbreviation runtime := (Control.runtime N).

Record office := {
  rt : runtime;
  staff : gmap Z stage;                                 (** the workers *)
  calls : gmap nat call;                                (** by goroutine *)
  holder : option nat;                                  (** [rulesMu] *)
  history : list (rule_op * option control_error);      (** results, in the order in which they were settled *)
}.

(** What a call has done of a publication. *)
Definition writing (s : call) : writer_state :=
  match s with
  | Swapped _ _ _ p => Exchanged p
  | Draining _ _ _ p token => Waiting p token
  | _ => Idle
  end.

Definition at_lock (o : office) : option call := g ← holder o; calls o !! g.

(** The office as its workers see it. *)
Definition crew_of (o : office) : crew := {|
  state := (native (rt o)).1; stages := staff o;
  publisher := match at_lock o with Some s => writing s | None => Idle end |}.

Definition set_world (w : world) (r : runtime) : runtime := set_native (w, (native r).2) r.

(** A stage that may go on by itself: locking and unlocking are steps of their
    own, and the check blocks. *)
Definition may_go (s : call) (w : world) : Prop :=
  match s with
  | Locking _ _ | Unlocking _ _ | Replied _ _ => False
  | Draining _ _ _ _ token => publish_ready token w = true
  | _ => True
  end.

(** The result a call has settled on. *)
Definition settles (s : call) : list (rule_op * option control_error) :=
  match s with Unlocking op err | Replied op err => [(op, err)] | _ => [] end.

(** The workers work and the calls go on. *)
Inductive office_runs : office -> office -> Prop :=
  | office_works i p s s' w' o : staff o !! Z.of_nat i = Some s -> poll_ok p (mbufs (native (rt o)).1) ->
      worker_step stack_meta injected i p s (native (rt o)).1 = Some (s', w') ->
      office_runs o {| rt := set_world w' (rt o); staff := <[Z.of_nat i := s']> (staff o); calls := calls o;
                       holder := holder o; history := history o |}
  | office_locks g op c o : calls o !! g = Some (Locking op c) -> holder o = None ->
      office_runs o {| rt := rt o; staff := staff o; calls := <[g := Locked op c]> (calls o);
                       holder := Some g; history := history o |}
  | office_goes g s s' r' o : calls o !! g = Some s -> may_go s (native (rt o)).1 ->
      call_step calloc allocate growth s (rt o) = Some (s', r') ->
      office_runs o {| rt := r'; staff := staff o; calls := <[g := s']> (calls o);
                       holder := holder o; history := history o ++ settles s' |}
  | office_unlocks g op err o : calls o !! g = Some (Unlocking op err) ->
      office_runs o {| rt := rt o; staff := staff o; calls := <[g := Replied op err]> (calls o);
                       holder := None; history := history o |}.

(** And somebody may ask for a stop, or call. *)
Inductive office_step : office -> office -> Prop :=
  | office_moves o o' : office_runs o o' -> office_step o o'
  | office_stops o :
      office_step o {| rt := set_world (halt (native (rt o)).1) (rt o); staff := staff o; calls := calls o;
                       holder := holder o; history := history o |}
  | office_enters g op o : calls o !! g = None -> op_ok (memory (rt o)) op ->
      office_step o {| rt := rt o; staff := staff o; calls := <[g := Called op]> (calls o);
                       holder := holder o; history := history o |}.

Lemma runs_steps o o' : rtc office_runs o o' -> rtc office_step o o'.
Proof. apply rtc_subrel. intros ? ?. apply office_moves. Qed.
End Office.
#[global] Arguments office {T Q}.
