(* ===== verification/CallsSpec.v ===== *)
(** * Calls from any number of goroutines

    The invariant of an office: whoever holds [rulesMu], the manager's copy of the
    rules is what the settled calls make of the abstract table, in the order in
    which they settled; outside a publication the workers' generation shows the
    same table.  Every step keeps it, every call can go on unless it waits, and what
    it waits for comes. *)
From Stdlib Require Import ZArith Lia.
From stdpp Require Import base list numbers option gmap strings relations.
From S2P Require Import Prelude Host Packet Api Tables Heap Snapshot SnapshotSpec LookupSpec Action Rcu State StatsSpec Rules Binding Worker WorkerSpec RunSpec Publish PublishSpec BurstSpec ReaderSpec Crew CrewSpec BindingSpec GoSlice Control ControlSpec ControlRefine ControlNative Lifecycle LifecycleSpec Calls.

(** ** Histories *)

(** [l] is a sequential history of the table: successes do what the operation means,
    refusals change nothing, and a key is reported taken or missing exactly when it
    is. *)
Inductive served (h : go_heap) (t0 : rule_table) : list (rule_op * option control_error) -> rule_table -> Prop :=
  | served_nil : served h t0 [] t0
  | served_done l op t t' : served h t0 l t -> op_spec h op t = Some t' -> served h t0 (l ++ [(op, None)]) t'
  | served_refused l op e t : served h t0 l t -> (is_lookup_error e <-> op_spec h op t = None) ->
      served h t0 (l ++ [(op, Some e)]) t.

Lemma served_later h h' t0 l t : heap_ok h -> later h h' -> Forall (fun x => op_ok h x.1) l ->
  served h t0 l t -> served h' t0 l t.
Proof.
  intros Hh Hl Hall Hs. induction Hs as [|l op t t' Hs IH E|l op e t Hs IH E]; [constructor|..];
    apply Forall_app in Hall as [Hall [Hop _]%Forall_cons_1]; cbn in Hop.
  - eapply served_done; [by apply IH|]. by rewrite (op_spec_later h h').
  - apply served_refused; [by apply IH|]. by rewrite (op_spec_later h h').
Qed.

Section Frames.
Context {H : Host} {C : Checksums} {T : DpdkTables} {Q : Qsbr}.

(** ** What the other threads leave alone *)
#[export] Instance same_rules_preorder : PreOrder same_rules.
Proof. split; [intros ?; by split_and!|]. intros ? ? ? (? & ? & ? & ? & ?) (? & ? & ? & ? & ?). split_and!; congruence. Qed.

Lemma same_rules_packets i (m : M packet_world (list Z)) : framed same_rules (on_packets i m).
Proof.
  intros w a w' E. unfold on_packets in E. destruct (workers (dp w) !! i) as [ctx|]; [|done].
  cbn [mbind option_bind] in E. destruct (m _) as [[b pw]|]; [|done]. cbn [mbind option_bind] in E. by injection E as _ <-.
Qed.

Lemma same_rules_worker stack_meta injected i p s : framed same_rules (worker_step stack_meta injected i p s).
Proof.
  destruct s; cbn [Crew.worker_step].
  all: repeat first [apply framed_bind; [apply _| |intros ?] | case_match].
  all: first [apply framed_ret; apply _ | apply framed_get; apply _ | apply framed_lift; apply _ | apply same_rules_packets
             | by apply framed_on_dp | done].
Qed.
End Frames.

Section Spec.
Context {H : Host} {HO : HostOk H} {C : Checksums} {CO : ChecksumsOk C}.
Context {T : DpdkTables} {TO : DpdkTablesOk T} {Q : Qsbr} {QO : QsbrOk Q}.
Context (calloc : callocator) (allocate : gmap Z hobj -> allocator) (growth : nat -> nat -> nat).
Context (Hcalloc : callocator_ok calloc) (Halloc : forall h, allocator_ok (allocate h) h).
Context (stack_meta : dp_packet_meta) (injected : Z).
Abbreviation N := (world * c_heap)%type.
Abbreviation runtime := (Control.runtime N).
Abbreviation call_step := (Calls.call_step calloc allocate growth).
Abbreviation office_step := (Calls.office_step calloc allocate growth stack_meta injected).
Abbreviation crew_step := (Crew.crew_step stack_meta injected).
Abbreviation kept := (ControlSpec.coherent (fun (_ : N) _ _ _ => True)).

(** ** The invariant *)

(** The rules a candidate stands for. *)
Definition stands_for (h : go_heap) (c : RuleSnapshot) (flows : list FlowRule) (routes : list RouteRule) : Prop :=
  shows_in c h flows routes /\ rules_fit flows routes /\ validate_elements flows routes = None.

(** What a call knows of itself, whoever holds the lock. *)
Definition errand (h : go_heap) (l : list (rule_op * option control_error)) (s : call) : Prop :=
  op_ok h (call_op s) /\
  match s with
  | Locking op (Some c) | Locked op (Some c) =>
    exists flows routes, stands_for h c flows routes /\ forall t, op_spec h op t = Some (table flows routes)
  | Unlocking op err | Replied op err => (op, err) ∈ l
  | _ => True
  end.

(** The candidate of the holder turns [flows] and [routes] into [flows'] and [routes']. *)
Definition turns (h : go_heap) (op : rule_op) (c : RuleSnapshot) flows routes flows' routes' : Prop :=
  stands_for h c flows' routes' /\ op_spec h op (table flows routes) = Some (table flows' routes').

(** [opened]: the manager has been opened and not closed. *)
Context (opened : bool).

(** The native side: while the manager is open, generation [g] is active with
    these rules. *)
Definition generation_is (g : Z) (flows : list FlowRule) (routes : list RouteRule) (w : world) : Prop :=
  opened = true -> now_active (native_flows flows) (native_routes routes) g w.

(** The generation that is about to be freed is still there. *)
Definition retired (g : Z) (flows : list FlowRule) (routes : list RouteRule) (p : publication) (w : world) : Prop :=
  exists so ho, pub_old p = Some so /\ piece ho so g (native_flows flows) (native_routes routes) /\ ho ⊆ rules_heap w.

(** [hc]: the C heap between calls. *)
Context (hc : c_heap).

(** What the holder of the lock has done of the native call. *)
Definition desk (h : go_heap) (n : N) (g : Z) (flows : list FlowRule) (routes : list RouteRule) (s : option call) : Prop :=
  match s with
  | Some (Publishing op c) =>
    generation_is g flows routes n.1 /\ n.2 = hc /\ exists flows' routes', turns h op c flows routes flows' routes'
  | Some (Sending op c nr arrays) =>
    opened = true /\ generation_is g flows routes n.1 /\ exists flows' routes', turns h op c flows routes flows' routes' /\
      nr = native_snapshot flows' routes' /\ marshalled nr hc n.2 arrays
  | Some (Swapped op c arrays p) | Some (Draining op c arrays p _) =>
    opened = true /\ release arrays n.2 = Some (tt, hc) /\ pub_generation p = u64 (g + 1) /\ retired g flows routes p n.1 /\
    exists flows' routes', turns h op c flows routes flows' routes' /\ generation_is (u64 (g + 1)) flows' routes' n.1
  | Some (Collecting op c arrays ret g') =>
    opened = true /\ release arrays n.2 = Some (tt, hc) /\ exists flows' routes', turns h op c flows routes flows' routes' /\
      if ret =? 0 then g' = u64 (g + 1) /\ generation_is (u64 (g + 1)) flows' routes' n.1
      else generation_is g flows routes n.1
  | _ => generation_is g flows routes n.1 /\ n.2 = hc
  end.

(** A stage that holds [rulesMu]. *)
Definition inside (s : call) : bool :=
  match s with Called _ | Locking _ _ | Replied _ _ => false | _ => true end.

(** [t0] and [g0]: the table and the generation the office opened with. *)
Context (n : nat) (rest : gmap Z hobj) (B : gmap Z rte_mbuf) (t0 : rule_table) (g0 : Z).

Record books (o : office) (flows : list FlowRule) (routes : list RouteRule) : Prop := {
  bk_kept : kept (rt o) flows routes;
  bk_served : served (memory (rt o)) t0 (history o) (table flows routes);
  bk_ops : Forall (fun x => op_ok (memory (rt o)) x.1) (history o);
  bk_generation : rt_generation (rt o) = u64 (g0 + successes (history o).*2);
  bk_desk : desk (memory (rt o)) (native (rt o)) (rt_generation (rt o)) flows routes (at_lock o);
}.

(** The workers: a crew, or everybody is home. *)
Definition crew_side (c : crew) : Prop := if opened then crew_ok n rest B c else all_home c.

Record office_ok (o : office) : Prop := {
  of_crew : crew_side (crew_of o);
  of_books : exists flows routes, books o flows routes;
  of_open : rulesOpen (rt o) = opened;
  of_errands g s : calls o !! g = Some s -> errand (memory (rt o)) (history o) s;
  of_lock g s : calls o !! g = Some s -> inside s = true <-> holder o = Some g;
  of_holder g : holder o = Some g -> is_Some (calls o !! g);
}.

(** ** Stability *)
Lemma crew_side_run c c' : rtc crew_step c c' -> crew_side c -> crew_side c'.
Proof.
  unfold crew_side. destruct opened; [apply crew_run_ok|]. induction 1 as [c|c c1 c' Hs _ IH]; [done|]. intros Hh. apply IH.
  destruct Hs as [i p s s' w' c Hi _ Hrun| |]; [|done..]. by destruct (Hh _ _ Hi) as (ret & ->).
Qed.

Lemma crew_side_open c : opened = true -> crew_side c -> crew_ok n rest B c.
Proof. unfold crew_side. by intros ->. Qed.

Lemma generation_is_same g flows routes w w' : same_rules w w' -> generation_is g flows routes w -> generation_is g flows routes w'.
Proof. intros (Eh & Ea & _ & _ & Es) Hgen Ho. eapply now_active_same; [done|by rewrite Es|done|by apply Hgen]. Qed.

Lemma retired_same g flows routes p w w' : same_rules w w' -> retired g flows routes p w -> retired g flows routes p w'.
Proof. intros (Eh & _) (so & ho & ? & ? & ?). exists so, ho. by rewrite Eh. Qed.

Lemma desk_world h w w' ch g flows routes s : same_rules w w' -> desk h (w, ch) g flows routes s -> desk h (w', ch) g flows routes s.
Proof.
  intros Hs.
  destruct s as [[]|]; cbn [desk fst snd]; try (intros [? ?]; split; [by eapply generation_is_same|done]).
  - intros (? & ? & ?). split_and!; [done|by eapply generation_is_same|done].
  - intros (? & ? & ? & ? & ? & ? & ? & ?). split_and!; [done|done|done|by eapply retired_same|]. eexists _, _. split; [done|by eapply generation_is_same].
  - intros (? & ? & ? & ? & ? & ? & ? & ?). split_and!; [done|done|done|by eapply retired_same|]. eexists _, _. split; [done|by eapply generation_is_same].
  - intros (? & ? & ? & ? & ? & E). split; [done|]. split; [done|]. eexists _, _. split; [done|]. case_match.
    + destruct E. split; [done|by eapply generation_is_same].
    + by eapply generation_is_same.
Qed.

Lemma stands_for_later h h' c flows routes : heap_ok h -> later h h' -> stands_for h c flows routes -> stands_for h' c flows routes.
Proof. intros ? ? (? & ? & ?). split_and!; [by eapply shows_in_later|done|done]. Qed.

Lemma turns_later h h' op c flows routes flows' routes' : heap_ok h -> later h h' -> op_ok h op ->
  turns h op c flows routes flows' routes' -> turns h' op c flows routes flows' routes'.
Proof. intros ? ? ? [? ?]. split; [by eapply stands_for_later|]. by rewrite (op_spec_later h h'). Qed.

Lemma errand_later h h' l l' s : heap_ok h -> later h h' -> errand h l s -> errand h' (l ++ l') s.
Proof.
  intros Hh Hl [Hop Hs]. split; [by eapply op_ok_later|].
  assert (forall op c, op_ok h op -> (exists flows routes, stands_for h c flows routes /\ forall t, op_spec h op t = Some (table flows routes)) ->
    exists flows routes, stands_for h' c flows routes /\ forall t, op_spec h' op t = Some (table flows routes)) as Hc.
  { intros op c Ho (flows & routes & Hst & Ht). exists flows, routes. split; [by eapply stands_for_later|].
    intros t. by rewrite (op_spec_later h h'). }
  destruct s as [op|op [c|]|op [c|]|op c|op c nr arrays|op c arrays p|op c arrays p token|op c arrays ret g|op err|op err]; auto.
  all: apply elem_of_app; by left.
Qed.

Lemma desk_later h h' nt g flows routes s : heap_ok h -> later h h' -> (forall s', s = Some s' -> op_ok h (call_op s')) ->
  desk h nt g flows routes s -> desk h' nt g flows routes s.
Proof.
  intros Hh Hl Hop. pose proof (fun op c f r f' r' => turns_later h h' op c f r f' r' Hh Hl) as Ht.
  destruct s as [s|]; [specialize (Hop s eq_refl)|done]. destruct s; cbn [desk call_op] in *; try done.
  - intros (? & ? & ? & ? & ?). split_and!; [done|done|]. eauto.
  - intros (? & ? & ? & ? & ? & ?). split_and!; [done|done|]. eexists _, _. split; eauto.
  - intros (? & ? & ? & ? & ? & ? & ? & ?). split_and!; [done|done|done|done|]. eexists _, _. split; eauto.
  - intros (? & ? & ? & ? & ? & ? & ? & ?). split_and!; [done|done|done|done|]. eexists _, _. split; eauto.
  - intros (? & ? & ? & ? & ? & ?). split_and!; [done|done|]. eexists _, _. split; eauto.
Qed.

(** ** Running the native side *)
Lemma native_world_run {A} (m : M world A) (r : runtime) a w' : m (native r).1 = Some (a, w') ->
  on_native (on_world m) r = Some (a, set_world w' r).
Proof.
  intros E. unfold on_native, on_world, set_world. destruct (native r) as [w h]. cbn in E. cbn [fst snd]. by rewrite E.
Qed.

Lemma native_c_run {A} (m : M c_heap A) (r : runtime) a h' : m (native r).2 = Some (a, h') ->
  on_native (on_c m) r = Some (a, set_native ((native r).1, h') r).
Proof.
  intros E. unfold on_native, on_c. destruct (native r) as [w h]. cbn in E. cbn [fst snd]. by rewrite E.
Qed.

(** ** A call goes on *)
Section Goes.
Context (o : office) (g : nat) (Hok : office_ok o).

(** Goroutine [g] has gone to stage [s'] and left the runtime [r']. *)
Definition goes (s' : call) (r' : runtime) : office := {|
  rt := r'; staff := staff o; calls := <[g := s']> (calls o); holder := holder o; history := history o ++ settles s' |}.

Lemma at_lock_goes s s' r' : calls o !! g = Some s -> inside s' = inside s ->
  at_lock (goes s' r') = if inside s then Some s' else at_lock o.
Proof.
  intros Hg _. unfold at_lock. cbn [goes holder calls]. pose proof (of_lock _ Hok g s Hg) as Hl.
  destruct (inside s) eqn:Hi.
  - rewrite (proj1 Hl eq_refl). cbn. by rewrite lookup_insert_eq.
  - destruct (holder o) as [g'|] eqn:Hh; [|done]. cbn. rewrite lookup_insert_ne; [done|]. intros <-. discriminate (proj2 Hl eq_refl).
Qed.

Lemma crew_goes s s' r' : calls o !! g = Some s -> inside s' = inside s -> (native r').1 = (native (rt o)).1 ->
  (inside s = true -> writing s' = writing s) -> crew_of (goes s' r') = crew_of o.
Proof.
  intros Hg Hi Hn Hw. unfold crew_of. rewrite (at_lock_goes s s' r') by done. cbn [goes rt staff]. rewrite Hn. f_equal.
  destruct (inside s) eqn:E; [|done]. rewrite Hw by done. unfold at_lock. rewrite (proj1 (of_lock _ Hok g s Hg) E). cbn. by rewrite Hg.
Qed.

Lemma goes_ok s s' r' flows routes : calls o !! g = Some s -> inside s' = inside s -> later (memory (rt o)) (memory r') ->
  rtc crew_step (crew_of o) (crew_of (goes s' r')) -> books (goes s' r') flows routes -> rulesOpen r' = opened ->
  errand (memory r') (history o ++ settles s') s' ->
  office_ok (goes s' r') /\ rtc crew_step (crew_of o) (crew_of (goes s' r')).
Proof.
  intros Hg Hi Hl Hcrew Hbooks Hopen Herr. split; [|exact Hcrew]. pose proof Hok as [_ (f0 & r0 & Hb0) _ He Hlk Hh].
  pose proof (co_heap _ _ _ _ (bk_kept _ _ _ Hb0)) as Hheap. split; cbn [goes rt calls holder history].
  - eapply crew_side_run; [exact Hcrew|apply Hok].
  - by exists flows, routes.
  - done.
  - intros g1 s1. rewrite lookup_insert_Some. intros [[<- <-]|[_ H1]]; [done|]. eapply errand_later; [done|done|by eapply He].
  - intros g1 s1. rewrite lookup_insert_Some. intros [[<- <-]|[_ H1]]; [rewrite Hi; by apply Hlk|by apply Hlk].
  - intros g1 H1. destruct (decide (g1 = g)) as [->|]; [rewrite lookup_insert_eq; by eexists|].
    rewrite lookup_insert_ne by done. by apply Hh.
Qed.

(** The call can go on, and the invariant holds again. *)
Definition can_go (s : call) : Prop := exists s' r', call_step s (rt o) = Some (s', r') /\
  office_ok (goes s' r') /\ rtc crew_step (crew_of o) (crew_of (goes s' r')).

(** Nothing is settled, the table stays. *)
Lemma books_stay s s' r' flows routes : books o flows routes -> calls o !! g = Some s -> inside s' = inside s ->
  later (memory (rt o)) (memory r') -> currentRules r' = currentRules (rt o) -> rt_generation r' = rt_generation (rt o) ->
  settles s' = [] -> desk (memory r') (native r') (rt_generation r') flows routes (at_lock (goes s' r')) ->
  books (goes s' r') flows routes.
Proof.
  intros [[Hh Hc Hf Hv _] Hs Ho Hgen _] Hg Hi Hl Ecur Egen Eset Hd. split; cbn [goes rt history]; rewrite ?Eset, ?app_nil_r.
  - split; [apply Hl|rewrite Ecur; by eapply shows_in_later|done|done|done].
  - by eapply served_later.
  - eapply Forall_impl; [exact Ho|]. intros [op e]. by apply op_ok_later.
  - by rewrite Egen.
  - done.
Qed.

(** A refusal is settled. *)
Lemma books_refused s op e s' r' flows routes : books o flows routes -> calls o !! g = Some s -> inside s' = inside s ->
  later (memory (rt o)) (memory r') -> currentRules r' = currentRules (rt o) -> rt_generation r' = rt_generation (rt o) ->
  settles s' = [(op, Some e)] -> op_ok (memory (rt o)) op ->
  (is_lookup_error e <-> op_spec (memory (rt o)) op (table flows routes) = None) ->
  desk (memory r') (native r') (rt_generation r') flows routes (at_lock (goes s' r')) ->
  books (goes s' r') flows routes.
Proof.
  intros [[Hh Hc Hf Hv _] Hs Ho Hgen _] Hg Hi Hl Ecur Egen Eset Hop He Hd. split; cbn [goes rt history]; rewrite ?Eset.
  - split; [apply Hl|rewrite Ecur; by eapply shows_in_later|done|done|done].
  - apply served_refused; [by eapply served_later|]. by rewrite (op_spec_later (memory (rt o))).
  - apply Forall_app. split; [|apply Forall_singleton; by eapply op_ok_later].
    eapply Forall_impl; [exact Ho|]. intros [op' e']. by apply op_ok_later.
  - rewrite Egen, Hgen. unfold successes. rewrite fmap_app, filter_app, length_app. cbn. by rewrite Nat.add_0_r.
  - done.
Qed.

(** The desk of a stage that the lock does not matter to. *)
Lemma desk_outside s s' r' flows routes : books o flows routes -> calls o !! g = Some s -> inside s = false -> inside s' = false ->
  later (memory (rt o)) (memory r') -> rt_generation r' = rt_generation (rt o) -> native r' = native (rt o) ->
  desk (memory r') (native r') (rt_generation r') flows routes (at_lock (goes s' r')).
Proof.
  intros Hb Hg Hi Hi' Hl -> ->. rewrite (at_lock_goes s) by congruence. rewrite Hi.
  eapply desk_later; [apply Hb|done| |apply Hb]. intros s1 Hs1. unfold at_lock in Hs1.
  destruct (holder o) as [g1|]; [|done]. by apply (of_errands _ Hok g1 s1).
Qed.

Lemma crew_idles s s' r' : calls o !! g = Some s -> inside s' = inside s -> (native r').1 = (native (rt o)).1 ->
  (inside s = true -> writing s' = writing s) -> rtc crew_step (crew_of o) (crew_of (goes s' r')).
Proof. intros. by rewrite (crew_goes s). Qed.

(** *** Stage by stage *)
Ltac same_runtime :=
  apply later_refl; match goal with Hk : ControlSpec.coherent _ (rt o) _ _ |- _ => exact (co_heap _ _ _ _ Hk) end.

Lemma goes_called op : calls o !! g = Some (Called op) -> can_go (Called op).
Proof.
  intros Hg. destruct (of_books _ Hok) as (flows & routes & Hb). pose proof (bk_kept _ _ _ Hb) as Hk.
  destruct (of_errands _ Hok _ _ Hg) as [Hop _]. cbn [call_op] in Hop.
  assert ((forall s, op <> Replace s) -> can_go (Called op)) as Hother.
  { intros Hne. exists (Locking op None), (rt o). split; [by destruct op; try done; destruct (Hne snapshot)|].
    apply (goes_ok (Called op) _ _ flows routes); [done|done|same_runtime|by apply (crew_idles (Called op))| |apply Hok|by split].
    apply (books_stay (Called op)); try done; [same_runtime|]. apply (desk_outside (Called op)); try done. same_runtime. }
  destruct op as [s|rule|key|rule|key]; try (by apply Hother). clear Hother. unfold can_go. cbn [Calls.call_step].
  destruct (prepare_run growth (Replace s) (rt o) flows routes Hk Hop) as (x & h & Hrun & Hl & Hx).
  destruct x as [e|c]; cbn [prepared] in Hx.
  - eexists _, _. split; [by erewrite M_bind_step by exact Hrun|]. destruct Hx as (_ & _ & He).
    apply (goes_ok (Called (Replace s)) _ _ flows routes); [done|done|done|by apply (crew_idles (Called (Replace s)))| |apply Hok|].
    + apply (books_refused (Called (Replace s)) (Replace s) e); try done. by apply (desk_outside (Called (Replace s))).
    + split; [by apply (op_ok_later (memory (rt o))); [apply Hk|..]|]. cbn. apply elem_of_app. right. by left.
  - eexists _, _. split; [by erewrite M_bind_step by exact Hrun|]. destruct Hx as (flows' & routes' & Hc & Hf & Hv & Ht).
    apply (goes_ok (Called (Replace s)) _ _ flows routes); [done|done|done|by apply (crew_idles (Called (Replace s)))| |apply Hok|].
    + apply (books_stay (Called (Replace s))); try done. by apply (desk_outside (Called (Replace s))).
    + split; [by apply (op_ok_later (memory (rt o))); [apply Hk|..]|]. exists flows', routes'. split; [by split_and!|].
      intros t. rewrite (op_spec_later (memory (rt o))); [exact Ht|apply Hk|done|done].
Qed.

(** The holder's own stage. *)
Lemma desk_inside s s' r' flows routes : calls o !! g = Some s -> inside s = true -> inside s' = true ->
  desk (memory r') (native r') (rt_generation r') flows routes (Some s') ->
  desk (memory r') (native r') (rt_generation r') flows routes (at_lock (goes s' r')).
Proof. intros Hg Hi Hi' Hd. rewrite (at_lock_goes s) by congruence. by rewrite Hi. Qed.

Lemma desk_held s flows routes : books o flows routes -> calls o !! g = Some s -> inside s = true ->
  desk (memory (rt o)) (native (rt o)) (rt_generation (rt o)) flows routes (Some s).
Proof.
  intros Hb Hg Hi. pose proof (bk_desk _ _ _ Hb) as Hd. unfold at_lock in Hd.
  rewrite (proj1 (of_lock _ Hok g s Hg) Hi) in Hd. cbn in Hd. by rewrite Hg in Hd.
Qed.

Lemma goes_locked_with op c : calls o !! g = Some (Locked op (Some c)) -> can_go (Locked op (Some c)).
Proof.
  intros Hg. destruct (of_books _ Hok) as (flows & routes & Hb). pose proof (bk_kept _ _ _ Hb) as Hk.
  destruct (of_errands _ Hok _ _ Hg) as [Hop (flows' & routes' & Hst & Ht)]. cbn [call_op] in Hop.
  destruct (desk_held _ _ _ Hb Hg eq_refl) as [Hgen Hheap].
  eexists _, _. split; [done|].
  apply (goes_ok (Locked op (Some c)) _ _ flows routes); [done|done|same_runtime|by apply (crew_idles (Locked op (Some c)))| |apply Hok|by split].
  apply (books_stay (Locked op (Some c))); try done; [same_runtime|]. apply (desk_inside (Locked op (Some c))); try done.
  split; [done|]. split; [done|]. exists flows', routes'. by split.
Qed.

Lemma goes_locked op : calls o !! g = Some (Locked op None) -> can_go (Locked op None).
Proof.
  intros Hg. destruct (of_books _ Hok) as (flows & routes & Hb). pose proof (bk_kept _ _ _ Hb) as Hk.
  destruct (of_errands _ Hok _ _ Hg) as [Hop _]. cbn [call_op] in Hop. unfold can_go. cbn [Calls.call_step].
  destruct (desk_held _ _ _ Hb Hg eq_refl) as [Hgen Hheap].
  destruct (prepare_run growth op (rt o) flows routes Hk Hop) as (x & h & Hrun & Hl & Hx).
  assert (op_ok h op) as Hop' by by apply (op_ok_later (memory (rt o))); [apply Hk|..].
  destruct x as [e|c]; cbn [prepared] in Hx; (eexists _, _; split; [by erewrite M_bind_step by exact Hrun|]).
  - destruct Hx as (_ & _ & He).
    apply (goes_ok (Locked op None) _ _ flows routes); [done|done|done|by apply (crew_idles (Locked op None))| |apply Hok|].
    + apply (books_refused (Locked op None) op e); try done. by apply (desk_inside (Locked op None)).
    + split; [done|]. cbn. apply elem_of_app. right. by left.
  - destruct Hx as (flows' & routes' & Hc & Hf & Hv & Ht).
    apply (goes_ok (Locked op None) _ _ flows routes); [done|done|done|by apply (crew_idles (Locked op None))| |apply Hok|by split].
    apply (books_stay (Locked op None)); try done. apply (desk_inside (Locked op None)); try done.
    split; [done|]. split; [done|]. exists flows', routes'. split; [by split_and!|].
    rewrite (op_spec_later (memory (rt o))); [exact Ht|apply Hk|done|done].
Qed.

Lemma goes_publishing op c : calls o !! g = Some (Publishing op c) -> can_go (Publishing op c).
Proof.
  intros Hg. destruct (of_books _ Hok) as (flows & routes & Hb). pose proof (bk_kept _ _ _ Hb) as Hk.
  destruct (of_errands _ Hok _ _ Hg) as [Hop _]. cbn [call_op] in Hop.
  destruct (desk_held _ _ _ Hb Hg eq_refl) as (Hgen & Hheap & flows' & routes' & Htu).
  pose proof Htu as [(Hc & Hf & Hv) Ht].
  destruct opened eqn:Hopen.
  2: { eexists _, _. split.
    { cbn [Calls.call_step]. erewrite M_bind_step by done. cbv beta. by rewrite (of_open _ Hok), Hopen. }
    apply (goes_ok (Publishing op c) _ _ flows routes); [done|done|same_runtime|by apply (crew_idles (Publishing op c))| |apply Hok|].
    + apply (books_refused (Publishing op c) op NotAvailable); try done; [same_runtime| |by apply (desk_inside (Publishing op c))].
      rewrite Ht. split; [by intros [?|?]|done].
    + split; [done|]. cbn. apply elem_of_app. right. by left. }
  destruct (newRuleArrays_run calloc Hcalloc (native_snapshot flows' routes') (native (rt o)).2) as (x & h & Hrun & Hx).
  assert (call_step (Publishing op c) (rt o) =
    Some (match x with
          | inl err => Unlocking op (Some (PublishFailed (ArraysError err)))
          | inr arrays => Sending op c (native_snapshot flows' routes') arrays
          end, set_native ((native (rt o)).1, h) (rt o))) as Hstep.
  { cbn [Calls.call_step]. erewrite M_bind_step by done. cbv beta. rewrite (of_open _ Hok), Hopen. cbn [negb].
    erewrite M_bind_step by by apply toNativeRules_run. cbv beta. by erewrite M_bind_step by (apply native_c_run; exact Hrun). }
  eexists _, _. split; [exact Hstep|]. clear Hstep.
  destruct x as [e|arrays]; cbn [arrays_post] in Hx.
  - destruct Hx as [-> _].
    apply (goes_ok (Publishing op c) _ _ flows routes); [done|done|same_runtime|by apply (crew_idles (Publishing op c))| |apply Hok|].
    + apply (books_refused (Publishing op c) op (PublishFailed (ArraysError e))); try done; [same_runtime| |].
      * rewrite Ht. split; [by intros [?|?]|done].
      * by apply (desk_inside (Publishing op c)).
    + split; [done|]. cbn. apply elem_of_app. right. by left.
  - destruct Hx as [_ Hm].
    apply (goes_ok (Publishing op c) _ _ flows routes); [done|done|same_runtime|by apply (crew_idles (Publishing op c))| |apply Hok|by split].
    apply (books_stay (Publishing op c)); try done; [same_runtime|]. apply (desk_inside (Publishing op c)); try done.
    split; [done|]. split; [done|]. exists flows', routes'. split_and!; [done|done|]. cbn. by rewrite <- Hheap.
Qed.

(** *** The native call *)
Lemma crew_at s : calls o !! g = Some s -> inside s = true ->
  crew_of o = {| state := (native (rt o)).1; stages := staff o; publisher := writing s |}.
Proof.
  intros Hg Hi. unfold crew_of, at_lock. rewrite (proj1 (of_lock _ Hok g s Hg) Hi). cbn. by rewrite Hg.
Qed.

(** A step of the holder is a step of the publisher. *)
Lemma crew_goes_on s s' r' : calls o !! g = Some s -> inside s = true -> inside s' = true ->
  step (readers_of (crew_of o)) {| sys := (native r').1; held := held (readers_of (crew_of o)); writer := writing s' |} ->
  rtc crew_step (crew_of o) (crew_of (goes s' r')).
Proof.
  intros Hg Hi Hi' Hs. pose proof (crew_publishes stack_meta injected _ _ Hs eq_refl) as Hc. cbn [sys writer] in Hc.
  assert (crew_of (goes s' r') = {| state := (native r').1; stages := stages (crew_of o); publisher := writing s' |}) as E.
  { unfold crew_of at 1. rewrite (at_lock_goes s) by congruence. by rewrite Hi. }
  rewrite E. by apply rtc_once.
Qed.

Lemma crew_inv s : opened = true -> calls o !! g = Some s -> inside s = true ->
  inv rest {| sys := (native (rt o)).1; held := omap reads (staff o); writer := writing s |}.
Proof.
  intros Ho Hg Hi. pose proof (ck_sound _ _ _ _ (crew_side_open _ Ho (of_crew _ Hok))) as [Hinv _]. by rewrite (crew_at s) in Hinv.
Qed.

Lemma rules_to_send flows routes w : rules_fit flows routes -> validate_elements flows routes = None ->
  rule_set_ok (native_rules (allocate (rules_heap w)) (native_snapshot flows routes)) (rules_heap w).
Proof.
  intros Hf Hv. apply native_rules_ok; [apply Halloc|..]; unfold snapshot_fits; rewrite c_flows_native, c_routes_native; [|exact Hf].
  by apply validate_elements_spec.
Qed.

Lemma send_run flows routes arrays res w1 : marshalled (native_snapshot flows routes) hc (native (rt o)).2 arrays ->
  swap (native_rules (allocate (rules_heap (native (rt o)).1)) (native_snapshot flows routes)) (native (rt o)).1 = Some (res, w1) ->
  send allocate (native_snapshot flows routes) arrays (rt o) = Some (res, set_world w1 (rt o)).
Proof.
  intros [Hfl Hro _ _] Hrun. unfold send. erewrite M_bind_step by done. cbv beta.
  erewrite M_bind_step by (unfold lift; by rewrite Hfl). cbv beta. erewrite M_bind_step by (unfold lift; by rewrite Hro). cbv beta.
  apply native_world_run. rewrite <- Hrun. unfold swap. cbn [native_rules rs_allocate rs_flow_array rs_route_array rs_flows rs_routes].
  unfold c_flows, c_routes. by rewrite !length_fmap.
Qed.

Lemma goes_sending op c nr arrays : calls o !! g = Some (Sending op c nr arrays) -> can_go (Sending op c nr arrays).
Proof.
  intros Hg. destruct (of_books _ Hok) as (flows & routes & Hb). pose proof (bk_kept _ _ _ Hb) as Hk.
  destruct (of_errands _ Hok _ _ Hg) as [Hop _]. cbn [call_op] in Hop.
  destruct (desk_held _ _ _ Hb Hg eq_refl) as (Hopen & Hgen & flows' & routes' & Htu & -> & Hm).
  pose proof Htu as [(Hc & Hf & Hv) Ht]. set (w := (native (rt o)).1) in *.
  pose proof (crew_inv _ Hopen Hg eq_refl) as [[Hi Hcf] (q & sa & hs & fl & ro & Hq & _ & Ha & _)]. cbn [sys writing] in Hi, Hcf, Hq, Ha.
  destruct (swap_run (native_rules (allocate (rules_heap w)) (native_snapshot flows' routes')) w q sa
    (rules_to_send _ _ w Hf Hv) Hi Hcf Hq Ha) as (res & w1 & Hrun & _ & _ & Hres).
  pose proof (send_run _ _ _ _ _ Hm Hrun) as Hsend. pose proof (crew_at _ Hg eq_refl) as Ecrew.
  eexists _, _. split; [cbn [Calls.call_step]; by erewrite M_bind_step by exact Hsend|].
  destruct res as [ret|p].
  - destruct Hres as (Hneg & Eh & Ea & _ & Eg).
    apply (goes_ok (Sending op c (native_snapshot flows' routes') arrays) _ _ flows routes); [done|done|same_runtime| | |apply Hok|by split].
    + eapply crew_goes_on; [exact Hg|done|done|]. rewrite Ecrew.
      eapply (step_publish_fails (native_rules (allocate (rules_heap w)) (native_snapshot flows' routes'))); [done|by apply rules_to_send|exact Hrun].
    + apply (books_stay (Sending op c (native_snapshot flows' routes') arrays)); try done; [same_runtime|].
      apply (desk_inside (Sending op c (native_snapshot flows' routes') arrays)); try done.
      split; [done|]. split; [apply Hm|]. exists flows', routes'. split; [done|]. rewrite (proj2 (Z.eqb_neq ret 0)) by lia.
      intros _. eapply now_active_same; [exact Ea|exact Eg|exact Eh|by apply Hgen].
  - destruct Hres as (sn & hn & Ea & Hp & Eh & Hdis & _ & Hold & Ep & Eg).
    assert (rules_generation (dstats (dp w)) = rt_generation (rt o)) as E by by destruct (Hgen Hopen) as (? & ? & _ & ? & _).
    apply (goes_ok (Sending op c (native_snapshot flows' routes') arrays) _ _ flows routes); [done|done|same_runtime| | |apply Hok|by split].
    + eapply crew_goes_on; [exact Hg|done|done|]. rewrite Ecrew.
      eapply (step_publish_swaps (native_rules (allocate (rules_heap w)) (native_snapshot flows' routes'))); [done|by apply rules_to_send|exact Hrun].
    + apply (books_stay (Sending op c (native_snapshot flows' routes') arrays)); try done; [same_runtime|].
      apply (desk_inside (Sending op c (native_snapshot flows' routes') arrays)); try done. cbn [desk].
      split; [done|]. split; [apply Hm|]. rewrite Ep, E. split; [done|]. split.
      { destruct (Hgen Hopen) as (so & ho & Hso & _ & Hpo & Hsub). exists so, ho. rewrite Hold. split; [exact Hso|]. split; [done|].
        cbn [set_world native set_native fst]. rewrite Eh. etrans; [exact Hsub|]. by apply map_union_subseteq_r. }
      exists flows', routes'. split; [done|]. rewrite Ep, E in Eg.
      intros _. exists sn, hn. cbn [set_world native set_native fst]. rewrite Eg in Hp. cbn [native_rules rs_flows rs_routes] in Hp. rewrite c_flows_native, c_routes_native in Hp.
      split_and!; [done|done|exact Hp|]. rewrite Eh. apply map_union_subseteq_l.
Qed.

Lemma goes_swapped op c arrays p : calls o !! g = Some (Swapped op c arrays p) -> can_go (Swapped op c arrays p).
Proof.
  intros Hg. destruct (of_books _ Hok) as (flows & routes & Hb). pose proof (bk_kept _ _ _ Hb) as Hk.
  destruct (of_errands _ Hok _ _ Hg) as [Hop _]. cbn [call_op] in Hop.
  destruct (desk_held _ _ _ Hb Hg eq_refl) as (Hopen & Hrel & Hpg & Hret & flows' & routes' & Htu & Hgen).
  pose proof (crew_inv _ Hopen Hg eq_refl) as [_ (q & sa & hs & fl & ro & Hq & _)]. cbn [sys writing] in Hq.
  pose proof (start_run _ _ Hq) as Hrun. pose proof (crew_at _ Hg eq_refl) as Ecrew.
  eexists _, _. split; [cbn [Calls.call_step]; by erewrite M_bind_step by (apply native_world_run; exact Hrun)|].
  apply (goes_ok (Swapped op c arrays p) _ _ flows routes); [done|done|same_runtime| | |apply Hok|by split].
  - eapply crew_goes_on; [exact Hg|done|done|]. rewrite Ecrew. by apply step_publish_starts.
  - apply (books_stay (Swapped op c arrays p)); try done; [same_runtime|].
    apply (desk_inside (Swapped op c arrays p)); try done. split; [done|]. split; [exact Hrel|]. split; [done|]. split; [exact Hret|]. exists flows', routes'. split; [done|].
    intros _. by eapply now_active_same; [..|apply Hgen].
Qed.

Lemma goes_draining op c arrays p token : calls o !! g = Some (Draining op c arrays p token) ->
  publish_ready token (native (rt o)).1 = true -> can_go (Draining op c arrays p token).
Proof.
  intros Hg Hready. destruct (of_books _ Hok) as (flows & routes & Hb). pose proof (bk_kept _ _ _ Hb) as Hk.
  destruct (of_errands _ Hok _ _ Hg) as [Hop _]. cbn [call_op] in Hop.
  destruct (desk_held _ _ _ Hb Hg eq_refl) as (Hopen & Hrel & Hpg & Hret & flows' & routes' & Htu & Hgen).
  pose proof (crew_inv _ Hopen Hg eq_refl) as [_ (q & sa & hs & fl & ro & Hq & _ & Ha & Hp & so & ho & Htwo & _)]. cbn [sys] in *.
  destruct (two_generations_finish _ _ _ _ _ _ Htwo) as (w1 & Hrun & Eh & _ & Ea & _ & _ & _ & Eg).
  pose proof (crew_at _ Hg eq_refl) as Ecrew.
  eexists _, _. split; [cbn [Calls.call_step]; erewrite M_bind_step by (apply native_world_run; exact Hrun); reflexivity|].
  apply (goes_ok (Draining op c arrays p token) _ _ flows routes); [done|done|same_runtime| | |apply Hok|by split].
  - eapply crew_goes_on; [exact Hg|done|done|]. rewrite Ecrew.
    by apply (step_publish_finishes p token (0, pub_generation p) w1).
  - apply (books_stay (Draining op c arrays p token)); try done; [same_runtime|].
    apply (desk_inside (Draining op c arrays p token)); try done. split; [done|]. split; [exact Hrel|].
    exists flows', routes'. split; [done|]. split; [exact Hpg|]. intros _.
    eapply now_active_finish; [exact Ha|exact Hp| |exact Eh|exact Ea|exact Eg|by apply Hgen].
    destruct Htwo as (_ & _ & -> & _). apply map_union_subseteq_l.
Qed.

Lemma collect_fails c arrays ret g' h (r : runtime) : release arrays (native r).2 = Some (tt, h) -> ret <> 0 ->
  collect growth c arrays ret g' r = Some (Some (PublishFailed (Status ret)), set_native ((native r).1, h) r).
Proof.
  intros Hrel Hne. unfold collect. erewrite M_bind_step by (apply native_c_run; exact Hrel).
  by rewrite (proj2 (Z.eqb_neq ret 0)) by done.
Qed.

Lemma collect_done c arrays g' h (r : runtime) flows routes : release arrays (native r).2 = Some (tt, h) ->
  heap_ok (memory r) -> shows_in c (memory r) flows routes ->
  exists cur m, collect growth c arrays 0 g' r =
      Some (None, set_rt_generation g' (set_currentRules cur (set_memory m (set_native ((native r).1, h) r)))) /\
    later (memory r) m /\ shows_in cur m flows routes.
Proof.
  intros Hrel Hh Hc. unfold collect. erewrite M_bind_step by (apply native_c_run; exact Hrel). cbv beta. cbn [Z.eqb negb].
  destruct (cloneRules_run growth (memory r) (set_native ((native r).1, h) r) c flows routes) as (cur & m & Hrun & Hl & Hcur & _);
    [by apply later_refl|done|].
  exists cur, m. split; [|done]. by erewrite M_bind_step by exact Hrun.
Qed.

Lemma goes_collecting op c arrays ret g' : calls o !! g = Some (Collecting op c arrays ret g') -> can_go (Collecting op c arrays ret g').
Proof.
  intros Hg. destruct (of_books _ Hok) as (flows & routes & Hb). pose proof (bk_kept _ _ _ Hb) as Hk.
  destruct (of_errands _ Hok _ _ Hg) as [Hop _]. cbn [call_op] in Hop. set (s := Collecting op c arrays ret g') in *.
  destruct (desk_held _ _ _ Hb Hg eq_refl) as (Hopen & Hrel & flows' & routes' & ([(Hc & Hf & Hv) Ht] & Hgen)).
  destruct (Z.eqb_spec ret 0) as [->|Hne].
  - destruct Hgen as [-> Hgen].
    destruct (collect_done c arrays (u64 (rt_generation (rt o) + 1)) hc (rt o) flows' routes' Hrel (co_heap _ _ _ _ Hk) Hc)
      as (cur & m & Hrun & Hl & Hcur).
    eexists _, _. split; [unfold s; cbn [Calls.call_step]; by erewrite M_bind_step by exact Hrun|].
    apply (goes_ok s _ _ flows' routes'); [done|done|done|by apply (crew_idles s)| |apply Hok|].
    2: { split; [by apply (op_ok_later (memory (rt o))); [apply Hk|..]|]. apply elem_of_app. right. by left. }
    split; cbn [goes rt history].
    + split; [apply Hl|done..].
    + eapply served_done; [eapply served_later; [apply Hk|exact Hl|apply Hb|apply Hb]|].
      rewrite (op_spec_later (memory (rt o))); [exact Ht|apply Hk|done|done].
    + apply Forall_app. split; [|apply Forall_singleton; by apply (op_ok_later (memory (rt o))); [apply Hk|..]].
      eapply Forall_impl; [apply (bk_ops _ _ _ Hb)|]. intros [op' e']. apply op_ok_later; [apply Hk|done].
    + cbn [rt_generation set_rt_generation]. rewrite (bk_generation _ _ _ Hb). unfold successes. rewrite fmap_app, filter_app, length_app. cbn.
      rewrite decide_True by done. cbn. rewrite wrap_add_l. f_equal. lia.
    + apply (desk_inside s); [done..|]. by split.
  - eexists _, _. split; [unfold s; cbn [Calls.call_step]; by erewrite M_bind_step by (apply collect_fails; [exact Hrel|done])|].
    apply (goes_ok s _ _ flows routes); [done|done|same_runtime|by apply (crew_idles s)| |apply Hok|].
    + apply (books_refused s op (PublishFailed (Status ret))); try done; [same_runtime| |by apply (desk_inside s)].
      rewrite Ht. split; [by intros [?|?]|done].
    + split; [done|]. apply elem_of_app. right. by left.
Qed.

(** Every call that does not wait can go on. *)
Lemma call_goes s : calls o !! g = Some s -> may_go s (native (rt o)).1 -> can_go s.
Proof.
  intros Hg Hm. destruct s as [op|op c|op [c|]|op c|op c nr arrays|op c arrays p|op c arrays p token|op c arrays ret g'|op err|op err];
    try done.
  - by apply goes_called.
  - by apply goes_locked_with.
  - by apply goes_locked.
  - by apply goes_publishing.
  - by apply goes_sending.
  - by apply goes_swapped.
  - by apply goes_draining.
  - by apply goes_collecting.
Qed.
End Goes.

(** ** Every step *)
Lemma at_lock_insert o g s f : holder o <> Some g ->
  at_lock {| rt := rt o; staff := staff o; calls := <[g := s]> (calls o); holder := holder o; history := f |} = at_lock o.
Proof.
  intros Hne. unfold at_lock. cbn [holder calls]. destruct (holder o) as [g'|]; [|done]. cbn.
  rewrite lookup_insert_ne; [done|]. by intros <-.
Qed.

(** A change of the world, and of who works in it, that leaves the rules alone. *)
Lemma office_world_ok o w' st' : office_ok o -> same_rules (native (rt o)).1 w' ->
  crew_side {| state := w'; stages := st'; publisher := publisher (crew_of o) |} ->
  office_ok {| rt := set_world w' (rt o); staff := st'; calls := calls o; holder := holder o; history := history o |}.
Proof.
  intros [Hc (flows & routes & [Hk Hs Ho Hg Hd]) Hop He Hl Hh] Hsame Hcrew. split; [done|exists flows, routes|done..].
  split; [by destruct Hk; split|done|done|done|]. cbn [rt set_world native set_native]. eapply desk_world; [exact Hsame|].
  cbn [memory rt_generation set_native]. by destruct (native (rt o)).
Qed.

(** A step of the crew that leaves the rules alone. *)
Lemma crew_moves_office o w' st' : office_ok o -> same_rules (native (rt o)).1 w' ->
  crew_step (crew_of o) {| state := w'; stages := st'; publisher := publisher (crew_of o) |} ->
  office_ok {| rt := set_world w' (rt o); staff := st'; calls := calls o; holder := holder o; history := history o |}.
Proof.
  intros Hok Hsame Hstep. apply office_world_ok; [done|done|]. eapply crew_side_run; [by apply rtc_once|apply Hok].
Qed.

Lemma office_enters_ok o g op : office_ok o -> calls o !! g = None -> op_ok (memory (rt o)) op ->
  let o' := {| rt := rt o; staff := staff o; calls := <[g := Called op]> (calls o); holder := holder o; history := history o |} in
  office_ok o' /\ crew_of o' = crew_of o.
Proof.
  intros Hok Hg Hop o'. assert (holder o <> Some g) as Hne by (intros [s E]%(of_holder _ Hok); congruence).
  assert (at_lock o' = at_lock o) as El by by apply at_lock_insert.
  assert (crew_of o' = crew_of o) as Ec by (unfold crew_of; by rewrite El). split; [|done].
  destruct Hok as [Hc (flows & routes & [Hk Hs Ho Hgen Hd]) Hop' He Hl Hh]. split; cbn [o' rt calls holder history].
  - by rewrite Ec.
  - exists flows, routes. split; [done..|]. by rewrite El.
  - done.
  - intros g1 s1. rewrite lookup_insert_Some. intros [[<- <-]|[_ ?]]; [by split|by eapply He].
  - intros g1 s1. rewrite lookup_insert_Some. intros [[<- <-]|[_ ?]]; [by split|by eapply Hl].
  - intros g1 H1. destruct (decide (g1 = g)) as [->|]; [done|]. rewrite lookup_insert_ne by done. by apply Hh.
Qed.

Lemma office_locks_ok o g op c : office_ok o -> calls o !! g = Some (Locking op c) -> holder o = None ->
  let o' := {| rt := rt o; staff := staff o; calls := <[g := Locked op c]> (calls o); holder := Some g; history := history o |} in
  office_ok o' /\ crew_of o' = crew_of o.
Proof.
  intros Hok Hg Hno o'. pose proof (of_errands _ Hok _ _ Hg) as Herr.
  assert (at_lock o' = Some (Locked op c)) as El by (unfold at_lock; cbn; by rewrite lookup_insert_eq).
  assert (crew_of o' = crew_of o) as Ec by (unfold crew_of, at_lock; rewrite Hno; cbn; by rewrite lookup_insert_eq). split; [|done].
  destruct Hok as [Hc (flows & routes & [Hk Hs Ho Hgen Hd]) Hop' He Hl Hh]. split; cbn [o' rt calls holder history].
  - by rewrite Ec.
  - exists flows, routes. split; [done..|]. rewrite El. unfold at_lock in Hd. by rewrite Hno in Hd.
  - done.
  - intros g1 s1. rewrite lookup_insert_Some. intros [[<- <-]|[_ ?]]; [exact Herr|by eapply He].
  - intros g1 s1. rewrite lookup_insert_Some. intros [[<- <-]|[Hne H1]]; [by split|]. rewrite (Hl _ _ H1), Hno. split; [done|congruence].
  - intros g1 [= <-]. rewrite lookup_insert_eq. by eexists.
Qed.

Lemma office_unlocks_ok o g op err : office_ok o -> calls o !! g = Some (Unlocking op err) ->
  let o' := {| rt := rt o; staff := staff o; calls := <[g := Replied op err]> (calls o); holder := None; history := history o |} in
  office_ok o' /\ crew_of o' = crew_of o.
Proof.
  intros Hok Hg o'. pose proof (of_errands _ Hok _ _ Hg) as Herr. pose proof (proj1 (of_lock _ Hok _ _ Hg) eq_refl) as Hgl.
  assert (at_lock o = Some (Unlocking op err)) as Eo by (unfold at_lock; by rewrite Hgl).
  assert (crew_of o' = crew_of o) as Ec by (unfold crew_of; by rewrite Eo). split; [|done].
  destruct Hok as [Hc (flows & routes & [Hk Hs Ho Hgen Hd]) Hop' He Hl Hh]. split; cbn [o' rt calls holder history].
  - by rewrite Ec.
  - exists flows, routes. split; [done..|]. by rewrite Eo in Hd.
  - done.
  - intros g1 s1. rewrite lookup_insert_Some. intros [[<- <-]|[_ ?]]; [exact Herr|by eapply He].
  - intros g1 s1. rewrite lookup_insert_Some. intros [[<- <-]|[Hne H1]]; [by split|].
    rewrite (Hl _ _ H1), Hgl. split; [congruence|done].
  - done.
Qed.

(** A step keeps the invariant, and is a step of the crew or none. *)
Lemma office_step_ok o o' : office_step o o' -> office_ok o -> office_ok o' /\ rtc crew_step (crew_of o) (crew_of o').
Proof.
  destruct 1 as [o o' [i p s s' w' o1 Hi Hp Hrun|g op c o1 Hg Hno|g s s' r' o1 Hg Hm Hrun|g op err o1 Hg]|o|g op o Hg Hop]; intros Hok.
  - pose proof (crew_works stack_meta injected i p s s' w' (crew_of o1) Hi Hp Hrun) as Hc.
    split; [|by apply rtc_once]. apply crew_moves_office; [done|by eapply same_rules_worker|exact Hc].
  - destruct (office_locks_ok o1 g op c Hok Hg Hno) as [? ->]. by split.
  - destruct (call_goes o1 g Hok s Hg Hm) as (s1 & r1 & Hrun1 & Hok1). rewrite Hrun in Hrun1. by injection Hrun1 as <- <-.
  - destruct (office_unlocks_ok o1 g op err Hok Hg) as [? ->]. by split.
  - pose proof (crew_stops stack_meta injected (crew_of o)) as Hc.
    split; [|by apply rtc_once]. apply crew_moves_office; [done|by split_and!|exact Hc].
  - destruct (office_enters_ok o g op Hok Hg Hop) as [? ->]. by split.
Qed.

Lemma office_run_ok o o' : rtc office_step o o' -> office_ok o -> office_ok o' /\ rtc crew_step (crew_of o) (crew_of o').
Proof.
  induction 1 as [o|o o1 o' Hs _ IH]; intros Hok; [by split|]. destruct (office_step_ok _ _ Hs Hok) as [Hok1 Hc1].
  destruct (IH Hok1) as [? ?]. split; [done|]. by etrans.
Qed.

Lemma office_runs_ok o o' : rtc (Calls.office_runs calloc allocate growth stack_meta injected) o o' -> office_ok o ->
  office_ok o' /\ rtc crew_step (crew_of o) (crew_of o').
Proof. intros Hr. by apply office_run_ok, runs_steps. Qed.
End Spec.
