(* ===== verification/CallsProps.v ===== *)
(** * What the goroutines can rely on

    Calls are linearised by the lock, the workers decide packets by the table the
    settled calls have made, and every call gets its reply. *)
From Stdlib Require Import ZArith Lia.
From stdpp Require Import base list numbers option gmap strings relations.
From S2P Require Import Prelude Host Packet Api Tables Heap Snapshot SnapshotSpec LookupSpec Action Rcu State StatsSpec Rules Binding Worker WorkerSpec RunSpec Publish PublishSpec ReaderSpec Crew CrewSpec DrainSpec BindingSpec GoSlice Control ControlSpec ControlRefine ControlNative Lifecycle LifecycleSpec Calls CallsSpec.

Section Props.
Context {H : Host} {HO : HostOk H} {C : Checksums} {CO : ChecksumsOk C}.
Context {T : DpdkTables} {TO : DpdkTablesOk T} {Q : Qsbr} {QO : QsbrOk Q}.
Context (calloc : callocator) (allocate : gmap Z hobj -> allocator) (growth : nat -> nat -> nat).
Context (Hcalloc : callocator_ok calloc) (Halloc : forall h, allocator_ok (allocate h) h).
Context (stack_meta : dp_packet_meta) (injected : Z).
Context (opened : bool) (hc : c_heap) (n : nat) (rest : gmap Z hobj) (B : gmap Z rte_mbuf) (t0 : rule_table) (g0 : Z).
Abbreviation call_step := (Calls.call_step calloc allocate growth).
Abbreviation office_runs := (Calls.office_runs calloc allocate growth stack_meta injected).
Abbreviation office_step := (Calls.office_step calloc allocate growth stack_meta injected).
Abbreviation office_runs_ok := (CallsSpec.office_runs_ok calloc allocate growth Hcalloc Halloc stack_meta injected opened hc n rest B t0 g0).
Abbreviation office_ok := (CallsSpec.office_ok opened hc n rest B t0 g0).
Abbreviation office_run_ok := (CallsSpec.office_run_ok calloc allocate growth Hcalloc Halloc stack_meta injected opened hc n rest B t0 g0).

(** ** Everybody gets on *)

(** What the workers do, they can do in the office. *)
Lemma office_works_on o c' : rtc (crew_work stack_meta injected) (crew_of o) c' ->
  exists o', rtc office_runs o o' /\ crew_of o' = c' /\ calls o' = calls o /\ holder o' = holder o /\ history o' = history o.
Proof.
  intros Hr. remember (crew_of o) as c eqn:Ec. revert o Ec. induction Hr as [c|c c1 c' Hs _ IH]; intros o ->; [by exists o|].
  destruct Hs as (i & p & s & s' & w' & Hi & Hp & Hrun & ->).
  set (o1 := {| rt := set_world w' (rt o); staff := <[Z.of_nat i := s']> (staff o); calls := calls o; holder := holder o; history := history o |}).
  assert (office_runs o o1) as Hs by by eapply office_works.
  destruct (IH o1 eq_refl) as (o' & Hr' & Ec & Ek & Eh & El). exists o'. split; [by eapply rtc_l|done].
Qed.

(** The stage of one call has changed, others have not. *)
Definition others_wait (g : nat) (o o' : office) : Prop := forall g', g' <> g -> calls o' !! g' = calls o !! g'.

(** A call that may go on goes on, the workers helping a publication to finish. *)
Lemma call_advances o g s : office_ok o -> calls o !! g = Some s ->
  match s with Locking _ _ | Unlocking _ _ | Replied _ _ => False | _ => True end ->
  exists o' s', rtc office_runs o o' /\ calls o' !! g = Some s' /\ (call_distance s' < call_distance s)%nat /\
    call_op s' = call_op s /\ inside s' = inside s /\ holder o' = holder o /\ others_wait g o o'.
Proof.
  intros Hok Hg Hs.
  assert (exists o1, rtc office_runs o o1 /\ calls o1 = calls o /\ holder o1 = holder o /\ may_go s (native (rt o1)).1) as
    (o1 & Hr1 & Ek1 & Eh1 & Hm).
  { destruct s as [| | | | | |op c arrays p token| | |]; try done; try by exists o.
    destruct (of_books _ _ _ _ _ _ _ _ Hok) as (flows & routes & Hb).
    destruct (desk_held _ _ _ _ _ _ _ o g Hok _ _ _ Hb Hg eq_refl) as (Hopen & _).
    destruct (crew_drains stack_meta injected n rest B p token (crew_of o)) as (c' & Hr & Hready);
      [by apply (crew_side_open opened); [|apply Hok]|by rewrite (crew_at _ _ _ _ _ _ _ o g Hok _ Hg eq_refl)|].
    destruct (office_works_on o c' Hr) as (o1 & Hr1 & <- & Ek & Eh & _). by exists o1. }
  destruct (office_runs_ok _ _ Hr1 Hok) as [Hok1 _]. rewrite <- Ek1 in Hg.
  destruct (call_goes calloc allocate growth Hcalloc Halloc stack_meta injected opened hc n rest B t0 g0 o1 g Hok1 s Hg Hm)
    as (s' & r' & Hrun & Hok' & _).
  exists (goes o1 g s' r'), s'. split; [eapply rtc_r; [exact Hr1|by eapply office_goes]|].
  split; [cbn; by rewrite lookup_insert_eq|]. split; [by eapply call_step_closer|]. split; [by eapply call_step_op|].
  split; [|split; [done|]].
  - pose proof (of_lock _ _ _ _ _ _ _ _ Hok1 g s Hg) as H1. pose proof (of_lock _ _ _ _ _ _ _ _ Hok' g s') as H2.
    cbn [goes calls holder] in H2. rewrite lookup_insert_eq in H2. specialize (H2 eq_refl). destruct (inside s), (inside s'); try done.
    + discriminate (proj2 H2 (proj1 H1 eq_refl)).
    + discriminate (proj2 H1 (proj1 H2 eq_refl)).
  - intros g' Hne. cbn [goes calls]. rewrite lookup_insert_ne by done. by rewrite Ek1.
Qed.

(** Whoever holds the lock gives it back. *)
Lemma holder_replies g : forall d o s, office_ok o -> calls o !! g = Some s -> inside s = true -> (call_distance s <= d)%nat ->
  exists o' err, rtc office_runs o o' /\ calls o' !! g = Some (Replied (call_op s) err) /\ holder o' = None /\ others_wait g o o'.
Proof.
  induction d as [|d IH]; intros o s Hok Hg Hi Hd; [by destruct s; cbn in Hd, Hi; done || lia|].
  assert ((exists op err, s = Unlocking op err) \/ match s with Locking _ _ | Unlocking _ _ | Replied _ _ => False | _ => True end)
    as [(op & err & ->)|Hs] by (destruct s; try done; eauto).
  - eexists _, err. split; [apply rtc_once; by eapply office_unlocks|]. cbn [calls holder call_op]. split; [by rewrite lookup_insert_eq|].
    split; [done|]. intros g' Hne. cbn [calls]. by rewrite lookup_insert_ne.
  - destruct (call_advances o g s Hok Hg Hs) as (o1 & s1 & Hr1 & Hg1 & Hlt & Eop & Ein & _ & Hw1).
    destruct (office_runs_ok _ _ Hr1 Hok) as [Hok1 _].
    destruct (IH o1 s1 Hok1 Hg1) as (o' & err & Hr & Hg' & Hh & Hw); [congruence|lia|].
    exists o', err. rewrite <- Eop. split; [by etrans|]. split; [done|]. split; [done|]. intros g' Hne. by rewrite Hw, Hw1.
Qed.

(** The lock becomes free. *)
Lemma lock_frees o : office_ok o -> exists o', rtc office_runs o o' /\ holder o' = None /\
  forall g s, calls o !! g = Some s -> inside s = false -> calls o' !! g = Some s.
Proof.
  intros Hok. destruct (holder o) as [g|] eqn:Hh; [|by exists o].
  destruct (of_holder _ _ _ _ _ _ _ _ Hok g Hh) as [s Hg]. pose proof (proj2 (of_lock _ _ _ _ _ _ _ _ Hok g s Hg) Hh) as Hi.
  destruct (holder_replies g (call_distance s) o s Hok Hg Hi (le_n _)) as (o' & err & Hr & _ & Hno & Hw).
  exists o'. split; [done|]. split; [done|]. intros g' s' Hg' Hi'. rewrite Hw; [done|]. intros ->. congruence.
Qed.

(** Every call is answered. *)
Lemma call_replies o g s : office_ok o -> calls o !! g = Some s ->
  exists o' err, rtc office_runs o o' /\ calls o' !! g = Some (Replied (call_op s) err).
Proof.
  intros Hok Hg. destruct (inside s) eqn:Hi.
  { destruct (holder_replies g (call_distance s) o s Hok Hg Hi (le_n _)) as (o' & err & ? & ? & _). by exists o', err. }
  assert (forall o1 op c, office_ok o1 -> calls o1 !! g = Some (Locking op c) ->
    exists o' err, rtc office_runs o1 o' /\ calls o' !! g = Some (Replied op err)) as Hlock.
  { intros o1 op c Hok1 Hg1. destruct (lock_frees o1 Hok1) as (o2 & Hr2 & Hno & Hkeep). specialize (Hkeep _ _ Hg1 eq_refl).
    pose proof (office_locks calloc allocate growth stack_meta injected g op c o2 Hkeep Hno) as Hs.
    match type of Hs with Calls.office_runs _ _ _ _ _ _ ?x => set (o3 := x) in * end.
    assert (rtc office_runs o1 o3) as Hr3 by by eapply rtc_r. destruct (office_runs_ok _ _ Hr3 Hok1) as [Hok3 _].
    destruct (holder_replies g 7 o3 (Locked op c) Hok3) as (o' & err & Hr & Hg' & _); [by cbn; rewrite lookup_insert_eq|done|done|].
    exists o', err. split; [by etrans|done]. }
  destruct s as [op|op c| | | | | | | |op err]; try done.
  - destruct (call_advances o g (Called op) Hok Hg I) as (o1 & s1 & Hr1 & Hg1 & Hlt & Eop & Ein & _).
    destruct (office_runs_ok _ _ Hr1 Hok) as [Hok1 _]. destruct s1 as [op1|op1 c1| | | | | | | |op1 err]; try done; cbn in Eop, Hlt; subst op1; [lia| |].
    + destruct (Hlock o1 op c1 Hok1 Hg1) as (o' & err & Hr & Hg'). exists o', err. split; [by etrans|done].
    + by exists o1, err.
  - by eapply Hlock.
  - by exists o, err.
Qed.

(** A call stays what it is, and a reply is the last word. *)
Lemma call_stays o o' g s : rtc office_step o o' -> calls o !! g = Some s ->
  exists s', calls o' !! g = Some s' /\ call_op s' = call_op s /\ forall op err, s = Replied op err -> s' = s.
Proof.
  intros Hr. revert s. induction Hr as [o|o o1 o' Hs _ IH]; intros s Hg; [by exists s|].
  assert (exists s1, calls o1 !! g = Some s1 /\ call_op s1 = call_op s /\ forall op err, s = Replied op err -> s1 = s) as (s1 & Hg1 & Eop & Hlast).
  { destruct Hs as [? ? [i p x x' w' o Hi Hp Hrun|g1 op c o Hg1 Hno|g1 x x' r' o Hg1 Hm Hrun|g1 op err o Hg1]|o|g1 op o Hg1 Hop]; cbn [calls];
      [by exists s|..|by exists s|]; (destruct (decide (g1 = g)) as [->|]; [rewrite lookup_insert_eq|rewrite lookup_insert_ne by done; by exists s]).
    - eexists. split; [done|]. rewrite Hg in Hg1. by injection Hg1 as ->.
    - eexists. split; [done|]. rewrite Hg in Hg1. injection Hg1 as ->. split; [by eapply call_step_op|]. by intros ? ? ->.
    - eexists. split; [done|]. rewrite Hg in Hg1. by injection Hg1 as ->.
    - congruence. }
  destruct (IH s1 Hg1) as (s' & Hg' & Eop' & Hlast'). exists s'. split; [done|]. split; [congruence|].
  intros op err ->. rewrite (Hlast op err eq_refl) in Hlast'. by eapply Hlast'.
Qed.

(** All calls are answered, and the lock is free. *)
Lemma calls_reply o : office_ok o -> exists o', rtc office_runs o o' /\ holder o' = None /\
  forall g s, calls o !! g = Some s -> exists err, calls o' !! g = Some (Replied (call_op s) err).
Proof.
  intros Hok.
  assert (forall L : list nat, exists o', rtc office_runs o o' /\
    forall g s, g ∈ L -> calls o !! g = Some s -> exists err, calls o' !! g = Some (Replied (call_op s) err)) as Hall.
  { induction L as [|g L (o1 & Hr1 & Hans1)]; [exists o; split; [done|by intros ? ? ?%elem_of_nil]|].
    destruct (calls o !! g) as [s|] eqn:Hg.
    2: { exists o1. split; [done|]. intros g' s' [->|Hin]%elem_of_cons Hg'; [congruence|by eapply Hans1]. }
    destruct (call_stays _ _ _ _ (runs_steps _ _ _ _ _ _ _ Hr1) Hg) as (s1 & Hg1 & Eop & _). destruct (office_runs_ok _ _ Hr1 Hok) as [Hok1 _].
    destruct (call_replies o1 g s1 Hok1 Hg1) as (o2 & err & Hr2 & Hg2). exists o2. split; [by etrans|].
    intros g' s' [->|Hin]%elem_of_cons Hg'; [exists err; by rewrite Hg2, Eop; assert (s' = s) as -> by congruence|].
    destruct (Hans1 g' s' Hin Hg') as (err' & Hg1'). exists err'.
    destruct (call_stays _ _ _ _ (runs_steps _ _ _ _ _ _ _ Hr2) Hg1') as (s2 & -> & _ & Hl). by erewrite Hl. }
  destruct (Hall (elements (dom (calls o)))) as (o1 & Hr1 & Hans). destruct (office_runs_ok _ _ Hr1 Hok) as [Hok1 _].
  destruct (lock_frees o1 Hok1) as (o' & Hr & Hno & _). exists o'. split; [by etrans|]. split; [done|]. intros g s Hg.
  destruct (Hans g s) as (err & Hg1); [by apply elem_of_elements, elem_of_dom; eexists|done|]. exists err.
  destruct (call_stays _ _ _ _ (runs_steps _ _ _ _ _ _ _ Hr) Hg1) as (s2 & -> & _ & Hl). by erewrite Hl.
Qed.

(** ** What is decided *)
Lemma desk_generation h nt g flows routes s : desk opened hc h nt g flows routes s ->
  generation_is opened g flows routes nt.1 \/ exists s' flows' routes', s = Some s' /\ settles s' = [] /\
    op_spec h (call_op s') (table flows routes) = Some (table flows' routes') /\
    generation_is opened (u64 (g + 1)) flows' routes' nt.1.
Proof.
  destruct s as [s|]; [|by intros [? _]; left]. destruct s; cbn [desk call_op]; try (by intros [? _]; left).
  - intros (_ & ? & _). by left.
  - intros (_ & _ & _ & _ & flows' & routes' & [_ ?] & ?). right. by eexists _, flows', routes'.
  - intros (_ & _ & _ & _ & flows' & routes' & [_ ?] & ?). right. by eexists _, flows', routes'.
  - intros (_ & _ & flows' & routes' & [_ ?] & E). case_match; [|by left]. destruct E. right. by eexists _, flows', routes'.
Qed.

Lemma generation_decides g flows routes w meta : opened = true -> generation_is opened g flows routes w -> fits 32 (dst_ipv4 meta) ->
  exists answer, dp_lookup_packet (rules_heap w) meta (active_rules (dp w)) = Some answer /\
    decides (rules_heap w) answer (table_decision (table flows routes) meta).
Proof.
  intros Hopen Hgen Hm. destruct (Hgen Hopen) as (sa & hs & -> & _ & Hp & Hs). rewrite <- table_decision_spec. by eapply piece_lookup.
Qed.

Lemma history_grows o o' : rtc office_step o o' -> history o `prefix_of` history o'.
Proof.
  induction 1 as [|o o1 o' Hs _ IH]; [done|]. etrans; [|exact IH]. destruct Hs as [? ? []| |]; cbn [history]; try done. by apply prefix_app_r.
Qed.

(** What was said, it is still so: the claims about every state. *)
Lemma linear o0 o : office_ok o0 -> rtc office_step o0 o ->
  exists flows routes, shows_in (currentRules (rt o)) (memory (rt o)) flows routes /\
    history o0 `prefix_of` history o /\
    served (memory (rt o)) t0 (history o) (table flows routes) /\
    rt_generation (rt o) = u64 (g0 + successes (history o).*2) /\
    (forall g op err, calls o !! g = Some (Replied op err) -> (op, err) ∈ history o) /\
    (opened = true -> forall meta, fits 32 (dst_ipv4 meta) -> let w := (native (rt o)).1 in
      exists t answer, (t = table flows routes \/ exists s, at_lock o = Some s /\ settles s = [] /\ op_spec (memory (rt o)) (call_op s) (table flows routes) = Some t) /\
        dp_lookup_packet (rules_heap w) meta (active_rules (dp w)) = Some answer /\
        decides (rules_heap w) answer (table_decision t meta)).
Proof.
  intros Hok0 Hr. destruct (office_run_ok _ _ Hr Hok0) as [[_ (flows & routes & [Hk Hs _ Hg Hd]) _ He _ _] _].
  exists flows, routes. split; [apply Hk|]. split; [by apply history_grows|]. split; [done|]. split; [done|]. split.
  - intros g op err Hcall. by destruct (He g _ Hcall).
  - intros Ho meta Hm. cbv zeta. destruct (desk_generation _ _ _ _ _ _ Hd) as [Hgen|(s & flows' & routes' & Hs' & Hset & Hop & Hgen)];
      destruct (generation_decides _ _ _ _ meta Ho Hgen Hm) as (answer & Hrun & Hdec); eexists _, answer; (split; [|by split]);
      [by left|right; by exists s].
Qed.
End Props.

Section Claims.
Context {H : Host} {HO : HostOk H} {C : Checksums} {CO : ChecksumsOk C}.
Context {T : DpdkTables} {TO : DpdkTablesOk T} {Q : Qsbr} {QO : QsbrOk Q}.
Context (calloc : callocator) (allocate : gmap Z hobj -> allocator) (growth : nat -> nat -> nat).
Context (Hcalloc : callocator_ok calloc) (Halloc : forall h, allocator_ok (allocate h) h).
Context (stack_meta : dp_packet_meta) (injected : Z).
Context (hc : c_heap) (n : nat) (rest : gmap Z hobj) (B : gmap Z rte_mbuf) (t0 : rule_table) (g0 : Z).
Abbreviation office_runs := (Calls.office_runs calloc allocate growth stack_meta injected).
Abbreviation office_step := (Calls.office_step calloc allocate growth stack_meta injected).
Abbreviation office_ok := (CallsSpec.office_ok true hc n rest B t0 g0).
Abbreviation office_run_ok := (CallsSpec.office_run_ok calloc allocate growth Hcalloc Halloc stack_meta injected true hc n rest B t0 g0).
Abbreviation office_runs_ok := (CallsSpec.office_runs_ok calloc allocate growth Hcalloc Halloc stack_meta injected true hc n rest B t0 g0).

(** Calls and workers come to an end. *)
Lemma calls_end o0 o : office_ok o0 -> rtc office_step o0 o ->
  exists o', rtc office_runs o o' /\ holder o' = None /\
    (forall g s, calls o !! g = Some s -> exists err, calls o' !! g = Some (Replied (call_op s) err)) /\
    (stop (dp (native (rt o)).1) = true -> all_home (crew_of o')).
Proof.
  intros Hok0 Hr. destruct (office_run_ok _ _ Hr Hok0) as [Hok _]. pose proof (of_crew _ _ _ _ _ _ _ _ Hok) as Hc.
  assert (exists o1, rtc office_runs o o1 /\ calls o1 = calls o /\ (stop (dp (native (rt o)).1) = true -> all_home (crew_of o1)))
    as (o1 & Hr1 & Ek & Hh1).
  { destruct (stop (dp (native (rt o)).1)) eqn:Hstop; [|by exists o].
    destruct (crew_comes_home stack_meta injected n rest B (crew_of o) Hc Hstop) as (c' & Hr1 & Hh & _).
    destruct (office_works_on calloc allocate growth stack_meta injected o c' Hr1) as (o1 & Hr1' & <- & Ek & _). by exists o1. }
  destruct (office_runs_ok _ _ Hr1 Hok) as [Hok1 _].
  destruct (calls_reply calloc allocate growth Hcalloc Halloc stack_meta injected true hc n rest B t0 g0 o1 Hok1) as (o' & Hr' & Hno & Hans).
  exists o'. split; [by etrans|]. split; [done|]. split; [by rewrite <- Ek|]. intros Hstop.
  by apply (home_run stack_meta injected _ _ (proj2 (office_runs_ok _ _ Hr' Hok1))), Hh1.
Qed.
(** C3: calls are linearised.  Any number of goroutines call the manager at any time
    while workers run and the process may be asked to stop.  In every reachable
    state the manager's copy of the rules is what the settled calls, in the order in
    which they settled, make of the abstract table: successes are the table's
    operations, refusals leave it alone and are right about keys, the generation
    counts the successes, and a reply is always one of the settled results.  A
    packet looked up at that moment is decided by that table, or, between the
    exchange and the moment the call that holds the lock settles, by the table that
    call is making. *)
Theorem calls_linearize o0 o : office_ok o0 -> rtc office_step o0 o ->
  exists flows routes, shows_in (currentRules (rt o)) (memory (rt o)) flows routes /\
    history o0 `prefix_of` history o /\
    served (memory (rt o)) t0 (history o) (table flows routes) /\
    rt_generation (rt o) = u64 (g0 + successes (history o).*2) /\
    (forall g op err, calls o !! g = Some (Replied op err) -> (op, err) ∈ history o) /\
    forall meta, fits 32 (dst_ipv4 meta) -> let w := (native (rt o)).1 in
      exists t answer, (t = table flows routes \/ exists s, at_lock o = Some s /\ settles s = [] /\ op_spec (memory (rt o)) (call_op s) (table flows routes) = Some t) /\
        dp_lookup_packet (rules_heap w) meta (active_rules (dp w)) = Some answer /\
        decides (rules_heap w) answer (table_decision t meta).
Proof.
  intros Hok0 Hr. destruct (linear calloc allocate growth Hcalloc Halloc stack_meta injected true hc n rest B t0 g0 o0 o Hok0 Hr)
    as (flows & routes & ? & ? & ? & ? & ? & Hp).
  exists flows, routes. do 5 (split; [done|]). by apply Hp.
Qed.

(** C10: nothing in the process is undefined.  In every reachable state each worker
    that has not returned, and each call that is not waiting for the lock or for
    readers, can take its next step: no index is out of range, no array of the C
    heap is missing, no rule object is gone, whatever the others have done in
    between; and whoever waits for the lock can take it, or somebody else is inside. *)
Theorem calls_defined o0 o : office_ok o0 -> rtc office_step o0 o ->
  (forall g s, calls o !! g = Some s -> may_go s (native (rt o)).1 ->
    exists s' r', call_step calloc allocate growth s (rt o) = Some (s', r')) /\
  (forall i s p, staff o !! Z.of_nat i = Some s -> poll_ok p (mbufs (native (rt o)).1) -> (forall ret, s <> Returned ret) ->
    exists s' w', worker_step stack_meta injected i p s (native (rt o)).1 = Some (s', w')) /\
  (forall g op c, calls o !! g = Some (Locking op c) ->
    (exists o', office_step o o' /\ holder o' = Some g) \/
    exists g' s, g' <> g /\ holder o = Some g' /\ calls o !! g' = Some s /\ inside s = true).
Proof.
  intros Hok0 Hr. destruct (office_run_ok _ _ Hr Hok0) as [Hok _]. split_and!.
  - intros g s Hg Hm. destruct (call_goes calloc allocate growth Hcalloc Halloc stack_meta injected true hc n rest B t0 g0 o g Hok s Hg Hm)
      as (s' & r' & Hrun & _). by exists s', r'.
  - intros i s p Hi Hp Hne.
    destruct (worker_moves stack_meta injected n rest B (crew_of o) i p (of_crew _ _ _ _ _ _ _ _ Hok) s Hp Hi)
      as [(ret & ->)|(s' & w' & Hrun & _)]; [by destruct (Hne ret)|]. by exists s', w'.
  - intros g op c Hg. destruct (holder o) as [g'|] eqn:Hh; [right|left; eexists; split; [eapply office_moves; by eapply office_locks|done]].
    destruct (of_holder _ _ _ _ _ _ _ _ Hok g' Hh) as [s Hs]. pose proof (proj2 (of_lock _ _ _ _ _ _ _ _ Hok g' s Hs) Hh) as Hi.
    exists g', s. split; [|done]. intros ->. by rewrite Hg in Hs; injection Hs as <-.
Qed.

(** C12: every call is answered and everybody comes home.  Whatever has happened, the
    calls in progress can all be brought to their replies, and the lock released, by
    steps of the calls and of the workers: nobody waits in a circle, and a
    publication never waits for a worker that waits for it.  Once a stop has been
    requested, all workers can come home as well. *)
Theorem calls_answered o0 o : office_ok o0 -> rtc office_step o0 o ->
  exists o', rtc office_runs o o' /\ holder o' = None /\
    (forall g s, calls o !! g = Some s -> exists err, calls o' !! g = Some (Replied (call_op s) err)) /\
    (stop (dp (native (rt o)).1) = true -> all_home (crew_of o')).
Proof. apply calls_end. Qed.
End Claims.
