(* ===== verification/Delivery.v ===== *)
(** * What happens to packets while goroutines change the rules

    A worker holds the snapshot it loaded at the beginning of its burst; publications
    go on meanwhile.  Whatever snapshot a worker holds, it stands for the table the
    settled calls have made, or for the one that is about to replace it; so the
    packets of every burst are decided by one of these two. *)
From Stdlib Require Import ZArith Lia.
From stdpp Require Import base list numbers option gmap strings relations.
From S2P Require Import Prelude Host Packet Api Tables Heap Snapshot SnapshotSpec LookupSpec Action Rcu State StatsSpec Rules Binding Worker WorkerSpec RunSpec WorkerProps Publish PublishSpec ReaderSpec Crew CrewSpec BindingSpec GoSlice Control ControlSpec ControlRefine ControlNative Lifecycle LifecycleSpec Calls CallsSpec CallsProps.

Section Delivery.
Context {H : Host} {HO : HostOk H} {C : Checksums} {CO : ChecksumsOk C}.
Context {T : DpdkTables} {TO : DpdkTablesOk T} {Q : Qsbr} {QO : QsbrOk Q}.
Context (hc : c_heap) (n : nat) (rest : gmap Z hobj) (B : gmap Z rte_mbuf) (t0 : rule_table) (g0 : Z).
Abbreviation office_ok := (CallsSpec.office_ok true hc n rest B t0 g0).

(** The table of the settled calls, or the one the holder of the lock is publishing. *)
Definition current_or_next (o : office) (flows : list FlowRule) (routes : list RouteRule) (t : rule_table) : Prop :=
  t = table flows routes \/
  exists s, at_lock o = Some s /\ op_spec (memory (rt o)) (call_op s) (table flows routes) = Some t.

(** A snapshot in the rule heap that stands for such a table. *)
Definition stands_in (o : office) (flows : list FlowRule) (routes : list RouteRule) (sn : Z) : Prop :=
  exists flows' routes' g hs, piece hs sn g (native_flows flows') (native_routes routes') /\
    hs ⊆ rules_heap (native (rt o)).1 /\ current_or_next o flows routes (table flows' routes').

Lemma active_stands_in o flows routes sn : books true hc t0 g0 o flows routes ->
  active_rules (dp (native (rt o)).1) = Some sn -> stands_in o flows routes sn.
Proof.
  intros Hb Ha. destruct (desk_generation _ _ _ _ _ _ _ _ (bk_desk _ _ _ _ _ _ _ Hb)) as [Hgen|(s & f' & r' & Hs & _ & Hop & Hgen)];
    destruct (Hgen eq_refl) as (sa & hs & Hsa & _ & Hp & Hsub); rewrite Ha in Hsa; injection Hsa as <-.
  - exists flows, routes, (rt_generation (rt o)), hs. split_and!; [done|done|by left].
  - exists f', r', (u64 (rt_generation (rt o) + 1)), hs. split_and!; [done|done|right; by exists s].
Qed.

(** The publication that the holder of the lock has begun. *)
Definition begun (w : writer_state) : option publication :=
  match w with Idle => None | Exchanged p | Waiting p _ => Some p end.

Lemma desk_retired h nt g flows routes s p : desk true hc h nt g flows routes s ->
  begun (match s with Some s => writing s | None => Idle end) = Some p -> retired g flows routes p nt.1.
Proof.
  destruct s as [s|]; [|done]. destruct s; cbn [desk writing begun]; try done; intros (_ & _ & _ & ? & _) [= <-]; done.
Qed.

Lemma old_stands_in o flows routes p sn : books true hc t0 g0 o flows routes -> begun (publisher (crew_of o)) = Some p ->
  pub_old p = Some sn -> stands_in o flows routes sn.
Proof.
  intros Hb Hp Hsn. destruct (desk_retired _ _ _ _ _ _ _ (bk_desk _ _ _ _ _ _ _ Hb) Hp) as (so & ho & Hso & Hpc & Hsub).
  rewrite Hsn in Hso. injection Hso as <-. exists flows, routes, (rt_generation (rt o)), ho. split_and!; [done|done|by left].
Qed.

(** Whatever a worker holds stands for one of the two tables. *)
Lemma held_stands_in o flows routes i sn pkts : office_ok o -> books true hc t0 g0 o flows routes ->
  staff o !! Z.of_nat i = Some (Reading (Some sn) pkts) -> stands_in o flows routes sn.
Proof.
  intros Hok Hb Hi. pose proof (ck_sound _ _ _ _ (of_crew _ _ _ _ _ _ _ _ Hok)) as [[_ (q & sa & hs & fl & ro & _ & _ & Ha & _ & Hw)] _].
  assert (held (readers_of (crew_of o)) !! Z.of_nat i = Some (Some sn)) as Hh by (cbn; by rewrite lookup_omap, Hi).
  assert (sn = sa \/ exists p, begun (publisher (crew_of o)) = Some p /\ pub_old p = Some sn) as [->|(p & Hp & Hold)].
  - cbn [readers_of writer sys] in Hw. destruct (publisher (crew_of o)) as [|p|p token] eqn:Ep.
    + destruct Hw as (_ & _ & Hhold). left. by eapply Hhold.
    + destruct Hw as (so & ho & (Hso & _) & Hhold). destruct (Hhold _ _ Hh) as [-> | ->]; [by left|right]. by exists p.
    + destruct Hw as (so & ho & (Hso & _) & _ & Hhold). destruct (Hhold _ _ Hh) as [-> | [-> _]]; [by left|right]. by exists p.
  - by apply active_stands_in.
  - by eapply old_stands_in.
Qed.

Lemma stands_in_view o flows routes sn : stands_in o flows routes sn ->
  exists flows' routes', current_or_next o flows routes (table flows' routes') /\
    view (rules_heap (native (rt o)).1) (Some sn) (native_flows flows') (native_routes routes').
Proof.
  intros (f' & r' & g & hs & [_ Hrep Hok [Hf Hr]] & Hsub & Ht). exists f', r'. split; [done|].
  split; [done..|]. exists g. by eapply snapshot_rep_mono.
Qed.
End Delivery.

Section Claims.
Context {H : Host} {HO : HostOk H} {C : Checksums} {CO : ChecksumsOk C}.
Context {T : DpdkTables} {TO : DpdkTablesOk T} {Q : Qsbr} {QO : QsbrOk Q}.
Context (calloc : callocator) (allocate : gmap Z hobj -> allocator) (growth : nat -> nat -> nat).
Context (Hcalloc : callocator_ok calloc) (Halloc : forall h, allocator_ok (allocate h) h).
Context (stack_meta : dp_packet_meta) (injected : Z).
Context (hc : c_heap) (n : nat) (rest : gmap Z hobj) (B : gmap Z rte_mbuf) (t0 : rule_table) (g0 : Z).
Abbreviation office_step := (Calls.office_step calloc allocate growth stack_meta injected).
Abbreviation office_ok := (CallsSpec.office_ok true hc n rest B t0 g0).

(** C1: every packet is decided by the rules of its time.  Goroutines change the rules,
    workers poll, the process may be asked to stop; a worker that has loaded a
    snapshot processes its burst at some later moment, after any number of other
    steps.  The table the packets are decided by is the one the calls settled so far
    have made, in the order in which they settled, or the one that the holder of the
    lock is putting in its place.  By that table each received packet is dropped,
    forwarded or rewritten as the frame grammar and the rules prescribe; the
    survivors are offered in the order of reception, the driver takes a prefix, and
    the worker owns the mbufs it owned before. *)
Theorem packets_decided o0 o i snapshot pkts p : office_ok o0 -> rtc office_step o0 o ->
  staff o !! Z.of_nat i = Some (Reading snapshot pkts) -> poll_ok p (mbufs (native (rt o)).1) ->
  exists flows routes flows' routes' outs pkts' w', let w := (native (rt o)).1 in
    served (memory (rt o)) t0 (history o) (table flows routes) /\
    current_or_next o flows routes (table flows' routes') /\
    worker_step stack_meta injected i p (Reading snapshot pkts) w = Some (Reporting snapshot pkts', w') /\
    Forall2 (fun m out => WorkerProps.outcome (native_flows flows') (native_routes routes') m out.1 out.2) (poll_rx p).*2 outs /\
    mbufs w' = mbufs w /\
    wire w' = wire w ++ take (Z.to_nat (accepted p outs)) (kept outs).
Proof.
  intros Hok0 Hr Hi Hp. destruct (office_run_ok calloc allocate growth Hcalloc Halloc _ _ _ _ _ _ _ _ _ _ _ Hr Hok0) as [Hok _].
  destruct (of_books _ _ _ _ _ _ _ _ Hok) as (flows & routes & Hb). pose proof (of_crew _ _ _ _ _ _ _ _ Hok) as Hc.
  destruct (stage_facts n rest B (crew_of o) i Hc (Reading snapshot pkts) Hi) as (ctx & Hctx & _ & [[sn ->] HL] & _).
  destruct (stands_in_view o flows routes sn) as (flows' & routes' & Ht & Hv); [by eapply held_stands_in|].
  destruct (worker_burst_outcomes (rules_heap (native (rt o)).1) stack_meta (Some sn) (native_flows flows') (native_routes routes') Hv
    p pkts (packets_of ctx (native (rt o)).1) Hp HL) as (outs & pkts' & pw & Hrun & Houts & Em & Ew & _).
  exists flows, routes, flows', routes', outs, pkts', (with_packets i ctx pw (native (rt o)).1).
  split; [apply Hb|]. split; [done|]. split; [|split; [exact Houts|split; [exact Em|exact Ew]]].
  cbn. unfold worker_packets. erewrite M_bind_step; [done|]. erewrite M_bind_step by done. cbv beta.
  apply (on_packets_Some _ _ _ ctx); [exact Hctx|by eexists].
Qed.
End Claims.
