(* ===== verification/Process.v ===== *)
(** * The whole process

    From [ready] to the end of the owner: goroutines call the manager before, during
    and after [dp_dataplane_run], which launches and joins the workers among them;
    then the owner takes [rulesMu], closes the manager and takes the process down.
    An office is a scene for the main thread. *)
From Stdlib Require Import ZArith Lia.
From stdpp Require Import base list numbers option gmap strings relations.
From S2P Require Import Prelude Host Packet Api Tables Heap Snapshot SnapshotSpec Action Rcu State StatsSpec Rules Binding Worker WorkerSpec RunSpec Publish PublishSpec ReaderSpec Runtime RuntimeSpec Port PortSpec BindingSpec GoStats GoSlice Control ControlSpec ControlRefine ControlNative Lifecycle LifecycleSpec Dataplane ServeSpec Crew CrewSpec CrewRun Calls CallsSpec CallsProps.

Section Office.
Context {H : Host} {HO : HostOk H} {C : Checksums} {CO : ChecksumsOk C}.
Context {T : DpdkTables} {TO : DpdkTablesOk T} {Q : Qsbr} {QO : QsbrOk Q}.
Context (calloc : callocator) (allocate : gmap Z hobj -> allocator) (growth : nat -> nat -> nat).
Context (Hcalloc : callocator_ok calloc) (Halloc : forall h, allocator_ok (allocate h) h).
Context (stack_meta : dp_packet_meta) (injected : Z).
Abbreviation office_step := (Calls.office_step calloc allocate growth stack_meta injected).
Abbreviation office_run_ok := (CallsSpec.office_run_ok calloc allocate growth Hcalloc Halloc stack_meta injected).
Abbreviation runtime := (Control.runtime (world * c_heap)).

(** ** The office as a scene *)
Definition at_work (f : world -> world) (g : gmap Z stage -> gmap Z stage) (o : office) : office := {|
  rt := set_world (f (native (rt o)).1) (rt o); staff := g (staff o); calls := calls o; holder := holder o; history := history o |}.

#[export] Instance office_scene : Scene office := { view := crew_of; goes_on := rtc office_step; direct := at_work }.

#[export] Instance office_scene_ok (hc : c_heap) n (rest : gmap Z hobj) (B : gmap Z rte_mbuf) (t0 : rule_table) (g0 : Z) :
  SceneOk stack_meta injected office n rest B.
Proof.
  refine {| scene_ok := office_ok true hc n rest B t0 g0 |}.
  - intros o Hok. exact (of_crew _ _ _ _ _ _ _ _ Hok).
  - reflexivity.
  - intros f g o Hok Hsame Hc. by apply office_world_ok.
  - intros o o' Hr Hok. by apply office_run_ok.
Defined.

(** ** Before the run *)

(** The office when [ready] is closed. *)
Definition on_duty (r : runtime) : office := {| rt := r; staff := ∅; calls := ∅; holder := None; history := [] |}.

(** [dp_dataplane_run] has begun. *)
Definition entering : office -> office := at_work opened id.

Lemma serving_ready n rest w : settled rest w -> active_rules (dp w) <> None -> serving (Z.of_nat n) w -> crew_ready n rest w.
Proof.
  intros Hset Ha [Hr _ [Hc H1] _ Hp]. split; [done|done|done|split; [done|lia]|]. intros i Hi. apply Hp. lia.
Qed.

Lemma on_duty_ok n rest r flows routes : coherent native_shows r flows routes -> rulesOpen r = true -> rt_generation r = 1 ->
  settled rest (native r).1 -> serving (Z.of_nat n) (native r).1 ->
  crew_ready n rest (native r).1 /\
  office_ok true (native r).2 n rest (mbufs (native r).1) (table flows routes) 1 (on_duty r).
Proof.
  intros [Hh Hcur Hf Hv Hn] Ho Hg Hset Hserv.
  assert (generation_is true 1 flows routes (native r).1) as Hgen.
  { intros _. rewrite Hg in Hn. by destruct Hn as (? & c & <- & _ & _ & ?). }
  assert (crew_ready n rest (native r).1) as Hcr.
  { apply serving_ready; [done| |done]. destruct (Hgen eq_refl) as (sa & hs & -> & _). done. }
  split; [done|]. split; [by apply nobody_ok| |done|by intros ? ?|by intros ? ?|by intros ? ?].
  exists flows, routes. split; [by split|apply served_nil|apply Forall_nil_2|cbn; by rewrite Hg|cbn; by rewrite Hg].
Qed.

(** Whatever has been done before the run, as long as nobody works, the process is
    ready for it. *)
Lemma standing_by n rest r c : crew_ready n rest (native r).1 -> rtc (crew_step stack_meta injected) (crew_of (on_duty r)) c ->
  standby n (state c) /\ stages c = ∅.
Proof.
  intros Hcr Hc. destruct (home_run stack_meta injected _ _ Hc) as (_ & Es & b & Hout); [intros i s Hi; cbn in Hi; by rewrite lookup_empty in Hi|].
  split; [|exact Es]. destruct (crew_ready_standby _ _ _ Hcr) as [[Hw1 Hw2] Hi Hp Hrr Hcc].
  destruct Hout as [_ (Ew & Ec & _) (Er & _ & Ern & _) (_ & Eo & Est & _) _]. cbn in *.
  split; [unfold within_array; by rewrite Ew, Ec|intros i ctx; rewrite Ew; apply Hi|by rewrite Eo, Est|by rewrite Er, Ern|by rewrite Ec].
Qed.

Lemma scene_ready {X : Type} {SX : Scene X} n rest B {SXO : SceneOk stack_meta injected X n rest B} r x :
  crew_ready n rest (native r).1 -> scene_ok stack_meta injected x -> rtc (crew_step stack_meta injected) (crew_of (on_duty r)) (view x) ->
  standby n (state (view x)) /\ ready_scene stack_meta injected n rest B (state (view x)) (direct opened id x).
Proof.
  intros Hcr Hok Hr. destruct (standing_by _ _ _ _ Hcr Hr) as [Hsb Hes]. split; [done|].
  split; [|by rewrite (view_direct stack_meta injected)|by rewrite (view_direct stack_meta injected)].
  apply (scene_direct stack_meta injected); [done|by split_and!|].
  rewrite (view_direct stack_meta injected). by apply (opened_ok _ _ _ (view x)), (scene_crew stack_meta injected).
Qed.

(** ** After the run *)

(** The owner has closed the manager and left [r]. *)
Definition off_duty (r : runtime) (o : office) : office :=
  {| rt := r; staff := staff o; calls := calls o; holder := None; history := history o |}.

(** Once everybody is home, a free lock means a settled process. *)
Lemma office_settled hc n rest B t0 g0 o c : office_ok true hc n rest B t0 g0 o -> holder o = None ->
  over rest (readers_of c) -> all_home c -> rtc (crew_step stack_meta injected) c (crew_of o) ->
  settled rest (native (rt o)).1 /\ (native (rt o)).2 = hc /\ all_home (crew_of o).
Proof.
  intros Hok Hno Hover Hh Hr. destruct (home_run stack_meta injected _ _ Hr Hh) as (Hh' & Es & b & Hout).
  pose proof (of_crew _ _ _ _ _ _ _ _ Hok) as Hc. pose proof (ck_sound _ _ _ _ Hc) as Hsound.
  assert (publisher (crew_of o) = Idle) as Hidle by (cbn; unfold at_lock; by rewrite Hno).
  split; [|split; [|done]].
  - apply (over_settled rest (readers_of (crew_of o))); [|done|].
    + destruct Hover as [_ Hru [Hw1 Hw2] Hac Hi Hp]. cbn in *.
      destruct Hout as [_ (Ew & Ec & Eac) (_ & Eru & _) (_ & Eo & Est & _) _]. cbn in *.
      split; cbn; [done|by rewrite Eru|unfold within_array; by rewrite Ew, Ec|by rewrite Eac|rewrite Ec, Ew; exact Hi|by rewrite Eo, Est].
    + apply map_eq. intros i. cbn. rewrite lookup_omap, lookup_empty. destruct (staff o !! i) as [s|] eqn:E; [|done].
      by destruct (Hh' i s E) as (ret & ->).
  - destruct (of_books _ _ _ _ _ _ _ _ Hok) as (flows & routes & Hb). pose proof (bk_desk _ _ _ _ _ _ _ Hb) as Hd.
    unfold at_lock in Hd. rewrite Hno in Hd. by destruct Hd.
Qed.

Lemma off_duty_ok hc n rest B t0 g0 o n' stats : office_ok true hc n rest B t0 g0 o -> holder o = None -> all_home (crew_of o) ->
  office_ok false n'.2 n rest B t0 g0 (off_duty (set_native n' (set_rt_stats stats (set_rulesOpen false (rt o)))) o).
Proof.
  intros [_ (flows & routes & [[Hh Hc Hf Hv _] Hs Hop Hg _]) _ He Hl _] Hno Hhome. split; cbn [off_duty rt calls holder history].
  - intros r s. apply Hhome.
  - exists flows, routes. by split.
  - done.
  - done.
  - intros g s Hcall. rewrite <- Hno. by eapply Hl.
  - done.
Qed.

(** Calls of a closed manager do not touch the native side, and are refused. *)
Definition refuses (o o' : office) : Prop :=
  (native (rt o')).2 = (native (rt o)).2 /\
  ((native (rt o')).1 = (native (rt o)).1 \/ (native (rt o')).1 = halt (native (rt o)).1) /\
  currentRules (rt o') = currentRules (rt o) /\ rt_generation (rt o') = rt_generation (rt o) /\
  exists l, history o' = history o ++ l /\ Forall (fun x => x.2 <> None) l.

Lemma refuses_same o o' : rt o' = rt o -> history o' = history o -> refuses o o'.
Proof. unfold refuses. intros -> ->. split_and!; [done|by left|done|done|exists []; by rewrite app_nil_r]. Qed.

#[export] Instance refuses_preorder : PreOrder refuses.
Proof.
  split; [intros o; by apply refuses_same|].
  intros o1 o2 o3 (Eh & Ew & Ec & Eg & l & El & Hl) (Eh' & Ew' & Ec' & Eg' & l' & El' & Hl').
  split_and!; [congruence| |congruence|congruence|].
  - destruct Ew as [E|E], Ew' as [E'|E']; rewrite E', E; auto.
  - exists (l ++ l'). rewrite El', El, app_assoc. split; [done|by apply Forall_app].
Qed.

(** A refusal, or nothing, is settled. *)
Lemma refuses_goes o r' s' cs : native r' = native (rt o) -> currentRules r' = currentRules (rt o) ->
  rt_generation r' = rt_generation (rt o) -> Forall (fun x => x.2 <> None) (settles s') ->
  refuses o {| rt := r'; staff := staff o; calls := cs; holder := holder o; history := history o ++ settles s' |}.
Proof. intros En Ec Eg Hs. unfold refuses. cbn. rewrite En. split_and!; [done|by left|done|done|by exists (settles s')]. Qed.

Lemma call_refused hc n rest B t0 g0 o g s s' r' : office_ok false hc n rest B t0 g0 o -> calls o !! g = Some s ->
  may_go s (native (rt o)).1 -> Calls.call_step calloc allocate growth s (rt o) = Some (s', r') ->
  refuses o {| rt := r'; staff := staff o; calls := <[g := s']> (calls o); holder := holder o; history := history o ++ settles s' |}.
Proof.
  intros Hok Hg Hm Hrun. destruct (of_books _ _ _ _ _ _ _ _ Hok) as (flows & routes & Hb). pose proof (bk_kept _ _ _ _ _ _ _ Hb) as Hk.
  destruct (of_errands _ _ _ _ _ _ _ _ Hok _ _ Hg) as [Hop _].
  assert (inside s = true -> desk false hc (memory (rt o)) (native (rt o)) (rt_generation (rt o)) flows routes (Some s)) as Hd
    by by eapply desk_held.
  assert (forall op, op_ok (memory (rt o)) op -> forall x r1, prepare growth op (rt o) = Some (x, r1) ->
    exists h, r1 = set_memory h (rt o)) as Hprep.
  { intros op Hop' x r1 E. destruct (prepare_run growth op (rt o) flows routes Hk Hop') as (x' & h & E' & _).
    exists h. rewrite E in E'. by injection E'. }
  destruct s as [op|op c|op [c|]|op c|op c nr arrays|op c arrays p|op c arrays p token|op c arrays ret g'|op err|op err]; try done;
    cbn [Calls.call_step] in Hrun; try by destruct (Hd eq_refl).
  - destruct op; try (injection Hrun as <- <-; by apply refuses_goes).
    apply M_bind_Some in Hrun as (x & r1 & E & Hrun). destruct (Hprep _ Hop _ _ E) as (h & ->).
    injection Hrun as <- <-. apply refuses_goes; [done..|]. destruct x; [by apply Forall_singleton|by apply Forall_nil_2].
  - injection Hrun as <- <-. by apply refuses_goes.
  - apply M_bind_Some in Hrun as (x & r1 & E & Hrun). destruct (Hprep _ Hop _ _ E) as (h & ->).
    injection Hrun as <- <-. apply refuses_goes; [done..|]. destruct x; [by apply Forall_singleton|by apply Forall_nil_2].
  - apply M_bind_Some in Hrun as (r0 & r1 & [= <- <-] & Hrun). rewrite (of_open _ _ _ _ _ _ _ _ Hok) in Hrun.
    injection Hrun as <- <-. apply refuses_goes; [done..|]. by apply Forall_singleton.
Qed.

Lemma step_refused hc n rest B t0 g0 o o' : office_ok false hc n rest B t0 g0 o -> office_step o o' -> refuses o o'.
Proof.
  intros Hok. destruct 1 as [? ? [i p s s' w' o Hi Hp Hrun|g op c o Hg Hno|g s s' r' o Hg Hm Hrun|g op err o Hg]|o|g op o Hg Hop];
    try by apply refuses_same.
  - by destruct (of_crew _ _ _ _ _ _ _ _ Hok _ _ Hi) as (ret & ->).
  - by eapply call_refused.
  - split_and!; [done|by right|done|done|exists []; by rewrite app_nil_r].
Qed.

Lemma run_refused hc n rest B t0 g0 o o' : rtc office_step o o' -> office_ok false hc n rest B t0 g0 o -> refuses o o'.
Proof.
  induction 1 as [o|o o1 o' Hs _ IH]; intros Hok; [done|]. etrans; [by eapply step_refused|].
  apply IH. eapply office_step_ok; done.
Qed.
End Office.

Section Process.
Context {H : Host} {HO : HostOk H} {C : Checksums} {CO : ChecksumsOk C}.
Context {T : DpdkTables} {TO : DpdkTablesOk T} {Q : Qsbr} {QO : QsbrOk Q}.
Context (pf : platform) (PF : platform_ok pf) (growth : nat -> nat -> nat).
Context (stack_meta : dp_packet_meta) (injected : Z).
Abbreviation office_runs := (Calls.office_runs (p_calloc pf) (p_allocate pf) growth stack_meta injected).
Abbreviation office_step := (Calls.office_step (p_calloc pf) (p_allocate pf) growth stack_meta injected).
Abbreviation runtime := (Control.runtime (world * c_heap)).
Abbreviation on_site := (office_scene (p_calloc pf) (p_allocate pf) growth stack_meta injected).
Abbreviation on_site_ok := (office_scene_ok (p_calloc pf) (p_allocate pf) growth (pf_calloc pf PF) (pf_allocate pf PF) stack_meta injected).
Abbreviation office_run_ok := (office_run_ok (p_calloc pf) (p_allocate pf) growth (pf_calloc pf PF) (pf_allocate pf PF) stack_meta injected).

(** A process that has come up, with the configuration it was started with. *)
Context (cfg : Config) (flows : list FlowRule) (routes : list RouteRule) (r r1 : runtime) (i : bool) (argv : option Z).
Context (Hl : launched_with cfg flows routes r) (Hp : Probe cfg = false) (Hup : bring_up pf cfg r = Some (([], i, argv), r1)).

Abbreviation crew_size := (Z.to_nat (Workers cfg)).
Abbreviation old_heap := (rules_heap (native r).1).
Abbreviation duty_ok opened hc :=
  (office_ok opened hc crew_size old_heap (mbufs (native r1).1) (table flows routes) 1).

Lemma up_on_duty : argv_held argv (native r).2 (native r1).2 /\ crew_ready crew_size old_heap (native r1).1 /\
  duty_ok true (native r1).2 (on_duty r1).
Proof.
  destruct (bring_up_run pf PF cfg flows routes r Hl) as (e & i' & argv' & r' & Hrun & [Ha Hheap Hready _]).
  rewrite Hup in Hrun. injection Hrun as <- <- <- <-. destruct (Hready eq_refl Hp) as (Hserv & Hco & Ho & Hg & _).
  split; [done|]. destruct i; [|by destruct Hheap as (_ & _ & ?)].
  apply on_duty_ok; [done|done|done|done|]. rewrite Z2Nat.id by apply Hl. done.
Qed.

(** How the owner ends: it waits for [rulesMu], closes the manager, and takes the
    process down while it holds the lock. *)
Record winds_down (ret : Z) (z : office) : Prop := {
  wd_lock : exists z', rtc office_runs z z' /\ holder z' = None;
  wd_down : holder z = None -> cooperative (p_eth pf) -> exists err stats n,
    let r' := set_native n (set_rt_stats stats (set_rulesOpen false (rt z))) in
    wind_down pf argv (status ERun ret) (rt z) = Some (err, r') /\ reports (dp n.1) stats /\
    rules_heap n.1 = old_heap /\ initialized (dp n.1) = false /\ (exists more, err = status ERun ret ++ more) /\
    (err = [] -> released (dp n.1) /\ n.2 = (native r).2) /\
    duty_ok false n.2 (off_duty r' z);
}.

Lemma home_winds_down ret c z : duty_ok true (native r1).2 z -> over old_heap (readers_of c) -> all_home c ->
  rtc (crew_step stack_meta injected) c (crew_of z) -> winds_down ret z.
Proof.
  intros Hokz Hover Hhome Hc.
  split; [destruct (lock_frees _ _ growth (pf_calloc pf PF) (pf_allocate pf PF) stack_meta injected _ _ _ _ _ _ _ z Hokz) as (z' & ? & ? & _); by exists z'|].
  intros Hno Hcoop. destruct (office_settled stack_meta injected _ _ _ _ _ _ z c Hokz Hno Hover Hhome Hc) as (Hset & Eh & Hh).
  destruct up_on_duty as (Ha & _).
  destruct (wind_down_run pf old_heap argv (status ERun ret) (rt z) (native r).2 Hset) as
    (err & stats & n & Hrun & [Eheap Herr Hcl _] & Hrep & Hi); [by rewrite Eh|by apply cooperative_closing|].
  specialize (Hi Hcoop). exists err, stats, n. split; [exact Hrun|]. destruct (Hcl Hi) as [Hrel Hback]. split_and!; [done|done|done|done|auto|].
  by apply (off_duty_ok (native r1).2).
Qed.

(** A scene around an office that has come from the moment [ready] was closed:
    [dp_dataplane_run] returns, and whatever goes on after that, nobody works. *)
Lemma scene_returns {X : Type} {SX : Scene X} {SXO : SceneOk stack_meta injected X crew_size old_heap (mbufs (native r1).1)}
    (office_in : X -> office) x failure sc k :
  (forall y, view y = crew_of (office_in y)) -> (forall y, scene_ok stack_meta injected y -> duty_ok true (native r1).2 (office_in y)) ->
  scene_ok stack_meta injected x -> rtc (crew_step stack_meta injected) (crew_of (on_duty r1)) (view x) ->
  directed failure sc (direct opened id x) k ->
  exists ret y, dp_dataplane_run (scheduled failure sc) (state (view x)) = Some (ret, state (view (closing y))) /\
    k y /\ all_home (view y) /\ mbufs (state (view y)) = mbufs (native r1).1 /\
    over old_heap (readers_of (closed (view y))) /\
    forall z, goes_on (closing y) z -> duty_ok true (native r1).2 (office_in z) /\
      rtc (crew_step stack_meta injected) (closed (view y)) (crew_of (office_in z)).
Proof.
  intros Hview Hduty Hok Hr Hd. destruct up_on_duty as (_ & Hcr & _).
  destruct (scene_ready stack_meta injected _ _ (mbufs (native r1).1) _ x Hcr Hok Hr) as [Hsb Hrs].
  destruct (scene_runs stack_meta injected crew_size old_heap (mbufs (native r1).1) failure sc (state (view x)) (direct opened id x) k Hsb Hrs Hd)
    as (ret & y & Hrun & Hk & [Hcl Hhome Hover _]).
  exists ret, y. split; [exact Hrun|]. split; [done|]. split; [done|]. split; [|split; [done|]].
  - pose proof (ck_mbufs _ _ _ _ (scene_crew stack_meta injected _ Hcl)) as Em. by rewrite (view_closing stack_meta injected crew_size old_heap (mbufs (native r1).1)) in Em.
  - intros z Hz. destruct (scene_goes_on stack_meta injected _ _ Hz Hcl) as [Hokz Hc].
    rewrite (view_closing stack_meta injected crew_size old_heap (mbufs (native r1).1)), (Hview z) in Hc. split; [by apply Hduty|done].
Qed.

Lemma scene_serves {X : Type} {SX : Scene X} {SXO : SceneOk stack_meta injected X crew_size old_heap (mbufs (native r1).1)}
    (office_in : X -> office) x failure sc k :
  (forall y, view y = crew_of (office_in y)) -> (forall y, scene_ok stack_meta injected y -> duty_ok true (native r1).2 (office_in y)) ->
  scene_ok stack_meta injected x -> rtc (crew_step stack_meta injected) (crew_of (on_duty r1)) (view x) ->
  directed failure sc (direct opened id x) k ->
  exists ret y, dp_dataplane_run (scheduled failure sc) (state (view x)) = Some (ret, state (view (closing y))) /\
    k y /\ all_home (view y) /\ mbufs (state (view y)) = mbufs (native r1).1 /\
    forall z, goes_on (closing y) z -> winds_down ret (office_in z).
Proof.
  intros Hview Hduty Hok Hr Hd. destruct (scene_returns office_in x failure sc k Hview Hduty Hok Hr Hd)
    as (ret & y & Hrun & Hk & Hhome & Hm & Hover & Hz).
  exists ret, y. split; [exact Hrun|]. do 3 (split; [done|]). intros z [Hokz Hc]%Hz. by eapply home_winds_down.
Qed.

(** C11: the whole life of a process that comes up.  Goroutines call the manager from
    the moment [ready] is closed, and the process may be asked to stop at any time;
    [dp_dataplane_run] is entered among them and its EAL calls return along any
    faithful schedule.  It returns with every worker home and no mbuf gained or lost;
    whatever the calls do after that, the owner can get [rulesMu], and when it has
    it, with drivers that do as they are told, the manager is closed and the process
    is taken down: the rule heap is the one it started from, the error says if the
    run failed, the statistics are those of all workers, and without an error nothing
    is left allocated. *)
Theorem process_serves o failure sc k : rtc office_step (on_duty r1) o ->
  directed (SX := on_site) failure sc (entering o) k ->
  exists ret y, dp_dataplane_run (scheduled (SX := on_site) failure sc) (native (rt o)).1 =
      Some (ret, (native (rt (closing (SX := on_site) y))).1) /\
    k y /\ all_home (crew_of y) /\ mbufs (native (rt y)).1 = mbufs (native r1).1 /\
    forall z, rtc office_step (closing (SX := on_site) y) z -> winds_down ret z.
Proof.
  intros Hr Hd. destruct up_on_duty as (_ & Hcr & Hok0). destruct (office_run_ok _ _ _ _ _ _ _ _ _ Hr Hok0) as [Hok Hc].
  exact (scene_serves (SX := on_site) (SXO := on_site_ok (native r1).2 crew_size old_heap (mbufs (native r1).1) (table flows routes) 1)
    id o failure sc k (fun y => eq_refl) (fun y Hy => Hy) Hok Hc Hd).
Qed.
End Process.

Section After.
Context {H : Host} {HO : HostOk H} {C : Checksums} {CO : ChecksumsOk C}.
Context {T : DpdkTables} {TO : DpdkTablesOk T} {Q : Qsbr} {QO : QsbrOk Q}.
Context (calloc : callocator) (allocate : gmap Z hobj -> allocator) (growth : nat -> nat -> nat).
Context (Hcalloc : callocator_ok calloc) (Halloc : forall h, allocator_ok (allocate h) h).
Context (stack_meta : dp_packet_meta) (injected : Z).
Context (hc : c_heap) (n : nat) (rest : gmap Z hobj) (B : gmap Z rte_mbuf) (t0 : rule_table) (g0 : Z).

(** C25: a closed manager refuses.  Once the owner has closed the manager, calls that
    were waiting and calls that come later are all answered, none of them succeeds,
    the rules and their generation stay as they were, and nobody touches the native
    side any more, apart from the stop flag: a call cannot race with the teardown. *)
Theorem closed_manager_refuses o0 o : office_ok false hc n rest B t0 g0 o0 ->
  rtc (Calls.office_step calloc allocate growth stack_meta injected) o0 o ->
  refuses o0 o /\
  exists o', rtc (Calls.office_runs calloc allocate growth stack_meta injected) o o' /\ holder o' = None /\
    forall g s, calls o !! g = Some s -> exists err, calls o' !! g = Some (Replied (call_op s) err).
Proof.
  intros Hok0 Hr. split; [by eapply run_refused|]. eapply calls_reply; [done|done|].
  eapply (office_run_ok calloc allocate growth Hcalloc Halloc); done.
Qed.
End After.
