(* ===== verification/Command.v ===== *)
(** * The command: the signal loop of [cmd/flow-router/main.go]

    A goroutine takes signals from a channel with room for one: SIGHUP reloads the
    rules file and replaces the rules, any other signal stops the dataplane.  It is
    the only goroutine of the command that calls the manager; workers, signals and
    whoever edits the file go on meanwhile.  A command is the office of Calls with
    this goroutine in it. *)
From Stdlib Require Import ZArith Lia.
From stdpp Require Import base list numbers option gmap strings relations.
From S2P Require Import Prelude Host Packet Api Tables Heap Snapshot Action Rcu State Rules Binding Worker GoSlice Control ControlRefine Lifecycle Documents RuleFiles Crew Calls.

(** The signals the command asks for. *)
Inductive signal := SIGINT | SIGTERM | SIGHUP.

#[export] Instance signal_eq_dec : EqDecision signal.
Proof. solve_decision. Defined.

(** The channel has room for one signal; the sender does not wait. *)
Definition deliver (s : signal) (channel : option signal) : option signal :=
  match channel with None => Some s | Some waiting => Some waiting end.

Section Command.
Context {NET : Net} {J : Json} {open_error : Type}.
Context {H : Host} {C : Checksums} {T : DpdkTables} {Q : Qsbr}.
Context (calloc : callocator) (allocate : gmap Z hobj -> allocator) (growth : nat -> nat -> nat).
Context (stack_meta : dp_packet_meta) (injected : Z).
(** [--rules-file] *)
Context (rulesFile : string).

(** What the goroutine does that can be seen: the lines it prints, and [r.Stop()]. *)
Inductive notice :=
  | RulesFileRequired
  | NotLoaded (e : load_error open_error)
  | NotReplaced (e : control_error)
  | Reloaded (generation : Z)
  | Stopping.

Inductive listener :=
  | Selecting                  (** in the select *)
  | Received (s : signal)
  | Replacing (g : nat)        (** in [r.ReplaceRules], which is call [g] of the office *)
  | Asking                     (** in [r.RulesGeneration], which takes [rulesMu] *)
  | Left.                      (** returned *)

Record command := {
  site : office;
  disk : files open_error;
  channel : option signal;
  listening : listener;
  notices : list notice;
  taken : list reader;         (** history: the contents whose rules went to [ReplaceRules] *)
}.

Definition with_site (o : office) (c : command) : command := {|
  site := o; disk := disk c; channel := channel c; listening := listening c; notices := notices c; taken := taken c |}.
Definition with_disk (d : files open_error) (c : command) : command := {|
  site := site c; disk := d; channel := channel c; listening := listening c; notices := notices c; taken := taken c |}.
Definition with_channel (ch : option signal) (c : command) : command := {|
  site := site c; disk := disk c; channel := ch; listening := listening c; notices := notices c; taken := taken c |}.
Definition turn_to (l : listener) (c : command) : command := {|
  site := site c; disk := disk c; channel := channel c; listening := l; notices := notices c; taken := taken c |}.
Definition tell (x : notice) (c : command) : command := {|
  site := site c; disk := disk c; channel := channel c; listening := listening c; notices := notices c ++ [x]; taken := taken c |}.
Definition take_up (input : option reader) (c : command) : command := {|
  site := site c; disk := disk c; channel := channel c; listening := listening c; notices := notices c;
  taken := taken c ++ option_list input |}.

(** What the goroutine does to the office: it makes slices, calls, or stops. *)
Definition with_memory (h : go_heap) (o : office) : office := {|
  rt := set_memory h (rt o); staff := staff o; calls := calls o; holder := holder o; history := history o |}.
Definition enter (g : nat) (op : rule_op) (o : office) : office := {|
  rt := rt o; staff := staff o; calls := <[g := Called op]> (calls o); holder := holder o; history := history o |}.
Definition request_stop (o : office) : office := {|
  rt := set_world (halt (native (rt o)).1) (rt o); staff := staff o; calls := calls o; holder := holder o; history := history o |}.

(** The contents of the rules file. *)
Definition file_contents (d : files open_error) : option reader :=
  match on_disk d rulesFile with inl _ => None | inr input => Some input end.

(** A SIGHUP has been received. *)
Definition reload (c : command) : option command :=
  if String.eqb rulesFile "" then Some (turn_to Selecting (tell RulesFileRequired c)) else
  '(updated, (h, d)) ← LoadRulesFile growth rulesFile (memory (rt (site c)), disk c);
  let c' := with_disk d (with_site (with_memory h (site c)) c) in
  Some (match updated with
        | inl loadErr => turn_to Selecting (tell (NotLoaded loadErr) c')
        | inr rules => let g := fresh (dom (calls (site c))) in
            take_up (file_contents (disk c)) (turn_to (Replacing g) (with_site (enter g (Replace rules) (site c')) c'))
        end).

(** The next action of the goroutine, [None] while it waits; the select takes a
    signal here, and may also see that [done] is closed. *)
Definition listen (c : command) : option command :=
  match listening c with
  | Selecting => received ← channel c; Some (turn_to (Received received) (with_channel None c))
  | Received received =>
    if decide (received = SIGHUP) then reload c
    else Some (turn_to Left (tell Stopping (with_site (request_stop (site c)) c)))
  | Replacing g =>
    match calls (site c) !! g with
    | Some (Replied _ (Some publishErr)) => Some (turn_to Selecting (tell (NotReplaced publishErr) c))
    | Some (Replied _ None) => Some (turn_to Asking c)
    | _ => None
    end
  | Asking =>
    match holder (site c) with
    | None => Some (turn_to Selecting (tell (Reloaded (rt_generation (rt (site c)))) c))
    | Some _ => None
    end
  | Left => None
  end.

(** Steps, with the signal that arrives.  The owner closes [done] some time after it
    has closed the manager, so [command_done] may leave the select earlier than the
    goroutine does: every run of the program is a run here. *)
Inductive command_step : option signal -> command -> command -> Prop :=
  | command_runs c o : office_runs calloc allocate growth stack_meta injected (site c) o ->
      command_step None c (with_site o c)
  | command_edits c contents :
      command_step None c (with_disk {| on_disk := contents; handles := handles (disk c) |} c)
  | command_signalled s c : command_step (Some s) c (with_channel (deliver s (channel c)) c)
  | command_listens c c' : listen c = Some c' -> command_step None c c'
  | command_done c : listening c = Selecting -> rulesOpen (rt (site c)) = false ->
      command_step None c (turn_to Left c).

(** Runs, with the signals that arrive in the order in which they do. *)
Inductive command_run : list signal -> command -> command -> Prop :=
  | run_nil c : command_run [] c c
  | run_step l ls c c1 c' : command_step l c c1 -> command_run ls c1 c' -> command_run (option_list l ++ ls) c c'.

(** The goroutine when it has just been started. *)
Definition listening_at (o : office) (d : files open_error) (waiting : option signal) : command := {|
  site := o; disk := d; channel := waiting; listening := Selecting; notices := []; taken := [] |}.

(** ** The lines about reloads *)
Definition result_of (x : notice) : option (option control_error) :=
  match x with NotReplaced e => Some (Some e) | Reloaded _ => Some None | _ => None end.
Definition results (l : list notice) : list (option control_error) := omap result_of l.

Definition generation_of (x : notice) : option Z := match x with Reloaded g => Some g | _ => None end.
Definition generations (l : list notice) : list Z := omap generation_of l.

(** Results the goroutine has not printed yet. *)
Definition owed (c : command) : list (option control_error) :=
  match listening c with
  | Replacing g => match calls (site c) !! g with Some s => (settles s).*2 | None => [] end
  | Asking => [None]
  | _ => []
  end.
End Command.
#[global] Arguments notice {J} open_error.
#[global] Arguments command {J} open_error {T Q}.
