(* ===== verification/CommandSpec.v ===== *)
(** * The signal loop, specified

    The invariant of a command: the office keeps its own; the only call in progress
    is the goroutine's, which asks for rules that stand in a file; what was printed
    and what is still to be printed are the results of its calls, in order. *)
From Stdlib Require Import ZArith Lia.
From stdpp Require Import base list numbers option gmap strings relations.
From S2P Require Import Prelude Host Packet Api Tables Heap Snapshot SnapshotSpec Action Rcu State StatsSpec Rules Binding Worker WorkerSpec Publish BindingSpec GoSlice Control ControlSpec ControlRefine ControlNative Lifecycle Documents DocumentsSpec RuleFiles RuleFilesSpec Crew CrewSpec Calls CallsSpec CallsProps Command.

(** ** The table after a sequence of reloads *)
Definition rules_of (d : list FlowRule * list RouteRule) : rule_table := table d.1 d.2.

(** The rules of the last reload that succeeded, [t] if there is none. *)
Definition in_force (t : rule_table) (docs : list (list FlowRule * list RouteRule)) (results : list (option control_error)) : rule_table :=
  foldl (fun t '(d, err) => match err with None => rules_of d | Some _ => t end) t (zip docs results).

Lemma in_force_snoc t docs results d err : length docs = length results ->
  in_force t (docs ++ [d]) (results ++ [err]) = match err with None => rules_of d | Some _ => in_force t docs results end.
Proof.
  intros E. unfold in_force. rewrite (zip_with_app pair docs [d] results [err] E), foldl_app. by destruct err.
Qed.

Lemma in_force_prefix t docs docs' results : length docs = length results -> in_force t (docs ++ docs') results = in_force t docs results.
Proof.
  intros E. unfold in_force. rewrite <- (app_nil_r results) at 1. rewrite (zip_with_app pair docs docs' results [] E).
  by rewrite zip_with_nil_r, app_nil_r.
Qed.

(** A call for the rules [d]. *)
Definition asks_for (h : go_heap) (op : rule_op) (d : list FlowRule * list RouteRule) : Prop :=
  exists s, op = Replace s /\ stands_for h s d.1 d.2.

Lemma served_in_force h t0 l t : served h t0 l t -> forall docs, Forall2 (asks_for h) l.*1 docs -> t = in_force t0 docs l.*2.
Proof.
  induction 1 as [|l op t t' _ IH E|l op e t _ IH _]; intros docs; [by intros ->%Forall2_nil_inv_l|..];
    rewrite !fmap_app; cbn [fmap list_fmap fst snd]; intros (docs1 & docs2 & Hd & H2 & ->)%Forall2_app_inv_l;
    apply Forall2_cons_inv_l in H2 as (d & ? & (s & -> & (Ef & Er) & _) & ->%Forall2_nil_inv_l & ->);
    assert (length docs1 = length l.*2) as El by (by rewrite <- (Forall2_length _ _ _ Hd), !length_fmap);
    rewrite in_force_snoc by done; [|by apply IH].
  cbn [op_spec fst] in E. rewrite Ef, Er in E. cbn in E. by injection E as <-.
Qed.

Section Spec.
Context {NET : Net} {NO : NetOk NET} {J : Json} {JO : JsonOk J} {open_error : Type}.
Context {H : Host} {HO : HostOk H} {C : Checksums} {CO : ChecksumsOk C}.
Context {T : DpdkTables} {TO : DpdkTablesOk T} {Q : Qsbr} {QO : QsbrOk Q}.
Context (calloc : callocator) (allocate : gmap Z hobj -> allocator) (growth : nat -> nat -> nat).
Context (Hcalloc : callocator_ok calloc) (Halloc : forall h, allocator_ok (allocate h) h).
Context (stack_meta : dp_packet_meta) (injected : Z) (rulesFile : string).
Abbreviation runtime := (Control.runtime (world * c_heap)).
Abbreviation command := (command open_error).
Abbreviation call_step := (Calls.call_step calloc allocate growth).
Abbreviation office_runs := (Calls.office_runs calloc allocate growth stack_meta injected).
Abbreviation crew_step := (Crew.crew_step stack_meta injected).
Abbreviation listen := (Command.listen growth rulesFile).
Abbreviation command_step := (Command.command_step calloc allocate growth stack_meta injected rulesFile).
Abbreviation command_run := (Command.command_run calloc allocate growth stack_meta injected rulesFile).

(** ** The call of the goroutine *)
Context (opened : bool).

(** The only way for a reload to fail once the file is loaded. *)
Definition native_refusal (err : option control_error) : Prop :=
  match err with
  | None => True
  | Some e => (opened = false /\ e = NotAvailable) \/ exists n, e = PublishFailed n
  end.

Definition reloading (h : go_heap) (s : call) : Prop :=
  (exists d, asks_for h (call_op s) d) /\
  match s with
  | Locking _ c | Locked _ c => is_Some c
  | Unlocking _ err | Replied _ err => native_refusal err
  | _ => True
  end.

Lemma asks_for_later h h' op d : heap_ok h -> later h h' -> asks_for h op d -> asks_for h' op d.
Proof. intros Hh Hl (s & -> & Hs). exists s. split; [done|]. by eapply stands_for_later. Qed.

Lemma reloading_later h h' s : heap_ok h -> later h h' -> reloading h s -> reloading h' s.
Proof. intros Hh Hl [[d Hd] Hs]. split; [exists d; by eapply asks_for_later|done]. Qed.

(** Rules that are valid pass the first part of [ReplaceRules]. *)
Lemma replace_prepared (r : runtime) s d x r' : heap_ok (memory r) -> stands_for (memory r) s d.1 d.2 ->
  ControlRefine.prepare growth (Replace s) r = Some (x, r') -> (exists c, x = inr c) /\ later (memory r) (memory r').
Proof.
  intros Hh (Hs & _ & Hv). cbn [ControlRefine.prepare].
  destruct (cloneRules_run growth (memory r) r s d.1 d.2) as (c & h & Hrun & Hl & Hc & _); [by apply later_refl|done|].
  erewrite M_bind_step by exact Hrun. cbv beta. unfold checked. erewrite M_bind_step by by apply validateRules_run. cbv beta.
  rewrite Hv. intros [= <- <-]. split; [by exists c|done].
Qed.

(** What does not touch the Go memory. *)
Definition same_memory (r r' : runtime) : Prop := memory r' = memory r.

#[local] Instance same_memory_preorder : PreOrder same_memory.
Proof. split; [done|]. unfold same_memory. by intros ? ? ? -> ->. Qed.

Lemma same_memory_native {A} (m : M (world * c_heap) A) : framed same_memory (on_native m).
Proof. intros r a r' E. unfold on_native in E. destruct (m (native r)) as [[b n]|]; [|done]. cbn in E. by injection E as _ <-. Qed.

Lemma range_shows {A} (s : slice) (m : go_mem A) l m' : range_over s m = Some (l, m') -> elements_of s m = Some l /\ m' = m.
Proof. unfold range_over. destruct (elements_of s m); [|done]. by intros [= <- <-]. Qed.

Lemma same_memory_rules s : framed same_memory (toNativeRules (N := world * c_heap) s).
Proof.
  unfold toNativeRules. apply framed_bind; [apply _| |intros flows; apply framed_bind; [apply _| |intros routes; apply framed_ret; apply _]].
  - intros r l r' E. unfold on_flows in E. destruct (range_over _ _) as [[l' m]|] eqn:Em; [|done]. apply range_shows in Em as [_ ->].
    injection E as _ <-. unfold same_memory. cbn. by destruct (memory r).
  - intros r l r' E. unfold on_routes in E. destruct (range_over _ _) as [[l' m]|] eqn:Em; [|done]. apply range_shows in Em as [_ ->].
    injection E as _ <-. unfold same_memory. cbn. by destruct (memory r).
Qed.

(** Copying makes new arrays, whatever it copies. *)
Lemma cloneRules_later (r : runtime) s c r' : heap_ok (memory r) -> cloneRules growth s r = Some (c, r') -> later (memory r) (memory r').
Proof.
  intros Hh E. assert (exists flows routes, shows_in s (memory r) flows routes) as (flows & routes & Hs).
  { unfold cloneRules, append_slice, on_flows, on_routes in E.
    apply M_bind_Some in E as (sf & r1 & E1 & E). apply M_bind_Some in E as (sr & r2 & E2 & _).
    unfold mbind, M_bind, option_bind in E1, E2. destruct (range_over (Flows s) _) as [[flows m]|] eqn:Ef; [|done].
    destruct (append_values _ _ _ flows m) as [[? ?]|]; [|done]. injection E1 as _ <-. cbn [memory set_memory route_mem] in E2.
    destruct (range_over (Routes s) _) as [[routes m']|] eqn:Er; [|done].
    exists flows, routes. split; by eapply range_shows. }
  destruct (cloneRules_run growth (memory r) r s flows routes (later_refl _ Hh) Hs) as (c' & h & Hrun & Hl & _).
  rewrite Hrun in E. by injection E as _ <-.
Qed.

Lemma collect_reloads c arrays ret g (r : runtime) err r' : heap_ok (memory r) -> collect growth c arrays ret g r = Some (err, r') ->
  native_refusal err /\ later (memory r) (memory r').
Proof.
  intros Hh E. unfold collect in E. apply M_bind_Some in E as ([] & r1 & E1 & E). apply same_memory_native in E1.
  unfold same_memory in E1. rewrite <- E1 in Hh |- *. destruct (negb (ret =? 0)).
  - injection E as <- <-. split; [right; by eexists|by apply later_refl].
  - apply M_bind_Some in E as (copy & r2 & E2 & [= <- <-]). split; [done|]. by apply (cloneRules_later _ _ _ _ Hh E2).
Qed.

Lemma reloading_step s r s' r' : heap_ok (memory r) -> rulesOpen r = opened ->
  call_step s r = Some (s', r') -> reloading (memory r) s -> later (memory r) (memory r') /\ reloading (memory r') s'.
Proof.
  intros Hh Ho E [[d Hd] Hs]. pose proof (call_step_op _ _ _ _ _ _ _ E) as Eop.
  cut (later (memory r) (memory r') /\ match s' with
    | Locking _ c | Locked _ c => is_Some c | Unlocking _ err | Replied _ err => native_refusal err | _ => True end).
  { intros [Hl Hs']. split; [done|]. split; [exists d; rewrite Eop; by eapply asks_for_later|done]. }
  assert (forall r1, same_memory r r1 -> later (memory r) (memory r1)) as Hsame by (intros r1 ->; by apply later_refl).
  destruct s as [op|op c|op [c|]|op c|op c nr arrays|op c arrays p|op c arrays p token|op c arrays ret g|op err|op err];
    cbn [Calls.call_step call_op] in *; try done.
  - destruct Hd as (snap & -> & Hst). apply M_bind_Some in E as (x & ? & Hp & [= <- <-]).
    destruct (replace_prepared _ _ _ _ _ Hh Hst Hp) as [[c ->] Hl]. split; [exact Hl|by eexists].
  - injection E as <- <-. split; [by apply Hsame|done].
  - injection E as <- <-. split; [by apply Hsame|done].
  - apply M_bind_Some in E as (r0 & ? & [= <- <-] & E). rewrite Ho in E. destruct opened eqn:Eo; cbn [negb] in E.
    + apply M_bind_Some in E as (n & r1 & E1 & E). apply M_bind_Some in E as (x & r2 & E2 & [= <- <-]).
      apply same_memory_rules in E1. apply same_memory_native in E2. split; [apply Hsame; by etrans|].
      destruct x; [right; by eexists|done].
    + injection E as <- <-. split; [by apply Hsame|by left].
  - apply M_bind_Some in E as (x & r1 & E1 & [= <- <-]). split; [|by destruct x]. apply Hsame. unfold send in E1.
    apply M_bind_Some in E1 as (r0 & ? & [= <- <-] & E1). apply M_bind_Some in E1 as (fl & ? & E2 & E1).
    apply M_bind_Some in E1 as (ro & ? & E3 & E1). apply (framed_lift same_memory) in E2, E3. apply same_memory_native in E1.
    by etrans; [|etrans].
  - apply M_bind_Some in E as (? & ? & E1 & [= <- <-]). split; [|done]. apply Hsame. by eapply same_memory_native.
  - apply M_bind_Some in E as ([? ?] & ? & E1 & [= <- <-]). split; [|done]. apply Hsame. by eapply same_memory_native.
  - apply M_bind_Some in E as (err & ? & E & [= <- <-]). destruct (collect_reloads _ _ _ _ _ _ _ Hh E). done.
  - injection E as <- <-. split; [by apply Hsame|done].
Qed.

(** ** The invariant *)
Context (hc : c_heap) (n : nat) (rest : gmap Z hobj) (B : gmap Z rte_mbuf) (t0 : rule_table) (g0 : Z).
Abbreviation office_ok := (CallsSpec.office_ok opened hc n rest B t0 g0).

(** The call that has not settled yet. *)
Definition unsettled (c : command) : list rule_op :=
  match listening c with
  | Replacing g => match calls (site c) !! g with
                   | Some s => match settles s with [] => [call_op s] | _ => [] end
                   | None => [] end
  | _ => []
  end.

(** All calls so far, settled or not. *)
Definition requests (c : command) : list rule_op := (history (site c)).*1 ++ unsettled c.

(** The call asks for the rules in [input]. *)
Definition on_behalf (h : go_heap) (op : rule_op) (input : reader) : Prop :=
  exists d, asks_for h op d /\ written input d.1 d.2.

Definition good_notice (x : notice open_error) : Prop :=
  match x with NotReplaced e => native_refusal (Some e) | _ => True end.

Record command_ok (c : command) : Prop := {
  cm_site : office_ok (site c);
  cm_calls g s : calls (site c) !! g = Some s -> listening c = Replacing g \/ exists op err, s = Replied op err;
  cm_here g : listening c = Replacing g -> is_Some (calls (site c) !! g);
  cm_reloading g s : calls (site c) !! g = Some s -> reloading (memory (rt (site c))) s;
  cm_taken : Forall2 (on_behalf (memory (rt (site c)))) (requests c) (taken c);
  cm_told : (history (site c)).*2 = results (notices c) ++ owed c;
  cm_generations : generations (notices c) = (fun k => u64 (g0 + Z.of_nat k)) <$> seq 1 (length (generations (notices c)));
  cm_notices : Forall good_notice (notices c);
}.

Lemma on_behalf_later h h' ops inputs : heap_ok h -> later h h' -> Forall2 (on_behalf h) ops inputs -> Forall2 (on_behalf h') ops inputs.
Proof.
  intros Hh Hl HF. eapply Forall2_impl; [exact HF|]. intros op input (d & Hd & Hw). exists d. split; [by eapply asks_for_later|done].
Qed.

Lemma office_heap_ok o : office_ok o -> heap_ok (memory (rt o)).
Proof. intros Hok. destruct (of_books _ _ _ _ _ _ _ _ Hok) as (flows & routes & Hb). exact (co_heap _ _ _ _ (bk_kept _ _ _ _ _ _ _ Hb)). Qed.

(** New slices do not disturb anybody. *)
Lemma office_memory_ok o h : office_ok o -> later (memory (rt o)) h ->
  office_ok (with_memory h o) /\ crew_of (with_memory h o) = crew_of o.
Proof.
  intros Hok Hl. pose proof (office_heap_ok o Hok) as Hh. split; [|done].
  destruct Hok as [Hc (flows & routes & [Hk Hs Hop Hg Hd]) Ho He Hlk Hhd]. split; try done.
  - exists flows, routes. split; cbn [with_memory rt memory set_memory history rt_generation native].
    + by apply coherent_later.
    + by eapply served_later.
    + eapply Forall_impl; [exact Hop|]. intros [op e]. by apply op_ok_later.
    + done.
    + eapply desk_later; [exact Hh|exact Hl| |exact Hd]. intros s Hs'. change (at_lock o = Some s) in Hs'. unfold at_lock in Hs'.
      destruct (holder o) as [g'|]; [|done]. by destruct (He g' s Hs').
  - intros g s Hg'. rewrite <- (app_nil_r (history _)). eapply errand_later; [exact Hh|exact Hl|by eapply He].
Qed.

(** *** The office goes on *)
Lemma settles_shape s : settles s = [] \/ exists err, settles s = [(call_op s, err)].
Proof. destruct s; cbn; eauto. Qed.

(** One call has gone on. *)
Record call_went (o o' : office) (g : nat) (s s' : call) : Prop := {
  wt_call : calls o !! g = Some s;
  wt_waits op err : s <> Replied op err;
  wt_calls : calls o' = <[g := s']> (calls o);
  wt_op : call_op s' = call_op s;
  wt_reloading : reloading (memory (rt o')) s';
  wt_history : (settles s = [] /\ history o' = history o ++ settles s') \/ (settles s' = settles s /\ history o' = history o);
}.

Lemma runs_change o o' : office_runs o o' -> office_ok o -> (forall g s, calls o !! g = Some s -> reloading (memory (rt o)) s) ->
  later (memory (rt o)) (memory (rt o')) /\
  ((calls o' = calls o /\ history o' = history o) \/ exists g s s', call_went o o' g s s').
Proof.
  intros Hr Hok Hre. pose proof (office_heap_ok o Hok) as Hh. pose proof (later_refl _ Hh) as Hl.
  destruct Hr as [i p s s' w' o Hi Hp Hrun|g op c o Hg Hno|g s s' r' o Hg Hm Hrun|g op err o Hg].
  - split; [exact Hl|by left].
  - split; [exact Hl|]. right. exists g, (Locking op c), (Locked op c). split; try done; [|by left; rewrite app_nil_r].
    destruct (Hre _ _ Hg) as [? ?]. by split.
  - destruct (reloading_step s (rt o) s' r' Hh (of_open _ _ _ _ _ _ _ _ Hok) Hrun (Hre _ _ Hg)) as [Hl' Hs']. split; [exact Hl'|].
    right. exists g, s, s'. split; try done; [by intros op err ->|by eapply call_step_op|]. left. split; [|done]. by destruct s.
  - split; [exact Hl|]. right. exists g, (Unlocking op err), (Replied op err). split; try done; [|by right].
    destruct (Hre _ _ Hg) as [? ?]. by split.
Qed.

Lemma command_runs_ok c o' : command_ok c -> office_runs (site c) o' -> command_ok (with_site o' c).
Proof.
  intros Hok Hr. pose proof (cm_site _ Hok) as Hsite. pose proof (office_heap_ok _ Hsite) as Hh.
  destruct (office_runs_ok calloc allocate growth Hcalloc Halloc stack_meta injected _ _ _ _ _ _ _ _ _ (rtc_once _ _ Hr) Hsite) as [Hsite' _].
  destruct (runs_change _ _ Hr Hsite (cm_reloading _ Hok)) as [Hl [[Ek Eh]|(g & s & s' & [Hg Hw Ek Eop Hre Hhist])]]; destruct Hok as [_ Hc Hhere Hres Htk Htold Hgen Hn].
  - split; cbn [with_site site listening notices taken]; rewrite ?Ek; [done|done|done| | | |done|done].
    + intros g s Hg. eapply reloading_later; [done|done|by eapply Hres].
    + unfold requests, unsettled in *. cbn [with_site site listening]. rewrite Ek, Eh. by eapply on_behalf_later.
    + unfold owed in *. cbn [with_site site listening]. by rewrite Ek, Eh.
  - destruct (Hc _ _ Hg) as [Elis|(op & err & ->)]; [|by destruct (Hw op err)].
    split; cbn [with_site site listening notices taken]; rewrite ?Ek; [done|..|done|done].
    + intros g1 s1. rewrite lookup_insert_Some. intros [[<- <-]|[_ H1]]; [by left|by eapply Hc].
    + intros g1 E1. rewrite lookup_insert_is_Some'. right. by apply Hhere.
    + intros g1 s1. rewrite lookup_insert_Some. intros [[<- <-]|[_ H1]]; [done|]. eapply reloading_later; [done|done|by eapply Hres].
    + assert (requests (with_site o' c) = requests c) as ->; [|by eapply on_behalf_later].
      unfold requests, unsettled. cbn [with_site site listening]. rewrite Elis, Ek, lookup_insert_eq, Hg.
      destruct Hhist as [[-> ->]|[-> ->]]; [|by rewrite Eop]. rewrite fmap_app.
      destruct (settles_shape s') as [->|[err ->]]; cbn; [by rewrite app_nil_r, Eop|by rewrite app_nil_r, Eop].
    + unfold owed in *. cbn [with_site site listening]. rewrite Elis, Hg in Htold. rewrite Elis, Ek, lookup_insert_eq.
      destruct Hhist as [[E1 ->]|[-> ->]]; [|done]. rewrite fmap_app, Htold, E1. cbn. by rewrite app_nil_r.
Qed.

(** *** The goroutine goes on *)

(** Neither calling nor about to print a result. *)
Definition idle (l : listener) : Prop := match l with Replacing _ | Asking => False | _ => True end.

Lemma idle_requests c : idle (listening c) -> requests c = (history (site c)).*1.
Proof. unfold requests, unsettled. destruct (listening c); try done; by rewrite app_nil_r. Qed.

Lemma idle_owed (c : command) : idle (listening c) -> owed c = [].
Proof. unfold owed. by destruct (listening c). Qed.

Lemma results_app (l l' : list (notice open_error)) : results (l ++ l') = results l ++ results l'.
Proof. apply omap_app. Qed.
Lemma generations_app (l l' : list (notice open_error)) : generations (l ++ l') = generations l ++ generations l'.
Proof. apply omap_app. Qed.

(** Between reloads: the office has been given memory or a stop, something other
    than a result has been printed. *)
Lemma idle_ok c c' l : command_ok c -> idle (listening c) -> idle (listening c') -> office_ok (site c') ->
  calls (site c') = calls (site c) -> history (site c') = history (site c) -> later (memory (rt (site c))) (memory (rt (site c'))) ->
  notices c' = notices c ++ l -> results l = [] -> generations l = [] -> Forall good_notice l -> taken c' = taken c -> command_ok c'.
Proof.
  intros [Hsite Hc _ Hres Htk Htold Hgen Hn] Hi Hi' Hsite' Ek Eh Hl En Er Eg Hgood Et. pose proof (office_heap_ok _ Hsite) as Hh.
  rewrite idle_requests in Htk by done. rewrite idle_owed in Htold by done.
  split; rewrite ?Ek, ?Eh, ?En, ?Et, ?generations_app, ?results_app, ?Er, ?Eg, ?app_nil_r.
  - done.
  - intros g s Hg. destruct (Hc g s Hg) as [E|?]; [|by right]. by rewrite E in Hi.
  - intros g E. by rewrite E in Hi'.
  - intros g s Hg. eapply reloading_later; [done|done|by eapply Hres].
  - rewrite idle_requests, Eh by done. by eapply on_behalf_later.
  - by rewrite idle_owed, app_nil_r in * by done.
  - done.
  - by apply Forall_app.
Qed.

(** The result of the call is printed. *)
Lemma refused_ok c g op e : command_ok c -> listening c = Replacing g -> calls (site c) !! g = Some (Replied op (Some e)) ->
  command_ok (turn_to Selecting (tell (NotReplaced e) c)).
Proof.
  intros [Hsite Hc _ Hres Htk Htold Hgen Hn] El Hg. unfold requests, unsettled in Htk. unfold owed in Htold. rewrite El, Hg in Htk, Htold.
  split; cbn [turn_to tell site listening notices taken]; rewrite ?generations_app, ?results_app, ?app_nil_r; try done.
  - intros g' s' Hg'. destruct (Hc g' s' Hg') as [E|?]; [|by right]. rewrite El in E. injection E as <-. rewrite Hg in Hg'.
    injection Hg' as <-. right. by eexists _, _.
  - apply Forall_app. split; [done|]. apply Forall_singleton. by destruct (Hres _ _ Hg).
Qed.

Lemma replaced_ok c g op : command_ok c -> listening c = Replacing g -> calls (site c) !! g = Some (Replied op None) ->
  command_ok (turn_to Asking c).
Proof.
  intros [Hsite Hc _ Hres Htk Htold Hgen Hn] El Hg. unfold requests, unsettled in Htk. unfold owed in Htold. rewrite El, Hg in Htk, Htold.
  split; cbn [turn_to site listening notices taken]; try done.
  intros g' s' Hg'. destruct (Hc g' s' Hg') as [E|?]; [|by right]. rewrite El in E. injection E as <-. rewrite Hg in Hg'.
  injection Hg' as <-. right. by eexists _, _.
Qed.

(** The generation that is printed is the one of the reload. *)
Lemma successes_results (l : list (notice open_error)) : successes (results l) = Z.of_nat (length (generations l)).
Proof.
  induction l as [|x l IH]; [done|]. unfold successes, results, generations in *. destruct x; cbn [omap list_omap result_of generation_of];
    rewrite ?filter_cons_True, ?filter_cons_False by done; try exact IH. cbn [length]. by rewrite !Nat2Z.inj_succ, IH.
Qed.

Lemma successes_snoc l : successes (l ++ [None]) = successes l + 1.
Proof. unfold successes. rewrite filter_app, length_app, filter_cons_True by done. cbn [length filter]. by rewrite Nat2Z.inj_add. Qed.

Lemma asked_ok c : command_ok c -> listening c = Asking ->
  command_ok (turn_to Selecting (tell (Reloaded (rt_generation (rt (site c)))) c)).
Proof.
  intros [Hsite Hc _ Hres Htk Htold Hgen Hn] El. unfold requests, unsettled in Htk. unfold owed in Htold. rewrite El in Htk, Htold.
  split; cbn [turn_to tell site listening notices taken]; rewrite ?results_app, ?app_nil_r; try done.
  - intros g' s' Hg'. destruct (Hc g' s' Hg') as [E|?]; [|by right]. by rewrite El in E.
  - rewrite generations_app. cbn [generations omap list_omap generation_of]. rewrite length_app, Nat.add_1_r, seq_S, fmap_app.
    rewrite <- Hgen. f_equal. cbn. f_equal. destruct (of_books _ _ _ _ _ _ _ _ Hsite) as (flows & routes & Hb).
    rewrite (bk_generation _ _ _ _ _ _ _ Hb), Htold, successes_snoc, successes_results. do 2 f_equal. cbn [omap list_omap]. lia.
  - apply Forall_app. split; [done|by apply Forall_singleton].
Qed.

(** A new call. *)
Lemma entered_ok c s input d : command_ok c -> idle (listening c) -> stands_for (memory (rt (site c))) s d.1 d.2 ->
  written input d.1 d.2 ->
  let g := fresh (dom (calls (site c))) in
  command_ok (take_up (Some input) (turn_to (Replacing g) (with_site (enter g (Replace s) (site c)) c))).
Proof.
  intros [Hsite Hc _ Hres Htk Htold Hgen Hn] Hi Hst Hw g.
  assert (calls (site c) !! g = None) as Hno by (apply not_elem_of_dom, is_fresh).
  destruct (office_enters_ok opened hc n rest B t0 g0 (site c) g (Replace s) Hsite Hno) as [Hsite' _].
  { exists d.1, d.2. split; apply Hst. }
  assert (asks_for (memory (rt (site c))) (Replace s) d) as Hask by by exists s.
  rewrite idle_requests in Htk by done. rewrite idle_owed in Htold by done.
  split; cbn [take_up turn_to with_site enter site listening notices taken calls history rt]; try done.
  - intros g1 s1. rewrite lookup_insert_Some. intros [[<- <-]|[_ H1]]; [by left|]. destruct (Hc g1 s1 H1) as [E|?]; [|by right].
    by rewrite E in Hi.
  - intros g1 [= <-]. rewrite lookup_insert_eq. by eexists.
  - intros g1 s1. rewrite lookup_insert_Some. intros [[<- <-]|[_ H1]]; [|by eapply Hres]. split; [by exists d|done].
  - unfold requests, unsettled. cbn [take_up turn_to with_site enter site listening calls history]. rewrite lookup_insert_eq. cbn [settles call_op].
    apply Forall2_app; [done|]. apply Forall2_cons. split; [by exists d|constructor].
  - unfold owed. cbn [take_up turn_to with_site enter site listening calls]. rewrite lookup_insert_eq. exact Htold.
Qed.
Abbreviation crew_run c c' := (rtc crew_step (crew_of (site c)) (crew_of (site c'))).

(** Nothing of the office that matters has changed. *)
Ltac unchanged := first [done | by apply Forall_singleton | by apply Forall_nil_2 | by rewrite app_nil_r
  | apply later_refl, office_heap_ok; done | match goal with Hok : command_ok ?c |- _ => exact (cm_site _ Hok) || exact (later_refl _ (office_heap_ok _ (cm_site _ Hok))) end
  | match goal with El : listening _ = _ |- idle _ => by rewrite El end ].

(** SIGHUP: the file is loaded, and the goroutine is back or calls the manager. *)
Lemma reload_run c : command_ok c -> idle (listening c) ->
  exists c', reload growth rulesFile c = Some c' /\ command_ok c' /\ crew_of (site c') = crew_of (site c) /\ channel c' = channel c /\
    disk c' = disk c /\ (listening c' = Selecting \/ exists g, listening c' = Replacing g) /\
    exists l, notices c' = notices c ++ l /\ Stopping ∉ l.
Proof.
  intros Hok Hi. unfold reload. destruct (String.eqb rulesFile "").
  { eexists. split; [done|]. split; [|split_and!; [done..|by left|by exists [RulesFileRequired]; split; [|set_solver]]].
    pose proof (cm_site _ Hok) as Hsite. apply (idle_ok c _ [RulesFileRequired]); unchanged. }
  pose proof (cm_site _ Hok) as Hsite. pose proof (office_heap_ok _ Hsite) as Hh.
  destruct (LoadRulesFile_run (open_error := open_error) growth rulesFile _ (disk c) Hh) as (res & h & -> & Hres). cbn [mbind option_bind].
  assert (later (memory (rt (site c))) h) as Hl.
  { destruct (on_disk (disk c) rulesFile); [by destruct Hres as [_ ->]; apply later_refl|apply Hres]. }
  destruct (office_memory_ok (site c) h Hsite Hl) as [Hsite' Ec].
  set (c1 := with_disk (disk c) (with_site (with_memory h (site c)) c)).
  assert (command_ok c1) as Hok1.
  { apply (idle_ok c c1 []); unchanged. }
  eexists. split; [done|]. destruct res as [e|snapshot].
  - split; [|split_and!; [exact Ec|done|done|by left|by exists [NotLoaded e]; split; [|set_solver]]].
    apply (idle_ok c1 _ [NotLoaded e]); unchanged.
  - unfold file_contents. destruct (on_disk (disk c) rulesFile) as [e|input]; [by destruct Hres|].
    destruct Hres as [[_ (flows & routes & Hw & [Hs _ Hf Hv])] _].
    split; [exact (entered_ok c1 snapshot input (flows, routes) Hok1 Hi (conj Hs (conj Hf Hv)) Hw)|].
    split; [|split_and!; [done|done|right; by eexists|by exists []; rewrite app_nil_r; split; [|set_solver]]].
    exact (proj2 (office_enters_ok opened hc n rest B t0 g0 (with_memory h (site c)) (fresh (dom (calls (site c)))) (Replace snapshot) Hsite'
      (proj1 (not_elem_of_dom _ _) (is_fresh _)) (ex_intro _ flows (ex_intro _ routes (conj Hs Hf))))).
Qed.

Lemma stop_ok c : command_ok c -> idle (listening c) ->
  command_ok (turn_to Left (tell Stopping (with_site (request_stop (site c)) c))) /\
  crew_step (crew_of (site c)) (crew_of (request_stop (site c))).
Proof.
  intros Hok Hi. pose proof (cm_site _ Hok) as Hsite. split; [|apply crew_stops].
  destruct (office_step_ok calloc allocate growth Hcalloc Halloc stack_meta injected _ _ _ _ _ _ _ _ _
    (office_stops calloc allocate growth stack_meta injected (site c)) Hsite) as [Hsite' _].
  apply (idle_ok c _ [Stopping]); unchanged.
Qed.

Lemma listen_ok c c' : command_ok c -> listen c = Some c' -> command_ok c' /\ crew_run c c'.
Proof.
  intros Hok. unfold Command.listen. destruct (listening c) as [|s|g| |] eqn:El.
  - destruct (channel c) as [s|]; [|done]. intros [= <-]. split; [|apply rtc_refl].
    apply (idle_ok c _ []); unchanged.
  - case_decide as Hs.
    + intros E. destruct (reload_run c Hok) as (c1 & E1 & Hok1 & Ec & _); [by rewrite El|]. rewrite E in E1. injection E1 as <-.
      split; [done|]. rewrite Ec. apply rtc_refl.
    + intros [= <-]. destruct (stop_ok c Hok) as [? ?]; [by rewrite El|]. split; [done|by apply rtc_once].
  - destruct (calls (site c) !! g) as [s|] eqn:Hg; [|done]. destruct s as [| | | | | | | | |op [e|]]; try done; intros [= <-].
    + split; [by eapply refused_ok|apply rtc_refl].
    + split; [by eapply replaced_ok|apply rtc_refl].
  - destruct (holder (site c)); [done|]. intros [= <-]. split; [by apply asked_ok|apply rtc_refl].
  - done.
Qed.

Lemma command_step_ok l c c' : command_step l c c' -> command_ok c -> command_ok c' /\ crew_run c c'.
Proof.
  destruct 1 as [c o' Hr|c contents|s c|c c' Hl|c El Ho]; intros Hok.
  - split; [by apply command_runs_ok|].
    exact (proj2 (office_runs_ok calloc allocate growth Hcalloc Halloc stack_meta injected _ _ _ _ _ _ _ _ _ (rtc_once _ _ Hr) (cm_site _ Hok))).
  - split; [|apply rtc_refl]. by destruct Hok.
  - split; [|apply rtc_refl]. by destruct Hok.
  - by apply listen_ok.
  - split; [|apply rtc_refl]. apply (idle_ok c _ []); unchanged.
Qed.

Lemma command_run_ok ls c c' : command_run ls c c' -> command_ok c -> command_ok c' /\ crew_run c c'.
Proof.
  induction 1 as [c|l ls c c1 c' Hs _ IH]; intros Hok; [by split|]. destruct (command_step_ok _ _ _ Hs Hok) as [Hok1 Hc1].
  destruct (IH Hok1) as [? ?]. split; [done|]. by etrans.
Qed.

(** The goroutine has just been started in an office without calls. *)
Lemma listening_ok o d waiting : office_ok o -> calls o = ∅ -> history o = [] -> command_ok (listening_at o d waiting).
Proof.
  intros Hok Ek Eh. split; cbn [listening_at site listening notices taken]; rewrite ?Ek, ?Eh; try done.
  unfold requests, unsettled. cbn [listening_at site listening]. rewrite Eh. constructor.
Qed.
End Spec.
