(* ===== verification/CommandProps.v ===== *)
(** * What a user of the command can rely on

    Reloads take effect in the order in which they succeed, a stop request that finds
    room in the channel ends the process, and one that does not is lost. *)
From Stdlib Require Import ZArith Lia.
From stdpp Require Import base list numbers option gmap strings relations.
From S2P Require Import Prelude Host Packet Api Tables Heap Snapshot SnapshotSpec LookupSpec Action Rcu State StatsSpec Rules Binding Worker WorkerSpec Publish BindingSpec GoSlice Control ControlSpec ControlRefine ControlNative Lifecycle Documents DocumentsSpec RuleFiles RuleFilesSpec Crew CrewSpec Calls CallsSpec CallsProps Command CommandSpec.

Section Runs.
Context {NET : Net} {J : Json} {open_error : Type}.
Context {H : Host} {C : Checksums} {T : DpdkTables} {Q : Qsbr}.
Context (calloc : callocator) (allocate : gmap Z hobj -> allocator) (growth : nat -> nat -> nat).
Context (stack_meta : dp_packet_meta) (injected : Z) (rulesFile : string).
Abbreviation command := (command open_error).
Abbreviation office_runs := (Calls.office_runs calloc allocate growth stack_meta injected).
Abbreviation command_step := (Command.command_step (open_error := open_error) calloc allocate growth stack_meta injected rulesFile).
Abbreviation command_run := (Command.command_run (open_error := open_error) calloc allocate growth stack_meta injected rulesFile).
Abbreviation listen := (Command.listen (open_error := open_error) growth rulesFile).

Lemma command_run_once l c c' : command_step l c c' -> command_run (option_list l) c c'.
Proof. intros Hs. rewrite <- (app_nil_r (option_list l)). eapply run_step; [exact Hs|constructor]. Qed.

Lemma command_run_app ls ls' c c1 c' : command_run ls c c1 -> command_run ls' c1 c' -> command_run (ls ++ ls') c c'.
Proof. induction 1 as [c|l ls c c1 c2 Hs _ IH]; intros Hr; [done|]. rewrite <- app_assoc. by eapply run_step; [|apply IH]. Qed.

Lemma command_run_silent c c1 c' : command_run [] c c1 -> command_run [] c1 c' -> command_run [] c c'.
Proof. apply (command_run_app [] []). Qed.

Lemma listens_run c c' : listen c = Some c' -> command_run [] c c'.
Proof. intros E. apply (command_run_once None). by apply command_listens. Qed.

Lemma office_command_run o' c : rtc office_runs (site c) o' -> command_run [] c (with_site o' c).
Proof.
  intros Hr. remember (site c) as o eqn:Eo. revert c Eo. induction Hr as [o|o o1 o' Hs _ IH]; intros c ->; [destruct c; constructor|].
  eapply command_run_silent; [apply (command_run_once None); by apply command_runs|]. exact (IH (with_site o1 c) eq_refl).
Qed.

(** ** Who stops the dataplane *)

(** No stop request is on its way. *)
Definition quiet (c : command) : Prop :=
  (forall s, channel c = Some s -> s = SIGHUP) /\ (forall s, listening c = Received s -> s = SIGHUP).

Lemma quiet_step l c c' : command_step l c c' -> (forall s, l = Some s -> s = SIGHUP) -> quiet c ->
  quiet c' /\ exists x, notices c' = notices c ++ x /\ Stopping ∉ x.
Proof.
  assert (forall c0 : command, exists x, notices c0 = notices c0 ++ x /\ Stopping ∉ x) as Hsame by (intros c0; exists []; rewrite app_nil_r; split; [done|set_solver]).
  assert (forall (c0 : command) y, y <> Stopping -> exists x, notices c0 ++ [y] = notices c0 ++ x /\ Stopping ∉ x) as Htell by (intros c0 y Hy; exists [y]; split; [done|set_solver]).
  destruct 1 as [c o' Hr|c contents|s c|c c' Hl|c El Ho]; intros Hls [Hch Hli]; try (split; [by split|exact (Hsame c)]).
  - split; [|exact (Hsame c)]. split; [|done]. intros s'. cbn. unfold deliver. destruct (channel c) eqn:E; [|intros [= <-]; by apply Hls].
    intros [= <-]. by apply Hch.
  - unfold Command.listen in Hl. destruct (listening c) as [|s|g| |] eqn:El; [..|done].
    + destruct (channel c) as [s|] eqn:Ec; [|done]. injection Hl as <-. split; [|exact (Hsame c)].
      split; [done|]. intros s' [= <-]. by apply Hch.
    + rewrite decide_True in Hl by by apply Hli. unfold reload in Hl. destruct (String.eqb rulesFile ""); [|destruct (LoadRulesFile _ _ _) as [[[e|rs] [h d]]|]; [..|done]];
        injection Hl as <-; (split; [by split|]); cbn [turn_to tell take_up with_site with_disk notices]; first [by apply Htell|exact (Hsame c)].
    + destruct (calls (site c) !! g) as [[]|]; try done. destruct err; injection Hl as <-; (split; [by split|]); cbn [turn_to tell notices];
        first [by apply Htell|exact (Hsame c)].
    + destruct (holder (site c)); [done|]. injection Hl as <-. split; [by split|]. by apply Htell.
Qed.

Lemma quiet_run ls c c' : command_run ls c c' -> Forall (eq SIGHUP) ls -> quiet c ->
  exists x, notices c' = notices c ++ x /\ Stopping ∉ x.
Proof.
  induction 1 as [c|l ls c c1 c' Hs _ IH]; intros Hls Hq; [exists []; rewrite app_nil_r; split; [done|set_solver]|].
  apply Forall_app in Hls as [Hl Hls]. destruct (quiet_step _ _ _ Hs) as [Hq1 (x & E1 & Hx)]; [|done|].
  { intros s ->. cbn in Hl. by apply Forall_cons_1 in Hl as [<- _]. }
  destruct (IH Hls Hq1) as (y & E & Hy). exists (x ++ y). rewrite E, E1, app_assoc. split; [done|]. by intros [?|?]%elem_of_app.
Qed.

(** ** Where the rules come from *)
Lemma taken_from_file ls c c' : command_run ls c c' -> forall input, input ∈ taken c' -> input ∈ taken c \/
  exists ls1 ls2 c1, command_run ls1 c c1 /\ command_run ls2 c1 c' /\ on_disk (disk c1) rulesFile = inr input.
Proof.
  induction 1 as [c|l ls c c1 c' Hs Hr IH]; intros input Hin; [by left|].
  assert (command_run (option_list l ++ ls) c c') as Hrun by by eapply run_step.
  destruct (IH input Hin) as [H1|(ls1 & ls2 & c2 & Hr1 & Hr2 & E)];
    [|right; exists (option_list l ++ ls1), ls2, c2; split; [by eapply run_step|done]].
  assert (taken c1 = taken c \/ taken c1 = taken c ++ option_list (file_contents rulesFile (disk c))) as [E|E].
  { destruct Hs as [c o' Ho|c contents|s c|c c1 Hl|c El Ho]; try by left. unfold Command.listen in Hl.
    destruct (listening c) as [|s|g| |]; [..|done].
    - destruct (channel c); [|done]. injection Hl as <-. by left.
    - case_decide; [|injection Hl as <-; by left]. unfold reload in Hl.
      destruct (String.eqb rulesFile ""); [|destruct (LoadRulesFile _ _ _) as [[[e|rs] [h d]]|]; [..|done]]; injection Hl as <-; auto.
    - destruct (calls (site c) !! g) as [[]|]; try done. destruct err; injection Hl as <-; by left.
    - destruct (holder (site c)); [done|]. injection Hl as <-. by left. }
  - left. by rewrite <- E.
  - rewrite E in H1. apply elem_of_app in H1 as [H1|H1]; [by left|]. right. exists [], (option_list l ++ ls), c.
    split; [constructor|]. split; [done|]. unfold file_contents in H1. destruct (on_disk (disk c) rulesFile) as [e|i].
    + cbn in H1. by apply elem_of_nil in H1.
    + cbn in H1. apply list_elem_of_singleton in H1 as ->. done.
Qed.
End Runs.

Section Claims.
Context {NET : Net} {NO : NetOk NET} {J : Json} {JO : JsonOk J} {open_error : Type}.
Context {H : Host} {HO : HostOk H} {C : Checksums} {CO : ChecksumsOk C}.
Context {T : DpdkTables} {TO : DpdkTablesOk T} {Q : Qsbr} {QO : QsbrOk Q}.
Context (calloc : callocator) (allocate : gmap Z hobj -> allocator) (growth : nat -> nat -> nat).
Context (Hcalloc : callocator_ok calloc) (Halloc : forall h, allocator_ok (allocate h) h).
Context (stack_meta : dp_packet_meta) (injected : Z) (rulesFile : string).
Context (hc : c_heap) (n : nat) (rest : gmap Z hobj) (B : gmap Z rte_mbuf) (t0 : rule_table) (g0 : Z).
Abbreviation command := (command open_error).
Abbreviation command_step := (Command.command_step (open_error := open_error) calloc allocate growth stack_meta injected rulesFile).
Abbreviation command_run := (Command.command_run (open_error := open_error) calloc allocate growth stack_meta injected rulesFile).
Abbreviation office_ok := (CallsSpec.office_ok true hc n rest B t0 g0).
Abbreviation command_ok := (CommandSpec.command_ok (open_error := open_error) true hc n rest B t0 g0).
Abbreviation command_run_ok := (CommandSpec.command_run_ok (open_error := open_error) calloc allocate growth Hcalloc Halloc stack_meta injected rulesFile true hc n rest B t0 g0).

(** ** The goroutine comes back to its select *)
Lemma listener_returns (c : command) : command_ok c -> listening c <> Left ->
  exists c', command_run [] c c' /\ channel c' = channel c /\
    (listening c' = Selecting \/ exists s, listening c = Received s /\ s <> SIGHUP /\ listening c' = Left /\
      stop (dp (native (rt (site c'))).1) = true /\ Stopping ∈ notices c').
Proof.
  assert (forall c : command, command_ok c -> listening c = Asking -> exists c', command_run [] c c' /\ channel c' = channel c /\ listening c' = Selecting) as Hask.
  { intros c0 Hok El. destruct (lock_frees calloc allocate growth Hcalloc Halloc stack_meta injected _ _ _ _ _ _ _ _ (cm_site _ _ _ _ _ _ _ _ Hok))
      as (o' & Hr & Hno & _).
    eexists. split; [eapply command_run_silent; [by apply office_command_run|apply listens_run]|].
    { unfold listen. cbn [with_site listening site]. rewrite El, Hno. done. } done. }
  assert (forall (c : command) g, command_ok c -> listening c = Replacing g -> exists c', command_run [] c c' /\ channel c' = channel c /\ listening c' = Selecting) as Hrep.
  { intros c0 g Hok El. destruct (cm_here _ _ _ _ _ _ _ _ Hok g El) as [s Hg].
    destruct (call_replies calloc allocate growth Hcalloc Halloc stack_meta injected _ _ _ _ _ _ _ _ _ _ (cm_site _ _ _ _ _ _ _ _ Hok) Hg)
      as (o' & err & Hr & Hg'). pose proof (office_command_run calloc allocate growth stack_meta injected rulesFile _ c0 Hr) as Hr1.
    destruct (command_run_ok _ _ _ Hr1 Hok) as [Hok1 _]. destruct err as [e|].
    - eexists. split; [eapply command_run_silent; [exact Hr1|apply listens_run]|].
      { unfold listen. cbn [with_site listening site]. rewrite El, Hg'. done. } done.
    - assert (command_run [] c0 (turn_to Asking (with_site o' c0))) as Hr2.
      { eapply command_run_silent; [exact Hr1|apply listens_run]. unfold listen. cbn [with_site listening site]. by rewrite El, Hg'. }
      destruct (command_run_ok _ _ _ Hr2 Hok) as [Hok2 _]. destruct (Hask _ Hok2 eq_refl) as (c' & Hr3 & Ec & El').
      exists c'. split; [by eapply command_run_silent|done]. }
  intros Hok Hne. destruct (listening c) as [|s|g| |] eqn:El; [..|done].
  - exists c. split; [constructor|]. split; [done|by left].
  - destruct (decide (s = SIGHUP)) as [->|Hs].
    + destruct (reload_run calloc allocate growth Hcalloc Halloc rulesFile true hc n rest B t0 g0 c Hok) as (c1 & E & Hok1 & _ & Ech & _ & Hl & _); [by rewrite El|].
      assert (command_run [] c c1) as Hr1 by (apply listens_run; unfold listen; by rewrite El, decide_True).
      destruct Hl as [Hl|[g Hl]]; [exists c1; split; [done|]; split; [done|by left]|].
      destruct (Hrep c1 g Hok1 Hl) as (c' & Hr2 & Ec & El'). exists c'. split; [by eapply command_run_silent|].
      split; [by rewrite Ec|by left].
    + eexists. split; [apply listens_run; unfold listen; by rewrite El, decide_False|]. split; [done|]. right. exists s.
      split_and!; [done..|]. cbn. set_solver.
  - destruct (Hrep c g Hok El) as (c' & ? & ? & ?). exists c'. split; [done|]. split; [done|by left].
  - destruct (Hask c Hok El) as (c' & ? & ? & ?). exists c'. split; [done|]. split; [done|by left].
Qed.

(** A call that holds the lock and has not settled is the last request. *)
Lemma publishing_request (c : command) s : command_ok c -> at_lock (site c) = Some s -> settles s = [] ->
  unsettled c = [call_op s].
Proof.
  intros Hok Hat Hset. unfold at_lock in Hat. destruct (holder (site c)) as [g|] eqn:Hh; [|done]. cbn in Hat.
  destruct (cm_calls _ _ _ _ _ _ _ _ Hok g s Hat) as [El|(op & err & ->)]; [|done].
  unfold unsettled. by rewrite El, Hat, Hset.
Qed.

(** C2: reloads take effect.  Whatever signals arrive, however the file is edited,
    and however workers and publications go on meanwhile: the manager's rules are
    those of the last reload that succeeded, or those the process came up with.
    Every reload asked for exactly the rules of the rules file at a moment of the
    run; the results, printed in order, decide which took effect; the generations
    printed are the successive ones; the only refusal is the native layer's.  A
    packet looked up at any moment is decided by these rules or, while the manager
    is at work, by those of the reload in progress. *)
Theorem reloads_take_effect o d waiting ls c : office_ok o -> calls o = ∅ -> history o = [] ->
  command_run ls (listening_at o d waiting) c ->
  exists flows routes docs, shows_in (currentRules (rt (site c))) (memory (rt (site c))) flows routes /\
    Forall2 (fun input d => written input d.1 d.2) (taken c) docs /\
    (forall input, input ∈ taken c -> exists ls1 ls2 c1, command_run ls1 (listening_at o d waiting) c1 /\ command_run ls2 c1 c /\
      on_disk (disk c1) rulesFile = inr input) /\
    table flows routes = in_force t0 docs (results (notices c) ++ owed c) /\
    generations (notices c) = (fun k => u64 (g0 + Z.of_nat k)) <$> seq 1 (length (generations (notices c))) /\
    (forall e, NotReplaced e ∈ notices c -> exists err, e = PublishFailed err) /\
    forall meta, fits 32 (dst_ipv4 meta) -> let w := (native (rt (site c))).1 in
      exists t answer, (t = table flows routes \/ exists before d, docs = before ++ [d] /\ t = rules_of d) /\
        dp_lookup_packet (rules_heap w) meta (active_rules (dp w)) = Some answer /\
        decides (rules_heap w) answer (table_decision t meta).
Proof.
  intros Hok0 Ek Eh Hr.
  destruct (command_run_ok _ _ _ Hr (listening_ok true hc n rest B t0 g0 o d waiting Hok0 Ek Eh)) as [Hok _].
  pose proof (cm_site _ _ _ _ _ _ _ _ Hok) as Hsite.
  destruct (linear calloc allocate growth Hcalloc Halloc stack_meta injected true hc n rest B t0 g0 _ _ Hsite (rtc_refl _ _))
    as (flows & routes & Hs & _ & Hserved & _ & _ & Hpkt).
  pose proof (cm_taken _ _ _ _ _ _ _ _ Hok) as Htk.
  assert (exists docs, Forall2 (asks_for (memory (rt (site c)))) (requests c) docs /\ Forall2 (fun input d => written input d.1 d.2) (taken c) docs)
    as (docs & Hask & Hw).
  { clear -Htk. induction Htk as [|op input ops inputs (d & Hd & Hdw) _ (docs & IH1 & IH2)]; [by exists []|].
    exists (d :: docs). split; by constructor. }
  exists flows, routes, docs. do 2 (split; [done|]). split; [|split; [|split; [|split]]].
  - intros input Hin. destruct (taken_from_file _ _ _ _ _ _ _ _ _ Hr input Hin) as [Hn|?]; [|done]. by apply elem_of_nil in Hn.
  - rewrite <- (cm_told _ _ _ _ _ _ _ _ Hok). unfold requests in Hask. apply Forall2_app_inv_l in Hask as (docs1 & docs2 & Hask & _ & ->).
    rewrite in_force_prefix by (by rewrite <- (Forall2_length _ _ _ Hask), !length_fmap). by eapply served_in_force.
  - apply Hok.
  - intros e He. pose proof (cm_notices _ _ _ _ _ _ _ _ Hok) as Hn. rewrite Forall_forall in Hn.
    destruct (Hn _ He) as [[? _]|?]; done.
  - intros meta Hm w. destruct (Hpkt eq_refl meta Hm) as (t & answer & Ht & Hrun & Hdec). exists t, answer. split; [|done].
    destruct Ht as [->|(s & Hat & Hset & Hop)]; [by left|right]. 
    unfold requests in Hask. rewrite (publishing_request _ s Hok Hat Hset) in Hask. apply Forall2_app_inv_l in Hask as (docs1 & docs2 & _ & Hask & ->).
    apply Forall2_cons_inv_l in Hask as (d' & ? & (snap & Eop & (Ef & Er) & _) & ->%Forall2_nil_inv_l & ->).
    exists docs1, d'. split; [done|]. rewrite Eop in Hop. cbn [op_spec] in Hop. rewrite Ef, Er in Hop. by injection Hop as <-.
Qed.

(** A SIGINT or SIGTERM that finds room ends in a process where everybody is home. *)
Lemma stop_comes_home (c : command) s : command_ok c -> listening c <> Left -> channel c = None -> s <> SIGHUP ->
  exists c1 c', command_step (Some s) c c1 /\ command_run [] c1 c' /\
    listening c' = Left /\ Stopping ∈ notices c' /\ stop (dp (native (rt (site c'))).1) = true /\
    all_home (crew_of (site c')) /\ holder (site c') = None /\
    forall g x, calls (site c') !! g = Some x -> exists op err, x = Replied op err.
Proof.
  intros Hok Hl Hch Hs. exists (with_channel (Some s) c).
  assert (command_step (Some s) c (with_channel (Some s) c)) as Hstep.
  { pose proof (command_signalled calloc allocate growth stack_meta injected rulesFile s c) as Hst. by rewrite Hch in Hst. }
  destruct (command_run_ok _ _ _ (command_run_once _ _ _ _ _ _ _ _ _ Hstep) Hok) as [Hok1 _].
  assert (exists c2, command_run [] (with_channel (Some s) c) c2 /\ listening c2 = Left /\ stop (dp (native (rt (site c2))).1) = true /\
    Stopping ∈ notices c2) as (c2 & Hr2 & El2 & Hstop & Hlast).
  { destruct (listener_returns (with_channel (Some s) c) Hok1 Hl) as (c2 & Hr & Ech & [El|(s' & _ & _ & El & Hst & Hn)]); [|by exists c2].
    eexists. split; [eapply command_run_silent; [exact Hr|eapply command_run_silent; apply listens_run]|].
    - unfold listen. rewrite El, Ech. done.
    - unfold listen. cbn [turn_to listening]. by rewrite decide_False.
    - split; [done|]. split; [done|]. cbn. set_solver. }
  destruct (command_run_ok _ _ _ Hr2 Hok1) as [Hok2 _].
  destruct (calls_end calloc allocate growth Hcalloc Halloc stack_meta injected _ _ _ _ _ _ _ _ (cm_site _ _ _ _ _ _ _ _ Hok2) (rtc_refl _ _))
    as (o' & Hr & Hno & _ & Hhome).
  pose proof (office_command_run calloc allocate growth stack_meta injected rulesFile o' c2 Hr) as Hr3.
  destruct (command_run_ok _ _ _ Hr3 Hok2) as [Hok3 Hcrew].
  exists (with_site o' c2). split; [exact Hstep|]. split; [by eapply command_run_silent|]. split; [exact El2|].
  split; [exact Hlast|]. split; [|split; [by apply Hhome|split; [exact Hno|]]].
  - exact (wp_stop _ _ (crew_run_workplace stack_meta injected _ _ Hcrew) Hstop).
  - intros g x Hx. destruct (cm_calls _ _ _ _ _ _ _ _ Hok3 g x Hx) as [E|?]; [|done]. cbn in E. congruence.
Qed.

(** C9: a stop request ends the process.  Whatever the goroutine is doing, a SIGINT
    or SIGTERM that finds the channel empty is followed, by steps of the command
    alone, by a state in which the stop has been requested and the goroutine has
    returned, every call is answered, and every worker is home; a reload in progress
    does not keep it away. *)
Theorem stop_signal_heard (c : command) s : command_ok c -> listening c <> Left -> channel c = None -> s <> SIGHUP ->
  exists c1 c', command_step (Some s) c c1 /\ command_run [] c1 c' /\
    listening c' = Left /\ Stopping ∈ notices c' /\ stop (dp (native (rt (site c'))).1) = true /\
    all_home (crew_of (site c')) /\ holder (site c') = None /\
    forall g x, calls (site c') !! g = Some x -> exists op err, x = Replied op err.
Proof. apply stop_comes_home. Qed.

(** C8: a stop request can be lost.  The channel has room for one signal and the
    sender does not wait: a SIGTERM that arrives while a SIGHUP is waiting behind a
    reload is dropped.  From any moment at which the goroutine is in its select with
    nothing waiting there is a run with two SIGHUPs and a SIGTERM after which, unless
    another SIGINT or SIGTERM is sent, the goroutine never requests the stop; it comes
    back to its select with nothing waiting, and the dataplane goes on. *)
Theorem stop_signal_lost (c : command) : command_ok c -> listening c = Selecting -> channel c = None ->
  exists c', command_run [SIGHUP; SIGHUP; SIGTERM] c c' /\
    (forall ls c'', command_run ls c' c'' -> Forall (eq SIGHUP) ls -> exists x, notices c'' = notices c ++ x /\ Stopping ∉ x) /\
    exists c'', command_run [] c' c'' /\ listening c'' = Selecting /\ channel c'' = None.
Proof.
  intros Hok El Ech. set (c1 := turn_to (Received SIGHUP) (with_channel None (with_channel (Some SIGHUP) c))).
  assert (command_run [SIGHUP] c c1) as Hr1.
  { pose proof (command_signalled calloc allocate growth stack_meta injected rulesFile SIGHUP c) as Hst. rewrite Ech in Hst.
    eapply (command_run_app _ _ _ _ _ _ [SIGHUP] []); [exact (command_run_once _ _ _ _ _ _ _ _ _ Hst)|]. apply listens_run.
    unfold listen. cbn [with_channel listening]. by rewrite El. }
  pose proof (command_signalled calloc allocate growth stack_meta injected rulesFile SIGHUP c1) as Hst2.
  set (c2 := with_channel (deliver SIGHUP (channel c1)) c1) in Hst2.
  pose proof (command_signalled calloc allocate growth stack_meta injected rulesFile SIGTERM c2) as Hst3.
  set (c3 := with_channel (deliver SIGTERM (channel c2)) c2) in Hst3.
  assert (command_run [SIGHUP; SIGHUP; SIGTERM] c c3) as Hr3.
  { exact (command_run_app _ _ _ _ _ _ [SIGHUP] [SIGHUP; SIGTERM] _ _ _ Hr1
      (command_run_app _ _ _ _ _ _ [SIGHUP] [SIGTERM] _ _ _ (command_run_once _ _ _ _ _ _ _ _ _ Hst2) (command_run_once _ _ _ _ _ _ _ _ _ Hst3))). }
  assert (quiet c3) as Hq by (split; intros s [= <-]; done).
  exists c3. split; [exact Hr3|]. split.
  { intros ls c'' Hr Hls. exact (quiet_run _ _ _ _ _ _ _ _ _ Hr Hls Hq). }
  destruct (command_run_ok _ _ _ Hr3 Hok) as [Hok3 _].
  destruct (listener_returns c3 Hok3) as (c4 & Hr4 & Ech4 & [El4|(s & [= <-] & ? & _)]); [done| |done].
  set (c5 := turn_to (Received SIGHUP) (with_channel None c4)).
  assert (command_run [] c3 c5) as Hr5.
  { eapply command_run_silent; [exact Hr4|]. apply listens_run. unfold listen. rewrite El4, Ech4. done. }
  destruct (command_run_ok _ _ _ Hr5 Hok3) as [Hok5 _].
  destruct (listener_returns c5 Hok5) as (c6 & Hr6 & Ech6 & [El6|(s & [= <-] & ? & _)]); [done| |done].
  exists c6. split; [by eapply command_run_silent|]. by split.
Qed.
End Claims.
