(* ===== verification/CommandRun.v ===== *)
(** * The command around [dp_dataplane_run]

    A command is a scene for the main thread: while [dp_dataplane_run] launches,
    works and joins, signals arrive and files are reloaded.  So the whole program
    serves, from [ready] to the end of the owner. *)
From Stdlib Require Import ZArith Lia.
From stdpp Require Import base list numbers option gmap strings relations.
From S2P Require Import Prelude Host Packet Api Tables Heap Snapshot SnapshotSpec Action Rcu State StatsSpec Rules Binding Worker WorkerSpec RunSpec Publish PublishSpec ReaderSpec Runtime RuntimeSpec Port PortSpec BindingSpec GoStats GoSlice Control ControlSpec ControlRefine ControlNative Lifecycle LifecycleSpec Documents DocumentsSpec RuleFiles RuleFilesSpec Dataplane ServeSpec Crew CrewSpec CrewRun Calls CallsSpec CallsProps Process Command CommandSpec CommandProps.

Section Scenes.
Context {NET : Net} {NO : NetOk NET} {J : Json} {JO : JsonOk J} {open_error : Type}.
Context {H : Host} {HO : HostOk H} {C : Checksums} {CO : ChecksumsOk C}.
Context {T : DpdkTables} {TO : DpdkTablesOk T} {Q : Qsbr} {QO : QsbrOk Q}.
Context (calloc : callocator) (allocate : gmap Z hobj -> allocator) (growth : nat -> nat -> nat).
Context (Hcalloc : callocator_ok calloc) (Halloc : forall h, allocator_ok (allocate h) h).
Context (stack_meta : dp_packet_meta) (injected : Z) (rulesFile : string).
Abbreviation command := (command open_error).

#[export] Instance command_scene : Scene command := {
  view c := crew_of (site c);
  goes_on c c' := exists ls, Command.command_run calloc allocate growth stack_meta injected rulesFile ls c c';
  direct f g c := with_site (at_work f g (site c)) c;
}.

#[export] Instance command_scene_ok (hc : c_heap) n (rest : gmap Z hobj) (B : gmap Z rte_mbuf) (t0 : rule_table) (g0 : Z) :
  SceneOk stack_meta injected command n rest B.
Proof.
  refine {| scene_ok := CommandSpec.command_ok true hc n rest B t0 g0 |}.
  - intros c Hok. exact (of_crew _ _ _ _ _ _ _ _ (cm_site _ _ _ _ _ _ _ _ Hok)).
  - reflexivity.
  - intros f g c [Hsite Hc Hh Hr Ht Htold Hg Hn] Hsame Hcrew. split; try done. by apply office_world_ok.
  - intros c c' (ls & Hr) Hok. by eapply (command_run_ok calloc allocate growth Hcalloc Halloc stack_meta injected rulesFile).
Defined.
End Scenes.

Section Serving.
Context {NET : Net} {NO : NetOk NET} {J : Json} {JO : JsonOk J} {open_error : Type}.
Context {H : Host} {HO : HostOk H} {C : Checksums} {CO : ChecksumsOk C}.
Context {T : DpdkTables} {TO : DpdkTablesOk T} {Q : Qsbr} {QO : QsbrOk Q}.
Context (pf : platform) (PF : platform_ok pf) (growth : nat -> nat -> nat).
Context (stack_meta : dp_packet_meta) (injected : Z) (rulesFile : string).
Abbreviation runtime := (Control.runtime (world * c_heap)).
Abbreviation command_run := (Command.command_run (open_error := open_error) (p_calloc pf) (p_allocate pf) growth stack_meta injected rulesFile).
Abbreviation the_command := (command_scene (open_error := open_error) (p_calloc pf) (p_allocate pf) growth stack_meta injected rulesFile).
Abbreviation the_command_ok := (command_scene_ok (open_error := open_error) (p_calloc pf) (p_allocate pf) growth (pf_calloc pf PF) (pf_allocate pf PF) stack_meta injected rulesFile).
(** How [native.Run] of a program that serves can end: signals arrive and files are
    reloaded from the moment [ready] is closed, [dp_dataplane_run] is entered among
    that and its EAL calls return along a faithful schedule, and the owner has got
    [rulesMu] after it has returned [rc]. *)
Definition serves_to (d : files open_error) (r1 : runtime) (rc : Z) (r2 : runtime) : Prop :=
  exists waiting ls c failure sc, command_run ls (listening_at (on_duty r1) d waiting) c /\
    directed (SX := the_command) failure sc (direct (Scene := the_command) opened id c)
      (fun y => exists ls' z, command_run ls' (closing (SX := the_command) y) z /\ holder (site z) = None /\ rt (site z) = r2) /\
    fst <$> dp_dataplane_run (scheduled (SX := the_command) failure sc) (native (rt (site c))).1 = Some rc.

Context (cfg : Config) (flows : list FlowRule) (routes : list RouteRule) (r r1 : runtime) (i : bool) (argv : option Z).
Context (Hl : launched_with cfg flows routes r) (Hp : Probe cfg = false) (Hup : bring_up pf cfg r = Some (([], i, argv), r1)).

(** A command that has come from the moment [ready] was closed. *)
Lemma up_command d waiting ls c : command_run ls (listening_at (on_duty r1) d waiting) c ->
  CommandSpec.command_ok true (native r1).2 (Z.to_nat (Workers cfg)) (rules_heap (native r).1) (mbufs (native r1).1) (table flows routes) 1 c /\
  rtc (crew_step stack_meta injected) (crew_of (on_duty r1)) (crew_of (site c)).
Proof.
  intros Hr. destruct (up_on_duty pf PF cfg flows routes r r1 i argv Hl Hp Hup) as (_ & _ & Hok0).
  exact (command_run_ok (p_calloc pf) (p_allocate pf) growth (pf_calloc pf PF) (pf_allocate pf PF) stack_meta injected rulesFile _ _ _ _ _ _ _ _ _ _
    Hr (listening_ok _ _ _ _ _ _ _ (on_duty r1) d waiting Hok0 eq_refl eq_refl)).
Qed.

(** What serving ends in is a process that can be taken down. *)
Lemma serves_settled d rc r2 : serves_to d r1 rc r2 ->
  settled (rules_heap (native r).1) (native r2).1 /\ (native r2).2 = (native r1).2.
Proof.
  intros (waiting & ls & c & failure & sc & Hr & Hd & _). destruct (up_command d waiting ls c Hr) as [Hok Hc].
  destruct (scene_returns pf PF stack_meta injected cfg flows routes r r1 i argv Hl Hp Hup (SX := the_command)
    (SXO := the_command_ok (native r1).2 _ _ (mbufs (native r1).1) (table flows routes) 1) site c failure sc _ (fun y => eq_refl)
    (fun y Hy => cm_site _ _ _ _ _ _ _ _ Hy) Hok Hc Hd) as (_ & y & _ & (ls' & z & Hz & Hno & <-) & Hhome & _ & Hover & Hafter).
  destruct (Hafter z (ex_intro _ ls' Hz)) as [Hokz Hcz].
  destruct (office_settled stack_meta injected _ _ _ _ _ _ (site z) _ Hokz Hno Hover Hhome Hcz) as (Hset & Eh & _). done.
Qed.

(** A schedule that is faithful up to the moment when the owner gets [rulesMu] is a
    way to serve. *)
Lemma schedule_serves d waiting ls c failure sc r2 : command_run ls (listening_at (on_duty r1) d waiting) c ->
  directed (SX := the_command) failure sc (direct (Scene := the_command) opened id c)
    (fun y => exists ls' z, command_run ls' (closing (SX := the_command) y) z /\ holder (site z) = None /\ rt (site z) = r2) ->
  exists rc, serves_to d r1 rc r2.
Proof.
  intros Hr Hd. destruct (up_command d waiting ls c Hr) as [Hok Hc].
  destruct (scene_returns pf PF stack_meta injected cfg flows routes r r1 i argv Hl Hp Hup (SX := the_command)
    (SXO := the_command_ok (native r1).2 _ _ (mbufs (native r1).1) (table flows routes) 1) site c failure sc _ (fun y => eq_refl)
    (fun y Hy => cm_site _ _ _ _ _ _ _ _ Hy) Hok Hc Hd) as (ret & y & Hrun & _).
  exists ret, waiting, ls, c, failure, sc. split; [done|]. split; [done|]. exact (f_equal (fmap fst) Hrun).
Qed.

(** C6: the program serves.  From the moment [ready] is closed the signal loop runs:
    signals arrive in any number and order, the rules file is edited and reloaded;
    [dp_dataplane_run] is entered among all that, and its EAL calls return along any
    faithful schedule.  It returns with every worker home and no mbuf gained or lost;
    whatever signals and reloads follow, the owner can get [rulesMu] and, with drivers
    that do as they are told, takes the process down with nothing left behind. *)
Theorem command_serves d waiting ls c failure sc k : command_run ls (listening_at (on_duty r1) d waiting) c ->
  directed (SX := the_command) failure sc (direct (Scene := the_command) opened id c) k ->
  exists ret y, dp_dataplane_run (scheduled (SX := the_command) failure sc) (native (rt (site c))).1 =
      Some (ret, (native (rt (site (closing (SX := the_command) y)))).1) /\
    k y /\ all_home (crew_of (site y)) /\ mbufs (native (rt (site y))).1 = mbufs (native r1).1 /\
    forall ls' z, command_run ls' (closing (SX := the_command) y) z ->
      winds_down pf growth stack_meta injected cfg flows routes r r1 argv ret (site z).
Proof.
  intros Hr Hd. destruct (up_command d waiting ls c Hr) as [Hok Hc].
  destruct (scene_serves pf PF growth stack_meta injected cfg flows routes r r1 i argv Hl Hp Hup (SX := the_command)
    (SXO := the_command_ok (native r1).2 _ _ (mbufs (native r1).1) (table flows routes) 1) site c failure sc k (fun y => eq_refl)
    (fun y Hy => cm_site _ _ _ _ _ _ _ _ Hy) Hok Hc Hd) as (ret & y & Hrun & Hk & Hh & Hm & Hz).
  exists ret, y. split; [exact Hrun|]. split; [exact Hk|]. split; [exact Hh|]. split; [exact Hm|].
  intros ls' z Hr'. apply Hz. by exists ls'.
Qed.
End Serving.
