(* ===== verification/Main.v ===== *)
(** * The program: [run] and [main] of [cmd/flow-router/main.go]

    The flags choose a rules file and a configuration; the file is loaded before
    anything is started; then the runtime comes up, serves with the signal loop of
    Command in it, and is waited for. *)
From Stdlib Require Import ZArith Lia.
From stdpp Require Import base list numbers option gmap strings relations.
From S2P Require Import Prelude Host Packet Api Tables Heap Snapshot SnapshotSpec Action Rcu State StatsSpec Rules Binding Worker WorkerSpec RunSpec Publish PublishSpec ReaderSpec Runtime RuntimeSpec Port PortSpec BindingSpec GoStats GoSlice Control ControlSpec ControlRefine ControlNative Lifecycle LifecycleSpec Documents DocumentsSpec RuleFiles RuleFilesSpec Dataplane ServeSpec Crew CrewSpec CrewRun Calls CallsSpec CallsProps Process Command CommandSpec CommandProps CommandRun.

(** The flags, with their defaults filled in by package flag. *)
Record options := {
  opt_probe : bool;
  opt_rx_device : string; opt_tx_device : string;
  opt_rules_file : string;
  opt_workers : Z;
  opt_args : list string;
}.

Section Main.
Context {NET : Net} {J : Json} {open_error : Type}.
Context {T : DpdkTables} {Q : Qsbr}.
Context (pf : platform) (growth : nat -> nat -> nat).
Abbreviation runtime := (Control.runtime (world * c_heap)).
Abbreviation files := (files open_error).

Inductive run_error :=
  | RulesFailed (e : load_error open_error)
  | NotStarted (e : start_error)
  | Ended (e : errors).

(** What is printed on standard output. *)
Inductive line :=
  | ComeUp (info : Go.Info)                     (** the version, and unless probing the ports, the workers and the pool *)
  | Totals (stats : Go.Stats)
  | CleanedUp.

Definition on_memory {A} (m : M (go_heap * files) A) : M (runtime * files) A := fun '(r, d) =>
  '(a, (h, d)) ← m (memory r, d); Some (a, (set_memory h r, d)).
Definition on_runtime {A} (m : M runtime A) : M (runtime * files) A := fun '(r, d) =>
  '(a, r) ← m r; Some (a, (r, d)).

Definition no_rules : RuleSnapshot := {| Flows := nil_slice; Routes := nil_slice |}.

Definition config_of (o : options) (rules : RuleSnapshot) : Config := {|
  EALArgs := opt_args o; RXDevice := opt_rx_device o; TXDevice := opt_tx_device o; Workers := opt_workers o;
  Probe := opt_probe o; CfgRules := rules |}.

(** Up to [dataplane.Start]. *)
Definition begin (o : options) (attempted : bool) : M (runtime * files) (bool * (run_error + Config)) :=
  loaded ← (if negb (String.eqb (opt_rules_file o) "") then on_memory (LoadRulesFile growth (opt_rules_file o)) else mret (inr no_rules));
  match loaded with
  | inl err => mret (attempted, inl (RulesFailed err))
  | inr rules =>
    '(attempted, started) ← on_runtime (Start growth (config_of o rules) attempted);
    mret (attempted, match started with inl err => inl (NotStarted err) | inr cfg => inr cfg end)
  end.

(** [serve] is what happens while [native.Run] runs, the signal loop included; the
    result is the error of [run] and what was printed. *)
Definition run (o : options) (serve : M runtime Z) (attempted : bool) : M (runtime * files) (bool * option run_error * list line) :=
  '(attempted, started) ← begin o attempted;
  match started with
  | inl err => mret (attempted, Some err, [])
  | inr cfg =>
    '(startErr, err) ← on_runtime (owner pf cfg serve);
    '(r, _) ← get;
    let up := if is_nil startErr then [ComeUp (rt_info r)] else [] in
    mret (if negb (is_nil err) then (attempted, Some (Ended err), up)
          else (attempted, None, up ++ (if negb (opt_probe o) then [Totals (rt_stats r)] else []) ++ [CleanedUp]))
  end.

(** [dataplane.Probe]: the same lifecycle, without a file, ports or workers. *)
Definition ProbeRuntime (args : list string) (attempted : bool) : M runtime (bool * (start_error + Go.Info * errors)) :=
  '(attempted, started) ← Start growth {| EALArgs := args; RXDevice := ""; TXDevice := ""; Workers := 1; Probe := true; CfgRules := no_rules |} attempted;
  match started with
  | inl err => mret (attempted, inl err)
  | inr cfg =>
    '(_, err) ← owner pf cfg ub;
    r ← get;
    mret (attempted, inr (rt_info r, err))
  end.

(** The exit code of [main]. *)
Definition exit_code (result : option run_error) : Z := match result with None => 0 | Some _ => 1 end.
End Main.
#[global] Arguments run_error {J} open_error.

Section Spec.
Context {NET : Net} {NO : NetOk NET} {J : Json} {JO : JsonOk J} {open_error : Type}.
Context {H : Host} {HO : HostOk H} {C : Checksums} {CO : ChecksumsOk C}.
Context {T : DpdkTables} {TO : DpdkTablesOk T} {Q : Qsbr} {QO : QsbrOk Q}.
Context (pf : platform) (PF : platform_ok pf) (growth : nat -> nat -> nat).
Context (stack_meta : dp_packet_meta) (injected : Z).
Abbreviation runtime := (Control.runtime (world * c_heap)).
Abbreviation files := (files open_error).
Abbreviation serves_to := (CommandRun.serves_to (open_error := open_error) pf growth stack_meta injected).
Abbreviation begin := (Main.begin (open_error := open_error) growth).
Abbreviation run := (Main.run (open_error := open_error) pf growth).

(** The rules the options ask for: those of the file, or none. *)
Definition chosen (o : options) (d : files) (flows : list FlowRule) (routes : list RouteRule) : Prop :=
  if String.eqb (opt_rules_file o) "" then flows = [] /\ routes = []
  else exists input, on_disk d (opt_rules_file o) = inr input /\ written input flows routes.

(** The options as [Start] sees them. *)
Definition configured (o : options) : Config := defaulted (config_of o no_rules).

(** How [begin] ends, from the runtime [r] and the files [d] to [r']. *)
Definition begins (o : options) (attempted : bool) (r : runtime) (d : files) (attempted' : bool)
    (res : run_error open_error + Config) (r' : runtime) : Prop :=
  match res with
  | inl (RulesFailed e) => attempted' = attempted /\ forall flows routes, ~ chosen o d flows routes
  | inl (NotStarted (BadConfig e)) => attempted' = attempted /\ forall err, e <> StaticRules err
  | inl (NotStarted OnlyOneAttempt) => attempted = true /\ attempted' = true
  | inl (Ended _) => False
  | inr cfg => attempted = false /\ attempted' = true /\ exists flows routes, chosen o d flows routes /\ launched_with cfg flows routes r' /\
      Workers cfg = Workers (configured o) /\ Probe cfg = opt_probe o /\ RXDevice cfg = opt_rx_device o /\
      TXDevice cfg = opt_tx_device o /\ EALArgs cfg = opt_args o
  end.

(** A configuration is refused for its rules only if they are invalid. *)
Lemma validate_static cfg flows routes e : validate cfg flows routes = Some (StaticRules e) -> validate_elements flows routes = Some e.
Proof. unfold validate. repeat case_match; by intros [= ->]. Qed.

Lemma on_memory_run {A} (m : M (go_heap * files) A) (r : runtime) d a h : m (memory r, d) = Some (a, (h, d)) ->
  on_memory m (r, d) = Some (a, (set_memory h r, d)).
Proof. intros E. unfold on_memory. by rewrite E. Qed.

Lemma on_runtime_run {A} (m : M runtime A) (r : runtime) (d : files) a r' : m r = Some (a, r') -> on_runtime m (r, d) = Some (a, (r', d)).
Proof. intros E. unfold on_runtime. by rewrite E. Qed.

(** [Start] on rules that are valid. *)
Lemma begins_start o attempted r0 r d rules flows routes : pristine (native r).1 -> rulesOpen r = false -> heap_ok (memory r) ->
  shows_in rules (memory r) flows routes -> rules_fit flows routes -> validate_elements flows routes = None -> chosen o d flows routes ->
  exists attempted' res r', ('(attempted, started) ← on_runtime (Start growth (config_of o rules) attempted);
      mret (attempted, match started with inl err => inl (NotStarted err) | inr cfg => inr cfg end)) (r, d) = Some ((attempted', res), (r', d)) /\
    native r' = native r /\ rulesOpen r' = false /\ begins o attempted r0 d attempted' res r'.
Proof.
  intros Hpr Ho Hh Hs Hf Hv Hch.
  destruct (Start_launches growth (config_of o rules) attempted r flows routes Hpr Ho Hh Hs Hf) as (a & res & r' & Hrun & Hn & Hres).
  erewrite M_bind_step by by apply on_runtime_run. cbv beta iota. eexists _, _, r'. split; [done|]. split; [done|]. split.
  { destruct res as [[|]|]; [by destruct Hres as (_ & _ & _ & ->)|by destruct Hres as (_ & _ & ->)|apply Hres]. }
  destruct res as [[e|]|cfg]; cbn [begins].
  - destruct Hres as (He & _ & -> & _). split; [done|]. intros err ->. apply validate_static in He. congruence.
  - by destruct Hres as (? & ? & _).
  - destruct Hres as (_ & ? & ? & Hl & Ecfg & _). split; [done|]. split; [done|]. exists flows, routes. split; [done|]. split; [done|].
    rewrite Ecfg. by split_and!.
Qed.

Lemma begin_run o attempted r d : pristine (native r).1 -> rulesOpen r = false -> heap_ok (memory r) ->
  exists attempted' res r', begin o attempted (r, d) = Some ((attempted', res), (r', d)) /\ native r' = native r /\
    rulesOpen r' = false /\ begins o attempted r d attempted' res r'.
Proof.
  intros Hpr Ho Hh. unfold Main.begin. destruct (String.eqb (opt_rules_file o) "") eqn:Ef; cbn [negb].
  - erewrite M_bind_step by done. cbv beta iota. apply (begins_start o attempted r r d no_rules [] []); try done.
    all: first [by split; apply Forall_nil_2 | unfold chosen; by rewrite Ef].
  - destruct (LoadRulesFile_run growth (opt_rules_file o) (memory r) d Hh) as (res & h & Hrun & Hres).
    erewrite M_bind_step by by apply on_memory_run. cbv beta.
    assert (forall flows routes, chosen o d flows routes -> exists input, on_disk d (opt_rules_file o) = inr input /\ written input flows routes) as Hch.
    { intros flows routes. unfold chosen. by rewrite Ef. }
    destruct res as [e|rules]; cbv iota.
    { eexists _, _, _. split; [done|]. split; [done|]. split; [done|]. split; [done|]. intros flows routes (input & Ed & Hw)%Hch.
      rewrite Ed in Hres. destruct Hres as [[_ Hno] _]. by apply (Hno flows routes). }
    destruct (on_disk d (opt_rules_file o)) as [?|input] eqn:Ed; [by destruct Hres|].
    destruct Hres as [[Hl (flows & routes & Hw & [Hs _ Hf Hv])] _].
    apply (begins_start o attempted r (set_memory h r) d rules flows routes); try done; [apply Hl|].
    unfold chosen. rewrite Ef, Ed. by exists input.
Qed.

(** C35: what the program starts with.  From a process that has not started
    anything, [run] gets as far as [Start] without a panic.  A rules file that cannot
    be used ends it before the one attempt is used up and before anything native is
    touched; rules that load are never the reason why [Start] refuses; and when it
    starts, the owner and the manager have the rules of the file, or none if no file
    was named, with the flags as they were given. *)
Theorem run_begins o attempted r d : pristine (native r).1 -> rulesOpen r = false -> heap_ok (memory r) ->
  exists attempted' res r', begin o attempted (r, d) = Some ((attempted', res), (r', d)) /\ native r' = native r /\
    rulesOpen r' = false /\ begins o attempted r d attempted' res r'.
Proof. apply begin_run. Qed.

(** What [run] has done when it returns. *)
Definition ends (o : options) (r : runtime) (d : files) (result : option (run_error open_error)) (out : list line) (r' : runtime) : Prop :=
  match result with
  | None => released (dp (native r').1) /\ (native r').2 = (native r).2 /\ last out = Some CleanedUp /\
      exists flows routes, chosen o d flows routes
  | Some (Ended _) => forall x, x ∈ out -> exists info, x = ComeUp info
  | Some _ => native r' = native r /\ out = []
  end.

(** While the workers run, [serve] does what the program does: wherever [begin] and
    [bring_up] lead, it comes back, and as serving can end. *)
Definition serving (o : options) (serve : M runtime Z) (attempted : bool) (r : runtime) (d : files) : Prop :=
  forall a cfg r1 i argv r2, begin o attempted (r, d) = Some ((a, inr cfg), (r1, d)) -> Probe cfg = false ->
    bring_up pf cfg r1 = Some (([], i, argv), r2) ->
    exists rc r3, serve r2 = Some (rc, r3) /\ serves_to (opt_rules_file o) d r2 rc r3.

(** C13: the program gives back what it took.  Whatever the flags and the file, and
    whether or not the ports can be stopped and closed (the answer is 0 or a
    negative code), let the workers run among
    signals and reloads until [dp_dataplane_run] has returned and the owner has
    [rulesMu].  Then, in a process that has not started anything, [run] returns, the rule heap is the one it found, and the manager
    is closed.  The exit code is 0 only if the ports, the pool and all rule sets are
    released and the C heap is back, which is the only case in which the statistics
    and the success of the cleanup are printed.  The EAL is left initialised only if
    the teardown failed, which the error says: with drivers that do as they are told
    nothing is left initialised.  A refusal before the start prints and touches
    nothing. *)
Theorem run_ends o serve attempted r d : pristine (native r).1 -> rulesOpen r = false -> heap_ok (memory r) ->
  closing_ok (p_eth pf) -> serving o serve attempted r d ->
  exists attempted' result out r', run o serve attempted (r, d) = Some ((attempted', result, out), (r', d)) /\
    rules_heap (native r').1 = rules_heap (native r).1 /\ rulesOpen r' = false /\
    (initialized (dp (native r').1) = true -> exists err rc, result = Some (Ended err) /\ ETeardown rc ∈ err) /\
    (cooperative (p_eth pf) -> initialized (dp (native r').1) = false) /\
    (exit_code result = 0 <-> CleanedUp ∈ out) /\ ends o r d result out r'.
Proof.
  intros Hpr Ho Hh Hcl Hserve. destruct (begin_run o attempted r d Hpr Ho Hh) as (a & res & r1 & Hrun & Hn & Ho1 & Hres).
  unfold Main.run. erewrite M_bind_step by exact Hrun. cbv beta iota. destruct res as [e|cfg].
  { assert (initialized (dp (native r1).1) = false) as Hi by by rewrite Hn, Hpr.
    exists a, (Some e), [], r1. split; [done|]. rewrite Hi, Hn. do 2 (split; [done|]). do 2 (split; [done|]).
    split; [split; [done|by intros ?%elem_of_nil]|]. by destruct e. }
  destruct Hres as (_ & _ & flows & routes & Hch & Hl & _ & Hp & _).
  destruct (owner_gives_back pf PF cfg flows routes serve r1 Hl) as (se & err & r2 & Hown & Ho2 & Hheap & Hkept & Hi & [more Hmore] & Hclean);
    [|done|].
  { intros i argv r2 Hpr2 Hup. destruct (Hserve a cfg r1 i argv r2 Hrun Hpr2 Hup) as (rc & r3 & Hs & Hst). exists rc, r3. split; [done|].
    exact (serves_settled pf PF growth stack_meta injected (opt_rules_file o) cfg flows routes r1 r2 i argv Hl Hpr2 Hup d rc r3 Hst). }
  erewrite M_bind_step by by apply on_runtime_run. cbv beta iota. erewrite M_bind_step by done. cbv beta iota.
  rewrite Hn in Hheap, Hclean. destruct err as [|e0 err]; cbn [is_nil negb].
  - destruct (Hclean eq_refl) as [Hrel Hc]. eexists _, _, _, r2. split; [done|]. do 2 (split; [done|]).
    split; [intros [rc Hin]%Hkept; by apply elem_of_nil in Hin|]. split; [done|].
    split; [split; [intros _; set_solver|done]|]. split; [done|]. split; [done|]. split; [|by exists flows, routes].
    rewrite app_assoc. apply last_snoc.
  - eexists _, _, _, r2. split; [done|]. do 2 (split; [done|]). split; [intros [rc Hin]%Hkept; by eexists _, rc|]. split; [done|].
    split; [split; [done|]|]; destruct (is_nil se); set_solver.
Qed.

(** A probe never runs the dataplane, and gives everything back. *)
Lemma ProbeRuntime_ends args attempted r : pristine (native r).1 -> rulesOpen r = false -> heap_ok (memory r) -> closing_ok (p_eth pf) ->
  exists attempted' res r', ProbeRuntime pf growth args attempted r = Some ((attempted', res), r') /\
    rules_heap (native r').1 = rules_heap (native r).1 /\
    forall info, res = inr (info, []) -> released (dp (native r').1) /\ (native r').2 = (native r).2.
Proof.
  intros Hpr Ho Hh Hcoop. unfold ProbeRuntime.
  set (cfg0 := {| EALArgs := args; RXDevice := ""; TXDevice := ""; Workers := 1; Probe := true; CfgRules := no_rules |}).
  destruct (Start_launches growth cfg0 attempted r [] [] Hpr Ho Hh) as (a & res & r1 & Hrun & Hn & Hres); [done|split; apply Forall_nil_2|].
  erewrite M_bind_step by exact Hrun. cbv beta iota. destruct res as [e|cfg].
  { eexists _, _, r1. split; [done|]. by rewrite Hn. }
  destruct Hres as (_ & _ & _ & Hl & Ecfg & _).
  destruct (owner_gives_back pf PF cfg _ _ ub r1 Hl) as (se & err & r2 & Hown & _ & Hheap & _ & _ & _ & Hclean);
    [|done|].
  { intros i argv r2 Hp. rewrite Ecfg in Hp. done. }
  erewrite M_bind_step by exact Hown. cbv beta iota. erewrite M_bind_step by done. eexists _, _, r2. split; [done|]. rewrite Hn in Hheap, Hclean.
  split; [done|]. intros info [= _ ->]. by apply Hclean.
Qed.
End Spec.
