(* ===== verification/Sample.v ===== *)
(** * A concrete router

    Rules, packets, drivers and allocators on which the definitions are run, and
    the worlds they lead to.  The theorems are instantiated here. *)
From Stdlib Require Import ZArith Lia.
From stdpp Require Import base list numbers option gmap strings relations.
From S2P Require Import Prelude Host Packet Parser Wire Api Tables Heap Snapshot SnapshotSpec LookupSpec Action ActionSpec Rcu State Rules Worker WorkerSpec Publish PublishSpec Runtime Port.

#[export] Existing Instance little_endian.
#[export] Existing Instance rfc1071.
#[export] Existing Instance reference_tables.
#[export] Existing Instance counter_qsbr.

(** ** Rules *)
Definition forward : dp_rule_action := {|
  act_type := DP_ACTION_FORWARD; act_rewrite_mask := 0; act_reserved := 0; act_src_ipv4 := 0;
  act_dst_ipv4 := 0; act_src_port := 0; act_dst_port := 0 |}.
Definition discard : dp_rule_action := {|
  act_type := DP_ACTION_DROP; act_rewrite_mask := 0; act_reserved := 0; act_src_ipv4 := 0;
  act_dst_ipv4 := 0; act_src_port := 0; act_dst_port := 0 |}.
Definition rewrite : dp_rule_action := {|
  act_type := DP_ACTION_REWRITE; act_rewrite_mask := 15; act_reserved := 0; act_src_ipv4 := 0xc0000216;
  act_dst_ipv4 := 0xcb007163; act_src_port := 3001; act_dst_port := 4001 |}.

Definition sample_flows : list dp_flow_rule := [
  {| flow_src_ipv4 := 0xc0000201; flow_dst_ipv4 := 0xcb00710a; flow_src_port := 12345; flow_dst_port := 443;
     flow_l4_proto := IPPROTO_TCP; flow_reserved := (0, 0, 0); flow_action := forward |};
  {| flow_src_ipv4 := 0xc0000202; flow_dst_ipv4 := 0xcb007114; flow_src_port := 3000; flow_dst_port := 4000;
     flow_l4_proto := IPPROTO_UDP; flow_reserved := (0, 0, 0); flow_action := rewrite |}].
Definition sample_routes : list dp_route_rule := [
  {| route_prefix := 0x0a010200; route_depth := 24; route_reserved := (0, 0, 0); route_action := forward |};
  {| route_prefix := 0x0a000000; route_depth := 8; route_reserved := (0, 0, 0); route_action := discard |}].

(** ** Packets *)
Definition udp_frame : frame := {|
  fr_macs := replicate 12 2; fr_tos := 0; fr_id := 0x4505; fr_flags := 0x4000; fr_ttl := 64; fr_cksum := 0;
  fr_src := 0xc0000202; fr_dst := 0xcb007114; fr_options := [];
  fr_l4 := Udp 3000 4000 12 0 [115; 116; 97; 116]; fr_trailer := [0; 0] |}.
Definition mbuf_of (d : list Z) : rte_mbuf :=
  {| nb_segs := 1; pkt_len := len d; data_len := len d; mbuf_data := d |}.
Definition udp_mbuf : rte_mbuf := mbuf_of (frame_bytes udp_frame).
(** An Ethernet frame that is not IPv4. *)
Definition other_mbuf : rte_mbuf := mbuf_of (replicate 60 255).

(** ** The environment *)

(** One address for each request the rules can cause, above [base]. *)
Definition sample_allocate (base generation : Z) : allocator := fun r =>
  match index_of id (build_requests 0 sample_flows sample_routes generation) r with
  | Some i => inr (base + Z.of_nat i)
  | None => inl ENOMEM
  end.
Definition sample_eal : eal_env := {|
  rte_version := "DPDK 25.11.3"; rte_eal_init := None; rte_get_main_lcore := 0; rte_lcore_count := 2;
  rte_socket_id := 0; rte_eal_cleanup := 0 |}.
Definition sample_qsbr : qsbr_env := {|
  rte_rcu_qsbr_get_memsize _ := 4096; memsize_errno := 0; qsbr_zmalloc _ _ _ := None; rte_rcu_qsbr_init _ := None |}.
Definition sample_eth : eth_env := {|
  rte_eth_dev_configure _ _ _ := 0; rte_eth_dev_adjust_nb_rx_tx_desc _ d := (0, d);
  rte_eth_rx_queue_setup _ _ _ _ _ := 0; rte_eth_tx_queue_setup _ _ _ _ := 0; rte_eth_dev_start _ := 0;
  rte_eth_dev_stop _ := 0; rte_eth_dev_close _ := 0;
  rte_eth_dev_get_port_by_name name := if String.eqb name "net_tap0" then inr 0 else inr 1;
  rte_eth_dev_info_get _ := inr {| driver_name := Some "net_tap"%string; max_rx_queues := 16; max_tx_queues := 16 |};
  rte_pktmbuf_pool_create _ _ _ _ _ _ := inr 7; RTE_MBUF_DEFAULT_BUF_SIZE := 2176; rte_mempool_in_use_count _ := 0;
  enabled_lcores := [0; 1]; rte_lcore_to_socket_id _ := 0 |}.

(** ** Worlds *)
Definition world_initial : world := {| dp := dp_initial; rules_heap := ∅; mbufs := ∅; wire := [] |}.
Definition final {A} (o : option (A * world)) : world := from_option snd world_initial o.
Definition world_started : world := final (dp_runtime_init sample_eal 1 (Some ["flow-router"%string]) world_initial).
Definition rules_of (base generation : Z) : rule_set :=
  {| rs_allocate := sample_allocate base generation;
     rs_flow_array := Some sample_flows; rs_route_array := Some sample_routes;
     rs_flows := sample_flows; rs_routes := sample_routes |}.
Definition configure (w : world) : option (Z * world) :=
  dp_configure_rules sample_qsbr (sample_allocate 100 1) (Some sample_flows) 2 (Some sample_routes) 2 w.
Definition world_configured : world := final (configure world_started).

Lemma final_run_eq {A} (o : option (A * world)) r w : fst <$> o = Some r -> w = final o -> o = Some (r, w).
Proof. intros Ho ->. destruct o as [[a w]|]; cbn in *; [|done]. by injection Ho as ->. Qed.

(** A run has one result. *)
Lemma run_unique {A B} (o : option (A * B)) a b a' b' : o = Some (a, b) -> o = Some (a', b') -> a' = a /\ b' = b.
Proof. intros -> E. by injection E as -> ->. Qed.

Example init_succeeds : dp_runtime_init sample_eal 1 (Some ["flow-router"%string]) world_initial = Some (0, world_started).
Proof. apply final_run_eq; [vm_compute|]; reflexivity. Qed.

Example configure_succeeds : configure world_started = Some (0, world_configured).
Proof. apply final_run_eq; [vm_compute|]; reflexivity. Qed.

(** ** The rules are acceptable *)
Ltac concrete := repeat first [split | apply Forall_nil_2 | apply Forall_cons_2]; by vm_compute.

Lemma sample_flows_fit : Forall flow_fits sample_flows.
Proof. unfold sample_flows, flow_fits, action_fits. concrete. Qed.

Lemma sample_routes_fit : Forall route_fits sample_routes.
Proof. unfold sample_routes, route_fits, action_fits. concrete. Qed.

Lemma sample_limits : within_limits sample_flows sample_routes.
Proof. unfold within_limits. by vm_compute. Qed.

Lemma sample_allocate_inv base g r a : sample_allocate base g r = inr a ->
  exists i, index_of id (build_requests 0 sample_flows sample_routes g) r = Some i /\ a = base + Z.of_nat i /\ (i < 4)%nat.
Proof.
  unfold sample_allocate. destruct (index_of id _ r) as [i|] eqn:Hi; [|done]. intros [= <-].
  exists i. split_and!; try done. apply index_of_lt in Hi. exact Hi.
Qed.

Lemma sample_allocator_ok base g (h : gmap Z hobj) :
  (forall i, (i < 4)%nat -> h !! (base + Z.of_nat i) = None) -> allocator_ok (sample_allocate base g) h.
Proof.
  intros Hfresh. split.
  - intros r a (i & _ & -> & Hi)%sample_allocate_inv. by apply Hfresh.
  - intros r r' a (i & Hi & -> & _)%sample_allocate_inv (j & Hj & E & _)%sample_allocate_inv.
    assert (i = j) as -> by lia. apply index_of_Some in Hi as (x & Hx & <-), Hj as (y & Hy & <-). congruence.
  - intros r e. unfold sample_allocate. destruct (index_of _ _ _); [done|]. by intros [= <-].
Qed.

Lemma rules_of_ok base g (h : gmap Z hobj) :
  (forall i, (i < 4)%nat -> h !! (base + Z.of_nat i) = None) -> rule_set_ok (rules_of base g) h.
Proof.
  intros Hf. split; [by apply sample_allocator_ok|apply array_of_self..|apply sample_limits|apply sample_flows_fit|apply sample_routes_fit].
Qed.

(** ** The configured router satisfies the invariant of publication *)
Definition sys_idle : system := {| sys := world_configured; held := ∅; writer := Idle |}.

Lemma sample_qsbr_ok : qsbr_env_ok sample_qsbr.
Proof. by split. Qed.

Lemma world_started_facts : rules_heap world_started = ∅ /\ rules_qsbr (dp world_started) = None /\
  unconfigured (dp world_started) = true.
Proof. split_and!; reflexivity. Qed.

Lemma started_no_readers : no_readers world_started.
Proof. unfold no_readers. destruct world_started_facts as (_ & -> & _). done. Qed.

Lemma sys_idle_inv : inv ∅ sys_idle /\ rules_ok sample_flows sample_routes /\
  now_active sample_flows sample_routes 1 world_configured.
Proof.
  destruct world_started_facts as (Hh & _ & Hu).
  destruct (configure_run sample_qsbr (rules_of 100 1) world_started
    sample_qsbr_ok started_no_readers) as (ret & w' & Hrun & _ & Hcase);
    [apply rules_of_ok; intros i _; by rewrite Hh|]. rewrite Hu in Hcase.
  change (configure world_started = Some (ret, w')) in Hrun.
  destruct (run_unique _ _ _ _ _ configure_succeeds Hrun) as [-> ->].
  destruct Hcase as [(_ & Hok & Hact & Hinv)|[? _]]; [|done]. rewrite Hh in Hinv. by split_and!.
Qed.

(** ** A reader in a burst, and a publication that waits for it *)
Definition world_registered : world := final (dp_rules_reader_register 0 world_configured).
Definition sys_registered : system := {| sys := world_registered; held := {[0 := None]}; writer := Idle |}.
Definition sys_reading : system :=
  {| sys := world_registered; held := {[0 := active_rules (dp world_registered)]}; writer := Idle |}.
Definition sample_swap : option (Z + publication) := fst <$> swap (rules_of 200 2) world_registered.
Definition sample_publication : publication :=
  match sample_swap with
  | Some (inr p) => p
  | _ => {| pub_old := None; pub_generation := 0 |}
  end.
Definition world_swapped : world := final (swap (rules_of 200 2) world_registered).
Definition sys_exchanged : system :=
  {| sys := world_swapped; held := held sys_reading; writer := Exchanged sample_publication |}.
Definition sample_token : Z := match publish_start world_swapped with Some (t, _) => t | None => 0 end.
Definition world_waiting : world := final (publish_start world_swapped).
Definition sys_waiting : system :=
  {| sys := world_waiting; held := held sys_reading; writer := Waiting sample_publication sample_token |}.

Lemma register_succeeds : dp_rules_reader_register 0 world_configured = Some (0, world_registered).
Proof. apply final_run_eq; [vm_compute|]; reflexivity. Qed.

Lemma sys_idle_register : step sys_idle sys_registered.
Proof.
  apply (step_register 0 sys_idle world_registered); [reflexivity|exact register_succeeds].
Qed.

Lemma sys_registered_load : step sys_registered sys_reading.
Proof. by apply (step_load 0 (active_rules (dp world_registered)) world_registered sys_registered). Qed.

Lemma registered_heap_free i : (i < 4)%nat -> rules_heap world_registered !! (200 + Z.of_nat i) = None.
Proof. intros Hi. do 4 (destruct i as [|i]; [reflexivity|]). lia. Qed.

Lemma sample_swap_run : swap (rules_of 200 2) world_registered = Some (inr sample_publication, world_swapped).
Proof. apply final_run_eq; [vm_compute|]; reflexivity. Qed.

Lemma sample_start_run : publish_start world_swapped = Some (sample_token, world_waiting).
Proof. apply final_run_eq; [vm_compute|]; reflexivity. Qed.

Lemma sys_reading_swap : step sys_reading sys_exchanged.
Proof.
  apply (step_publish_swaps (rules_of 200 2) sample_publication world_swapped sys_reading); [done| |].
  - apply rules_of_ok, registered_heap_free.
  - apply sample_swap_run.
Qed.

Lemma reach_reading : rtc step sys_idle sys_reading.
Proof. eapply rtc_l; [apply sys_idle_register|]. apply rtc_once, sys_registered_load. Qed.

Lemma sys_exchanged_start : step sys_exchanged sys_waiting.
Proof. apply (step_publish_starts sample_publication sample_token world_waiting sys_exchanged); [done|apply sample_start_run]. Qed.

Lemma reach_waiting : rtc step sys_idle sys_waiting.
Proof. eapply rtc_r; [eapply rtc_r; [apply reach_reading|apply sys_reading_swap]|apply sys_exchanged_start]. Qed.

(** ** The view of a worker, and its packets *)
Lemma sample_build : exists c,
  dp_snapshot_build (sample_allocate 100 1) 0 (Some sample_flows) 2 (Some sample_routes) 2 1
    {| heap := ∅; ctl := dstats (dp world_started) |} = Some (0, Some 100, {| heap := rules_heap world_configured; ctl := c |}).
Proof. eexists. reflexivity. Qed.

Lemma sample_active : active_rules (dp world_configured) = Some 100.
Proof. reflexivity. Qed.

Lemma sample_view : view (rules_heap world_configured) (Some 100) sample_flows sample_routes.
Proof.
  destruct sys_idle_inv as (_ & Hok & _). destruct world_started_facts as (Hh & _).
  destruct (run_build_cases (sample_allocate 100 1) 0 ∅ (dstats (dp world_started)) (sample_allocator_ok 100 1 ∅ ltac:(done))
    sample_flows sample_routes 1 sample_flows_fit sample_routes_fit (Some sample_flows) (Some sample_routes)
    (array_of_self _) (array_of_self _) sample_limits) as (ret & result & w & Hrun & Hpost).
  assert (result = Some 100 /\ heap w = rules_heap world_configured) as [-> Hw].
  { destruct sample_build as (c & E). destruct (run_unique _ _ _ _ _ E Hrun) as [Er ->]. injection Er as _ ->. split; reflexivity. }
  destruct Hpost as (_ & _ & Hb). apply built_rep in Hb as (_ & Hrep & _);
    [|apply sample_limits|apply sample_flows_fit|apply sample_routes_fit].
  rewrite Hw in Hrep. split; [done|apply sample_flows_fit|apply sample_routes_fit|]. by exists 1.
Qed.

(** Packets *)
Lemma udp_frame_ok : frame_ok udp_frame.
Proof. unfold frame_ok, l4_ok. concrete. Qed.

Lemma udp_mbuf_ok : mbuf_ok udp_mbuf.
Proof. unfold mbuf_ok. concrete. Qed.

Lemma other_mbuf_ok : mbuf_ok other_mbuf.
Proof. unfold mbuf_ok. concrete. Qed.

Definition packets : packet_world := {| pk_mbufs := {[1 := udp_mbuf; 2 := other_mbuf]}; pk_stats := stats_zero; pk_wire := [] |}.

(** A poll that delivers both packets; the driver takes all it is offered. *)
Definition sample_poll : poll := {| poll_rx := [(11, udp_mbuf); (12, other_mbuf)]; poll_sent n := n |}.

Lemma sample_poll_ok (B : gmap Z rte_mbuf) : B !! 11 = None -> B !! 12 = None -> poll_ok sample_poll B.
Proof.
  intros H1 H2. split.
  - split; [by apply (bool_decide_unpack _)|]. intros id. cbn. rewrite !elem_of_cons. by intros [->|[->|?%elem_of_nil]].
  - apply Forall_cons_2; [apply udp_mbuf_ok|]. apply Forall_cons_2; [apply other_mbuf_ok|]. apply Forall_nil_2.
  - cbn. unfold DP_BURST_SIZE. lia.
  - intros n Hn. cbn. lia.
Qed.

Definition burst_array : list Z := replicate 32 0.

(** ** The router after setup *)
Definition world_ready : world :=
  final (dp_dataplane_setup sample_eth (-1) (Some "net_tap0"%string) (Some "net_tap1"%string) 2 world_configured).

Lemma setup_succeeds :
  dp_dataplane_setup sample_eth (-1) (Some "net_tap0"%string) (Some "net_tap1"%string) 2 world_configured =
    Some (0, world_ready).
Proof. apply final_run_eq; [vm_compute|]; reflexivity. Qed.
