(* ===== verification/Witnesses.v ===== *)
(** * The theorems at work on the concrete router of [Sample] *)
From Stdlib Require Import ZArith Lia.
From stdpp Require Import base list numbers option gmap strings relations.
From S2P Require Import Prelude Host Packet Parser Wire ParserSpec Api Tables Heap Snapshot SnapshotSpec LookupSpec Action ActionSpec ActionProps Rcu State StatsSpec Rules Worker WorkerSpec RunSpec WorkerProps Publish PublishSpec Runtime RuntimeSpec Port PortSpec Hooks HooksSpec Dataplane DataplaneSpec Binding BindingSpec ControlNative Sample.

(** ** Packets *)
Lemma packets_udp : pk_mbufs packets !! 1 = Some udp_mbuf.
Proof. reflexivity. Qed.

Lemma dp_process_packet_refines_witness : exists cs o,
  outcome sample_flows sample_routes udp_mbuf cs o /\
  dp_process_packet (rules_heap world_configured) meta_zero (Some 1) (Some 100) packets =
    Some ((fun _ => 1) <$> o, {| pk_mbufs := match o with Some m => <[1 := m]> (pk_mbufs packets)
                                             | None => delete 1 (pk_mbufs packets) end;
                                 pk_stats := bump cs (pk_stats packets); pk_wire := pk_wire packets |}).
Proof.
  exact (dp_process_packet_refines (rules_heap world_configured) meta_zero (Some 100) sample_flows sample_routes
    sample_view 1 udp_mbuf packets udp_mbuf_ok packets_udp).
Defined.

Lemma packets_poll_ok : poll_ok sample_poll (pk_mbufs packets).
Proof. by apply sample_poll_ok. Qed.

Lemma stats_zero_fit : stats_fit stats_zero.
Proof. intros []; by vm_compute. Qed.

Lemma worker_burst_contract_witness : exists outs pkts' w',
  worker_burst (rules_heap world_configured) meta_zero sample_poll (Some 100) burst_array packets = Some (pkts', w') /\
  Forall2 (fun m out => outcome sample_flows sample_routes m out.1 out.2) [udp_mbuf; other_mbuf] outs /\
  pk_mbufs w' = pk_mbufs packets /\
  pk_wire w' = [] ++ take (Z.to_nat (accepted sample_poll outs)) (kept outs) /\
  forall c, get_counter (pk_stats w') c =
    u64 (get_counter stats_zero c + burst_count outs (accepted sample_poll outs) c).
Proof.
  exact (worker_burst_contract (rules_heap world_configured) meta_zero (Some 100) sample_flows sample_routes
    sample_view sample_poll burst_array packets packets_poll_ok stats_zero_fit eq_refl).
Defined.

Lemma worker_burst_accounts_witness : exists pkts' w',
  worker_burst (rules_heap world_configured) meta_zero sample_poll (Some 100) burst_array packets = Some (pkts', w') /\
  balanced (pk_stats w').
Proof.
  exact (worker_burst_accounts (rules_heap world_configured) meta_zero (Some 100) sample_flows sample_routes
    sample_view sample_poll burst_array packets packets_poll_ok eq_refl balanced_zero).
Defined.

Lemma dp_parse_packet_accepts_grammar_witness :
  dp_parse_packet (Some udp_mbuf) (Some meta_zero) = Some (DP_PARSE_OK, Some (frame_meta udp_frame)).
Proof.
  apply (dp_parse_packet_accepts_grammar udp_mbuf meta_zero (frame_meta udp_frame) udp_mbuf_ok).
  split; [by split|]. exists udp_frame. split; [apply udp_frame_ok|by split].
Defined.

Lemma dp_parse_packet_safe_witness : exists r meta,
  dp_parse_packet (Some other_mbuf) (Some meta_zero) = Some (r, Some meta).
Proof. exact (dp_parse_packet_safe other_mbuf meta_zero other_mbuf_ok). Defined.

Lemma dp_parse_packet_unsupported_iff_witness :
  nb_segs other_mbuf <> 1 \/ (mbuf_contiguous other_mbuf /\ frame_unsupported (mbuf_data other_mbuf)).
Proof.
  apply (dp_parse_packet_unsupported_iff other_mbuf meta_zero other_mbuf_ok). eexists. vm_compute. reflexivity.
Defined.

Lemma dp_parse_packet_host_independent_witness :
  dp_parse_packet (Some udp_mbuf) (Some meta_zero) = @dp_parse_packet big_endian (Some udp_mbuf) (Some meta_zero).
Proof. exact (dp_parse_packet_host_independent udp_mbuf (Some meta_zero) udp_mbuf_ok). Defined.

Lemma rewrite_fits : action_fits rewrite.
Proof. unfold action_fits. concrete. Qed.

Lemma dp_apply_action_rewrites_witness : exists ck ck4,
  dp_apply_action (Some udp_mbuf) (Some (frame_meta udp_frame)) (Some rewrite) =
    Some (0, Some (mbuf_set_data (frame_bytes (rewrite_frame rewrite ck ck4 udp_frame)) udp_mbuf)) /\
  frame_ok (rewrite_frame rewrite ck ck4 udp_frame) /\ ipv4_cksum_ok (rewrite_frame rewrite ck ck4 udp_frame) /\
  l4_cksum_ok (rewrite_frame rewrite ck ck4 udp_frame) /\ (17 = 17 -> ck4 <> 0).
Proof.
  exact (dp_apply_action_rewrites udp_mbuf udp_frame rewrite udp_frame_ok eq_refl rewrite_fits eq_refl
    ltac:(discriminate)).
Defined.

Lemma udp_parsed : dp_parse_packet (Some udp_mbuf) (Some meta_zero) = Some (DP_PARSE_OK, Some (frame_meta udp_frame)).
Proof. vm_compute. reflexivity. Qed.

Lemma dp_apply_action_reparse_witness : exists m',
  dp_apply_action (Some udp_mbuf) (Some (frame_meta udp_frame)) (Some rewrite) = Some (0, Some m') /\ mbuf_ok m' /\
  dp_parse_packet (Some m') (Some meta_zero) = Some (DP_PARSE_OK, Some (rewrite_meta rewrite (frame_meta udp_frame))).
Proof.
  exact (dp_apply_action_reparse udp_mbuf meta_zero (frame_meta udp_frame) rewrite udp_mbuf_ok udp_parsed rewrite_fits
    eq_refl ltac:(discriminate)).
Defined.

Lemma dp_apply_action_untouched_witness :
  dp_apply_action (Some udp_mbuf) (Some (frame_meta udp_frame)) (Some discard) = Some (0, Some udp_mbuf).
Proof.
  exact (proj1 (dp_apply_action_untouched udp_mbuf (frame_meta udp_frame) discard ltac:(discriminate))).
Defined.

Definition rewritten_mbuf : rte_mbuf :=
  match dp_apply_action (Some udp_mbuf) (Some (frame_meta udp_frame)) (Some rewrite) with
  | Some (_, Some m) => m
  | _ => udp_mbuf
  end.

Lemma dp_apply_action_footprint_witness :
  data_len rewritten_mbuf = data_len udp_mbuf /\ same_outside (touched 14 34 17) (mbuf_data udp_mbuf) (mbuf_data rewritten_mbuf).
Proof.
  destruct (dp_apply_action_footprint udp_mbuf (frame_meta udp_frame) rewrite 0 rewritten_mbuf) as (_ & _ & Hl & Hs).
  - apply udp_mbuf_ok.
  - by vm_compute.
  - by vm_compute.
  - vm_compute. reflexivity.
  - by split.
Defined.

Definition returned : list (Z * rte_mbuf) := [(1, udp_mbuf)].

Lemma returned_distinct : distinct_from returned ∅.
Proof. split; [by apply (bool_decide_unpack _)|done]. Qed.

Lemma dp_complete_tx_releases_tail_witness :
  dp_complete_tx [5; 1] 2 1 {| pk_mbufs := mbuf_map returned ∅; pk_stats := stats_zero; pk_wire := [other_mbuf] |} =
    Some (tt, {| pk_mbufs := ∅; pk_stats := add Drop 1 (add Tx_unsent 1 (add Tx_accepted 1 stats_zero));
                 pk_wire := [other_mbuf] |}).
Proof.
  exact (dp_complete_tx_releases_tail ∅ [(5, other_mbuf)] returned [5; 1]
    {| pk_mbufs := mbuf_map returned ∅; pk_stats := stats_zero; pk_wire := [other_mbuf] |} returned_distinct eq_refl eq_refl).
Defined.

(** ** Rules *)
Lemma dp_lookup_packet_decision_witness : exists res p,
  dp_lookup_packet (rules_heap world_configured) (frame_meta udp_frame) (Some 100) = Some (res, p).
Proof.
  destruct (view_snapshot _ _ _ _ sample_view) as [gen Hrep].
  destruct (dp_lookup_packet_decision (rules_heap world_configured) 100 gen sample_flows sample_routes
    (frame_meta udp_frame) Hrep (view_rules _ _ _ _ sample_view) ltac:(by vm_compute)) as (res & p & Hrun & _).
  by exists res, p.
Defined.

Abbreviation build_world := {| heap := ∅; ctl := ctl_zero |}.

Lemma empty_allocator_ok : allocator_ok (sample_allocate 100 1) (∅ : gmap Z hobj).
Proof. by apply sample_allocator_ok. Qed.

Abbreviation on_sample thm := (thm (sample_allocate 100 1) 0 (∅ : gmap Z hobj) ctl_zero empty_allocator_ok sample_flows
  sample_routes 1 sample_flows_fit sample_routes_fit (Some sample_flows) (Some sample_routes)
  (array_of_self sample_flows) (array_of_self sample_routes) sample_limits) (only parsing).

Lemma dp_snapshot_build_refines_witness : exists ret result w,
  run_build (sample_allocate 100 1) 0 ∅ ctl_zero sample_flows sample_routes 1 (Some sample_flows) (Some sample_routes) =
    Some (ret, result, w) /\
  forall sa, result = Some sa -> ret = 0 /\ rules_ok sample_flows sample_routes /\ ∅ ⊆ heap w /\ ctl w = ctl_zero /\
    forall h meta, heap w ⊆ h -> fits 32 (dst_ipv4 meta) ->
      exists answer, dp_lookup_packet h meta (Some sa) = Some answer /\
        decides h answer (lookup_spec sample_flows sample_routes meta).
Proof. exact (on_sample dp_snapshot_build_refines). Defined.

Lemma dp_snapshot_build_complete_witness : exists ret result w,
  run_build (sample_allocate 100 1) 0 ∅ ctl_zero sample_flows sample_routes 1 (Some sample_flows) (Some sample_routes) =
    Some (ret, result, w) /\
  ((exists sa, result = Some sa) <-> within_limits sample_flows sample_routes /\ rules_ok sample_flows sample_routes).
Proof.
  assert (forall r, r ∈ build_requests 0 sample_flows sample_routes 1 -> exists a, sample_allocate 100 1 r = inr a) as Ha.
  { intros r Hr. unfold sample_allocate. destruct (index_of id _ r) as [i|] eqn:Hi; [by eexists|].
    apply index_of_None in Hi. destruct Hi. by rewrite list_fmap_id. }
  destruct (dp_snapshot_build_complete (sample_allocate 100 1) 0 (∅ : gmap Z hobj) ctl_zero empty_allocator_ok sample_flows
    sample_routes 1 sample_flows_fit sample_routes_fit (Some sample_flows) (Some sample_routes)
    (array_of_self sample_flows) (array_of_self sample_routes) Ha) as (ret & result & w & Hrun & Hiff & _); [done|done|].
  exists ret, result, w. split; [exact Hrun|exact Hiff].
Defined.

Definition built_world : rules_world :=
  from_option snd build_world (run_build (sample_allocate 100 1) 0 ∅ ctl_zero sample_flows sample_routes 1
    (Some sample_flows) (Some sample_routes)).

Lemma built_run : run_build (sample_allocate 100 1) 0 ∅ ctl_zero sample_flows sample_routes 1
  (Some sample_flows) (Some sample_routes) = Some (0, Some 100, built_world).
Proof. reflexivity. Qed.

Lemma dp_snapshot_build_free_witness : exists s, get_snapshot (heap built_world) 100 = Some s /\
  dp_snapshot_free (Some 100) true true built_world =
    Some (tt, {| heap := ∅; ctl := free_ctl s true true ctl_zero |}).
Proof. exact (on_sample dp_snapshot_build_free 100 built_world true true built_run). Defined.

(** A rule set with a duplicate. *)
Definition duplicated : list dp_route_rule := sample_routes ++ sample_routes.

Lemma duplicated_fit : Forall route_fits duplicated.
Proof. apply Forall_app. split; apply sample_routes_fit. Qed.

Lemma duplicated_limits : within_limits sample_flows duplicated.
Proof. by vm_compute. Qed.

Definition wide_allocate : allocator := fun r =>
  match index_of id (build_requests 0 sample_flows duplicated 1) r with
  | Some i => inr (100 + Z.of_nat i)
  | None => inl ENOMEM
  end.

Lemma wide_allocator_ok : allocator_ok wide_allocate (∅ : gmap Z hobj).
Proof.
  split.
  - done.
  - intros r r' a. unfold wide_allocate. destruct (index_of id _ r) as [i|] eqn:Hi; [|done].
    destruct (index_of id _ r') as [j|] eqn:Hj; [|done]. intros [= <-] [= E]. assert (j = i) as -> by lia.
    apply index_of_Some in Hi as (x & Hx & <-), Hj as (y & Hy & <-). congruence.
  - intros r e. unfold wide_allocate. destruct (index_of _ _ _); [done|]. by intros [= <-].
Qed.

Lemma refused_run : run_build wide_allocate 0 ∅ ctl_zero sample_flows duplicated 1
  (Some sample_flows) (Some duplicated) = Some (- EEXIST, None, build_world).
Proof. reflexivity. Qed.

Lemma dp_snapshot_build_failure_witness :
  - EEXIST < 0 /\ build_world = build_world /\ fail_reason wide_allocate 0 sample_flows duplicated 1 (- EEXIST).
Proof.
  exact (dp_snapshot_build_failure wide_allocate 0 ∅ ctl_zero wide_allocator_ok sample_flows duplicated 1 sample_flows_fit
    duplicated_fit (Some sample_flows) (Some duplicated) (array_of_self _) (array_of_self _) duplicated_limits
    (- EEXIST) build_world refused_run).
Defined.

(** ** Publication *)
Lemma idle_inv : inv ∅ sys_idle.
Proof. apply sys_idle_inv. Qed.

Lemma reading_held : held sys_reading !! 0 = Some (Some 100).
Proof. reflexivity. Qed.

Lemma publish_no_use_after_free_witness : exists flows routes, rules_ok flows routes /\
  (active_rules (dp (sys sys_reading)) = Some 100 \/ exists pub, publishing pub (writer sys_reading) /\ pub_old pub = Some 100) /\
  forall meta, fits 32 (dst_ipv4 meta) ->
    exists answer, dp_lookup_packet (rules_heap (sys sys_reading)) meta (Some 100) = Some answer /\
      decides (rules_heap (sys sys_reading)) answer (lookup_spec flows routes meta).
Proof. exact (publish_no_use_after_free ∅ sys_idle sys_reading 0 100 idle_inv reach_reading reading_held). Defined.

Lemma publish_no_leak_witness : exists sa hs flows routes, active_rules (dp (sys sys_reading)) = Some sa /\
  rules_heap (sys sys_reading) = hs ∪ ∅ /\ hs ##ₘ ∅ /\
  piece hs sa (rules_generation (dstats (dp (sys sys_reading)))) flows routes.
Proof. exact (publish_no_leak ∅ sys_idle sys_reading idle_inv reach_reading eq_refl). Defined.

Lemma publish_can_finish_witness : exists c1 w',
  rtc (fun a b => exists r, reports r a b) sys_waiting c1 /\ publish_ready sample_token (sys c1) = true /\
  publish_finish sample_publication (sys c1) = Some ((0, pub_generation sample_publication), w').
Proof.
  exact (proj2 (publish_can_finish ∅ sys_idle sys_waiting sample_publication idle_inv reach_waiting) sample_token eq_refl).
Defined.

Lemma reading_inv : inv ∅ sys_reading.
Proof. exact (steps_inv ∅ _ _ idle_inv reach_reading). Qed.

(** Nobody acts before the token; then every pending reader reports. *)
Lemma dp_publish_rules_steps_witness : exists ret out c', rtc step sys_reading c' /\
  dp_publish_rules (mret tt) drain (sample_allocate 200 2) (Some sample_flows) 2
    (Some sample_routes) 2 (Some 0) (sys sys_reading) = Some ((ret, out), sys c').
Proof.
  destruct (dp_publish_rules_steps ∅ sys_idle sys_reading (rules_of 200 2) (mret tt) drain 0
    idle_inv reach_reading eq_refl (rules_of_ok 200 2 _ registered_heap_free)
    (drain_others_ok ∅ sys_reading reading_inv eq_refl))
    as (ret & out & c' & _ & Hsteps & Hrun & _).
  exists ret, out, c'. split; [exact Hsteps|exact Hrun].
Defined.

Lemma started_rules_ok : rule_set_ok (rules_of 100 1) (rules_heap world_started).
Proof. apply rules_of_ok. intros i _. by rewrite (proj1 world_started_facts). Qed.

Lemma dp_configure_rules_contract_witness : exists ret w', configure world_started = Some (ret, w').
Proof.
  destruct (dp_configure_rules_contract sample_qsbr (rules_of 100 1) world_started
    sample_qsbr_ok started_no_readers started_rules_ok) as (ret & w' & Hrun & _).
  exists ret, w'. exact Hrun.
Defined.

Lemma dp_rules_teardown_restores_witness : exists w', dp_rules_teardown world_configured = Some (tt, w') /\
  rules_heap w' = ∅ /\ active_rules (dp w') = None /\ rules_qsbr (dp w') = None /\
  rules_configured (dp w') = false /\ writer_active (dp w') = false /\ qsbr_freed (dstats (dp w')) = 1.
Proof. exact (dp_rules_teardown_restores ∅ sys_idle sys_idle idle_inv (rtc_refl step sys_idle) eq_refl). Defined.

(** ** Workers *)
Definition turn_of (p : poll) : turn := {| turn_others w := w; turn_poll := p |}.

Definition ready_qsbr : rcu := match rules_qsbr (dp world_ready) with Some q => q | None => rcu_new 0 end.
Definition ready_ctx : dp_worker_ctx := match workers (dp world_ready) !! 0%nat with Some c => c | None => ctx_zero end.

Definition stop_turn : turn := {| turn_others w := set_dp (set_stop true (dp w)) w; turn_poll := sample_poll |}.

Lemma stop_turn_ok i w : is_Some (rules_qsbr (dp w)) -> turns_ok meta_zero i [stop_turn] w.
Proof. intros Hq. split; [by split|]. intros E. discriminate E. Qed.

Lemma ready_turns : turns_ok meta_zero 0 [turn_of sample_poll; stop_turn] (registered 0 0 ready_qsbr world_ready).
Proof.
  split; [split; [reflexivity|reflexivity|by eexists]|]. intros _. split.
  - split; [exists sample_flows, sample_routes; exact sample_view|by apply sample_poll_ok].
  - intros pkts pkts' w' Hrun. exact (stop_turn_ok 0 w' (worker_turn_qsbr _ _ _ _ _ _ _ Hrun)).
Qed.

Lemma dp_worker_run_completes_witness : exists w' ctx',
  dp_worker_run meta_zero (-1) 0 [turn_of sample_poll; stop_turn] burst_array world_ready = Some (0, w') /\
  workers (dp w') !! 0%nat = Some ctx' /\ balanced (ctx_stats ctx') /\
  result ctx' = 0 /\ reader_registered ctx' = false /\ mbufs w' = mbufs world_ready.
Proof.
  apply (dp_worker_run_completes meta_zero 0 (-1) [turn_of sample_poll; stop_turn] burst_array world_ready ready_ctx ready_qsbr);
    [reflexivity|by vm_compute|reflexivity|by split|apply balanced_zero|reflexivity|exact ready_turns].
Defined.

Lemma dp_worker_run_gives_up_witness : exists ret w',
  dp_worker_run meta_zero 0 0 [turn_of sample_poll; stop_turn] burst_array world_ready = Some (ret, w') /\ ret < 0 /\
  workers (dp w') !! 0%nat = Some (set_result ret ready_ctx) /\ stop (dp w') = true /\
  active_workers (dp w') = active_workers (dp world_ready) /\
  registered_readers (dp w') = registered_readers (dp world_ready) /\ mbufs w' = mbufs world_ready /\
  wire w' = wire world_ready.
Proof.
  apply (dp_worker_run_gives_up meta_zero 0 0 [turn_of sample_poll; stop_turn] burst_array world_ready ready_ctx);
    [reflexivity|by left|by vm_compute].
Defined.

(** Remote launches that succeed, workers that stop at once, and one injected failure. *)
Definition launches (failure : Z) : launch_env := {|
  rte_eal_remote_launch _ := mret 0; rte_eal_wait_lcore _ := mret 0; test_launch_failure := failure;
  run_worker0 := mret 0 |}.

Lemma launches_ok failure : launch_ok (launches failure).
Proof. split; [intros ?..|]; intros w; exists 0, w; split_and!; done. Qed.

Lemma ready_workers : workers (dp world_ready) = table placed [0; 1].
Proof. reflexivity. Qed.

Lemma ready_all_idle : Forall idle (workers (dp world_ready)).
Proof. rewrite ready_workers. by apply table_idle. Qed.

Lemma ready_none_up j : ~ up world_ready j.
Proof.
  intros (ctx & Hctx & Hl). pose proof (Forall_lookup_1 _ _ _ _ ready_all_idle Hctx) as [Hno _]. congruence.
Qed.

Lemma dp_dataplane_run_joins_witness : exists ret w', dp_dataplane_run (launches 1) world_ready = Some (ret, w') /\
  ret <= 0 /\ (forall j, ~ up w' j) /\ running (dp w') = false /\ ran (dp w') = true /\
  (1 <= 1 < 2 -> ret < 0 /\ stop (dp w') = true).
Proof.
  apply (dp_dataplane_run_joins (launches 1) (launches_ok 1) world_ready);
    [reflexivity|reflexivity|by vm_compute|by vm_compute; lia|exact ready_none_up].
Defined.

(** ** Setup and teardown *)
Lemma sample_driver_ok : driver_ok sample_eth.
Proof. split; [|done..]. intros name e. cbn. by destruct (String.eqb _ _). Qed.

Lemma sample_cooperative : cooperative sample_eth.
Proof. done. Qed.

Lemma configured_idle : idle_upto (worker_count (dp world_configured)) (workers (dp world_configured)).
Proof. split; [done|]. split; [vm_compute; lia|]. intros k ctx Hk. vm_compute in Hk. lia. Qed.

Lemma setup_workers_maps_witness : exists r w', setup_workers sample_eth 2 world_configured = Some (r, w').
Proof.
  destruct (setup_workers_maps sample_eth 2 world_configured ltac:(lia) eq_refl configured_idle) as (r & w' & Hrun & _).
  exists r, w'. exact Hrun.
Defined.

Lemma dp_dataplane_setup_outcome_witness : exists ret w',
  dp_dataplane_setup sample_eth 1 (Some "net_tap0"%string) (Some "net_tap1"%string) 2 world_configured = Some (ret, w').
Proof.
  destruct (dp_dataplane_setup_outcome sample_eth 1 (Some "net_tap0"%string) (Some "net_tap1"%string) 2 world_configured
    sample_driver_ok ltac:(lia) eq_refl ltac:(by split) eq_refl configured_idle) as (ret & w' & Hrun & _).
  exists ret, w'. exact Hrun.
Defined.

Lemma ready_within : within_array (dp world_ready).
Proof. split; vm_compute; [done|lia]. Qed.

Lemma ready_idle : workers_idle (dp world_ready).
Proof.
  split; [reflexivity|]. split; [reflexivity|]. intros i ctx _ Hctx.
  exact (Forall_lookup_1 _ _ _ _ ready_all_idle Hctx).
Qed.

Lemma ready_inv : inv ∅ {| sys := world_ready; held := ∅; writer := Idle |}.
Proof.
  destruct (setup_run sample_eth (-1) (Some "net_tap0"%string) (Some "net_tap1"%string) 2 world_configured
    sample_driver_ok ltac:(lia) eq_refl ltac:(by split) eq_refl configured_idle) as (ret & w' & Hrun & Hcase).
  destruct (run_unique _ _ _ _ _ setup_succeeds Hrun) as [-> ->].
  destruct Hcase as [[? _]|(_ & _ & _ & _ & _ & _ & p & rxp & txp & i & _ & _ & ->)]; [done|].
  apply inv_configured, idle_inv.
Qed.

Lemma dp_dataplane_teardown_pool_safe_witness : exists ret w', dp_dataplane_teardown sample_eth world_ready = Some (ret, w') /\
  rules_heap w' = ∅.
Proof.
  destruct (dp_dataplane_teardown_pool_safe sample_eth ∅ world_ready ltac:(done) eq_refl ready_within ready_idle
    (or_introl ready_inv)) as (ret & w' & Hrun & _ & Hh & _).
  exists ret, w'. split; [exact Hrun|exact Hh].
Defined.

Lemma configured_workers_idle : workers_idle (dp world_configured).
Proof. split; [reflexivity|]. split; [reflexivity|]. apply configured_idle. Qed.

Lemma setup_teardown_cleanup_witness : exists ret w1 w2 w3,
  dp_dataplane_setup sample_eth 1 (Some "net_tap0"%string) (Some "net_tap1"%string) 2 world_configured = Some (ret, w1) /\
  dp_dataplane_teardown sample_eth w1 = Some (0, w2) /\ rules_heap w2 = ∅ /\ released (dp w2) /\
  dp_runtime_cleanup sample_eal w2 = Some (0, w3) /\ initialized (dp w3) = false.
Proof.
  exact (setup_teardown_cleanup sample_eth sample_eal 1 (Some "net_tap0"%string) (Some "net_tap1"%string) 2 ∅ world_configured
    sample_driver_ok sample_cooperative ltac:(lia) eq_refl eq_refl eq_refl ltac:(by split) eq_refl ltac:(split; vm_compute; [done|lia])
    configured_workers_idle (or_introl idle_inv)).
Defined.

Lemma dp_dataplane_teardown_refuses_witness :
  dp_dataplane_teardown sample_eth (set_dp (set_running true (dp world_ready)) world_ready) =
    Some (- EBUSY, set_dp (set_running true (dp world_ready)) world_ready).
Proof.
  apply (dp_dataplane_teardown_refuses sample_eth (set_dp (set_running true (dp world_ready)) world_ready));
    [split; vm_compute; [done|lia]|by left].
Defined.

(** ** The process *)
Definition stale_reports : list dp_worker_stats := replicate 4 (worker_report ctx_zero).
Definition no_stats : dp_stats :=
  {| st_packets := stats_zero; st_worker_count := 0; st_workers := stale_reports; st_rules := ctl_zero |}.

Lemma dp_dataplane_get_stats_totals_witness : exists out,
  dp_dataplane_get_stats (dp world_ready) stale_reports (Some no_stats) = Some (0, Some out) /\ balanced (st_packets out).
Proof.
  destruct (dp_dataplane_get_stats_totals (dp world_ready) stale_reports no_stats eq_refl ltac:(vm_compute; lia)
    ltac:(vm_compute; lia)) as (out & Hrun & _ & _ & _ & Hb).
  exists out. split; [exact Hrun|]. apply Hb. apply Forall_cons_2; [apply balanced_zero|].
  apply Forall_cons_2; [apply balanced_zero|]. apply Forall_nil_2.
Defined.

Lemma dp_runtime_cleanup_guard_witness :
  (released (dp world_ready) /\ dp_runtime_cleanup sample_eal world_ready =
     Some (0, set_dp (set_initialized false (dp world_ready)) world_ready)) \/
  (~ released (dp world_ready) /\ dp_runtime_cleanup sample_eal world_ready = Some (- EBUSY, world_ready)).
Proof. exact (dp_runtime_cleanup_guard sample_eal world_ready ready_within eq_refl). Defined.

Lemma dp_test_runtime_cleanup_guard_busy_witness :
  dp_test_runtime_cleanup_guard sample_eal 3 world_initial = Some (- EBUSY, world_initial).
Proof. exact (dp_test_runtime_cleanup_guard_busy sample_eal world_initial 3 ltac:(split; vm_compute; [done|lia])). Defined.

Lemma dp_runtime_init_once_witness : exists ret w',
  dp_runtime_init sample_eal 1 (Some ["flow-router"%string]) world_initial = Some (ret, w') /\
  forall env' argc' argv', dp_runtime_init env' argc' argv' w' = Some (- EALREADY, w').
Proof.
  destruct (dp_runtime_init_once sample_eal 1 ["flow-router"%string] world_initial eq_refl eq_refl ltac:(lia)
    ltac:(discriminate)) as (ret & w' & Hrun & _ & _ & _ & Hagain).
  exists ret, w'. split; [exact Hrun|exact Hagain].
Defined.

(** ** The cgo boundary *)
Definition go_action (a : dp_rule_action) : Action := {|
  Type_ := act_type a; RewriteMask := act_rewrite_mask a; SrcIPv4 := act_src_ipv4 a;
  DstIPv4 := act_dst_ipv4 a; SrcPort := act_src_port a; DstPort := act_dst_port a |}.
Definition go_snapshot : RuleSnapshot := {|
  Flows := (fun r => {| FSrcIPv4 := flow_src_ipv4 r; FDstIPv4 := flow_dst_ipv4 r; FSrcPort := flow_src_port r;
    FDstPort := flow_dst_port r; L4Proto := flow_l4_proto r; FAction := go_action (flow_action r) |}) <$> sample_flows;
  Routes := (fun r => {| Prefix := route_prefix r; Depth := route_depth r; RAction := go_action (route_action r) |})
    <$> sample_routes |}.

(** Blocks at the lowest free addresses of a small arena. *)
Definition sample_calloc : callocator := fun h _ _ =>
  if decide (h !! 1000 = None) then Some 1000 else if decide (h !! 1001 = None) then Some 1001
  else if decide (h !! 1002 = None) then Some 1002 else None.

Lemma sample_calloc_ok : callocator_ok sample_calloc.
Proof. unfold callocator_ok, sample_calloc. intros h _ _ a. repeat case_decide; naive_solver. Qed.

Lemma go_snapshot_fits : snapshot_fits go_snapshot.
Proof. split; [exact sample_flows_fit|exact sample_routes_fit]. Qed.

Lemma started_allocator_ok : allocator_ok (sample_allocate 100 1) (rules_heap world_started).
Proof. rewrite (proj1 world_started_facts). apply empty_allocator_ok. Qed.

Lemma newRuleArrays_roundtrip_witness : exists r h', newRuleArrays sample_calloc go_snapshot ∅ = Some (r, h') /\
  match r with
  | inl _ => h' = ∅
  | inr arrays => flows_arg (arr_flows arrays) h' = Some (Some sample_flows) /\
      routes_arg (arr_routes arrays) h' = Some (Some sample_routes) /\ release arrays h' = Some (tt, ∅)
  end.
Proof.
  destruct (newRuleArrays_roundtrip sample_calloc go_snapshot ∅ sample_calloc_ok) as (r & h' & Hrun & Hr).
  exists r, h'. split; [exact Hrun|]. destruct r as [e|arrays]; [apply Hr|].
  destruct Hr as (Hf & Hro & _ & Hrel). split_and!; [exact Hf|exact Hro|exact Hrel].
Defined.

Lemma build_argv_terminated_witness : exists p h', build_argv sample_calloc [501; 502] ∅ = Some (p, h') /\
  match p with
  | None => h' = ∅
  | Some a => h' = <[a := Argv [Some 501; Some 502; None]]> ∅ /\ dp_argv_free_array p h' = Some (tt, ∅)
  end.
Proof.
  destruct (build_argv_terminated sample_calloc [501; 502] ∅ sample_calloc_ok) as (p & h' & Hrun & Hp).
  exists p, h'. split; [exact Hrun|]. destruct p as [a|]; [|exact Hp]. destruct Hp as (_ & -> & Hfree).
  split; [reflexivity|exact Hfree].
Defined.

Lemma ConfigureRules_contract_witness : exists r w',
  ConfigureRules sample_calloc sample_qsbr (sample_allocate 100 1) go_snapshot world_started ∅ = Some (r, (w', ∅)).
Proof.
  destruct (ConfigureRules_contract sample_calloc sample_qsbr (sample_allocate 100 1) go_snapshot world_started ∅
    sample_calloc_ok sample_qsbr_ok started_allocator_ok go_snapshot_fits started_no_readers) as (r & w' & Hrun & _).
  exists r, w'. exact Hrun.
Defined.

(** ** Self tests *)
Definition sample_tx_test : tx_test_env := {|
  tx_pool_create _ _ _ _ _ _ := Some 9; tx_buf_size := 2176; tx_socket_id := 0;
  tx_alloc_bulk _ n := if n =? 4 then Some [(31, other_mbuf); (32, other_mbuf); (33, other_mbuf); (34, other_mbuf)] else None |}.

Lemma sample_bulk_ok : bulk_ok sample_tx_test.
Proof.
  intros p n bulk. cbn [tx_alloc_bulk sample_tx_test]. destruct (Z.eqb_spec n 4) as [->|]; [|done]. intros [= <-].
  split; [done|]. by apply (bool_decide_unpack _).
Qed.

Lemma dp_test_tx_partial_ownership_passes_witness :
  dp_test_tx_partial_ownership sample_tx_test (dp world_configured) = Some 0.
Proof. rewrite (dp_test_tx_partial_ownership_passes sample_tx_test (dp world_configured) sample_bulk_ok). reflexivity. Defined.
