(* ===== verification/GoWitnesses.v ===== *)
(** * The control plane's theorems at work on the concrete router of [Sample] *)
From Stdlib Require Import ZArith Lia.
From stdpp Require Import base list numbers option gmap strings relations.
From S2P Require Import Prelude Host Packet Api Tables Heap Snapshot SnapshotSpec Rcu State Binding BindingSpec Publish PublishSpec BurstSpec GoStats GoSlice Control ControlSpec ControlRefine ControlNative Documents DocumentsSpec Runtime Port PortSpec Lifecycle LifecycleSpec Sample Witnesses.

(** ** The manager *)
Definition manager_action (a : dp_rule_action) : RuleAction := {|
  Type_ := act_type a; RewriteMask := act_rewrite_mask a; SrcIPv4 := act_src_ipv4 a;
  DstIPv4 := act_dst_ipv4 a; SrcPort := act_src_port a; DstPort := act_dst_port a |}.
Definition manager_flows : list FlowRule := (fun r => {| FSrcIPv4 := flow_src_ipv4 r; FDstIPv4 := flow_dst_ipv4 r;
  FSrcPort := flow_src_port r; FDstPort := flow_dst_port r; L4Proto := flow_l4_proto r;
  FAction := manager_action (flow_action r) |}) <$> sample_flows.
Definition manager_routes : list RouteRule := (fun r => {| Prefix := route_prefix r; Depth := route_depth r;
  RAction := manager_action (route_action r) |}) <$> sample_routes.

(** The rules lie in array 0; the slices have all of it. *)
Definition manager_memory : go_heap := {|
  flow_mem := {| arrays := {[0%nat := manager_flows]}; next_array := 1 |};
  route_mem := {| arrays := {[0%nat := manager_routes]}; next_array := 1 |} |}.
Definition manager_rules : RuleSnapshot := {|
  Flows := {| s_array := Some 0%nat; s_off := 0; s_len := 2; s_cap := 2 |};
  Routes := {| s_array := Some 0%nat; s_off := 0; s_len := 2; s_cap := 2 |} |}.
Definition doubling (cap _ : nat) : nat := cap.

Definition manager_over (w : world) (open : bool) (g : Z) : runtime (world * c_heap) := {|
  memory := manager_memory; currentRules := manager_rules; rt_generation := g; rulesOpen := open;
  rt_info := Go.no_info; rt_stats := Go.no_stats; native := (w, ∅) |}.
Definition manager : runtime (world * c_heap) := manager_over world_configured true 1.

Lemma manager_fit : rules_fit manager_flows manager_routes.
Proof. split; [exact sample_flows_fit|exact sample_routes_fit]. Qed.

Lemma manager_valid : validate_elements manager_flows manager_routes = None.
Proof. reflexivity. Qed.

Lemma manager_heap_ok : heap_ok manager_memory.
Proof.
  split; intros a [x Hx]; cbn in Hx;
    apply lookup_singleton_Some in Hx as [<- _]; cbn; lia.
Qed.

Lemma manager_shows : shows_in manager_rules manager_memory manager_flows manager_routes.
Proof. by split. Qed.

Lemma manager_coherent : coherent native_shows manager manager_flows manager_routes.
Proof.
  split; [exact manager_heap_ok|exact manager_shows|exact manager_fit|exact manager_valid|].
  exists ∅, sys_idle. destruct sys_idle_inv as (Hinv & _ & Hact). split; [done|]. split; [exact Hinv|]. split; [done|exact Hact].
Qed.

(** Addresses above everything in the heap. *)
Definition top (h : gmap Z hobj) : Z := foldr Z.max 0 (map_to_list h).*1 + 1.

Lemma top_free h i : h !! (top h + Z.of_nat i) = None.
Proof.
  destruct (h !! _) as [o|] eqn:E; [|done]. exfalso. apply elem_of_map_to_list, (list_elem_of_fmap_2 fst) in E. cbn in E.
  assert (forall l x, x ∈ l -> x <= foldr Z.max 0 l) as Hmax.
  { induction l as [|y l IH]; intros x; [by intros ?%elem_of_nil|]. cbn. intros [->|?%IH]%elem_of_cons; lia. }
  apply Hmax in E. unfold top in E. lia.
Qed.

Definition fresh_allocate (g : Z) (h : gmap Z hobj) : allocator := sample_allocate (top h) g.

Lemma fresh_allocate_ok g h : allocator_ok (fresh_allocate g h) h.
Proof. apply sample_allocator_ok. intros i _. apply top_free. Qed.

Abbreviation sample_publish := (native_publish sample_calloc (fresh_allocate 2) (mret tt) drain).

#[local] Instance sample_publish_ok : NativeOk sample_publish native_shows.
Proof. exact (native_publish_ok _ _ _ _ sample_calloc_ok (fresh_allocate_ok 2) drain_others_ok). Qed.

Definition some_flow : FlowRule := {| FSrcIPv4 := 0xc0000203; FDstIPv4 := 0xcb007115; FSrcPort := 1; FDstPort := 2;
  L4Proto := 17; FAction := manager_action forward |}.
Definition some_ops : list rule_op := [Add_flow some_flow; Replace manager_rules;
  Delete_route {| KPrefix := 0x0a000000; KDepth := 8 |}].

Lemma some_flow_fits : rules_fit [some_flow] [].
Proof. split; [|apply Forall_nil_2]. unfold native_flows, some_flow, flow_fits, action_fits. concrete. Qed.

Lemma some_ops_ok : Forall (op_ok (memory manager)) some_ops.
Proof.
  apply Forall_cons_2; [exact some_flow_fits|]. apply Forall_cons_2; [|apply Forall_cons_2; [exact I|apply Forall_nil_2]].
  exists manager_flows, manager_routes. split; [exact manager_shows|exact manager_fit].
Qed.

Lemma generation_fits : fits 64 (rt_generation manager).
Proof. by vm_compute. Qed.

Lemma control_decides_packets_witness : exists errs r' t',
  run_ops sample_publish doubling some_ops manager = Some (errs, r') /\
  replay manager_memory some_ops errs (ControlRefine.table manager_flows manager_routes) = Some t'.
Proof.
  destruct (control_decides_packets sample_calloc (fresh_allocate 2) (mret tt) drain sample_calloc_ok (fresh_allocate_ok 2)
    drain_others_ok doubling manager manager_flows manager_routes some_ops manager_coherent generation_fits some_ops_ok)
    as (errs & r' & t' & Hrun & Hrep & _).
  exists errs, r', t'. split; [exact Hrun|exact Hrep].
Defined.

Lemma control_refines_witness : exists err r', run_op sample_publish doubling (Add_flow some_flow) manager = Some (err, r').
Proof.
  destruct (control_refines sample_publish doubling native_shows manager manager_flows manager_routes (Add_flow some_flow)
    manager_coherent some_flow_fits) as (err & r' & Hrun & _).
  exists err, r'. exact Hrun.
Defined.

Lemma control_history_witness : exists errs r', run_ops sample_publish doubling some_ops manager = Some (errs, r') /\
  rt_generation r' = u64 (1 + successes errs).
Proof.
  destruct (control_history sample_publish doubling native_shows manager manager_flows manager_routes some_ops
    manager_coherent generation_fits some_ops_ok) as (errs & r' & flows' & routes' & Hrun & _ & _ & Hg).
  exists errs, r'. split; [exact Hrun|exact Hg].
Defined.

(** A replacement by the rules already there succeeds. *)
Definition replaced : runtime (world * c_heap) :=
  from_option snd manager (run_op sample_publish doubling (Replace manager_rules) manager).

Lemma replace_succeeds : run_op sample_publish doubling (Replace manager_rules) manager = Some (None, replaced).
Proof.
  assert (fst <$> run_op sample_publish doubling (Replace manager_rules) manager = Some None) as E by (vm_compute; reflexivity).
  unfold replaced. destruct (run_op _ _ _ _) as [[err r']|]; [|done]. cbn in E. by injection E as ->.
Qed.

(** The caller's arrays, overwritten. *)
Definition scribbled (h : go_heap) : go_heap := {|
  flow_mem := {| arrays := <[0%nat := []]> (arrays (flow_mem h)); next_array := next_array (flow_mem h) |};
  route_mem := {| arrays := <[0%nat := []]> (arrays (route_mem h)); next_array := next_array (route_mem h) |} |}.

Lemma scribbled_ok h : heap_ok h -> (0 < next_array (flow_mem h))%nat -> (0 < next_array (route_mem h))%nat -> heap_ok (scribbled h).
Proof.
  intros [Hf Hr] Hnf Hnr. split; intros a; cbn; rewrite lookup_insert_is_Some; intros [<-|[_ ?]]; auto.
Qed.

Lemma replaced_later : later manager_memory (memory replaced).
Proof.
  destruct (run_op_refines sample_publish doubling native_shows manager manager_flows manager_routes (Replace manager_rules)
    manager_coherent) as (err & r' & Hrun & Hl & _); [exists manager_flows, manager_routes; split; [done|exact manager_fit]|].
  destruct (run_unique _ _ _ _ _ replace_succeeds Hrun) as [_ <-]. exact Hl.
Qed.

Lemma replaced_scribbled : heap_ok (scribbled (memory replaced)).
Proof. destruct replaced_later as ([_ Hf] & [_ Hr] & Hok). apply scribbled_ok; [done|exact Hf|exact Hr]. Qed.

Lemma control_private_witness : exists flows' routes', coherent native_shows (set_memory (scribbled (memory replaced)) replaced) flows' routes'.
Proof.
  destruct (control_private sample_publish doubling native_shows manager manager_flows manager_routes (Replace manager_rules)
    replaced (scribbled (memory replaced)) manager_coherent
    (ex_intro _ manager_flows (ex_intro _ manager_routes (conj manager_shows manager_fit))) replace_succeeds replaced_scribbled)
    as (flows' & routes' & _ & Hco).
  - intros a Ha. change (1 <= a)%nat in Ha. apply lookup_insert_ne. lia.
  - intros a Ha. change (1 <= a)%nat in Ha. apply lookup_insert_ne. lia.
  - exists flows', routes'. exact Hco.
Defined.

Lemma PublishRules_contract_witness : exists r c',
  PublishRules sample_calloc (fresh_allocate 2 (rules_heap (sys sys_idle))) (mret tt) drain go_snapshot (sys sys_idle) ∅ =
    Some (r, (sys c', ∅)) /\ writer c' = Idle.
Proof.
  destruct (PublishRules_contract sample_calloc (fresh_allocate 2 (rules_heap (sys sys_idle))) (mret tt) drain go_snapshot ∅
    sys_idle ∅ sample_calloc_ok idle_inv eq_refl (fresh_allocate_ok 2 _) go_snapshot_fits
    (drain_others_ok ∅ sys_idle idle_inv eq_refl)) as (r & c' & Hrun & Hidle & _).
  exists r, c'. split; [exact Hrun|exact Hidle].
Defined.

(** ** A burst during a publication: the exchange happens before the second
    packet, the wait starts before the third. *)
Definition at_packet (k : nat) : system :=
  match k with O => sys_reading | S O => sys_exchanged | _ => sys_waiting end.

Lemma at_packet_steps k : rtc (step_under 0 100) sys_reading (at_packet k).
Proof.
  assert (step_under 0 100 sys_reading sys_exchanged) as H1 by (split; [apply sys_reading_swap|reflexivity]).
  assert (step_under 0 100 sys_exchanged sys_waiting) as H2 by (split; [apply sys_exchanged_start|reflexivity]).
  destruct k as [|[|k]]; [apply rtc_refl|by apply rtc_once|]. eapply rtc_l; [exact H1|]. by apply rtc_once.
Qed.

Lemma burst_sees_one_generation_witness :
  interleaved_loop meta_zero (fun k => rules_heap (sys (at_packet k))) (Some 100) 0 2 [1; 2] 0 packets =
    Worker.process_loop (rules_heap (sys sys_reading)) meta_zero (Some 100) 0 2 [1; 2] 0 packets.
Proof.
  exact (proj1 (burst_sees_one_generation ∅ sys_idle sys_reading 0 100 at_packet meta_zero 2 [1; 2] packets
    idle_inv reach_reading reading_held at_packet_steps)).
Defined.

(** ** Documents *)

(** A resolver that knows one address and one network. *)
#[local] Instance small_net : Net := {|
  ParseIP text := if String.eqb text "192.0.2.2" then Some (replicate 10 0 ++ [255; 255; 192; 0; 2; 2]) else None;
  ParseCIDR text := if String.eqb text "10.1.2.3/24"
    then Some (replicate 10 0 ++ [255; 255; 10; 1; 2; 3], ([10; 1; 2; 0], [255; 255; 255; 0])) else None |}.

#[local] Instance small_net_ok : NetOk small_net.
Proof.
  split.
  - intros text ip. cbn. case_match; [|done]. intros [= <-]. split; [done|]. repeat apply Forall_cons_2; by vm_compute.
  - intros text address network mask. cbn. case_match; [|done]. intros [= <- <- <-].
    exists 24, 4%nat, [10; 1; 2; 3]. split_and!; try done; [by left|]. repeat apply Forall_cons_2; by vm_compute.
Qed.

Definition no_rewrite (t : string) : actionDocument :=
  {| ActionType := t; ASrcIPv4 := None; ADstIPv4 := None; ASrcPort := None; ADstPort := None |}.
Definition sample_document : rulesDocument := {|
  DFlows := [{| DSrcIPv4 := "192.0.2.2"; DDstIPv4 := "192.0.2.2"; DSrcPort := 3000; DDstPort := 4000; Protocol := "udp";
                DAction := {| ActionType := "rewrite"; ASrcIPv4 := Some "192.0.2.2"%string; ADstIPv4 := None;
                              ASrcPort := None; ADstPort := Some 4001 |} |}];
  DRoutes := [{| CIDR := "10.1.2.3/24"; RouteAction := no_rewrite "drop" |}] |}.

Lemma sample_document_fits : document_fits sample_document.
Proof.
  split; apply Forall_cons_2; try apply Forall_nil_2; [|by split].
  split; [by vm_compute|]. split; [by vm_compute|]. by split; [|intros p [= <-]; vm_compute].
Qed.

Lemma normalizeRules_valid_witness : exists flows routes, normalizeRules sample_document = Some (inr (flows, routes)) /\
  validate_elements flows routes = None /\ length flows = 1%nat /\ length routes = 1%nat.
Proof.
  pose proof (normalizeRules_valid sample_document sample_document_fits) as H.
  destruct (normalizeRules sample_document) as [[e|[flows routes]]|] eqn:E; [|cbn in H|].
  - exfalso. vm_compute in E. discriminate E.
  - destruct H as (_ & Hv & Hf & Hr). exists flows, routes.
    split_and!; [reflexivity|exact Hv|by rewrite <- (Forall2_length _ _ _ Hf)|by rewrite <- (Forall2_length _ _ _ Hr)].
  - exfalso. exact H.
Defined.

Lemma validateRules_exact_witness : exists res, validateRules manager_rules manager = Some (res, manager) /\
  (res = None <-> within_limits (native_flows manager_flows) (native_routes manager_routes) /\
     rules_ok (native_flows manager_flows) (native_routes manager_routes)).
Proof. exact (validateRules_exact manager manager_rules manager_flows manager_routes manager_shows manager_fit). Defined.

(** ** The process *)
Definition sample_platform : platform := {|
  p_calloc := sample_calloc; p_strings args := Z.of_nat <$> seq 501 (length args); p_eal := sample_eal;
  p_qsbr := sample_qsbr; p_allocate := fresh_allocate 1; p_eth := sample_eth; p_failure_queue := -1 |}.

Lemma sample_platform_ok : platform_ok sample_platform.
Proof.
  split; [exact sample_calloc_ok|exact sample_qsbr_ok|exact (fresh_allocate_ok 1)|exact sample_driver_ok|done].
Qed.

Definition sample_config : Config := {|
  EALArgs := ["-l"; "0,1"; "--no-pci"]%string; RXDevice := "net_tap0"; TXDevice := "net_tap1"; Workers := 2;
  Probe := false; CfgRules := manager_rules |}.

(** The manager of a process that has not started yet. *)
Definition embryo : runtime (world * c_heap) := manager_over world_initial false 0.

Lemma embryo_launched : launched_with sample_config manager_flows manager_routes embryo.
Proof.
  split; [done|done|exact manager_heap_ok|exact manager_shows|exact manager_shows|exact manager_fit|exact manager_valid|by cbn].
Qed.

Lemma bring_up_ready_witness : exists i argv r', bring_up sample_platform sample_config embryo = Some (([], i, argv), r') /\
  coherent native_shows r' manager_flows manager_routes /\ rulesOpen r' = true /\ Go.LcoreCount (rt_info r') = 2.
Proof.
  destruct (bring_up_ready sample_platform sample_platform_ok sample_config manager_flows manager_routes embryo embryo_launched)
    as (err & i & argv & r' & Hrun & [_ _ Hready _]).
  assert ((fun x => x.1.1.1) <$> bring_up sample_platform sample_config embryo = Some []) as E by (vm_compute; reflexivity).
  rewrite Hrun in E. injection E as E. cbn in E. subst err. exists i, argv, r'. destruct (Hready eq_refl eq_refl) as (_ & Hco & Ho & _ & Hinf & _).
  split; [exact Hrun|]. split; [exact Hco|]. split; [exact Ho|exact Hinf].
Defined.

Lemma started_is_settled : settled ∅ (started_world sample_platform world_initial).
Proof. exact (proj1 (started_settled sample_platform world_initial eq_refl)). Qed.

(** A process whose EAL is up, about to be taken down. *)
Definition about_to_end : runtime (world * c_heap) := set_native (started_world sample_platform world_initial, {[1000 := Argv []]}) embryo.

Lemma finishLifecycle_order_witness : exists err r', finishLifecycle sample_platform (Some 1000) [] about_to_end = Some (err, r') /\
  initialized (dp (native r').1) = false /\ Go.StatsWorkers (rt_stats r') = [].
Proof.
  destruct (finishLifecycle_order sample_platform ∅ (Some 1000) [] about_to_end ∅ started_is_settled) as (err & stats & n & Hrun & _ & Hrep & Hi).
  - exists []. split; reflexivity.
  - exact (cooperative_closing sample_eth sample_cooperative).
  - exists err. eexists. split; [exact Hrun|]. split; [exact (Hi sample_cooperative)|].
    assert ((fun x => Go.StatsWorkers (rt_stats x.2)) <$> finishLifecycle sample_platform (Some 1000) [] about_to_end = Some []) as E by (vm_compute; reflexivity).
    rewrite Hrun in E. injection E as E. exact E.
Defined.

Lemma validate_exact_witness :
  validate sample_config manager_flows manager_routes = None <-> config_ok sample_config manager_flows manager_routes.
Proof. exact (validate_exact sample_config manager_flows manager_routes manager_fit). Defined.

Lemma Start_launches_witness : exists a res r', Start doubling sample_config false embryo = Some ((a, res), r') /\
  native r' = native embryo.
Proof.
  destruct (Start_launches doubling sample_config false embryo manager_flows manager_routes eq_refl eq_refl manager_heap_ok
    manager_shows manager_fit) as (a & res & r' & Hrun & Hn & _).
  exists a, res, r'. split; [exact Hrun|exact Hn].
Defined.
