(* ===== verification/RunWitnesses.v ===== *)
(** * Whole runs at work: a worker among publications, a process from start to end *)
From Stdlib Require Import ZArith Lia.
From stdpp Require Import base list numbers option gmap strings relations.
From S2P Require Import Prelude Host Packet Api Tables Heap Snapshot SnapshotSpec Action ActionSpec Rcu State Binding BindingSpec Worker WorkerSpec RunSpec Rules StatsSpec Publish PublishSpec ReaderSpec GoSlice Control ControlSpec ControlRefine ControlNative Runtime RuntimeSpec Port PortSpec Lifecycle LifecycleSpec Dataplane ServeSpec Sample Witnesses GoWitnesses.

(** The same with one lcore: the run is worker 0's, polling two packets. *)
Definition one_lcore_eal : eal_env := {|
  rte_version := "DPDK 25.11.3"; rte_eal_init := None; rte_get_main_lcore := 0; rte_lcore_count := 1;
  rte_socket_id := 0; rte_eal_cleanup := 0 |}.
Definition one_lcore_eth : eth_env := {|
  rte_eth_dev_configure := rte_eth_dev_configure sample_eth;
  rte_eth_dev_adjust_nb_rx_tx_desc := rte_eth_dev_adjust_nb_rx_tx_desc sample_eth;
  rte_eth_rx_queue_setup := rte_eth_rx_queue_setup sample_eth; rte_eth_tx_queue_setup := rte_eth_tx_queue_setup sample_eth;
  rte_eth_dev_start := rte_eth_dev_start sample_eth; rte_eth_dev_stop := rte_eth_dev_stop sample_eth;
  rte_eth_dev_close := rte_eth_dev_close sample_eth;
  rte_eth_dev_get_port_by_name := rte_eth_dev_get_port_by_name sample_eth;
  rte_eth_dev_info_get := rte_eth_dev_info_get sample_eth; rte_pktmbuf_pool_create := rte_pktmbuf_pool_create sample_eth;
  RTE_MBUF_DEFAULT_BUF_SIZE := 2176; rte_mempool_in_use_count _ := 0;
  enabled_lcores := [0]; rte_lcore_to_socket_id _ := 0 |}.
Definition one_lcore : platform := {|
  p_calloc := sample_calloc; p_strings args := Z.of_nat <$> seq 501 (length args); p_eal := one_lcore_eal;
  p_qsbr := sample_qsbr; p_allocate := fresh_allocate 1; p_eth := one_lcore_eth; p_failure_queue := -1 |}.
Definition one_worker : Config := {|
  EALArgs := ["--no-pci"]%string; RXDevice := "net_tap0"; TXDevice := "net_tap1"; Workers := 1;
  Probe := false; CfgRules := manager_rules |}.

Lemma one_lcore_driver_ok : driver_ok one_lcore_eth.
Proof. split; [|done..]. intros name e. cbn. by destruct (String.eqb _ _). Qed.

Lemma one_lcore_cooperative : cooperative one_lcore_eth.
Proof. done. Qed.

Lemma one_lcore_ok : platform_ok one_lcore.
Proof.
  split; [exact sample_calloc_ok|exact sample_qsbr_ok|exact (fresh_allocate_ok 1)|exact one_lcore_driver_ok|done].
Qed.

Lemma one_worker_launched : launched_with one_worker manager_flows manager_routes embryo.
Proof.
  split; [done|done|exact manager_heap_ok|exact manager_shows|exact manager_shows|exact manager_fit|exact manager_valid|by cbn].
Qed.

Definition two_packets : launch_env := alone meta_zero (-1) [turn_of sample_poll; stop_turn] burst_array.
Definition worker_run : M (runtime (world * c_heap)) Z := on_native (on_world (dp_dataplane_run two_packets)).

(** What the run needs to know of the state that was brought up. *)
Definition brought_facts (r : runtime (world * c_heap)) :=
  let d := dp (native r).1 in
  (ready d, ran d, worker_count d, workers d !! 0%nat, mbufs (native r).1,
   match active_rules d with Some _ => true | None => false end,
   (fun q : rcu => fst (rte_rcu_qsbr_thread_register q 0)) <$> rules_qsbr d).

Lemma one_worker_facts : (fun x => (x.1.1.2, brought_facts x.2)) <$> bring_up one_lcore one_worker embryo =
  Some (true, (true, false, 1, Some (placed 0 0), ∅, true, Some None)).
Proof. vm_compute. reflexivity. Qed.

Record one_worker_ready (r : runtime (world * c_heap)) (q : rcu) : Prop := {
  ow_settled : settled ∅ (native r).1;
  ow_active : active_rules (dp (native r).1) <> None;
  ow_ready : ready (dp (native r).1) = true;
  ow_ran : ran (dp (native r).1) = false;
  ow_count : worker_count (dp (native r).1) = 1;
  ow_ctx : workers (dp (native r).1) !! 0%nat = Some (placed 0 0);
  ow_qsbr : rules_qsbr (dp (native r).1) = Some q;
  ow_register : can_register 0 q;
  ow_mbufs : mbufs (native r).1 = ∅;
}.

Lemma one_worker_settled i argv r : bring_up one_lcore one_worker embryo = Some (([], i, argv), r) -> i = true ->
  settled ∅ (native r).1.
Proof.
  intros Hb ->. destruct (bring_up_run one_lcore one_lcore_ok one_worker manager_flows manager_routes embryo one_worker_launched)
    as (err & i & argv' & r' & Hrun & [_ Hheap _ _]).
  destruct (run_unique _ _ _ _ _ Hb Hrun) as [E ->]. injection E as _ -> _. exact Hheap.
Qed.

Lemma one_worker_reached i argv r : bring_up one_lcore one_worker embryo = Some (([], i, argv), r) ->
  exists q, one_worker_ready r q.
Proof.
  intros Hb. pose proof one_worker_facts as F. pose proof (one_worker_settled i argv r Hb) as Hset. rewrite Hb in F.
  clear Hb. unfold brought_facts in F.
  cbn [fmap option_fmap option_map fst snd] in F. injection F as -> Hready Hran Hcount Hctx Hm Hact Hq.
  destruct (rules_qsbr (dp (native r).1)) as [q|] eqn:Eq; [|discriminate Hq]. exists q.
  split; [exact (Hset eq_refl)| |exact Hready|exact Hran|exact Hcount|exact Hctx|exact Eq| |exact Hm].
  - intros E. rewrite E in Hact. discriminate Hact.
  - split; [by vm_compute|reflexivity].
Qed.

(** A schedule that ends: somebody requests the stop. *)
Lemma stop_in_system (K : world -> world -> Prop) i id (left : system -> Prop) c :
  K (sys c) (turn_others stop_turn (sys c)) ->
  left {| sys := turn_others stop_turn (sys c); held := held c; writer := writer c |} ->
  turns_in meta_zero i id K left [stop_turn] c.
Proof.
  intros HK Hleft. exists {| sys := turn_others stop_turn (sys c); held := held c; writer := writer c |}.
  split; [|split; [reflexivity|exact Hleft]]. apply rtc_once. apply others_work; [by split_and!|reflexivity..|exact HK].
Qed.

(** Worker 0 polls the two packets; nobody publishes, and no reader is left but it. *)
Definition only_reader (c : system) : Prop := writer c = Idle /\ held c = {[0 := None]}.

Lemma one_worker_turns r q : one_worker_ready r q ->
  turns_in meta_zero 0 0 undisturbed only_reader [turn_of sample_poll; stop_turn] (entered 0 0 q (running_system (native r).1)).
Proof.
  intros Hr. eexists. split; [apply rtc_refl|]. split; [reflexivity|]. destruct (stop _).
  - split; [reflexivity|]. apply insert_empty.
  - split.
    + apply sample_poll_ok.
      * change (mbufs (native r).1 !! 11 = None). rewrite (ow_mbufs _ _ Hr). reflexivity.
      * change (mbufs (native r).1 !! 12 = None). rewrite (ow_mbufs _ _ Hr). reflexivity.
    + intros _ _ w' _. apply stop_in_system; [split; split; reflexivity|]. split; [reflexivity|]. apply insert_empty.
Qed.

Lemma one_worker_injected : -1 <> worker_id (ctx_info (placed 0 0)).
Proof. by vm_compute. Qed.

Lemma one_worker_up : exists i argv r, bring_up one_lcore one_worker embryo = Some (([], i, argv), r).
Proof.
  assert ((fun x => x.1.1.1) <$> bring_up one_lcore one_worker embryo = Some []) as E by (vm_compute; reflexivity).
  destruct (bring_up one_lcore one_worker embryo) as [[[[err i] argv] r]|]; [|discriminate E].
  injection E as ->. exists i, argv, r. reflexivity.
Qed.

Lemma only_reader_gone c c' : only_reader c -> held c' = delete 0 (held c) -> writer c' = writer c ->
  writer c' = Idle /\ held c' = ∅.
Proof. intros [Hw Hh] Eh Ew. rewrite Eh, Ew, Hw, Hh. split; [reflexivity|]. apply delete_singleton_eq. Qed.

Lemma single_worker_run_settles_witness : exists (r : runtime (world * c_heap)) w', dp_dataplane_run two_packets (native r).1 = Some (0, w') /\ settled ∅ w'.
Proof.
  destruct one_worker_up as (i & argv & r & Hb). destruct (one_worker_reached i argv r Hb) as (q & Hr). clear Hb.
  destruct (single_worker_run_settles meta_zero (-1) [turn_of sample_poll; stop_turn] burst_array ∅ (native r).1 (placed 0 0) q only_reader
    (ow_settled _ _ Hr) (ow_active _ _ Hr) (ow_ready _ _ Hr) (ow_ran _ _ Hr) (ow_count _ _ Hr) (ow_ctx _ _ Hr) (ow_qsbr _ _ Hr)
    (ow_register _ _ Hr) one_worker_injected balanced_zero eq_refl (one_worker_turns r q Hr))
    as (c' & Hrun & _ & _ & _ & (c1 & Hc1 & Hh & Hw) & Hset).
  exists r, (sys c'). split; [exact Hrun|]. destruct (only_reader_gone c1 c' Hc1 Hh Hw) as [Hi He].
  exact (Hset c' (rtc_refl _ _) Hi He).
Defined.

Lemma worker_run_settles r q : one_worker_ready r q -> exists w', dp_dataplane_run two_packets (native r).1 = Some (0, w') /\ settled ∅ w'.
Proof.
  intros Hr.
  destruct (alone_run meta_zero (-1) [turn_of sample_poll; stop_turn] burst_array ∅ (native r).1 (placed 0 0) q only_reader
    (ow_settled _ _ Hr) (ow_active _ _ Hr) (ow_ready _ _ Hr) (ow_ran _ _ Hr) (ow_count _ _ Hr) (ow_ctx _ _ Hr) (ow_qsbr _ _ Hr)
    (ow_register _ _ Hr) one_worker_injected balanced_zero eq_refl (one_worker_turns r q Hr))
    as (c' & Hrun & _ & _ & _ & (c1 & Hc1 & Hh & Hw) & Hset).
  exists (sys c'). split; [exact Hrun|]. destruct (only_reader_gone c1 c' Hc1 Hh Hw) as [Hi He].
  exact (Hset c' (rtc_refl _ _) Hi He).
Qed.

Lemma worker_run_comes_back : comes_back one_lcore one_worker worker_run embryo.
Proof.
  intros i argv r _ Hb. destruct (one_worker_reached i argv r Hb) as (q & Hr). clear Hb.
  destruct (worker_run_settles r q Hr) as (w' & Hrun & Hset).
  exists 0, (set_native (w', (native r).2) r). split; [|split; [exact Hset|reflexivity]].
  unfold worker_run. apply on_native_run. rewrite (surjective_pairing (native r)) at 1. apply on_world_run. exact Hrun.
Qed.

Lemma owner_gives_back_witness : exists startErr err r',
  owner one_lcore one_worker worker_run embryo = Some ((startErr, err), r') /\
  rules_heap (native r').1 = ∅ /\ initialized (dp (native r').1) = false.
Proof.
  destruct (owner_gives_back one_lcore one_lcore_ok one_worker manager_flows manager_routes worker_run embryo
    one_worker_launched worker_run_comes_back (cooperative_closing _ one_lcore_cooperative)) as (se & err & r' & Hrun & _ & Hh & _ & Hi & _).
  exists se, err, r'. split; [exact Hrun|]. split; [exact Hh|exact (Hi one_lcore_cooperative)].
Defined.

(** ** A worker that meets a publication: the exchange happens during its turn *)
Definition sys_set_up : system := {| sys := world_ready; held := ∅; writer := Idle |}.
Definition sys_entered : system := entered 0 0 ready_qsbr sys_set_up.
Definition exchanged_run : option ((Z + publication) * world) := swap (rules_of 200 2) (sys sys_entered).
Definition exchanged_pub : publication :=
  match exchanged_run with Some (inr p, _) => p | _ => {| pub_old := None; pub_generation := 0 |} end.
Definition exchanged_turn : turn := {| turn_others _ := final exchanged_run; turn_poll := sample_poll |}.
Definition sys_met : system := {| sys := final exchanged_run; held := held sys_entered; writer := Exchanged exchanged_pub |}.

Lemma entered_exchanged : step sys_entered sys_met.
Proof.
  apply (step_publish_swaps (rules_of 200 2) exchanged_pub (final exchanged_run) sys_entered); [done| |].
  - apply rules_of_ok. intros i Hi. do 4 (destruct i as [|i]; [reflexivity|]). lia.
  - apply final_run_eq; [vm_compute|]; reflexivity.
Qed.

Lemma exchanged_turns : turns_in meta_zero 0 0 anything (fun c => writer c = Exchanged exchanged_pub) [exchanged_turn; stop_turn] sys_entered.
Proof.
  exists sys_met. split; [apply rtc_once, others_step; [exact entered_exchanged|reflexivity]|].
  split; [unfold exchanged_turn, sys_met; cbn [turn_others sys]; reflexivity|].
  assert (stop (dp (sys sys_met)) = false) as -> by (vm_compute; reflexivity).
  split; [apply sample_poll_ok; reflexivity|]. intros _ _ w' _. apply stop_in_system; [exact I|]. unfold sys_met. cbn [writer]. reflexivity.
Qed.

Lemma ready_sound : sound ∅ sys_set_up.
Proof. split; [exact ready_inv|reflexivity]. Qed.

Lemma dp_worker_run_in_system_witness : exists c', dp_worker_run meta_zero (-1) 0 [exchanged_turn; stop_turn] burst_array world_ready =
  Some (0, sys c') /\ sound ∅ c' /\ writer c' = Exchanged exchanged_pub.
Proof.
  destruct (dp_worker_run_in_system ∅ sys_set_up ready_ctx ready_qsbr meta_zero 0 (-1) _ [exchanged_turn; stop_turn] burst_array
    ready_sound eq_refl eq_refl ltac:(split; [by vm_compute|reflexivity]) eq_refl ltac:(by vm_compute) balanced_zero eq_refl
    exchanged_turns) as (c' & ctx' & Hrun & Hs & _ & _ & _ & _ & _ & _ & c1 & Hl & _ & Hw).
  exists c'. split; [exact Hrun|]. split; [exact Hs|]. congruence.
Defined.
