(* ===== verification/CrewWitnesses.v ===== *)
(** * Crews at work: two workers, a publication, a stop *)
From Stdlib Require Import ZArith Lia.
From stdpp Require Import base list numbers option gmap strings relations.
From S2P Require Import Prelude Host Packet Api Tables Heap Snapshot SnapshotSpec Action ActionSpec Rcu State StatsSpec Rules Worker WorkerSpec RunSpec Publish PublishSpec ReaderSpec Runtime RuntimeSpec Port PortSpec Control Lifecycle LifecycleSpec Dataplane ServeSpec Crew CrewSpec CrewRun Sample Witnesses.

(** ** A schedule for two workers: worker 1 is launched, worker 0 starts, things go
    on until both are home. *)
Section Two.
Context {H : Host} {HO : HostOk H} {C : Checksums} {CO : ChecksumsOk C}.
Context {T : DpdkTables} {TO : DpdkTablesOk T} {Q : Qsbr} {QO : QsbrOk Q}.
Context (stack_meta : dp_packet_meta) (injected : Z) (pkts : list Z) (HL : Z.of_nat (length pkts) = DP_BURST_SIZE).
Context (rest : gmap Z hobj) (B : gmap Z rte_mbuf).
Context {X : Type} {SX : Scene X} {SXO : SceneOk stack_meta injected X 2 rest B} (Hrefl : forall x : X, goes_on x x).

Definition launched_both (x : X) : X := enlisting 0 pkts (flagging 0 true (flagging 1 true (enlisting 1 pkts x))).

Lemma launched_both_ok w x : standby 2 w -> ready_scene stack_meta injected 2 rest B w x -> scene_ok stack_meta injected (launched_both x).
Proof.
  intros Hsb Hx. pose proof (scene_manned stack_meta injected 2 rest B w x Hsb Hx) as Hst.
  refine (st_ok _ _ _ _ _ _ _ _ _ _ (staffed_enlist stack_meta injected 2 rest B _ _ _ _ _ 0 pkts
    (staffed_flag stack_meta injected 2 rest B _ _ _ _ _ 0 true (staffed_flag stack_meta injected 2 rest B _ _ _ _ _ 1 true
    (staffed_enlist stack_meta injected 2 rest B _ _ _ _ _ 1 pkts Hst _ _ HL))) _ _ HL)); lia.
Qed.

Lemma home_returned (c c' : crew) j s : rtc (crew_step stack_meta injected) c c' -> all_home c' ->
  stages c !! Z.of_nat j = Some s -> exists ret, is_returned c' j ret.
Proof.
  intros Hr Hh Hj. destruct (stages c' !! Z.of_nat j) as [s'|] eqn:E.
  - destruct (Hh _ _ E) as (ret & ->). by exists ret.
  - exfalso. assert (forall c1 c2 r, rtc (crew_step stack_meta injected) c1 c2 -> is_Some (stages c1 !! r) -> is_Some (stages c2 !! r)) as Hkeep.
    { induction 1 as [|c1 c2 c3 Hs _ IH]; [done|]. intros Hsome. apply IH. destruct Hs; [|done..].
      cbn. apply lookup_insert_is_Some'. by right. }
    destruct (Hkeep _ _ (Z.of_nat j) Hr (ex_intro _ s Hj)) as [x Hx]. congruence.
Qed.

Lemma two_workers_directed w x y : crew_ready 2 rest w -> ready_scene stack_meta injected 2 rest B w x ->
  goes_on (launched_both x) y -> all_home (view y) ->
  exists sc, directed (-1) sc x (fun z => z = flagging 1 false (flagging 0 false y)).
Proof.
  intros Hcr Hx Hgo Hhome. pose proof (launched_both_ok w x (crew_ready_standby _ _ _ Hcr) Hx) as Hok.
  destruct (scene_goes_on _ _ _ _ Hgo Hok) as [Hoky Hrun]. destruct Hx as [_ Hv _].
  assert (forall j, (j < 2)%nat -> exists ret, is_returned (view y) j ret) as Hret.
  { intros j Hj. assert (exists s, stages (view (launched_both x)) !! Z.of_nat j = Some s) as [s Hs]; [|by eapply home_returned].
    unfold launched_both, enlisting, flagging. rewrite !(view_direct stack_meta injected). cbn. destruct j as [|[|j]]; [| |lia];
      rewrite ?(lookup_insert_ne _ 0) by done; rewrite lookup_insert_eq; by eexists. }
  destruct (Hret 0%nat ltac:(lia)) as (r0 & H0), (Hret 1%nat ltac:(lia)) as (r1 & H1).
  destruct (ck_ctx _ _ _ _ (scene_crew _ _ _ Hoky) 1 ltac:(lia)) as (ctx & Hctx & _).
  destruct (cr_placed _ _ _ Hcr 1 ltac:(lia)) as (ctx1 & Hctx1 & _).
  exists {| launch_result _ := 0; after_launch _ := enlisting 1 pkts x; worker0_result := r0; after_main := y;
            wait_result _ := r1; after_wait _ := flagging 0 false y |}.
  unfold directed. rewrite Hv. change (worker_count (dp (opened w))) with (worker_count (dp w)).
  rewrite (proj1 (cr_count _ _ _ Hcr)). exists ctx1. rewrite Hv. split; [exact Hctx1|]. cbn [Z.eqb]. exists pkts.
  split; [exact HL|]. split; [apply Hrefl|]. exists pkts. split; [exact HL|]. split; [exact Hgo|]. split; [exact H0|].
  exists ctx. unfold flagging at 1. rewrite (view_direct stack_meta injected). split; [cbn; by rewrite list_lookup_alter_ne|].
  split; [apply Hrefl|]. split; [|done]. cbn [after_wait wait_result]. unfold flagging. rewrite (view_direct stack_meta injected). exact H1.
Qed.
End Two.

(** ** Two workers, a publication, a stop *)
Section Crews.
Context {H : Host} {HO : HostOk H} {C : Checksums} {CO : ChecksumsOk C}.
Context {T : DpdkTables} {TO : DpdkTablesOk T} {Q : Qsbr} {QO : QsbrOk Q}.
Context (stack_meta : dp_packet_meta) (injected : Z) (pkts : list Z) (HL : Z.of_nat (length pkts) = DP_BURST_SIZE).
Context (rest : gmap Z hobj) (w : world) (Hcr : crew_ready 2 rest w).
Abbreviation crew_run := (rtc (crew_step stack_meta injected)).
Abbreviation crew_good := (crew_ok 2 rest (mbufs w)).
Abbreviation the_crew := (crew_scene stack_meta injected).
Abbreviation the_crew_ok := (crew_scene_ok stack_meta injected 2 rest (mbufs w)).

Definition crew_none : crew := nobody (opened w).
Definition crew_two : crew := launched_both (SX := the_crew) pkts crew_none.

Lemma crew_none_ready : ready_scene stack_meta injected 2 rest (mbufs w) (SX := the_crew) (SXO := the_crew_ok) w crew_none.
Proof. split; [|done|done]. exact (opened_ok _ _ _ _ (nobody_ok 2 rest (mbufs w) w Hcr eq_refl)). Qed.

Lemma crew_two_ok : crew_good crew_two.
Proof. exact (launched_both_ok (SXO := the_crew_ok) stack_meta injected pkts HL rest (mbufs w) w crew_none (crew_ready_standby _ _ _ Hcr) crew_none_ready). Qed.

Context (rs : rule_set) (pub : publication) (w' : world).
Context (Hrs : rule_set_ok rs (rules_heap w)) (Hswap : swap rs (state crew_two) = Some (inr pub, w')).

Definition crew_swapped : crew := {| state := w'; stages := stages crew_two; publisher := Exchanged pub |}.
Definition crew_stopped : crew := on_state halt crew_swapped.

Lemma crew_two_stops : crew_run crew_two crew_stopped.
Proof.
  eapply rtc_l; [|apply rtc_once; apply (crew_stops _ _ crew_swapped)].
  apply (crew_publishes _ _ crew_two {| sys := w'; held := held (readers_of crew_two); writer := Exchanged pub |}); [|done].
  apply (step_publish_swaps rs pub w' (readers_of crew_two)); [done|exact Hrs|exact Hswap].
Qed.

Lemma crew_stopped_ok : crew_good crew_stopped.
Proof. exact (crew_run_ok _ _ _ _ _ _ _ crew_two_stops crew_two_ok). Qed.

Lemma crew_directed : exists sc c, directed (SX := the_crew) (-1) sc crew_none (fun z => z = c) /\ publisher c = Exchanged pub.
Proof.
  destruct (crew_comes_home stack_meta injected 2 rest (mbufs w) crew_stopped crew_stopped_ok eq_refl) as (c & Hr & Hhome & Hp).
  destruct (two_workers_directed (SXO := the_crew_ok) stack_meta injected pkts HL rest (mbufs w) (rtc_refl _) w crew_none c Hcr crew_none_ready)
    as (sc & Hd); [etrans; [exact crew_two_stops|by apply crew_works_run]|exact Hhome|].
  by eexists sc, _.
Qed.
End Crews.

(** ** On [world_ready] *)
Lemma world_ready_settled : settled ∅ world_ready.
Proof.
  split; [reflexivity|reflexivity|exact ready_within|exact ready_idle| |left; exact ready_inv].
  vm_compute. auto.
Qed.

Lemma world_ready_placed i : (i < 2)%nat -> exists ctx, workers (dp world_ready) !! i = Some ctx /\
  worker_id (ctx_info ctx) = Z.of_nat i /\ balanced (ctx_stats ctx).
Proof.
  rewrite ready_workers. intros Hi. destruct i as [|[|i]]; [| |lia]; eexists;
    (split; [reflexivity|split; [reflexivity|exact balanced_zero]]).
Qed.

Lemma world_ready_crew : crew_ready 2 ∅ world_ready.
Proof.
  split; [exact world_ready_settled|by vm_compute|split; reflexivity|split; [reflexivity|lia]|exact world_ready_placed].
Qed.

Definition ready_swap : option ((Z + publication) * world) := swap (rules_of 200 2) (state (crew_two meta_zero (-1) burst_array world_ready)).
Definition ready_pub : publication :=
  match ready_swap with Some (inr p, _) => p | _ => {| pub_old := None; pub_generation := 0 |} end.
Definition ready_swapped : world := final ready_swap.

Lemma ready_swap_run : swap (rules_of 200 2) (state (crew_two meta_zero (-1) burst_array world_ready)) = Some (inr ready_pub, ready_swapped).
Proof. apply final_run_eq; [vm_compute|]; reflexivity. Qed.

Lemma ready_rules : rule_set_ok (rules_of 200 2) (rules_heap world_ready).
Proof. apply rules_of_ok. intros i Hi. do 4 (destruct i as [|i]; [reflexivity|]). lia. Qed.

Lemma ready_burst : Z.of_nat (length burst_array) = DP_BURST_SIZE.
Proof. reflexivity. Qed.

Lemma ready_mbufs : mbufs world_ready = ∅.
Proof. vm_compute. reflexivity. Qed.

Abbreviation ready_two := (crew_two meta_zero (-1) burst_array world_ready).
Abbreviation ready_stopped := (crew_stopped meta_zero (-1) burst_array world_ready ready_pub ready_swapped).
Abbreviation two_ok := (crew_two_ok meta_zero (-1) burst_array ready_burst ∅ world_ready world_ready_crew).
Abbreviation two_stops := (crew_two_stops meta_zero (-1) burst_array world_ready (rules_of 200 2) ready_pub ready_swapped ready_rules ready_swap_run).

Lemma stopped_poll : poll_ok sample_poll (mbufs (state ready_stopped)).
Proof.
  rewrite (ck_mbufs _ _ _ _ (crew_run_ok _ _ _ _ _ _ _ two_stops two_ok)), ready_mbufs. apply sample_poll_ok; reflexivity.
Qed.

Lemma crew_never_stuck_witness : exists s' w',
  worker_step meta_zero (-1) 1 sample_poll (Launched burst_array) (state ready_stopped) = Some (s', w') /\
  crew_ok 2 ∅ (mbufs world_ready) (advance 1 s' w' ready_stopped).
Proof.
  destruct (crew_never_stuck meta_zero (-1) 2 ∅ (mbufs world_ready) ready_two ready_stopped 1 (Launched burst_array) sample_poll
    two_ok two_stops eq_refl stopped_poll) as [(ret & ctx & E & _)|Hmove]; [discriminate E|exact Hmove].
Defined.

Lemma crew_stops_all_witness : exists c', rtc (crew_step meta_zero (-1)) ready_stopped c' /\ all_home c' /\ publisher c' = Exchanged ready_pub.
Proof.
  destruct (crew_stops_all meta_zero (-1) 2 ∅ (mbufs world_ready) ready_two ready_stopped two_ok two_stops eq_refl) as (_ & _ & c' & Hr & Hh & Hp).
  exists c'. split; [exact Hr|]. split; [exact Hh|exact Hp].
Defined.

Lemma dp_dataplane_run_crew_witness : exists sc ret c, dp_dataplane_run (scheduled (SX := crew_scene meta_zero (-1)) (-1) sc) world_ready = Some (ret, state (closed c)) /\
  publisher c = Exchanged ready_pub.
Proof.
  destruct (crew_directed meta_zero (-1) burst_array ready_burst ∅ world_ready world_ready_crew (rules_of 200 2) ready_pub
    ready_swapped ready_rules ready_swap_run) as (sc & c0 & Hd & Hpub).
  destruct (dp_dataplane_run_crew meta_zero (-1) (-1) sc 2 ∅ world_ready _ world_ready_crew Hd) as (ret & c & Hrun & -> & _).
  exists sc, ret, c0. split; [exact Hrun|exact Hpub].
Defined.
