(* ===== verification/ProcessWitnesses.v ===== *)
(** * The process at work: two workers, a call, a stop *)
From Stdlib Require Import ZArith Lia.
From stdpp Require Import base list numbers option gmap strings relations.
From S2P Require Import Prelude Host Packet Api Tables Heap Snapshot SnapshotSpec Action ActionSpec Rcu State StatsSpec Rules Binding Worker WorkerSpec RunSpec Publish PublishSpec ReaderSpec Runtime RuntimeSpec Port PortSpec BindingSpec GoStats GoSlice Control ControlSpec ControlRefine ControlNative Lifecycle LifecycleSpec Dataplane ServeSpec Crew CrewSpec CrewRun Calls CallsSpec CallsProps Delivery Process Sample Witnesses GoWitnesses CrewWitnesses.

(** ** Goroutine 7 calls, somebody stops the dataplane, everybody comes home *)
Section Calling.
Context {H : Host} {HO : HostOk H} {C : Checksums} {CO : ChecksumsOk C}.
Context {T : DpdkTables} {TO : DpdkTablesOk T} {Q : Qsbr} {QO : QsbrOk Q}.
Context (calloc : callocator) (allocate : gmap Z hobj -> allocator) (growth : nat -> nat -> nat).
Context (Hcalloc : callocator_ok calloc) (Halloc : forall h, allocator_ok (allocate h) h).
Context (stack_meta : dp_packet_meta) (injected : Z) (pkts : list Z) (HL : Z.of_nat (length pkts) = DP_BURST_SIZE).
Context (hc : c_heap) (rest : gmap Z hobj) (B : gmap Z rte_mbuf) (t0 : rule_table) (g0 : Z).
Abbreviation office_step := (Calls.office_step calloc allocate growth stack_meta injected).
Abbreviation the_office := (office_scene calloc allocate growth stack_meta injected).
Abbreviation the_office_ok := (office_scene_ok calloc allocate growth Hcalloc Halloc stack_meta injected hc 2 rest B t0 g0).

Context (r1 : Control.runtime (world * c_heap)) (Hcr : crew_ready 2 rest (native r1).1).
Context (Hok : office_ok true hc 2 rest B t0 g0 (on_duty r1)).
Context (op : rule_op) (Hop : op_ok (memory r1) op).

Definition called : office := {| rt := r1; staff := ∅; calls := {[7%nat := Called op]}; holder := None; history := [] |}.

Lemma called_run : rtc office_step (on_duty r1) called.
Proof. apply rtc_once. exact (office_enters _ _ _ _ _ 7 op (on_duty r1) (lookup_empty _) Hop). Qed.

Definition manned : office := launched_both (SX := the_office) pkts (entering called).

Lemma called_standing : standby 2 (native r1).1 /\ ready_scene stack_meta injected 2 rest B (SX := the_office) (SXO := the_office_ok) (native r1).1 (entering called).
Proof.
  destruct (office_run_ok calloc allocate growth Hcalloc Halloc stack_meta injected _ _ _ _ _ _ _ _ _ called_run Hok) as [Hok' Hc].
  exact (scene_ready (SX := the_office) (SXO := the_office_ok) stack_meta injected 2 rest B r1 called Hcr Hok' Hc).
Qed.

Lemma manned_ok : office_ok true hc 2 rest B t0 g0 manned.
Proof.
  destruct called_standing as [Hsb Hrs].
  exact (launched_both_ok (SXO := the_office_ok) stack_meta injected pkts HL rest B _ _ Hsb Hrs).
Qed.

Definition stopping : office := at_work halt id manned.

Lemma stopping_run : rtc office_step manned stopping.
Proof. apply rtc_once. exact (office_stops calloc allocate growth stack_meta injected manned). Qed.

Lemma stopping_ends : exists y err, rtc office_step manned y /\ all_home (crew_of y) /\ calls y !! 7%nat = Some (Replied op err).
Proof.
  destruct (calls_end calloc allocate growth Hcalloc Halloc stack_meta injected hc 2 rest B t0 g0 manned stopping manned_ok stopping_run)
    as (y & Hr & _ & Hans & Hhome).
  destruct (Hans 7%nat (Called op) eq_refl) as (err & Hg). exists y, err.
  split; [etrans; [exact stopping_run|exact (runs_steps _ _ _ _ _ _ _ Hr)]|]. split; [by apply Hhome|exact Hg].
Qed.

Lemma called_directed : exists sc y err, directed (SX := the_office) (-1) sc (entering called)
    (fun z => z = flagging (SX := the_office) 1 false (flagging (SX := the_office) 0 false y)) /\
  calls y !! 7%nat = Some (Replied op err).
Proof.
  destruct called_standing as [_ Hrs], stopping_ends as (y & err & Hr & Hhome & Hg).
  destruct (two_workers_directed (SXO := the_office_ok) stack_meta injected pkts HL rest B (rtc_refl _) _ _ y Hcr Hrs Hr Hhome) as (sc & Hd).
  exists sc, y, err. split; [exact Hd|exact Hg].
Qed.
End Calling.

Lemma office_mbufs {H : Host} {C : Checksums} {T : DpdkTables} {Q : Qsbr} hc n rest B t0 g0 o :
  office_ok true hc n rest B t0 g0 o -> mbufs (native (rt o)).1 = B.
Proof. intros Hok. exact (ck_mbufs _ _ _ _ (of_crew _ _ _ _ _ _ _ _ Hok)). Qed.

(** ** Worker [i] goes on alone, as far as it can *)
Section Working.
Context {H : Host} {C : Checksums} {T : DpdkTables} {Q : Qsbr}.
Context (calloc : callocator) (allocate : gmap Z hobj -> allocator) (growth : nat -> nat -> nat).
Context (stack_meta : dp_packet_meta) (injected : Z).

Definition works (i : nat) (o : office) : office :=
  match s ← staff o !! Z.of_nat i; worker_step stack_meta injected i idle_poll s (native (rt o)).1 with
  | Some (s', w') => {| rt := set_world w' (rt o); staff := <[Z.of_nat i := s']> (staff o); calls := calls o;
                        holder := holder o; history := history o |}
  | None => o
  end.

Lemma works_run i o : rtc (office_step calloc allocate growth stack_meta injected) o (works i o).
Proof.
  unfold works. destruct (staff o !! Z.of_nat i) as [s|] eqn:Hs; [|apply rtc_refl]. cbn [mbind option_bind].
  destruct (worker_step _ _ _ _ _ _) as [[s' w']|] eqn:E; [|apply rtc_refl].
  apply rtc_once, office_moves. by eapply office_works; [|apply idle_poll_ok|].
Qed.

Lemma works_many i k o : rtc (office_step calloc allocate growth stack_meta injected) o (Nat.iter k (works i) o).
Proof. induction k as [|k IH]; [apply rtc_refl|]. cbn. etrans; [exact IH|apply works_run]. Qed.
End Working.

(** ** On the sample platform *)
Abbreviation my_calloc := (p_calloc sample_platform).
Abbreviation my_allocate := (p_allocate sample_platform).
Abbreviation my_scene := (office_scene my_calloc my_allocate doubling meta_zero (-1)).
Abbreviation my_calloc_ok := (pf_calloc sample_platform sample_platform_ok).
Abbreviation my_allocate_ok := (pf_allocate sample_platform sample_platform_ok).
Abbreviation my_step := (office_step my_calloc my_allocate doubling meta_zero (-1)).
Abbreviation my_runs := (office_runs my_calloc my_allocate doubling meta_zero (-1)).

Lemma sample_up : exists i argv r1, bring_up sample_platform sample_config embryo = Some (([], i, argv), r1).
Proof.
  assert ((fun x => x.1.1.1) <$> bring_up sample_platform sample_config embryo = Some []) as E by (vm_compute; reflexivity).
  destruct (bring_up sample_platform sample_config embryo) as [[[[err i] argv] r1]|]; [|discriminate E].
  cbn in E. injection E as ->. exists i, argv, r1. reflexivity.
Qed.

Lemma sample_on_duty i argv r1 : bring_up sample_platform sample_config embryo = Some (([], i, argv), r1) ->
  crew_ready 2 ∅ (native r1).1 /\
  office_ok true (native r1).2 2 ∅ (mbufs (native r1).1) (table manager_flows manager_routes) 1 (on_duty r1).
Proof.
  intros Hup. exact (proj2 (up_on_duty sample_platform sample_platform_ok sample_config manager_flows manager_routes embryo r1 i argv
    embryo_launched eq_refl Hup)).
Qed.

(** The first flow rule is deleted. *)
Definition first_key : FlowKey := {| KSrcIPv4 := 1; KDstIPv4 := 2; KSrcPort := 3; KDstPort := 4; KL4Proto := 17 |}.
Abbreviation my_op := (Delete_flow first_key).

Lemma process_serves_witness : exists i argv r1 sc ret y err,
  bring_up sample_platform sample_config embryo = Some (([], i, argv), r1) /\
  dp_dataplane_run (scheduled (SX := my_scene) (-1) sc) (native (rt (called r1 my_op))).1 =
    Some (ret, (native (rt (closing (SX := my_scene) y))).1) /\
  calls y !! 7%nat = Some (Replied my_op err).
Proof.
  destruct sample_up as (i & argv & r1 & Hup), (sample_on_duty i argv r1 Hup) as [Hcr Hok].
  destruct (called_directed my_calloc my_allocate doubling my_calloc_ok my_allocate_ok meta_zero (-1) burst_array ready_burst
    _ _ _ _ _ r1 Hcr Hok my_op I) as (sc & y0 & err & Hd & Hg).
  destruct (process_serves sample_platform sample_platform_ok doubling meta_zero (-1) sample_config manager_flows manager_routes embryo r1
    i argv embryo_launched eq_refl Hup _ (-1) sc _
    (called_run my_calloc my_allocate doubling meta_zero (-1) r1 my_op I) Hd) as (ret & y & Hrun & -> & _).
  exists i, argv, r1, sc, ret. eexists. exists err. split; [exact Hup|]. split; [exact Hrun|exact Hg].
Defined.

Lemma calls_linearize_witness : exists (r1 : Control.runtime (world * c_heap)) flows routes, shows_in (currentRules r1) (memory r1) flows routes /\ rt_generation r1 = u64 1.
Proof.
  destruct sample_up as (i & argv & r1 & Hup), (sample_on_duty i argv r1 Hup) as [_ Hok].
  destruct (calls_linearize my_calloc my_allocate doubling my_calloc_ok my_allocate_ok meta_zero (-1) _ _ _ _ _ _ (on_duty r1) (called r1 my_op)
    Hok (called_run my_calloc my_allocate doubling meta_zero (-1) r1 my_op I)) as (flows & routes & Hs & _ & _ & Hg & _).
  exists r1, flows, routes. split; [exact Hs|exact Hg].
Defined.

Lemma calls_defined_witness : exists (r1 : Control.runtime (world * c_heap)) s' r', call_step my_calloc my_allocate doubling (Called my_op) r1 = Some (s', r').
Proof.
  destruct sample_up as (i & argv & r1 & Hup), (sample_on_duty i argv r1 Hup) as [_ Hok]. exists r1.
  exact (proj1 (calls_defined my_calloc my_allocate doubling my_calloc_ok my_allocate_ok meta_zero (-1) _ _ _ _ _ _ (on_duty r1) (called r1 my_op)
    Hok (called_run my_calloc my_allocate doubling meta_zero (-1) r1 my_op I)) 7%nat (Called my_op) eq_refl I).
Defined.

Lemma calls_answered_witness : exists r1 o' err, rtc my_runs (called r1 my_op) o' /\ calls o' !! 7%nat = Some (Replied my_op err).
Proof.
  destruct sample_up as (i & argv & r1 & Hup), (sample_on_duty i argv r1 Hup) as [_ Hok]. exists r1.
  destruct (calls_answered my_calloc my_allocate doubling my_calloc_ok my_allocate_ok meta_zero (-1) _ _ _ _ _ _ (on_duty r1) (called r1 my_op)
    Hok (called_run my_calloc my_allocate doubling meta_zero (-1) r1 my_op I)) as (o' & Hr & _ & Hans & _).
  destruct (Hans 7%nat (Called my_op) eq_refl) as (err & Hg). exists o', err. split; [exact Hr|exact Hg].
Defined.

(** The manager, closed at once. *)
Abbreviation shut r1 := (off_duty (set_native (native r1) (set_rt_stats Go.no_stats (set_rulesOpen false r1))) (on_duty r1)).

Lemma shut_ok r1 : office_ok true (native r1).2 2 ∅ (mbufs (native r1).1) (table manager_flows manager_routes) 1 (on_duty r1) ->
  office_ok false (native r1).2 2 ∅ (mbufs (native r1).1) (table manager_flows manager_routes) 1 (shut r1).
Proof.
  intros Hok. refine (off_duty_ok (native r1).2 _ _ _ _ _ (on_duty r1) (native r1) Go.no_stats Hok eq_refl _). intros j s Hj. cbn in Hj. by rewrite lookup_empty in Hj.
Qed.

Definition late_call (r1 : Control.runtime (world * c_heap)) : office := {|
  rt := rt (shut r1); staff := ∅; calls := {[7%nat := Called my_op]}; holder := None; history := [] |}.

Lemma closed_manager_refuses_witness : exists r1 o' err, refuses (shut r1) (late_call r1) /\
  rtc my_runs (late_call r1) o' /\ calls o' !! 7%nat = Some (Replied my_op err).
Proof.
  destruct sample_up as (i & argv & r1 & Hup), (sample_on_duty i argv r1 Hup) as [_ Hok]. exists r1.
  destruct (closed_manager_refuses my_calloc my_allocate doubling my_calloc_ok my_allocate_ok meta_zero (-1) _ _ _ _ _ _ _ (late_call r1)
    (shut_ok r1 Hok) (rtc_once _ _ (office_enters my_calloc my_allocate doubling meta_zero (-1) 7 my_op (shut r1) (lookup_empty _) I)))
    as (Href & o' & Hr & _ & Hans).
  destruct (Hans 7%nat (Called my_op) eq_refl) as (err & Hg). exists o', err.
  split; [exact Href|]. split; [exact Hr|exact Hg].
Defined.

(** Worker 0 of a process with two workers, about to process its burst. *)
Definition up : Control.runtime (world * c_heap) :=
  match bring_up sample_platform sample_config embryo with Some (_, r1) => r1 | None => embryo end.
Definition at_burst : office := Nat.iter 5 (works meta_zero (-1) 0) (manned my_calloc my_allocate doubling meta_zero (-1) burst_array up my_op).

Lemma up_run : exists i argv, bring_up sample_platform sample_config embryo = Some (([], i, argv), up).
Proof.
  destruct sample_up as (i & argv & r1 & E). exists i, argv. unfold up. rewrite E. reflexivity.
Qed.

Lemma manned_up : office_ok true (native up).2 2 ∅ (mbufs (native up).1) (table manager_flows manager_routes) 1
  (manned my_calloc my_allocate doubling meta_zero (-1) burst_array up my_op).
Proof.
  destruct up_run as (i & argv & Hup), (sample_on_duty i argv up Hup) as [Hcr Hok].
  exact (manned_ok my_calloc my_allocate doubling my_calloc_ok my_allocate_ok meta_zero (-1) burst_array ready_burst _ _ _ _ _ up Hcr Hok my_op I).
Qed.

Definition reading_of (s : option stage) : option (Z * list Z) :=
  match s with Some (Reading (Some sn) pkts) => Some (sn, pkts) | _ => None end.

Lemma at_burst_reading : is_Some (reading_of (staff at_burst !! Z.of_nat 0)).
Proof. vm_compute. eexists. reflexivity. Qed.

Lemma up_mbufs : mbufs (native up).1 = ∅.
Proof. vm_compute. reflexivity. Qed.

Lemma at_burst_run : rtc my_step (manned my_calloc my_allocate doubling meta_zero (-1) burst_array up my_op) at_burst.
Proof. exact (works_many my_calloc my_allocate doubling meta_zero (-1) 0 5 _). Qed.

Lemma at_burst_poll : poll_ok sample_poll (mbufs (native (rt at_burst)).1).
Proof.
  destruct (office_run_ok my_calloc my_allocate doubling my_calloc_ok my_allocate_ok meta_zero (-1) _ _ _ _ _ _ _ _ _ at_burst_run manned_up) as [Hok _].
  rewrite (office_mbufs _ _ _ _ _ _ _ Hok), up_mbufs.
  apply sample_poll_ok; reflexivity.
Qed.

Lemma packets_decided_witness : exists flows routes flows' routes' outs,
  current_or_next at_burst flows routes (table flows' routes') /\
  Forall2 (fun m out => WorkerProps.outcome (native_flows flows') (native_routes routes') m out.1 out.2) [udp_mbuf; other_mbuf] outs.
Proof.
  pose proof at_burst_reading as Hread. destruct (staff at_burst !! Z.of_nat 0) as [s|] eqn:Hs; [|destruct Hread as [x Hx]; discriminate Hx].
  destruct s as [| | | | | |[sn|] pkts| | | |]; try (destruct Hread as [x Hx]; discriminate Hx).
  destruct (packets_decided my_calloc my_allocate doubling my_calloc_ok my_allocate_ok meta_zero (-1) _ _ _ _ _ _ _ at_burst 0 (Some sn) pkts sample_poll
    manned_up at_burst_run Hs at_burst_poll) as (flows & routes & flows' & routes' & outs & pkts' & w' & _ & Ht & _ & Houts & _).
  exists flows, routes, flows', routes', outs. split; [exact Ht|exact Houts].
Defined.
