(* ===== verification/CommandWitnesses.v ===== *)
(** * The program at work: a reload, a stop, a probe *)
From Stdlib Require Import ZArith Lia.
From stdpp Require Import base list numbers option gmap strings relations.
From S2P Require Import Prelude Host Packet Api Tables Heap Snapshot SnapshotSpec Action ActionSpec Rcu State StatsSpec Rules Binding Worker WorkerSpec RunSpec Publish PublishSpec ReaderSpec Runtime RuntimeSpec Port PortSpec BindingSpec GoStats GoSlice Control ControlSpec ControlRefine ControlNative Lifecycle LifecycleSpec Documents DocumentsSpec RuleFiles RuleFilesSpec Dataplane ServeSpec Crew CrewSpec CrewRun Calls CallsSpec CallsProps Process Command CommandSpec CommandProps CommandRun Main Sample Witnesses GoWitnesses RunWitnesses CrewWitnesses ProcessWitnesses.

(** ** A decoder that knows one document, and a disk with one file *)
#[local] Existing Instances small_net small_net_ok.

Definition rules_text : string := "{flows, routes}".

Definition forwarded (port : Z) : flowDocument := {|
  DSrcIPv4 := "192.0.2.2"; DDstIPv4 := "192.0.2.2"; DSrcPort := port; DDstPort := 4000; Protocol := "udp"; DAction := no_rewrite "forward" |}.
Definition served_document : rulesDocument := {|
  DFlows := forwarded <$> [3000; 3001; 3002]; DRoutes := [{| CIDR := "10.1.2.3/24"; RouteAction := no_rewrite "drop" |}] |}.

Lemma no_rewrite_fits t : action_doc_fits (no_rewrite t).
Proof. split; intros p [=]. Qed.

Lemma forwarded_fits port : fits 16 port -> flow_doc_fits (forwarded port).
Proof. intros Hp. split; [exact Hp|]. split; [change (fits 16 4000); by vm_compute|apply no_rewrite_fits]. Qed.

Lemma served_document_fits : document_fits served_document.
Proof.
  split; [|apply Forall_singleton, no_rewrite_fits]. apply Forall_fmap.
  repeat apply Forall_cons_2; try apply Forall_nil_2; apply forwarded_fits; by vm_compute.
Qed.

#[local] Instance small_json : Json := {|
  reader := string; json_error := unit; decoder := string;
  NewDecoder input := input;
  Decode_document d := if String.eqb d rules_text then (Decoded (Some served_document), ""%string)
    else if String.eqb d "null" then (Decoded None, ""%string)
    else if String.eqb d "" then (EndOfInput, d) else (Undecodable tt, d);
  Decode_value d := if String.eqb d "" then (EndOfInput, d) else (Decoded tt, ""%string) |}.

#[local] Instance small_json_ok : JsonOk small_json.
Proof.
  intros d document d'. cbn. repeat case_match; try done. intros [= <- <-]. exact served_document_fits.
Qed.

Definition sample_disk : files unit := {|
  on_disk path := if String.eqb path "rules.json" then inr rules_text else inl tt; handles := ∅ |}.

Definition normalized : list FlowRule * list RouteRule :=
  match normalizeRules served_document with Some (inr x) => x | _ => ([], []) end.

Lemma text_written : written rules_text normalized.1 normalized.2.
Proof.
  exists served_document, ""%string. split; [reflexivity|]. split; [reflexivity|]. vm_compute. reflexivity.
Qed.

Lemma file_loads h : heap_ok h -> exists s h', LoadRulesFile doubling "rules.json" (h, sample_disk) = Some (inr s, (h', sample_disk)).
Proof.
  intros Hh. destruct (LoadRulesFile_run doubling "rules.json" h sample_disk Hh) as (res & h' & Hrun & [[_ Hres] _]).
  destruct res as [e|s]; [by destruct (Hres _ _ text_written)|]. exists s, h'. exact Hrun.
Qed.

Lemma LoadRulesFile_exact_witness : exists s h' flows routes,
  LoadRulesFile doubling "rules.json" (manager_memory, sample_disk) = Some (inr s, (h', sample_disk)) /\
  written rules_text flows routes /\ shows_in s h' flows routes.
Proof.
  destruct (LoadRulesFile_exact doubling "rules.json" manager_memory sample_disk manager_heap_ok) as (res & h' & Hrun & [[_ Hres] _]).
  destruct res as [e|s]; [exfalso; exact (Hres _ _ text_written)|].
  destruct Hres as (flows & routes & Hw & [Hs _ _ _]). exists s, h', flows, routes. split; [exact Hrun|]. split; [exact Hw|exact Hs].
Defined.

(** ** The signal loop on an office that has just come up *)
Section Looping.
Context {H : Host} {HO : HostOk H} {C : Checksums} {CO : ChecksumsOk C}.
Context {T : DpdkTables} {TO : DpdkTablesOk T} {Q : Qsbr} {QO : QsbrOk Q}.
Context (calloc : callocator) (allocate : gmap Z hobj -> allocator).
Context (stack_meta : dp_packet_meta) (injected : Z) (o : office) (Hh : heap_ok (memory (rt o))).
Abbreviation command_run := (Command.command_run (open_error := unit) calloc allocate doubling stack_meta injected "rules.json").

Definition at_select : command unit := listening_at o sample_disk None.
Definition hung_up : command unit := turn_to (Received SIGHUP) (with_channel None (with_channel (Some SIGHUP) at_select)).

Lemma hung_up_run : command_run [SIGHUP] at_select hung_up.
Proof.
  pose proof (command_signalled (open_error := unit) calloc allocate doubling stack_meta injected "rules.json" SIGHUP at_select) as Hs.
  refine (command_run_app _ _ _ _ _ _ [SIGHUP] [] _ _ _ (command_run_once _ _ _ _ _ _ _ _ _ Hs) _).
  apply listens_run. reflexivity.
Qed.

Lemma reloading_run : exists c, command_run [SIGHUP] at_select c /\ taken c = [rules_text].
Proof.
  destruct (file_loads (memory (rt o)) Hh) as (s & h' & Hload).
  assert (exists c, listen doubling "rules.json" hung_up = Some c /\ taken c = [rules_text]) as (c & Hl & Ht).
  { unfold listen, hung_up. cbn [listening turn_to]. rewrite decide_True by done. unfold reload. cbn [String.eqb Ascii.eqb Bool.eqb].
    cbn [site disk turn_to with_channel at_select listening_at]. rewrite Hload. eexists. split; [reflexivity|reflexivity]. }
  exists c. split; [|exact Ht].
  refine (command_run_app _ _ _ _ _ _ [SIGHUP] [] _ _ _ hung_up_run _). by apply listens_run.
Qed.
End Looping.

Abbreviation my_command_run := (Command.command_run (open_error := unit) my_calloc my_allocate doubling meta_zero (-1) "rules.json").
Abbreviation my_command_step := (Command.command_step (open_error := unit) my_calloc my_allocate doubling meta_zero (-1) "rules.json").
Abbreviation starting r1 := (at_select (on_duty r1)).

Lemma sample_heap r1 hc t0 g0 B : office_ok true hc 2 ∅ B t0 g0 (on_duty r1) -> heap_ok (memory (rt (on_duty r1))).
Proof. exact (office_heap_ok true hc 2 ∅ B t0 g0 (on_duty r1)). Qed.

Lemma reloads_take_effect_witness : exists (r1 : Control.runtime (world * c_heap)) c flows routes docs,
  my_command_run [SIGHUP] (starting r1) c /\ taken c = [rules_text] /\ Forall2 (fun input d => written input d.1 d.2) (taken c) docs /\
  table flows routes = in_force (table manager_flows manager_routes) docs (results (notices c) ++ owed c).
Proof.
  destruct sample_up as (i & argv & r1 & Hup), (sample_on_duty i argv r1 Hup) as [_ Hok].
  destruct (reloading_run my_calloc my_allocate meta_zero (-1) (on_duty r1) (sample_heap _ _ _ _ _ Hok)) as (c & Hr & Ht).
  destruct (reloads_take_effect my_calloc my_allocate doubling my_calloc_ok my_allocate_ok meta_zero (-1) "rules.json" _ _ _ _ _ _
    (on_duty r1) sample_disk None [SIGHUP] c Hok eq_refl eq_refl Hr) as (flows & routes & docs & _ & Hw & _ & Htab & _).
  exists r1, c, flows, routes, docs. split; [exact Hr|]. split; [exact Ht|]. split; [exact Hw|exact Htab].
Defined.

Lemma starting_ok r1 hc t0 g0 B : office_ok true hc 2 ∅ B t0 g0 (on_duty r1) -> command_ok true hc 2 ∅ B t0 g0 (starting r1).
Proof. intros Hok. exact (listening_ok true hc 2 ∅ B t0 g0 (on_duty r1) sample_disk None Hok eq_refl eq_refl). Qed.

Lemma stop_signal_heard_witness : exists (r1 : Control.runtime (world * c_heap)) c1 c', my_command_step (Some SIGTERM) (starting r1) c1 /\
  my_command_run [] c1 c' /\ listening c' = Left /\ stop (dp (native (rt (site c'))).1) = true.
Proof.
  destruct sample_up as (i & argv & r1 & Hup), (sample_on_duty i argv r1 Hup) as [_ Hok].
  assert (listening (starting r1) <> Left) as Hne by discriminate. assert (SIGTERM <> SIGHUP) as Hs by discriminate.
  destruct (stop_signal_heard my_calloc my_allocate doubling my_calloc_ok my_allocate_ok meta_zero (-1) "rules.json" _ _ _ _ _ _
    (starting r1) SIGTERM (starting_ok r1 _ _ _ _ Hok) Hne eq_refl Hs) as (c1 & c' & Hs1 & Hr & El & _ & Hst & _).
  exists r1, c1, c'. split; [exact Hs1|]. split; [exact Hr|]. split; [exact El|exact Hst].
Defined.

Lemma stop_signal_lost_witness : exists (r1 : Control.runtime (world * c_heap)) c' c'', my_command_run [SIGHUP; SIGHUP; SIGTERM] (starting r1) c' /\
  my_command_run [] c' c'' /\ listening c'' = Selecting /\ channel c'' = None.
Proof.
  destruct sample_up as (i & argv & r1 & Hup), (sample_on_duty i argv r1 Hup) as [_ Hok].
  destruct (stop_signal_lost my_calloc my_allocate doubling my_calloc_ok my_allocate_ok meta_zero (-1) "rules.json" _ _ _ _ _ _
    (starting r1) (starting_ok r1 _ _ _ _ Hok) eq_refl eq_refl) as (c' & Hr & _ & c'' & Hr' & El & Ech).
  exists r1, c', c''. split; [exact Hr|]. split; [exact Hr'|]. split; [exact El|exact Ech].
Defined.

(** ** A probe *)
Definition probing : options := {|
  opt_probe := true; opt_rx_device := "net_tap_rx"; opt_tx_device := "net_tap_tx"; opt_rules_file := "rules.json";
  opt_workers := 1; opt_args := ["--no-pci"]%string |}.

Lemma run_begins_witness : exists a res r', begin doubling probing false (embryo, sample_disk) = Some ((a, res), (r', sample_disk)) /\
  native r' = native embryo.
Proof.
  destruct (run_begins doubling probing false embryo sample_disk eq_refl eq_refl manager_heap_ok) as (a & res & r' & Hrun & Hn & _).
  exists a, res, r'. split; [exact Hrun|exact Hn].
Defined.

(** ** The whole run: both workers are launched, a SIGTERM arrives, everybody comes home *)
Section Serving.
Context {H : Host} {HO : HostOk H} {C : Checksums} {CO : ChecksumsOk C}.
Context {T : DpdkTables} {TO : DpdkTablesOk T} {Q : Qsbr} {QO : QsbrOk Q}.
Context (calloc : callocator) (allocate : gmap Z hobj -> allocator).
Context (Hcalloc : callocator_ok calloc) (Halloc : forall h, allocator_ok (allocate h) h).
Context (stack_meta : dp_packet_meta) (injected : Z) (pkts : list Z) (HL : Z.of_nat (length pkts) = DP_BURST_SIZE).
Context (hc : c_heap) (rest : gmap Z hobj) (B : gmap Z rte_mbuf) (t0 : rule_table) (g0 : Z).
Abbreviation the_command := (command_scene (open_error := unit) calloc allocate doubling stack_meta injected "rules.json").
Abbreviation the_command_ok := (command_scene_ok (open_error := unit) calloc allocate doubling Hcalloc Halloc stack_meta injected "rules.json" hc 2 rest B t0 g0).
Context (r1 : Control.runtime (world * c_heap)) (Hcr : crew_ready 2 rest (native r1).1).
Context (Hok : office_ok true hc 2 rest B t0 g0 (on_duty r1)).

Definition entered_command : command unit := direct (Scene := the_command) opened id (starting r1).
Definition manned_command : command unit := launched_both (SX := the_command) pkts entered_command.

Lemma command_ready : standby 2 (native r1).1 /\
  ready_scene stack_meta injected 2 rest B (SX := the_command) (SXO := the_command_ok) (native r1).1 entered_command.
Proof.
  exact (scene_ready (SX := the_command) (SXO := the_command_ok) stack_meta injected 2 rest B r1 (starting r1) Hcr
    (listening_ok true hc 2 rest B t0 g0 (on_duty r1) sample_disk None Hok eq_refl eq_refl) (rtc_refl _ _)).
Qed.

Lemma manned_command_ok : command_ok true hc 2 rest B t0 g0 manned_command.
Proof.
  destruct command_ready as [Hsb Hrs]. exact (launched_both_ok (SXO := the_command_ok) stack_meta injected pkts HL rest B _ _ Hsb Hrs).
Qed.

Lemma command_directed : exists sc y, directed (SX := the_command) (-1) sc entered_command
    (fun z => z = flagging (SX := the_command) 1 false (flagging (SX := the_command) 0 false y)) /\ listening y = Left /\ holder (site y) = None.
Proof.
  assert (SIGTERM <> SIGHUP) as Hs by discriminate. assert (listening manned_command <> Left) as Hne by discriminate.
  destruct (stop_comes_home calloc allocate doubling Hcalloc Halloc stack_meta injected "rules.json" hc 2 rest B t0 g0 manned_command SIGTERM
    manned_command_ok Hne eq_refl Hs) as (c1 & y & Hs1 & Hr & El & _ & _ & Hhome & Hno & _).
  destruct command_ready as [_ Hrs].
  destruct (two_workers_directed (SXO := the_command_ok) stack_meta injected pkts HL rest B (fun x => ex_intro _ [] (run_nil _ _ _ _ _ _ x)) _ _ y Hcr Hrs
    (ex_intro _ _ (command_run_app _ _ _ _ _ _ _ _ _ _ _ (command_run_once _ _ _ _ _ _ _ _ _ Hs1) Hr)) Hhome) as (sc & Hd).
  exists sc, y. split; [exact Hd|]. split; [exact El|exact Hno].
Qed.
End Serving.

Abbreviation my_command_scene := (command_scene (open_error := unit) my_calloc my_allocate doubling meta_zero (-1) "rules.json").

Lemma command_serves_witness : exists i argv r1 sc ret y,
  bring_up sample_platform sample_config embryo = Some (([], i, argv), r1) /\
  dp_dataplane_run (scheduled (SX := my_command_scene) (-1) sc) (native r1).1 =
    Some (ret, (native (rt (site (closing (SX := my_command_scene) y)))).1) /\ all_home (crew_of (site y)).
Proof.
  destruct sample_up as (i & argv & r1 & Hup), (sample_on_duty i argv r1 Hup) as [Hcr Hok].
  destruct (command_directed my_calloc my_allocate my_calloc_ok my_allocate_ok meta_zero (-1) burst_array ready_burst
    _ _ _ _ _ r1 Hcr Hok) as (sc & y0 & Hd & _).
  destruct (command_serves sample_platform sample_platform_ok doubling meta_zero (-1) "rules.json" sample_config manager_flows manager_routes embryo r1
    i argv embryo_launched eq_refl Hup sample_disk None [] (starting r1) (-1) sc _ (run_nil _ _ _ _ _ _ _) Hd) as (ret & y & Hrun & _ & Hhome & _).
  exists i, argv, r1, sc, ret, y. split; [exact Hup|]. split; [exact Hrun|exact Hhome].
Defined.

(** ** The whole program: it starts on the rules of the file, serves, and ends *)
Definition daemon : options := {|
  opt_probe := false; opt_rx_device := "net_tap0"; opt_tx_device := "net_tap1"; opt_rules_file := "rules.json";
  opt_workers := 2; opt_args := ["-l"; "0,1"; "--no-pci"]%string |}.

(** What bringing it up says. *)
Definition daemon_up : option errors :=
  '((_, res), (r1, _)) ← begin doubling daemon false (embryo, sample_disk);
  match res with
  | inr cfg => '((err, _, _), _) ← bring_up sample_platform cfg r1; Some err
  | inl _ => None
  end.

Lemma daemon_comes_up : exists a cfg r1 i argv r2 flows routes,
  begin doubling daemon false (embryo, sample_disk) = Some ((a, inr cfg), (r1, sample_disk)) /\
  launched_with cfg flows routes r1 /\ Probe cfg = false /\ Workers cfg = 2 /\ rules_heap (native r1).1 = ∅ /\
  bring_up sample_platform cfg r1 = Some (([], i, argv), r2).
Proof.
  assert (daemon_up = Some []) as E by (vm_compute; reflexivity). unfold daemon_up in E.
  destruct (begin_run doubling daemon false embryo sample_disk eq_refl eq_refl manager_heap_ok) as (a & res & r1 & Hrun & Hn & _ & Hres).
  rewrite Hrun in E. cbn [mbind option_bind] in E. destruct res as [e|cfg]; [discriminate E|].
  destruct Hres as (_ & _ & flows & routes & _ & Hl & Ew & Ep & _).
  destruct (bring_up sample_platform cfg r1) as [[[[err i] argv] r2]|] eqn:Hup; [|discriminate E].
  injection E as ->. exists a, cfg, r1, i, argv, r2, flows, routes. split; [exact Hrun|]. split; [exact Hl|]. split; [exact Ep|].
  split; [exact Ew|]. split; [rewrite Hn; reflexivity|exact Hup].
Qed.

(** A way to serve for it: a SIGTERM arrives when both workers have been launched. *)
Lemma daemon_serves : exists serve, serving sample_platform doubling meta_zero (-1) daemon serve false embryo sample_disk.
Proof.
  destruct daemon_comes_up as (a & cfg & r1 & i & argv & r2 & flows & routes & Hrun & Hl & Hp & Hw & Eh & Hup).
  destruct (up_on_duty sample_platform sample_platform_ok cfg flows routes r1 r2 i argv Hl Hp Hup) as (_ & Hcr & Hok).
  rewrite Hw in Hcr, Hok. change (Z.to_nat 2) with 2%nat in Hcr, Hok.
  destruct (command_directed my_calloc my_allocate my_calloc_ok my_allocate_ok meta_zero (-1) burst_array ready_burst
    _ _ _ _ _ r2 Hcr Hok) as (sc & y & Hd & _ & Hno).
  set (z := closing (SX := my_command_scene) (flagging (SX := my_command_scene) 1 false (flagging (SX := my_command_scene) 0 false y))).
  destruct (schedule_serves sample_platform sample_platform_ok doubling meta_zero (-1) "rules.json" cfg flows routes r1 r2 i argv Hl Hp Hup
    sample_disk None [] (starting r2) (-1) sc (rt (site z)) (run_nil _ _ _ _ _ _ _)) as (rc & Hserves).
  { eapply directed_mono; [|exact Hd]. intros x ->. exists [], z. split; [apply run_nil|]. split; [exact Hno|done]. }
  exists (fun _ => Some (rc, rt (site z))). intros a' cfg' r1' i' argv' r2' Hrun' _ Hup'.
  rewrite Hrun in Hrun'. injection Hrun' as _ <- <-. rewrite Hup in Hup'. injection Hup' as _ _ <-. exists rc, (rt (site z)). split; [reflexivity|exact Hserves].
Qed.

Lemma run_ends_witness : exists serve a result out r', daemon_up = Some [] /\
  run sample_platform doubling daemon serve false (embryo, sample_disk) = Some ((a, result, out), (r', sample_disk)) /\
  rules_heap (native r').1 = ∅ /\ initialized (dp (native r').1) = false.
Proof.
  destruct daemon_serves as (serve & Hserve). exists serve.
  destruct (run_ends sample_platform sample_platform_ok doubling meta_zero (-1) daemon serve false embryo sample_disk eq_refl eq_refl
    manager_heap_ok (cooperative_closing _ sample_cooperative) Hserve) as (a & result & out & r' & Hrun & Hh & _ & _ & Hi & _).
  exists a, result, out, r'. split; [vm_compute; reflexivity|]. split; [exact Hrun|]. split; [exact Hh|exact (Hi sample_cooperative)].
Defined.
